(* ===== verification/_CoqProject ===== *)
-Q . S2P
Prelude.v
Packet.v
Auth.v
Replay.v
Net.v
PeerState.v
Noise.v
Sessions.v
SessionInv.v
Std.v
Config.v
Router.v
Engine.v
Scheduler.v
Transport.v
TcpTransport.v
Ffi.v
Os.v
Routing.v
Iptables.v
RefHost.v
Firewall.v
Gateway.v
GatewayProofs.v
GatewayContract.v
TransportLaws.v
Tunnel.v
TunnelProofs.v
TunnelStats.v
Lifecycle.v
Doctor.v
Main.v
EndToEnd.v
Channel.v
Rekey.v
Upkeep.v
Conformance.v
ConformanceConfig.v
ConformanceEngine.v
ConformanceHost.v
