(* ===== verification/Prelude.v ===== *)
(** * HushWire: a verification library for the tunnel

    HushWire is a layer-3 tunnel: IPv4 packets of a local interface are
    routed to a peer, encrypted in a Noise session and sent over UDP or TCP;
    what arrives is authenticated, checked for replay and written back.
    Around this core stand the command-line tunnel, which installs host
    routes and, as a forwarding gateway, packet-filter rules, and the C
    library the mobile clients embed.  This library models the Rust sources
    under [src/src/] and proves what makes them correct.  The reader needs
    only the repository.

    ** The parts, from the bottom up

    - [Prelude] (this file): outcomes ([Ok], [Err], [Panic]), the state and
      error monad [M], machine integers and clocks, byte strings and
      big-endian integers with their lemmas, tactics and hint databases.
    - [Net]: socket addresses; the interface to [ipnet] ([IpNet], laws
      [IpNetLaws]) and to base64 ([Base64]).  [Std]: the string functions of
      the Rust standard library the source calls (trim, split, integer and
      socket-address parsing and printing).
    - [Packet] (packet.rs): the IPv4 header check and its accessors.
    - [Auth] (auth.rs): the wire format of handshake and transport packets
      and of the transport plaintext.
    - [Replay] (replay.rs): the 4096-counter anti-replay window, bit for bit.
    - [PeerState] (state.rs): counters and learned endpoints per peer.
    - [Noise] (noise.rs): sessions around the Noise library.  The library is
      the class [Snow] with the documented laws [SnowLaws]; [ref_snow] is a
      concrete instance, which the witnesses run.
    - [Sessions], [SessionInv] (engine.rs, the session manager): the four
      session slots per peer (active, previous, responder candidate, pending
      initiation), every operation, and the invariant [sm_wf] over all
      reachable states ([sm_step], [reachable]).
    - [Config] (config.rs): endpoints, the configuration, [validate].
    - [Router] (router.rs): route table, lookup, endpoint exceptions.
    - [Engine] (engine.rs, [Engine]): the packet engine that joins the parts:
      outbound packets, inbound frames, handshakes, keepalives, endpoint
      updates.  [EngineState] holds what the source keeps behind locks.
    - [Scheduler] (scheduler.rs): one maintenance tick: handshake retries, at
      most one recovery, keepalives.
    - [Transport] (transport.rs): the trait [PacketTransport] as a class and
      the UDP transport with its rebind; [TcpTransport] (tcp_transport.rs):
      framing over byte streams, pending writes, the connection table.
      [TransportLaws]: what the tunnel relies on of a transport, proved of
      both.
    - [Ffi] (ffi.rs): the C boundary: every exported function with its
      pointers, status codes, error slot, callbacks and lifecycle.
    - [Os]: the interface to the host: running a command, reading and writing
      a file, environment and file locks, and the errors built on them.
    - [Routing] (routing.rs): the host routes of a tunnel on Linux and macOS,
      installed with an undo list; the guard that takes them out again.
    - [Iptables]: the commands iptables is given, as lines; [RefHost]: a host
      that executes route, sysctl and iptables commands, for the witnesses.
    - [Firewall] (firewall.rs): the rules of the exit node.
    - [Gateway] (gateway.rs): the policy of a forwarding gateway, the plan,
      status, apply and remove; [GatewayProofs]: the simulation of every
      iptables command on an abstract rule table; [GatewayContract]: what
      apply and remove promise.
    - [Tunnel] (tunnel.rs): the shared state of the forwarding threads and
      one turn of each; [TunnelProofs]: their interleavings;
      [TunnelStats]: the counters, against a transport that records what it
      accepts ([recording]).  [Lifecycle] (tunnel.rs, [run]): start, order of
      the set-up, and the cleanup after a stop or a failed start.
    - [Doctor] (doctor.rs): the diagnosis and the lines it prints; [Main]
      (main.rs, process.rs): every command from its parsed arguments on, and
      the detached session.
    - [EndToEnd]: two engines configured for each other and the network
      between them, composed from [Router], [Engine], [Sessions] and [Noise],
      when the network carries every frame; [Channel]: the same two engines
      on a network that does what it likes with the frames, as a refinement
      of a pair of datagram channels ([channel_step]); [Rekey]: the two
      engines across the rekeys of a long run; [Upkeep]: the same with the
      schedulers of the two sites.
    - [Conformance], [ConformanceConfig], [ConformanceEngine],
      [ConformanceHost]: the repository's own unit and integration tests as
      computations on the definitions, one module per source file, and a
      lemma per module that evaluates them.

    A Rust method is the definition of the same name (a type or a file prefix
    is added where two would clash); a method on a locked structure is a
    function [state -> state * outcome].  An error keeps the state reached,
    as [?] does; [Panic] stands for a failed [expect], index or slice.

    ** What the theorems show

    - Wire and data: framing and endpoint texts round trip; the replay window
      refines the set of counters it has seen and accepts a counter at most
      once; TCP framing delivers whole frames in order under any partial
      reads and writes; endpoints cross the C boundary unchanged.
    - Sessions: nonces are never reused, a packet that does not authenticate
      changes nothing, a pair of session and counter is delivered at most
      once across rekeys, a session becomes active only by proof of its key,
      packets in flight survive a rekey, simultaneous initiations converge,
      retransmissions are paced, sessions are renewed before they expire.
    - Configuration and routing: [validate] accepts exactly the configurations
      of [config_ok]; lookups are longest-prefix matches that respect
      exclusions; endpoint exceptions are exactly the peers whose endpoint the
      tunnel would capture.
    - Engine and scheduler: no sequence of frames and calls panics or breaks
      the session invariant; only authenticated IPv4 data reaches the packet
      interface; endpoints are learned only from authenticated packets; a
      handshake initiation alone changes no traffic state; recoveries are rate
      limited; keepalives are attempted for the due peers only, each sent to
      its own peer, and restart its interval if it had a session.
    - End to end: between two sites that name each other in valid
      configurations the first packet makes the session and every later one,
      in any order of the two sites, is written at the other site, unchanged
      and once.  On a network that loses, repeats, delays, reorders, moves and
      forges frames the sites are a pair of datagram channels: only submitted
      packets are written, each at most once, and every one that arrives
      within the replay window.  These two follow one session, for the 120
      seconds and 2^32 messages before it asks for its rekey.  A maintained
      tunnel stays up: with keepalives configured at one site and its
      maintenance run regularly, every packet arrives across any number of
      rekeys, the ones that start a rekey included, no recovery is due and no
      session expires.  The timing is a bound on the clock readings of each
      entry of the schedule ([on_time], [scheduled], [maintained]); that the
      generators give fresh identifiers is a computation along the run
      ([unrepeated]).  Without schedulers the same holds of traffic that uses
      every session in time ([Rekey.sustained]).
    - Adapters: a UDP rebind is all or nothing, receives never mix
      connections and drop one only after a fatal answer of its kernel, the C
      functions, creation of a runtime included, report errors and never
      panic, and the engine is erased only when no call is in flight.
    - Host routes: an installation is complete or leaves the route table as
      it was, the endpoints are pinned before traffic is diverted, removal
      restores the table.
    - Packet filter: the exit node's rules are set up and taken out again
      with nothing left; the gateway's apply ends healthy, never touches a
      foreign rule, is undone by remove, is rolled back when it fails and
      ends within its fuel.
    - Tunnel: under every interleaving of the threads only authenticated data
      reaches the device and only traffic for a configured peer leaves it;
      the transmit counters are the sums of the frames that the transport
      accepted, as a record kept by the transport itself tells; a start
      followed by a stop restores the host.
    - Commands: a command works on a valid configuration only, the ones that
      only answer change nothing, and a diagnosis moves the host no further
      than its questions do.
    - Tests: every test in the Conformance files passes on the model.  They
      are checks of the definitions, not claims about all inputs.

    ** Parameters of the model

    - Clocks: [Instant::now()] is an argument; a method that reads it several
      times takes a function [clock], its [i]-th value.  No monotonicity is
      assumed; differences saturate as in Rust.
    - Entropy: [OsRng] is the type [Rng] of [Snow] with the state threaded.
    - Kernel and network: name resolution ([Resolver]), the TOML decoder and
      the file system ([ConfigSource]), UDP sockets ([UdpOs]), TCP connections
      ([TcpOs]) and streams as lists of answers, the host's callbacks as
      functions of the calls so far, the TUN device and its crate
      ([TunDevice], [TunCrate]), signals as an event.
    - Programs: a command of the host is a step of the class [Os] on its
      state [World]; what the code relies on of [ip], [route], [sysctl] and
      [iptables] are named laws of the sections that use them, and [RefHost]
      is a concrete host that has them.  Between two commands of an operation
      no other process changes the routes and rules it works on.
    - Locks: a method runs as the sequence of its critical sections; [Ffi]
      interleaves the lifecycle's critical sections, [Transport] lets the
      shared socket change between two rounds of a receive.  Callbacks do not
      re-enter the runtime.  In [Tunnel] a call of an engine method is one
      step, between two steps any thread may run.  The rebind a maintenance
      tick may do is an argument of its step, which [tick_rebind] justifies;
      the trace of [TunnelProofs] is ghost state.
    - Keys: the command [genkey] takes the library's functions as [KeyTools].
    - Handshake: [EndToEnd] assumes of the Noise library, beyond [SnowLaws],
      that the pattern IKpsk2 completes between parties that know each other
      ([NoiseIK]); [ref_snow] does.
    - Tests: keys drawn at random come from the counting generator of
      [ref_snow], the loopback interface and the decoder of the test's texts
      are concrete functions of the test file.

    ** Bounds and fuel

    Recursion is structural (over routes, peers, scripts of kernel answers)
    except in these places.  Decimal printing uses fuel 64, enough for every
    integer below 2^64 (the round trips are proved under that bound).  The
    two receive loops and the wait for the gateway's lock block in the
    source, so they take a number of rounds and return [None] when it is used
    up, still waiting; their theorems hold for every number.  The loop that
    deletes a rule until it is gone runs at most [DELETE_FUEL] times, more
    than the source's own limit, so the fuel is never what ends it.
    Counters are [Z] with their wrap-around or saturation written out;
    [usize] is 64 bits wide.

    ** Not modelled

    Argument parsing and logging, which are their libraries' work; the loop
    that prints statistics (the figures it prints are those of [TunnelStats]);
    the Swift clients, service files and scripts, which are outside the Rust
    sources.  Of the integration tests two are left out: one greps the log of
    a detached process, one looks for plaintext in a ciphertext, which is the
    cipher's property and not of the code around it. *)

From Stdlib Require Export ZArith Lia.
From stdpp Require Export base gmap strings option.
From stdpp Require Export list.
Export list.

Open Scope Z_scope.

(** ** Outcomes

    A Rust call returns a value, returns an error, or panics
    (an index out of range, an [expect] that fails, an arithmetic
    overflow in a checked build).  The three are kept apart. *)

Inductive outcome (E A : Type) : Type :=
| Ok (a : A)
| Err (e : E)
| Panic.
Arguments Ok {E A} a.
Arguments Err {E A} e.
Arguments Panic {E A}.

#[export] Instance outcome_ret {E} : MRet (outcome E) := fun A a => Ok a.
#[export] Instance outcome_bind {E} : MBind (outcome E) := fun A B f m =>
  match m with Ok a => f a | Err e => Err e | Panic => Panic end.
#[export] Instance outcome_fmap {E} : FMap (outcome E) := fun A B f m =>
  match m with Ok a => Ok (f a) | Err e => Err e | Panic => Panic end.

Definition map_err {E F A} (f : E -> F) (m : outcome E A) : outcome F A :=
  match m with Ok a => Ok a | Err e => Err (f e) | Panic => Panic end.

(** [Option::ok_or] and [Option::expect]. *)
Definition ok_or {E A} (e : E) (o : option A) : outcome E A :=
  match o with Some a => Ok a | None => Err e end.
Definition expect {E A} (o : option A) : outcome E A :=
  match o with Some a => Ok a | None => Panic end.

Definition is_ok {E A} (m : outcome E A) : bool :=
  match m with Ok _ => true | _ => false end.
(** [Result::ok]. *)
Definition to_option {E A} (m : outcome E A) : option A :=
  match m with Ok a => Some a | _ => None end.
Definition no_panic {E A} (m : outcome E A) : Prop := m <> Panic.

Lemma is_ok_default {S E A} (x : S * outcome E A) (d : A) :
  is_ok x.2 = true -> x = (x.1, Ok (match x.2 with Ok a => a | _ => d end)).
Proof. by destruct x as [s []]. Qed.

(** ** State and error

    [M S E A] threads a state through a computation that may fail; a
    failure keeps the state reached so far, as a [?] in Rust does. *)

Definition M (S E A : Type) : Type := S -> S * outcome E A.

#[export] Instance M_ret {S E} : MRet (M S E) := fun A a s => (s, Ok a).
#[export] Instance M_bind {S E} : MBind (M S E) := fun A B f m s =>
  match m s with
  | (s', Ok a) => f a s'
  | (s', Err e) => (s', Err e)
  | (s', Panic) => (s', Panic)
  end.

Definition mget {S E} : M S E S := fun s => (s, Ok s).
Definition mput {S E} (s : S) : M S E unit := fun _ => (s, Ok tt).
Definition mmodify {S E} (f : S -> S) : M S E unit := fun s => (f s, Ok tt).
Definition mlift {S E A} (o : outcome E A) : M S E A := fun s => (s, o).
Definition mfail {S E A} (e : E) : M S E A := fun s => (s, Err e).
Definition mgets {S E A} (f : S -> A) : M S E A := fun s => (s, Ok (f s)).

(** ** Machine integers and time

    A w-bit unsigned integer is a [Z] in [0, 2^w); the code that wraps or
    saturates is written with [wrap] or a [min]/[max].  An [Instant] and a
    [Duration] are nanosecond counts. *)

Abbreviation u8 := Z (only parsing).
Abbreviation u16 := Z (only parsing).
Abbreviation u32 := Z (only parsing).
Abbreviation u64 := Z (only parsing).
Abbreviation usize := Z (only parsing).
Abbreviation bytes := (list Z) (only parsing).
Abbreviation Instant := Z (only parsing).
Abbreviation Duration := Z (only parsing).

Definition U16_MAX : Z := 65535.
Definition U32_MAX : Z := 4294967295.
Definition U64_MAX : Z := 18446744073709551615.

Definition wrap (w x : Z) : Z := x mod 2 ^ w.

Definition from_secs (n : Z) : Duration := n * 1000000000.
Definition saturating_duration_since (now earlier : Instant) : Duration :=
  Z.max 0 (now - earlier).

(** [len] is [slice::len] as an integer. *)
Definition len {A} (l : list A) : Z := Z.of_nat (length l).

(** ** Bytes and big-endian integers *)

Definition is_byte (b : Z) : Prop := 0 <= b < 256.
Abbreviation bytes_ok l := (Forall is_byte l) (only parsing).

Fixpoint to_be_bytes (n : nat) (z : Z) : list Z :=
  match n with
  | O => []
  | S k => Z.land (Z.shiftr z (8 * Z.of_nat k)) 255 :: to_be_bytes k z
  end.

Definition from_be_bytes (l : list Z) : Z :=
  fold_left (fun acc b => acc * 256 + b) l 0.

(** ** Tactics *)

(** Split the first [match] met in the goal or in a hypothesis. *)
Ltac case_hyp H :=
  match type of H with
  | context [match ?x with _ => _ end] =>
      first [ is_var x; destruct x | destruct x eqn:? ]
  end.

(** Split every [match] of a hypothesis, closing the impossible cases. *)
Ltac cases_in H := repeat (case_hyp H; simplify_eq/=; try done).

Ltac zbool :=
  repeat match goal with
  | H : (_ && _)%bool = true |- _ => apply andb_prop in H as [? ?]
  | H : (_ <? _) = true |- _ => apply Z.ltb_lt in H
  | H : (_ <? _) = false |- _ => apply Z.ltb_ge in H
  | H : (_ <=? _) = true |- _ => apply Z.leb_le in H
  | H : (_ <=? _) = false |- _ => apply Z.leb_gt in H
  | H : (_ =? _) = true |- _ => apply Z.eqb_eq in H
  | H : (_ =? _) = false |- _ => apply Z.eqb_neq in H
  | H : (_ >? _) = _ |- _ => rewrite Z.gtb_ltb in H
  | H : (_ >=? _) = _ |- _ => rewrite Z.geb_leb in H
  end.

(** ** Lemmas on bytes *)

Create HintDb hushwire.
Create Rewrite HintDb hushwire.

Lemma len_nonneg {A} (l : list A) : 0 <= len l.
Proof. unfold len; lia. Qed.

Lemma len_app {A} (l k : list A) : len (l ++ k) = len l + len k.
Proof. unfold len; rewrite length_app; lia. Qed.

Lemma len_cons {A} (x : A) l : len (x :: l) = 1 + len l.
Proof. unfold len; cbn [length]; lia. Qed.

Lemma len_nil {A} : len (@nil A) = 0.
Proof. done. Qed.

#[export] Hint Rewrite @len_app @len_cons @len_nil @length_app : hushwire.
#[export] Hint Resolve len_nonneg : hushwire.

Lemma length_to_be_bytes n z : length (to_be_bytes n z) = n.
Proof. induction n; simpl; congruence. Qed.
#[export] Hint Rewrite length_to_be_bytes : hushwire.

Lemma land_255_byte z : is_byte (Z.land z 255).
Proof.
  unfold is_byte. change 255 with (Z.ones 8). rewrite Z.land_ones by lia.
  apply Z.mod_pos_bound; lia.
Qed.

Lemma to_be_bytes_ok n z : bytes_ok (to_be_bytes n z).
Proof. induction n; simpl; constructor; auto using land_255_byte. Qed.
#[export] Hint Resolve to_be_bytes_ok land_255_byte : hushwire.

Lemma from_be_acc l a :
  fold_left (fun acc b => acc * 256 + b) l a
  = a * 256 ^ len l + from_be_bytes l.
Proof.
  unfold from_be_bytes. revert a.
  induction l as [|b l IH]; intros a; cbn [fold_left].
  - rewrite len_nil. lia.
  - rewrite (IH (a * 256 + b)), (IH (0 * 256 + b)), len_cons.
    rewrite Z.pow_add_r by (pose proof (len_nonneg l); lia). lia.
Qed.

Lemma from_be_bytes_cons b l :
  from_be_bytes (b :: l) = b * 256 ^ len l + from_be_bytes l.
Proof. unfold from_be_bytes at 1; cbn [fold_left]. rewrite from_be_acc. lia. Qed.

Lemma from_be_bytes_bound l : bytes_ok l -> 0 <= from_be_bytes l < 256 ^ len l.
Proof.
  induction 1 as [|b l Hb _ IH].
  - done.
  - rewrite from_be_bytes_cons, len_cons, Z.pow_add_r
      by (pose proof (len_nonneg l); lia).
    unfold is_byte in Hb. nia.
Qed.

Lemma from_to_be_mod n z :
  from_be_bytes (to_be_bytes n z) = z mod 256 ^ Z.of_nat n.
Proof.
  induction n as [|n IH]; [by rewrite Z.mod_1_r|].
  cbn [to_be_bytes]. rewrite from_be_bytes_cons, IH.
  unfold len; rewrite length_to_be_bytes.
  rewrite Nat2Z.inj_succ, Z.pow_succ_r by lia.
  change 255 with (Z.ones 8). rewrite Z.land_ones, Z.shiftr_div_pow2 by lia.
  rewrite (Z.mul_comm 8), Z.pow_mul_r by lia.
  change (2 ^ 8) with 256. rewrite <- (Z.pow_mul_r 2), (Z.mul_comm _ 8), Z.pow_mul_r by lia.
  change (2 ^ 8) with 256.
  rewrite (Z.mul_comm 256), Z.rem_mul_r by lia. lia.
Qed.

Lemma from_to_be n z :
  0 <= z < 256 ^ Z.of_nat n -> from_be_bytes (to_be_bytes n z) = z.
Proof. intros. rewrite from_to_be_mod. by apply Z.mod_small. Qed.

Lemma from_be_bytes_inj l k :
  length l = length k -> bytes_ok l -> bytes_ok k ->
  from_be_bytes l = from_be_bytes k -> l = k.
Proof.
  intros Hlen Hl; revert k Hlen.
  induction Hl as [|b l Hb Hl IH]; intros [|c k] Hlen Hk E; try done.
  inversion Hk as [|?? Hc Hk']; subst. injection Hlen as Hlen.
  rewrite !from_be_bytes_cons in E.
  assert (len k = len l) as Hll by (unfold len; congruence).
  pose proof (from_be_bytes_bound l Hl). pose proof (from_be_bytes_bound k Hk').
  rewrite Hll in *. unfold is_byte in *.
  assert (b = c) as -> by nia. f_equal. apply IH; auto; lia.
Qed.

Lemma to_from_be l : bytes_ok l -> to_be_bytes (length l) (from_be_bytes l) = l.
Proof.
  intros Hl. apply from_be_bytes_inj; auto with hushwire.
  - apply length_to_be_bytes.
  - apply from_to_be. apply from_be_bytes_bound in Hl. exact Hl.
Qed.
