(* ===== verification/Packet.v ===== *)
(** * IPv4 packet view ([src/src/packet.rs])

    The header checks of [Ipv4Packet::parse] and the field accessors.  An
    accessor indexes the byte slice, so it is an [outcome] that panics out
    of range; [parse_accessors_safe] shows a parsed packet never does. *)

From S2P Require Import Prelude.

Record Ipv4Packet := { pkt_bytes : bytes }.

Inductive PacketError :=
| TooShort (n : usize)
| NotIpv4 (version : u8)
| HeaderTooLong (header_len packet_len : usize).

Definition byte_at (l : bytes) (i : nat) : outcome PacketError u8 := expect (l !! i).

Definition parse (b : bytes) : outcome PacketError Ipv4Packet :=
  if len b <? 20 then Err (TooShort (len b)) else
  b0 ← byte_at b 0;
  let version := Z.shiftr b0 4 in
  if negb (version =? 4) then Err (NotIpv4 version) else
  b0 ← byte_at b 0;
  let header_len := Z.land b0 15 * 4 in
  if header_len >? len b then Err (HeaderTooLong header_len (len b)) else
  Ok {| pkt_bytes := b |}.

(** An IPv4 address is its 32-bit value, most significant octet first. *)
Definition Ipv4Addr_new (a b c d : u8) : u32 := from_be_bytes [a; b; c; d].

Definition addr_at (b : bytes) (i : nat) : outcome PacketError u32 :=
  x0 ← byte_at b i; x1 ← byte_at b (i + 1);
  x2 ← byte_at b (i + 2); x3 ← byte_at b (i + 3);
  Ok (Ipv4Addr_new x0 x1 x2 x3).

Definition source (p : Ipv4Packet) : outcome PacketError u32 := addr_at (pkt_bytes p) 12.
Definition destination (p : Ipv4Packet) : outcome PacketError u32 := addr_at (pkt_bytes p) 16.
Definition protocol (p : Ipv4Packet) : outcome PacketError u8 := byte_at (pkt_bytes p) 9.

#[export] Instance PacketError_eq_dec : EqDecision PacketError.
Proof. solve_decision. Defined.

(** ** Lemmas *)

Lemma byte_at_ok b (i : nat) :
  Z.of_nat i < len b -> exists x, byte_at b i = Ok x /\ b !! i = Some x.
Proof.
  unfold len, byte_at. intros H.
  destruct (lookup_lt_is_Some_2 b i) as [x Hx]; [lia|].
  rewrite Hx. eauto.
Qed.

Lemma parse_bytes b p : parse b = Ok p -> pkt_bytes p = b.
Proof. unfold parse. intros H. cases_in H. unfold mbind, outcome_bind in H. cases_in H. Qed.

Lemma parse_no_panic b : no_panic (parse b).
Proof.
  unfold no_panic, parse. destruct (len b <? 20) eqn:E; [done|]. zbool.
  destruct (byte_at_ok b 0) as (x & Hx & _); [lia|].
  rewrite Hx; cbn. repeat case_match; done.
Qed.

Lemma addr_at_ok b i :
  bytes_ok b -> Z.of_nat i + 3 < len b ->
  exists a, addr_at b i = Ok a /\ 0 <= a < 2 ^ 32.
Proof.
  intros Hb Hi. unfold addr_at.
  destruct (byte_at_ok b i) as (x0 & E0 & L0); [lia|].
  destruct (byte_at_ok b (i + 1)) as (x1 & E1 & L1); [lia|].
  destruct (byte_at_ok b (i + 2)) as (x2 & E2 & L2); [lia|].
  destruct (byte_at_ok b (i + 3)) as (x3 & E3 & L3); [lia|].
  rewrite E0, E1, E2, E3. eexists; split; [reflexivity|].
  apply (from_be_bytes_bound [x0; x1; x2; x3]).
  repeat (apply Forall_cons_2; [by eapply Forall_lookup_1|]). apply Forall_nil_2.
Qed.

Lemma parse_ok_length b p : parse b = Ok p -> 20 <= len b.
Proof.
  unfold parse. destruct (len b <? 20) eqn:E; [done|]. zbool. lia.
Qed.

Lemma destination_ok b p :
  bytes_ok b -> parse b = Ok p -> exists d, destination p = Ok d /\ 0 <= d < 2 ^ 32.
Proof.
  intros Hb Hp. unfold destination. rewrite (parse_bytes _ _ Hp).
  apply addr_at_ok; [done|]. pose proof (parse_ok_length _ _ Hp). lia.
Qed.

(** [Ipv4Packet::parse] accepts exactly the byte strings of at least 20
    bytes with version nibble 4 whose header length fits. *)
Lemma parse_spec b :
  bytes_ok b ->
  parse b =
    if len b <? 20 then Err (TooShort (len b))
    else let b0 := default 0 (b !! 0%nat) in
    if negb (b0 / 16 =? 4) then Err (NotIpv4 (b0 / 16))
    else if len b <? (b0 mod 16) * 4 then Err (HeaderTooLong ((b0 mod 16) * 4) (len b))
    else Ok {| pkt_bytes := b |}.
Proof.
  intros Hb. unfold parse. destruct (len b <? 20) eqn:E; [done|]. zbool.
  destruct (byte_at_ok b 0) as (x & Hx & L); [lia|]. rewrite Hx, L; cbn -[Z.mul].
  rewrite Z.shiftr_div_pow2 by lia. change 15 with (Z.ones 4).
  rewrite Z.land_ones by lia. change (2 ^ 4) with 16. by rewrite Z.gtb_ltb.
Qed.

(** ** Properties *)

(** parsing never panics, and once it succeeds every accessor reads in
    range: source and destination are 32-bit addresses and the bytes are the
    input unchanged. *)
Theorem parse_accessors_safe b :
  bytes_ok b ->
  no_panic (parse b) /\
  forall p, parse b = Ok p ->
    pkt_bytes p = b /\
    (exists s, source p = Ok s /\ 0 <= s < 2 ^ 32) /\
    (exists d, destination p = Ok d /\ 0 <= d < 2 ^ 32) /\
    (exists c, protocol p = Ok c /\ b !! 9%nat = Some c).
Proof.
  intros Hb. split; [apply parse_no_panic|]. intros p Hp.
  pose proof (parse_ok_length _ _ Hp). pose proof (parse_bytes _ _ Hp) as E.
  unfold source, destination, protocol. rewrite E.
  repeat split; try (apply addr_at_ok; [done|lia]).
  apply byte_at_ok; lia.
Qed.
