(* ===== verification/Auth.v ===== *)
(** * Wire v3 framing ([src/src/auth.rs])

    The public packet header, the encrypted one-byte message type and the
    handshake prologue, with their round trips. *)

From S2P Require Import Prelude.

Definition WIRE_VERSION : u8 := 3.
Definition SESSION_ID_SIZE : nat := 8.
Definition COUNTER_SIZE : nat := 8.
Definition HANDSHAKE_HEADER_SIZE : nat := 1 + 1 + SESSION_ID_SIZE.
Definition TRANSPORT_HEADER_SIZE : nat := HANDSHAKE_HEADER_SIZE + COUNTER_SIZE.
Definition MIN_TRANSPORT_PACKET_SIZE : nat := TRANSPORT_HEADER_SIZE + 1 + 16.

Definition KEEPALIVE_PROBE_PAYLOAD : bytes := [1].
Definition KEEPALIVE_ACK_PAYLOAD : bytes := [2].

(** The ASCII bytes of [HushWire-v3-handshake]. *)
Definition HANDSHAKE_PROLOGUE_PREFIX : bytes :=
  [72; 117; 115; 104; 87; 105; 114; 101; 45; 118; 51; 45;
   104; 97; 110; 100; 115; 104; 97; 107; 101].

Module PacketKind.
Inductive t := Transport | HandshakeInit | HandshakeResponse.
#[global] Instance eq_dec : EqDecision t.
Proof. solve_decision. Defined.

Definition to_u8 (k : t) : u8 :=
  match k with Transport => 0 | HandshakeInit => 1 | HandshakeResponse => 2 end.
Definition from_u8 (v : u8) : option t :=
  if v =? 0 then Some Transport
  else if v =? 1 then Some HandshakeInit
  else if v =? 2 then Some HandshakeResponse
  else None.
Definition is_handshake (k : t) : bool :=
  match k with HandshakeInit | HandshakeResponse => true | Transport => false end.
End PacketKind.

Module MsgType.
Inductive t := Data | Keepalive.
#[global] Instance eq_dec : EqDecision t.
Proof. solve_decision. Defined.

Definition to_u8 (m : t) : u8 := match m with Data => 0 | Keepalive => 1 end.
Definition from_u8 (v : u8) : option t :=
  if v =? 0 then Some Data else if v =? 1 then Some Keepalive else None.
End MsgType.

Inductive ParsedPacket :=
| Handshake (kind : PacketKind.t) (handshake_id message : bytes)
| Transport (session_id : bytes) (counter : u64) (ciphertext : bytes).

#[export] Instance ParsedPacket_eq_dec : EqDecision ParsedPacket.
Proof. solve_decision. Defined.

(** [debug_assert!(kind.is_handshake())] is a check of debug builds only; the
    release behaviour is modelled. *)
Definition encode_handshake (kind : PacketKind.t) (handshake_id message : bytes) : bytes :=
  [WIRE_VERSION] ++ [PacketKind.to_u8 kind] ++ handshake_id ++ message.

Definition encode_transport (session_id : bytes) (counter : u64) (ciphertext : bytes) : bytes :=
  [WIRE_VERSION] ++ [PacketKind.to_u8 PacketKind.Transport] ++ session_id
    ++ to_be_bytes 8 counter ++ ciphertext.

(** [&packet[a..b]], used where the length was checked before. *)
Definition slice (l : bytes) (a b : nat) : bytes := take (b - a) (drop a l).

Definition decode_packet (packet : bytes) : option ParsedPacket :=
  if (length packet <? HANDSHAKE_HEADER_SIZE)%nat then None else
  match packet with
  | v :: k :: _ =>
      if negb (v =? WIRE_VERSION) then None else
      kind ← PacketKind.from_u8 k;
      let id := slice packet 2 HANDSHAKE_HEADER_SIZE in
      if PacketKind.is_handshake kind then
        let message := drop HANDSHAKE_HEADER_SIZE packet in
        if decide (message = []) then None else Some (Handshake kind id message)
      else if (length packet <? MIN_TRANSPORT_PACKET_SIZE)%nat then None else
      let counter :=
        from_be_bytes (slice packet HANDSHAKE_HEADER_SIZE TRANSPORT_HEADER_SIZE) in
      Some (Transport id counter (drop TRANSPORT_HEADER_SIZE packet))
  | _ => None
  end.

Definition encode_transport_plaintext (m : MsgType.t) (payload : bytes) : bytes :=
  MsgType.to_u8 m :: payload.

Definition decode_transport_plaintext (plaintext : bytes) : option (MsgType.t * bytes) :=
  match plaintext with
  | [] => None
  | first :: payload => m ← MsgType.from_u8 first; Some (m, payload)
  end.

Definition handshake_prologue (handshake_id : bytes) : bytes :=
  HANDSHAKE_PROLOGUE_PREFIX ++ [WIRE_VERSION] ++ handshake_id.

(** The packets an encoder can have produced. *)
Definition packet_wf (p : ParsedPacket) : Prop :=
  match p with
  | Handshake k id m =>
      PacketKind.is_handshake k = true /\ length id = SESSION_ID_SIZE /\ m <> []
  | Transport id c ct =>
      length id = SESSION_ID_SIZE /\ 0 <= c <= U64_MAX /\ (17 <= length ct)%nat
  end.

Definition encode (p : ParsedPacket) : bytes :=
  match p with
  | Handshake k id m => encode_handshake k id m
  | Transport id c ct => encode_transport id c ct
  end.

(** ** Lemmas *)

(** Length goals of the framing: normalise lengths and header sizes. *)
Ltac size_tac :=
  autorewrite with hushwire in *; cbn [length] in *;
  unfold MIN_TRANSPORT_PACKET_SIZE, TRANSPORT_HEADER_SIZE, HANDSHAKE_HEADER_SIZE,
    COUNTER_SIZE, SESSION_ID_SIZE in *; cbn in *; lia.

Lemma kind_round_trip k : PacketKind.from_u8 (PacketKind.to_u8 k) = Some k.
Proof. by destruct k. Qed.

Lemma kind_from_u8_inv v k : PacketKind.from_u8 v = Some k -> v = PacketKind.to_u8 k.
Proof. unfold PacketKind.from_u8. intros H. cases_in H; zbool; done. Qed.

Lemma msg_round_trip m : MsgType.from_u8 (MsgType.to_u8 m) = Some m.
Proof. by destruct m. Qed.

Lemma msg_from_u8_inv v m : MsgType.from_u8 v = Some m -> v = MsgType.to_u8 m.
Proof. unfold MsgType.from_u8. intros H. cases_in H; zbool; done. Qed.

Lemma plaintext_round_trip m payload :
  decode_transport_plaintext (encode_transport_plaintext m payload) = Some (m, payload).
Proof. by destruct m. Qed.

Lemma decode_plaintext_inv b m payload :
  decode_transport_plaintext b = Some (m, payload) ->
  b = encode_transport_plaintext m payload.
Proof.
  destruct b as [|x b]; [done|]. cbn.
  destruct (MsgType.from_u8 x) eqn:E; [|done].
  intros [= <- <-]. apply msg_from_u8_inv in E as ->. done.
Qed.

Lemma slice_app (p l s : bytes) (a b : nat) :
  length p = a -> length (p ++ l) = b -> slice (p ++ l ++ s) a b = l.
Proof.
  intros <- <-. unfold slice. rewrite drop_app_length, length_app.
  replace (length p + length l - length p)%nat with (length l) by lia.
  apply take_app_length.
Qed.

Lemma decode_encode_handshake k id m :
  packet_wf (Handshake k id m) -> decode_packet (encode_handshake k id m) = Some (Handshake k id m).
Proof.
  intros (Hk & Hid & Hm). unfold decode_packet, encode_handshake.
  cbn [app length]. rewrite length_app, Hid.
  rewrite (proj2 (Nat.ltb_ge _ _)) by size_tac.
  rewrite Z.eqb_refl, kind_round_trip. cbn [negb mbind option_bind]. rewrite Hk.
  change (WIRE_VERSION :: PacketKind.to_u8 k :: id ++ m)
    with ([WIRE_VERSION; PacketKind.to_u8 k] ++ id ++ m).
  rewrite slice_app by size_tac.
  rewrite app_assoc, drop_app_length' by size_tac.
  by rewrite decide_False.
Qed.

Lemma decode_encode_transport id c ct :
  packet_wf (Transport id c ct) -> decode_packet (encode_transport id c ct) = Some (Transport id c ct).
Proof.
  intros (Hid & Hc & Hct). unfold decode_packet, encode_transport.
  assert (Hlen : length ([WIRE_VERSION; 0] ++ id ++ to_be_bytes 8 c ++ ct)
                 = (18 + length ct)%nat).
  { autorewrite with hushwire. rewrite Hid. cbn. lia. }
  change ([WIRE_VERSION] ++ [PacketKind.to_u8 PacketKind.Transport] ++ id
            ++ to_be_bytes 8 c ++ ct)
    with ([WIRE_VERSION; 0] ++ id ++ to_be_bytes 8 c ++ ct).
  rewrite Hlen. rewrite (proj2 (Nat.ltb_ge _ _)) by size_tac.
  cbn [app]. rewrite Z.eqb_refl. cbn [negb mbind option_bind PacketKind.from_u8 Z.eqb].
  change (PacketKind.is_handshake _) with false. cbn match.
  rewrite (proj2 (Nat.ltb_ge _ MIN_TRANSPORT_PACKET_SIZE)) by size_tac.
  change (WIRE_VERSION :: 0 :: id ++ to_be_bytes 8 c ++ ct)
    with ([WIRE_VERSION; 0] ++ id ++ to_be_bytes 8 c ++ ct).
  rewrite slice_app by size_tac.
  rewrite app_assoc, slice_app
    by size_tac.
  rewrite app_assoc, drop_app_length'
    by size_tac.
  rewrite from_to_be by (change (256 ^ Z.of_nat 8) with (U64_MAX + 1); lia). done.
Qed.

Lemma take_drop_slice (l : bytes) (a b : nat) :
  (a <= b)%nat -> take a l ++ slice l a b ++ drop b l = l.
Proof.
  intros Hab. unfold slice.
  replace (drop b l) with (drop (b - a) (drop a l))
    by (rewrite drop_drop; f_equal; lia).
  rewrite take_drop. apply take_drop.
Qed.

Lemma length_slice (l : bytes) (a b : nat) :
  (b <= length l)%nat -> length (slice l a b) = (b - a)%nat.
Proof. intros. unfold slice. rewrite length_take, length_drop. lia. Qed.

Lemma decode_packet_inv b p :
  bytes_ok b -> decode_packet b = Some p -> packet_wf p /\ encode p = b.
Proof.
  intros Hb. unfold decode_packet.
  destruct (length b <? HANDSHAKE_HEADER_SIZE)%nat eqn:E; [done|].
  apply Nat.ltb_ge in E.
  destruct b as [|v [|k t]]; [done..|].
  destruct (v =? WIRE_VERSION) eqn:Ev; [|done]. cbn [negb]. zbool. subst v.
  destruct (PacketKind.from_u8 k) as [kind|] eqn:Ek; [|done]. cbn [mbind option_bind].
  apply kind_from_u8_inv in Ek. subst k.
  set (pk := _ :: _ :: t) in *.
  assert (Htake : take 2 pk = [WIRE_VERSION; PacketKind.to_u8 kind]) by done.
  clearbody pk.
  assert (Hid : length (slice pk 2 HANDSHAKE_HEADER_SIZE) = 8%nat)
    by (rewrite length_slice; [done|lia]).
  destruct (PacketKind.is_handshake kind) eqn:Hk.
  - case_decide as Hm; [done|]. intros [= <-]. cbn [packet_wf encode].
    repeat split; try done. unfold encode_handshake.
    transitivity (take 2 pk ++ slice pk 2 HANDSHAKE_HEADER_SIZE ++ drop HANDSHAKE_HEADER_SIZE pk);
      [by rewrite Htake|]. apply take_drop_slice. size_tac.
  - destruct (length pk <? MIN_TRANSPORT_PACKET_SIZE)%nat eqn:El; [done|].
    apply Nat.ltb_ge in El. intros [= <-]. cbn [packet_wf encode].
    set (cb := slice pk HANDSHAKE_HEADER_SIZE TRANSPORT_HEADER_SIZE).
    assert (Hcb : length cb = 8%nat).
    { unfold cb. rewrite length_slice; [done|].
      size_tac. }
    assert (Hok : bytes_ok cb) by (by apply Forall_take, Forall_drop).
    pose proof (from_be_bytes_bound cb Hok) as Hr.
    unfold len in Hr. rewrite Hcb in Hr.
    repeat split; try done; try lia.
    + change (256 ^ Z.of_nat 8) with (U64_MAX + 1) in Hr. lia.
    + rewrite length_drop. size_tac.
    + unfold encode_transport. rewrite <- Hcb at 1. rewrite to_from_be by done.
      destruct kind; try done.
      transitivity (take 2 pk ++ slice pk 2 HANDSHAKE_HEADER_SIZE ++ drop HANDSHAKE_HEADER_SIZE pk);
        [|apply take_drop_slice; size_tac].
      rewrite Htake. cbn [app]. do 2 f_equal. f_equal.
      unfold cb, slice at 1.
      rewrite <- (take_drop 8 (drop HANDSHAKE_HEADER_SIZE pk)) at 2.
      f_equal. by rewrite drop_drop.
Qed.

(** ** Properties *)

(** C25: the framing is a round trip in both directions: every well-formed
    packet decodes back to itself, and every accepted byte string is the
    encoding of the well-formed packet it decodes to. *)
Theorem framing_round_trip :
  (forall p, packet_wf p -> decode_packet (encode p) = Some p) /\
  (forall b p, bytes_ok b -> decode_packet b = Some p -> packet_wf p /\ encode p = b).
Proof.
  split; [|exact decode_packet_inv].
  intros [k id m|id c ct] Hp.
  - by apply decode_encode_handshake.
  - by apply decode_encode_transport.
Qed.

(** two different handshake identifiers or versions never share a Noise
    prologue. *)
Theorem handshake_prologue_binds_id id1 id2 :
  handshake_prologue id1 = handshake_prologue id2 <-> id1 = id2.
Proof.
  split; [|by intros ->]. unfold handshake_prologue. intros H. by simplify_list_eq.
Qed.
