(* ===== verification/Replay.v ===== *)
(** * Anti-replay window ([src/src/replay.rs])

    The 4096-counter sliding window as 64 words of 64 bits, the loop of
    [shift_older] included, and its refinement of the specification "a set of
    accepted counters".  Array accesses are [option]s: [None] is the
    out-of-range panic, which the refinement excludes. *)

From S2P Require Import Prelude.

Definition DEFAULT_WINDOW_SIZE : Z := 4096.
Definition WORD_BITS : nat := 64.
Definition WINDOW_WORDS : nat := Z.to_nat (DEFAULT_WINDOW_SIZE / 64).

(** Bit zero represents [highest], bit one [highest - 1], and so on. *)
Record ReplayWindow := { highest : option u64; bits : list u64 }.

Definition ReplayWindow_new : ReplayWindow :=
  {| highest := None; bits := replicate WINDOW_WORDS 0 |}.

(** [value << n] on a [u64] drops the bits shifted out. *)
Definition shl64 (value : u64) (n : nat) : u64 := Z.land (Z.shiftl value (Z.of_nat n)) U64_MAX.

Definition bit_is_set (w : ReplayWindow) (distance : nat) : option bool :=
  let word := (distance / WORD_BITS)%nat in
  let bit := (distance mod WORD_BITS)%nat in
  v ← bits w !! word;
  Some (negb (Z.land v (shl64 1 bit) =? 0)).

Definition set_bit (w : ReplayWindow) (distance : nat) : option ReplayWindow :=
  let word := (distance / WORD_BITS)%nat in
  let bit := (distance mod WORD_BITS)%nat in
  v ← bits w !! word;
  Some {| highest := highest w; bits := <[word := Z.lor v (shl64 1 bit)]> (bits w) |}.

(** The [for] loop of [shift_older]; the first branch is its [break]. *)
Fixpoint shift_loop (source_word : nat) (old : list u64)
    (word_shift bit_shift : nat) (acc : list u64) : option (list u64) :=
  match old with
  | [] => Some acc
  | value :: old =>
      let destination_word := (source_word + word_shift)%nat in
      if (WINDOW_WORDS <=? destination_word)%nat then Some acc else
      v ← acc !! destination_word;
      let acc := <[destination_word := Z.lor v (shl64 value bit_shift)]> acc in
      acc ← (if (negb (bit_shift =? 0) && (destination_word + 1 <? WINDOW_WORDS))%nat
             then v ← acc !! (destination_word + 1)%nat;
                  Some (<[(destination_word + 1)%nat :=
                            Z.lor v (Z.shiftr value (Z.of_nat (WORD_BITS - bit_shift)))]> acc)
             else Some acc);
      shift_loop (S source_word) old word_shift bit_shift acc
  end.

Definition shift_older (w : ReplayWindow) (amount : u64) : option ReplayWindow :=
  let cleared := replicate (length (bits w)) 0 in
  if amount >=? DEFAULT_WINDOW_SIZE
  then Some {| highest := highest w; bits := cleared |}
  else
    let amount := Z.to_nat amount in
    let word_shift := (amount / WORD_BITS)%nat in
    let bit_shift := (amount mod WORD_BITS)%nat in
    new ← shift_loop 0 (bits w) word_shift bit_shift cleared;
    Some {| highest := highest w; bits := new |}.

Definition would_accept (w : ReplayWindow) (counter : u64) : option bool :=
  match highest w with
  | None => Some true
  | Some h =>
      if counter >? h then Some true else
      let distance := h - counter in
      if distance >=? DEFAULT_WINDOW_SIZE then Some false else
      b ← bit_is_set w (Z.to_nat distance); Some (negb b)
  end.

Definition update_head (w : ReplayWindow) (f : u64 -> u64) : option (list u64) :=
  v ← bits w !! 0%nat; Some (<[0%nat := f v]> (bits w)).

Definition mark_authenticated (w : ReplayWindow) (counter : u64) : option (bool * ReplayWindow) :=
  ok ← would_accept w counter;
  if negb ok then Some (false, w) else
  match highest w with
  | None =>
      bs ← update_head w (fun _ => 1);
      Some (true, {| highest := Some counter; bits := bs |})
  | Some h =>
      if counter >? h then
        w ← shift_older w (counter - h);
        bs ← update_head w (fun v => Z.lor v 1);
        Some (true, {| highest := Some counter; bits := bs |})
      else
        w ← set_bit w (Z.to_nat (h - counter)); Some (true, w)
  end.

(** ** Specification: the set of accepted counters *)

Module Spec.
(** A counter is acceptable when it was never accepted and is less than
    4096 behind every accepted counter. *)
Definition acceptable (seen : list u64) (c : u64) : bool :=
  bool_decide (c ∉ seen) && forallb (fun x => x - c <? DEFAULT_WINDOW_SIZE) seen.
Definition mark (seen : list u64) (c : u64) : bool * list u64 :=
  if acceptable seen c then (true, c :: seen) else (false, seen).
Fixpoint run (seen : list u64) (cs : list u64) : list bool * list u64 :=
  match cs with
  | [] => ([], seen)
  | c :: cs => let '(b, seen) := mark seen c in
               let '(bs, seen) := run seen cs in (b :: bs, seen)
  end.
End Spec.

(** The window run on a sequence of authenticated counters. *)
Fixpoint run (w : ReplayWindow) (cs : list u64) : option (list bool * ReplayWindow) :=
  match cs with
  | [] => Some ([], w)
  | c :: cs => '(b, w) ← mark_authenticated w c;
               '(bs, w) ← run w cs; Some (b :: bs, w)
  end.

(** ** Bits of the window *)

Definition word_bit (l : list u64) (d : Z) : bool :=
  match l !! Z.to_nat (d / 64) with Some v => Z.testbit v (d mod 64) | None => false end.

Definition is_u64 (z : Z) : Prop := 0 <= z <= U64_MAX.

Lemma u64_max_ones : U64_MAX = Z.ones 64.
Proof. done. Qed.

Lemma is_u64_testbit z i : is_u64 z -> 64 <= i -> Z.testbit z i = false.
Proof.
  unfold is_u64, U64_MAX. intros Hz Hi.
  rewrite <- (Z.mod_small z (2 ^ 64)) by lia. by apply Z.mod_pow2_bits_high; lia.
Qed.

Lemma testbit_shl64 v n i :
  0 <= i < 64 -> Z.testbit (shl64 v n) i = Z.testbit v (i - Z.of_nat n).
Proof.
  intros Hi. unfold shl64. rewrite u64_max_ones, Z.land_spec, Z.shiftl_spec by lia.
  rewrite Z.ones_spec_low by lia. apply andb_true_r.
Qed.

Lemma shl64_u64 v n : is_u64 (shl64 v n).
Proof.
  unfold shl64, is_u64. rewrite u64_max_ones, Z.land_ones by lia.
  change (Z.ones 64) with (2 ^ 64 - 1).
  pose proof (Z.mod_pos_bound (Z.shiftl v (Z.of_nat n)) (2 ^ 64)). lia.
Qed.

Lemma lor_u64 a b : is_u64 a -> is_u64 b -> is_u64 (Z.lor a b).
Proof.
  unfold is_u64. intros [Ha Ha'] [Hb Hb']. split; [by apply Z.lor_nonneg|].
  destruct (Z.eq_dec (Z.lor a b) 0) as [->|Hz]; [done|].
  assert (0 <= Z.lor a b) by (by apply Z.lor_nonneg).
  enough (Z.lor a b < 2 ^ 64) by (unfold U64_MAX; lia).
  apply Z.log2_lt_pow2; [lia|]. rewrite Z.log2_lor by done.
  assert (forall x, 0 <= x -> x <= U64_MAX -> Z.log2 x < 64) as Hlog.
  { intros x Hx Hx'. destruct (Z.eq_dec x 0) as [->|]; [done|].
    apply Z.log2_lt_pow2; unfold U64_MAX in *; lia. }
  apply Z.max_lub_lt; auto.
Qed.

Lemma shiftr_u64 v n : is_u64 v -> 0 <= n -> is_u64 (Z.shiftr v n).
Proof.
  unfold is_u64. intros Hv Hn. rewrite Z.shiftr_div_pow2 by done.
  assert (0 < 2 ^ n) by (by apply Z.pow_pos_nonneg).
  split; [apply Z.div_pos; lia|]. 
  transitivity (v / 1); [apply Z.div_le_compat_l; lia|rewrite Z.div_1_r; lia].
Qed.
#[export] Hint Resolve shl64_u64 lor_u64 shiftr_u64 : hushwire.

(** ** The loop of [shift_older]

    [contrib] is what the iterations from [k] on add to word [j]. *)

Fixpoint contrib (k : nat) (old : list u64) (ws bs j : nat) : Z :=
  match old with
  | [] => 0
  | v :: old =>
      Z.lor (if (j =? k + ws)%nat then shl64 v bs else 0)
        (Z.lor (if (negb (bs =? 0) && (j =? k + ws + 1))%nat
                then Z.shiftr v (Z.of_nat (WORD_BITS - bs)) else 0)
           (contrib (S k) old ws bs j))
  end.

Lemma contrib_below k old ws bs j : (j < k + ws)%nat -> contrib k old ws bs j = 0.
Proof.
  revert k. induction old as [|v old IH]; intros k Hj; cbn [contrib]; [done|].
  rewrite IH by lia.
  rewrite (proj2 (Nat.eqb_neq _ _)), (proj2 (Nat.eqb_neq j (k + ws + 1))) by lia.
  by rewrite andb_false_r.
Qed.

Lemma contrib_u64 k old ws bs j : Forall is_u64 old -> is_u64 (contrib k old ws bs j).
Proof.
  intros H. revert k. induction H as [|v old Hv _ IH]; intros k; cbn [contrib]; [done|].
  repeat apply lor_u64; auto; case_match; auto with hushwire; try done.
  apply shiftr_u64; [done|lia].
Qed.

Lemma shift_loop_spec old k ws bs acc :
  length acc = WINDOW_WORDS ->
  exists acc', shift_loop k old ws bs acc = Some acc' /\
    length acc' = WINDOW_WORDS /\
    forall j v, acc !! j = Some v -> acc' !! j = Some (Z.lor v (contrib k old ws bs j)).
Proof.
  revert k acc. induction old as [|v0 old IH]; intros k acc Hlen.
  { exists acc. repeat split; [done|]. intros. cbn. by rewrite Z.lor_0_r. }
  cbn [shift_loop].
  destruct (Nat.leb_spec WINDOW_WORDS (k + ws)) as [Hge|Hlt].
  { exists acc. repeat split; [done|]. intros j v Hj.
    apply lookup_lt_Some in Hj as Hj'.
    rewrite contrib_below by lia. by rewrite Z.lor_0_r. }
  destruct (lookup_lt_is_Some_2 acc (k + ws)) as [v1 E1]; [lia|]. rewrite E1. cbn [mbind option_bind].
  set (acc1 := <[(k + ws)%nat := Z.lor v1 (shl64 v0 bs)]> acc).
  assert (Hl1 : length acc1 = WINDOW_WORDS) by (unfold acc1; by rewrite length_insert).
  assert (H1 : forall j v, acc !! j = Some v ->
    acc1 !! j = Some (Z.lor v (if (j =? k + ws)%nat then shl64 v0 bs else 0))).
  { intros j v Hj. unfold acc1. destruct (Nat.eqb_spec j (k + ws)) as [->|Hne].
    - rewrite list_lookup_insert_eq by lia. congruence.
    - rewrite list_lookup_insert_ne by lia. by rewrite Z.lor_0_r. }
  set (step := if (_ && _)%bool then _ else _).
  assert (exists acc2, step = Some acc2 /\ length acc2 = WINDOW_WORDS /\
    forall j v, acc1 !! j = Some v -> acc2 !! j = Some (Z.lor v
      (if (negb (bs =? 0) && (j =? k + ws + 1))%nat
       then Z.shiftr v0 (Z.of_nat (WORD_BITS - bs)) else 0))) as (acc2 & -> & Hl2 & H2).
  { unfold step. destruct (negb (bs =? 0)%nat) eqn:Eb; cbn [andb];
      [destruct (Nat.ltb_spec (k + ws + 1) WINDOW_WORDS) as [Hlt'|Hge']|].
    - destruct (lookup_lt_is_Some_2 acc1 (k + ws + 1)) as [v2 E2]; [lia|]. rewrite E2. cbn.
      eexists; repeat split; [by rewrite length_insert|].
      intros j v Hj. destruct (Nat.eqb_spec j (k + ws + 1)) as [->|Hne].
      + rewrite list_lookup_insert_eq by lia. congruence.
      + rewrite list_lookup_insert_ne by lia. by rewrite Z.lor_0_r.
    - eexists; repeat split; [done|]. intros j v Hj. apply lookup_lt_Some in Hj as Hj'.
      rewrite (proj2 (Nat.eqb_neq _ _)) by lia. by rewrite Z.lor_0_r.
    - eexists; repeat split; [done|]. intros. by rewrite Z.lor_0_r. }
  cbn [mbind option_bind].
  destruct (IH (S k) acc2 Hl2) as (acc' & -> & Hl' & H').
  exists acc'. repeat split; [done|]. intros j v Hj.
  cbn [contrib]. rewrite (H' _ _ (H2 _ _ (H1 _ _ Hj))). by rewrite <- !Z.lor_assoc.
Qed.

Lemma word_bit_cons v l d :
  0 <= d -> word_bit (v :: l) d = if d <? 64 then Z.testbit v d else word_bit l (d - 64).
Proof.
  intros Hd. unfold word_bit. destruct (Z.ltb_spec d 64).
  - rewrite Z.div_small, Z.mod_small by lia. done.
  - assert (d / 64 = (d - 64) / 64 + 1) as -> by (Z.to_euclidean_division_equations; lia).
    assert (d mod 64 = (d - 64) mod 64) as -> by (Z.to_euclidean_division_equations; lia).
    rewrite Z2Nat.inj_add by (try apply Z.div_pos; lia).
    by rewrite Nat.add_comm.
Qed.

(** The contribution to bit [i] of word [j] is the bit of the old window
    [64 * (k + ws) + bs] places lower. *)
Lemma testbit_contrib k old ws bs j i :
  Forall is_u64 old -> (bs < WORD_BITS)%nat -> 0 <= i < 64 ->
  Z.testbit (contrib k old ws bs j) i =
    let e := 64 * Z.of_nat j + i - (64 * Z.of_nat (k + ws) + Z.of_nat bs) in
    if e <? 0 then false else word_bit old e.
Proof.
  unfold WORD_BITS. intros Hold Hbs Hi. revert k.
  induction Hold as [|v old Hv Hold IH]; intros k; cbn [contrib].
  { rewrite Z.testbit_0_l. unfold word_bit. by case_match. }
  rewrite !Z.lor_spec, IH. cbn zeta.
  set (e := 64 * Z.of_nat j + i - (64 * Z.of_nat (k + ws) + Z.of_nat bs)).
  replace (64 * Z.of_nat j + i - (64 * Z.of_nat (S k + ws) + Z.of_nat bs)) with (e - 64) by lia.
  assert (Hhead : Z.testbit (if (j =? k + ws)%nat then shl64 v bs else 0) i
    = if (j =? k + ws)%nat then Z.testbit v e else false).
  { destruct (Nat.eqb_spec j (k + ws)) as [->|]; [|apply Z.testbit_0_l].
    rewrite testbit_shl64 by done. f_equal. lia. }
  assert (Hcarry : Z.testbit (if (negb (bs =? 0) && (j =? k + ws + 1))%nat
      then Z.shiftr v (Z.of_nat (WORD_BITS - bs)) else 0) i
    = if (negb (bs =? 0) && (j =? k + ws + 1))%nat then Z.testbit v e else false).
  { destruct (negb (bs =? 0) && (j =? k + ws + 1))%nat eqn:E; [|apply Z.testbit_0_l].
    apply andb_prop in E as [_ ->%Nat.eqb_eq].
    rewrite Z.shiftr_spec by lia. f_equal. unfold WORD_BITS. lia. }
  rewrite Hhead, Hcarry. clear Hhead Hcarry.
  destruct (Z.ltb_spec e 0) as [Hneg|Hpos].
  { rewrite (proj2 (Z.ltb_lt (e - 64) 0)) by lia. rewrite Z.testbit_neg_r by done.
    by repeat case_match. }
  rewrite word_bit_cons by done. destruct (Z.ltb_spec e 64) as [Hlo|Hhi].
  - rewrite (proj2 (Z.ltb_lt (e - 64) 0)) by lia.
    destruct (Nat.eqb_spec j (k + ws)) as [|Hj1]; [by destruct (Z.testbit v e), (_ && _)%bool|].
    destruct (Nat.eqb_spec j (k + ws + 1)) as [|Hj2]; [|lia].
    destruct (Nat.eqb_spec bs 0); [lia|]. cbn. by rewrite orb_false_r.
  - rewrite (proj2 (Z.ltb_ge (e - 64) 0)) by lia.
    rewrite (is_u64_testbit v e) by done. by repeat case_match.
Qed.

(** ** Operations on the bits *)

Record window_wf (w : ReplayWindow) : Prop := {
  wf_length : length (bits w) = WINDOW_WORDS;
  wf_words : Forall is_u64 (bits w) }.

Lemma shl64_1 n : (n < 64)%nat -> shl64 1 n = 2 ^ Z.of_nat n.
Proof.
  intros. unfold shl64. rewrite Z.shiftl_1_l, u64_max_ones, Z.land_ones by lia.
  apply Z.mod_small. split; [lia|]. apply Z.pow_lt_mono_r; lia.
Qed.

Lemma mask_test v n : (n < 64)%nat -> negb (Z.land v (shl64 1 n) =? 0) = Z.testbit v (Z.of_nat n).
Proof.
  intros Hn. rewrite shl64_1 by done.
  destruct (Z.testbit v (Z.of_nat n)) eqn:E.
  - apply negb_true_iff, Z.eqb_neq. intros H.
    assert (Z.testbit (Z.land v (2 ^ Z.of_nat n)) (Z.of_nat n) = true) as Ht
      by (rewrite Z.land_spec, E, Z.pow2_bits_true by lia; done).
    by rewrite H, Z.testbit_0_l in Ht.
  - apply negb_false_iff, Z.eqb_eq, Z.bits_inj. intros i.
    rewrite Z.land_spec, Z.testbit_0_l, Z.pow2_bits_eqb by lia.
    destruct (Z.eqb_spec (Z.of_nat n) i) as [<-|]; [by rewrite E|apply andb_false_r].
Qed.

Lemma index_split d :
  0 <= d < DEFAULT_WINDOW_SIZE ->
  (Z.to_nat d / WORD_BITS)%nat = Z.to_nat (d / 64) /\
  (Z.to_nat d mod WORD_BITS)%nat = Z.to_nat (d mod 64) /\
  (Z.to_nat (d / 64) < WINDOW_WORDS)%nat /\ 0 <= d mod 64 < 64.
Proof.
  unfold DEFAULT_WINDOW_SIZE, WORD_BITS. intros Hd.
  change 64%nat with (Z.to_nat 64). rewrite <- Z2Nat.inj_div, <- Z2Nat.inj_mod by lia.
  repeat split; try apply Z.mod_pos_bound; try lia.
  change WINDOW_WORDS with (Z.to_nat 64). apply Z2Nat.inj_lt; try lia; try apply Z.div_pos; try lia.
  apply Z.div_lt_upper_bound; lia.
Qed.

Lemma bit_is_set_spec w d :
  window_wf w -> 0 <= d < DEFAULT_WINDOW_SIZE ->
  bit_is_set w (Z.to_nat d) = Some (word_bit (bits w) d).
Proof.
  intros [Hl _] Hd. unfold bit_is_set, word_bit.
  destruct (index_split d Hd) as (-> & -> & Hi & Hm).
  destruct (lookup_lt_is_Some_2 (bits w) (Z.to_nat (d / 64))) as [v ->]; [lia|].
  cbn [mbind option_bind]. rewrite mask_test by lia. by rewrite Z2Nat.id by lia.
Qed.

Lemma word_bit_insert l d v e :
  0 <= d < DEFAULT_WINDOW_SIZE -> 0 <= e -> length l = WINDOW_WORDS ->
  l !! Z.to_nat (d / 64) = Some v ->
  word_bit (<[Z.to_nat (d / 64) := Z.lor v (shl64 1 (Z.to_nat (d mod 64)))]> l) e
  = (word_bit l e || (e =? d))%bool.
Proof.
  intros Hd He Hl Hv. destruct (index_split d Hd) as (_ & _ & Hi & Hm).
  pose proof (Z.mod_pos_bound e 64 ltac:(lia)). unfold word_bit.
  destruct (Z.eq_dec (e / 64) (d / 64)) as [E|Hne].
  - rewrite E, list_lookup_insert_eq, Hv by lia.
    rewrite Z.lor_spec, shl64_1, Z2Nat.id, Z.pow2_bits_eqb by lia. f_equal.
    apply Bool.eq_iff_eq_true. rewrite !Z.eqb_eq.
    split; [intros; Z.to_euclidean_division_equations; lia|congruence].
  - rewrite list_lookup_insert_ne.
    + destruct (Z.eqb_spec e d); [congruence|by rewrite orb_false_r].
    + intros E. apply Hne. apply Z2Nat.inj in E; [done|apply Z.div_pos; lia..].
Qed.

Lemma set_bit_spec w d :
  window_wf w -> 0 <= d < DEFAULT_WINDOW_SIZE ->
  exists w', set_bit w (Z.to_nat d) = Some w' /\ highest w' = highest w /\ window_wf w' /\
    forall e, 0 <= e -> word_bit (bits w') e = (word_bit (bits w) e || (e =? d))%bool.
Proof.
  intros [Hl Hw] Hd. unfold set_bit. destruct (index_split d Hd) as (-> & -> & Hi & Hm).
  destruct (lookup_lt_is_Some_2 (bits w) (Z.to_nat (d / 64))) as [v Hv]; [lia|].
  rewrite Hv. eexists; split; [reflexivity|]. repeat split.
  - cbn. by rewrite length_insert.
  - apply Forall_insert; [done|]. apply lor_u64; auto with hushwire.
    by eapply Forall_lookup_1.
  - intros e He. by apply word_bit_insert.
Qed.

Lemma word_bit_zeros n d : word_bit (replicate n 0) d = false.
Proof.
  unfold word_bit. destruct (_ !! _) eqn:E; [|done].
  apply lookup_replicate in E as [-> _]. apply Z.testbit_0_l.
Qed.

Lemma zeros_wf h : window_wf {| highest := h; bits := replicate WINDOW_WORDS 0 |}.
Proof. split; cbn -[replicate]; [apply length_replicate|]. by apply Forall_replicate. Qed.

Lemma shift_loop_words old ws bs :
  length old = WINDOW_WORDS -> Forall is_u64 old ->
  exists new, shift_loop 0 old ws bs (replicate (length old) 0) = Some new /\
    length new = WINDOW_WORDS /\
    forall j, (j < WINDOW_WORDS)%nat -> new !! j = Some (contrib 0 old ws bs j).
Proof.
  intros Hl Ho. rewrite Hl.
  destruct (shift_loop_spec old 0 ws bs (replicate WINDOW_WORDS 0)) as (new & E & Hln & Hn).
  { apply length_replicate. }
  exists new. repeat split; [done..|]. intros j Hj.
  rewrite (Hn j 0) by (by apply lookup_replicate). by rewrite Z.lor_0_l.
Qed.

(** [shift_older] moves every bit [n] places towards the older end. *)
Lemma shift_older_spec w n :
  window_wf w -> 0 <= n ->
  exists w', shift_older w n = Some w' /\ highest w' = highest w /\ window_wf w' /\
    forall d, 0 <= d < DEFAULT_WINDOW_SIZE ->
      word_bit (bits w') d = if d <? n then false else word_bit (bits w) (d - n).
Proof.
  intros [Hl Hw] Hn. unfold shift_older. rewrite Z.geb_leb.
  destruct (Z.leb_spec DEFAULT_WINDOW_SIZE n) as [Hbig|Hsmall].
  { rewrite Hl. eexists; split; [reflexivity|]. repeat split; try apply zeros_wf.
    intros d Hd. cbn [bits]. rewrite word_bit_zeros.
    by rewrite (proj2 (Z.ltb_lt _ _)) by lia. }
  destruct (index_split n) as (-> & -> & Hi & Hm); [lia|].
  destruct (shift_loop_words (bits w) (Z.to_nat (n / 64)) (Z.to_nat (n mod 64)) Hl Hw)
    as (new & -> & Hln & Hnew).
  eexists; split; [reflexivity|]. repeat split; [done| |].
  - cbn [bits]. apply Forall_lookup_2. intros j v Hv.
    rewrite Hnew in Hv by (rewrite <- Hln; by eapply lookup_lt_Some).
    simplify_eq. by apply contrib_u64.
  - intros d Hd. cbn [bits]. unfold word_bit at 1.
    destruct (index_split d Hd) as (_ & _ & Hj & Hmd). rewrite Hnew by done.
    rewrite testbit_contrib by (try done; unfold WORD_BITS; lia). cbn zeta.
    replace (64 * Z.of_nat (Z.to_nat (d / 64)) + d mod 64
      - (64 * Z.of_nat (0 + Z.to_nat (n / 64)) + Z.of_nat (Z.to_nat (n mod 64)))) with (d - n).
    + destruct (Z.ltb_spec (d - n) 0), (Z.ltb_spec d n); try lia; done.
    + rewrite Nat.add_0_l, !Z2Nat.id by (try apply Z.div_pos; lia).
      Z.to_euclidean_division_equations; lia.
Qed.

(** ** Refinement *)

(** The window represents the set [seen] of accepted counters. *)
Record window_inv (seen : list u64) (w : ReplayWindow) : Prop := {
  inv_wf : window_wf w;
  inv_u64 : Forall is_u64 seen;
  inv_bits : match highest w with
             | None => seen = [] /\ bits w = replicate WINDOW_WORDS 0
             | Some h => h ∈ seen /\ Forall (fun x => x <= h) seen /\
                 forall d, 0 <= d < DEFAULT_WINDOW_SIZE ->
                   word_bit (bits w) d = bool_decide (h - d ∈ seen)
             end }.

Lemma new_inv : window_inv [] ReplayWindow_new.
Proof. split; [apply zeros_wf|constructor|done]. Qed.

Lemma would_accept_spec seen w c :
  window_inv seen w -> is_u64 c -> would_accept w c = Some (Spec.acceptable seen c).
Proof.
  intros [Hwf _ Hb] Hc. unfold would_accept, Spec.acceptable.
  destruct (highest w) as [h|]; [|destruct Hb as [-> _]; done].
  destruct Hb as (Hh & Hle & Hbits). rewrite Forall_forall in Hle. rewrite Z.gtb_ltb, Z.geb_leb.
  assert (Hdist : forallb (fun x => x - c <? DEFAULT_WINDOW_SIZE) seen = (h - c <? DEFAULT_WINDOW_SIZE)).
  { apply Bool.eq_iff_eq_true. rewrite forallb_True_iff || rewrite forallb_forall. split.
    - intros H. by apply H, list_elem_of_In.
    - intros H x Hx%list_elem_of_In. apply Hle in Hx. zbool. apply Z.ltb_lt. lia. }
  rewrite Hdist.
  destruct (Z.ltb_spec h c) as [Hnew|Hold].
  { rewrite (proj2 (Z.ltb_lt _ _)) by (unfold DEFAULT_WINDOW_SIZE; lia).
    rewrite bool_decide_true; [done|]. intros Hin%Hle. lia. }
  destruct (Z.leb_spec DEFAULT_WINDOW_SIZE (h - c)) as [Hfar|Hnear].
  { rewrite (proj2 (Z.ltb_ge _ _)) by lia. by rewrite andb_false_r. }
  rewrite (proj2 (Z.ltb_lt _ _)) by lia. rewrite bit_is_set_spec by (done || lia).
  cbn [mbind option_bind]. rewrite Hbits by lia.
  replace (h - (h - c)) with c by lia. by rewrite andb_true_r, bool_decide_not.
Qed.

Lemma update_head_spec w v0 :
  window_wf w -> bits w !! 0%nat = Some v0 ->
  let bs := <[0%nat := Z.lor v0 1]> (bits w) in
  forall h, window_wf {| highest := h; bits := bs |} /\
  forall d, 0 <= d -> word_bit bs d = (word_bit (bits w) d || (d =? 0))%bool.
Proof.
  intros [Hl Hw] Hv bs h. repeat split.
  - cbn. unfold bs. by rewrite length_insert.
  - cbn. apply Forall_insert; [done|]. apply lor_u64; [|done]. by eapply Forall_lookup_1.
  - intros d Hd. apply (word_bit_insert (bits w) 0 v0 d); try done.
Qed.

Lemma wf_head w : window_wf w -> exists v, bits w !! 0%nat = Some v.
Proof. intros [Hl _]. apply lookup_lt_is_Some_2. rewrite Hl. change WINDOW_WORDS with 64%nat. lia. Qed.

Lemma acceptable_inv seen c :
  Spec.acceptable seen c = true -> (c ∉ seen) /\ forall x, x ∈ seen -> x - c < DEFAULT_WINDOW_SIZE.
Proof.
  unfold Spec.acceptable. intros [Hn Hd]%andb_prop. apply bool_decide_eq_true in Hn.
  split; [done|]. intros x Hx%list_elem_of_In. rewrite forallb_forall in Hd. apply Hd in Hx. by zbool.
Qed.

(** A counter above the highest one: the window moves up. *)
Lemma advance_inv seen w h c :
  window_inv seen w -> is_u64 c -> highest w = Some h -> h < c ->
  exists w1 bs, shift_older w (c - h) = Some w1 /\ update_head w1 (fun v => Z.lor v 1) = Some bs /\
    window_inv (c :: seen) {| highest := Some c; bits := bs |}.
Proof.
  intros [Hwf Hs Hb] Hc Hh Hlt. rewrite Hh in Hb. destruct Hb as (Hhin & Hle & Hbits).
  destruct (shift_older_spec w (c - h)) as (w1 & E1 & _ & Hwf1 & Hb1); [done|lia|].
  destruct (wf_head w1 Hwf1) as [v0 Hv0].
  destruct (update_head_spec w1 v0 Hwf1 Hv0 (Some c)) as [Hwf2 Hb2].
  eexists _, _. split; [exact E1|]. split; [unfold update_head; by rewrite Hv0|].
  split; [exact Hwf2|by constructor|]. cbn [highest bits]. split_and!; [left| |].
  - constructor; [lia|]. eapply Forall_impl; [done|]. cbn. lia.
  - intros d Hd. rewrite Hb2, Hb1 by lia. apply Bool.eq_iff_eq_true.
    rewrite bool_decide_eq_true, elem_of_cons. rewrite Forall_forall in Hle.
    destruct (Z.ltb_spec d (c - h)) as [Hn|Ho].
    + cbn [orb]. rewrite Z.eqb_eq. split; [left; lia|].
      intros [?|Hin%Hle]; lia.
    + rewrite Hbits by lia. replace (h - (d - (c - h))) with (c - d) by lia.
      rewrite orb_true_iff, bool_decide_eq_true, Z.eqb_eq. intuition lia.
Qed.

(** A fresh counter inside the window: one bit is set. *)
Lemma record_inv seen w h c :
  window_inv seen w -> is_u64 c -> highest w = Some h -> c <= h ->
  h - c < DEFAULT_WINDOW_SIZE ->
  exists w1, set_bit w (Z.to_nat (h - c)) = Some w1 /\ window_inv (c :: seen) w1.
Proof.
  intros [Hwf Hs Hb] Hc Hh Hle Hd. rewrite Hh in Hb. destruct Hb as (Hhin & Hmax & Hbits).
  destruct (set_bit_spec w (h - c)) as (w1 & E1 & Eh & Hwf1 & Hb1); [done|lia|].
  exists w1. split; [done|]. split; [done|by constructor|]. rewrite Eh, Hh.
  split_and!; [by right|by constructor|].
  intros d Hd'. rewrite Hb1, Hbits by lia. apply Bool.eq_iff_eq_true.
  rewrite orb_true_iff, !bool_decide_eq_true, elem_of_cons, Z.eqb_eq. intuition lia.
Qed.

Lemma mark_refines seen w c :
  window_inv seen w -> is_u64 c ->
  exists w', mark_authenticated w c = Some (fst (Spec.mark seen c), w') /\
             window_inv (snd (Spec.mark seen c)) w'.
Proof.
  intros Hinv Hc. unfold mark_authenticated, Spec.mark.
  rewrite (would_accept_spec seen) by done. cbn [mbind option_bind].
  destruct (Spec.acceptable seen c) eqn:E; cbn [negb fst snd]; [|eauto].
  apply acceptable_inv in E as [Hfresh Hdist].
  destruct (highest w) as [h|] eqn:Eh.
  - rewrite Z.gtb_ltb. destruct (Z.ltb_spec h c).
    + destruct (advance_inv seen w h c) as (w1 & bs & -> & E2 & Hi); [done..|].
      cbn [mbind option_bind]. rewrite E2. eauto.
    + destruct (record_inv seen w h c) as (w1 & -> & Hi); try done; [|eauto].
      apply Hdist. pose proof (inv_bits _ _ Hinv) as Hb. rewrite Eh in Hb. apply Hb.
  - pose proof (inv_bits _ _ Hinv) as Hb. rewrite Eh in Hb. destruct Hb as [-> Hz].
    pose proof (inv_wf _ _ Hinv) as Hwf.
    assert (bits w !! 0%nat = Some 0) as H0 by (by rewrite Hz).
    destruct (update_head_spec w 0 Hwf H0 (Some c)) as [Hwf2 Hb2].
    unfold update_head. rewrite H0. eexists; split; [reflexivity|].
    split; [done|by repeat constructor; apply Hc|]. cbn [highest bits].
    split_and!; [left|by constructor|]. intros d Hd. rewrite Hb2, Hz, word_bit_zeros by lia.
    apply Bool.eq_iff_eq_true. cbn [orb].
    rewrite Z.eqb_eq, bool_decide_eq_true, list_elem_of_singleton. lia.
Qed.

Lemma run_refines cs seen w :
  window_inv seen w -> Forall is_u64 cs ->
  exists w', run w cs = Some (fst (Spec.run seen cs), w') /\ window_inv (snd (Spec.run seen cs)) w'.
Proof.
  intros Hinv Hcs. revert seen w Hinv.
  induction Hcs as [|c cs Hc _ IH]; intros seen w Hinv; cbn [run Spec.run]; [eauto|].
  destruct (mark_refines seen w c Hinv Hc) as (w1 & -> & Hinv1).
  destruct (Spec.mark seen c) as [b seen1]; cbn [mbind option_bind fst snd] in *.
  destruct (IH _ _ Hinv1) as (w2 & -> & Hinv2).
  destruct (Spec.run seen1 cs) as [bs seen2]; cbn in *. eauto.
Qed.

(** The counters accepted along a run of the specification. *)
Lemma spec_run_nodup cs seen : NoDup seen -> NoDup (snd (Spec.run seen cs)).
Proof.
  revert seen. induction cs as [|c cs IH]; intros seen Hs; cbn [Spec.run]; [done|].
  unfold Spec.mark. destruct (Spec.acceptable seen c) eqn:E.
  - apply acceptable_inv in E as [Hn _].
    pose proof (IH (c :: seen) (NoDup_cons_2 _ _ Hn Hs)) as H.
    by destruct (Spec.run (c :: seen) cs).
  - pose proof (IH seen Hs) as H. by destruct (Spec.run seen cs).
Qed.

(** The counters of [cs] a run answered [true] to. *)
Definition accepted (cs : list u64) (bs : list bool) : list u64 :=
  (filter (fun p => p.2 = true) (zip cs bs)).*1.

Lemma accepted_cons c cs b bs :
  accepted (c :: cs) (b :: bs) = if b then c :: accepted cs bs else accepted cs bs.
Proof. unfold accepted. by destruct b. Qed.

Lemma spec_run_accepted cs seen :
  snd (Spec.run seen cs) = reverse (accepted cs (fst (Spec.run seen cs))) ++ seen.
Proof.
  revert seen. induction cs as [|c cs IH]; intros seen; [done|]. cbn [Spec.run].
  unfold Spec.mark. destruct (Spec.acceptable seen c).
  - pose proof (IH (c :: seen)) as H. destruct (Spec.run (c :: seen) cs) as [bs s].
    cbn [fst snd] in *. rewrite accepted_cons, reverse_cons, <- app_assoc. exact H.
  - pose proof (IH seen) as H. destruct (Spec.run seen cs) as [bs s].
    cbn [fst snd] in *. by rewrite accepted_cons.
Qed.

Lemma run_new cs :
  Forall is_u64 cs ->
  exists w, run ReplayWindow_new cs = Some (fst (Spec.run [] cs), w) /\
    window_inv (reverse (accepted cs (fst (Spec.run [] cs)))) w.
Proof.
  intros Hcs. destruct (run_refines cs [] ReplayWindow_new new_inv Hcs) as (w & E & Hi).
  exists w. split; [done|]. by rewrite spec_run_accepted, app_nil_r in Hi.
Qed.

(** ** Properties *)

(** C9: the window refines the specification: on every sequence of 64-bit
    counters it returns, panics nowhere, and answers exactly as the set of
    accepted counters does. *)
Theorem replay_refines_spec cs :
  Forall is_u64 cs ->
  exists w, run ReplayWindow_new cs = Some (fst (Spec.run [] cs), w) /\
            window_inv (snd (Spec.run [] cs)) w.
Proof. apply run_refines, new_inv. Qed.

(** No counter is ever accepted twice, whatever the order of arrival. *)
Theorem replay_at_most_once cs bs w :
  Forall is_u64 cs -> run ReplayWindow_new cs = Some (bs, w) -> NoDup (accepted cs bs).
Proof.
  intros Hcs H. destruct (run_new cs Hcs) as (w' & E & _). simplify_eq.
  rewrite <- reverse_Permutation, <- (app_nil_r (reverse _)), <- spec_run_accepted.
  apply spec_run_nodup. constructor.
Qed.

(** The pre-authentication check accepts a counter exactly when it was
    not accepted before and is less than 4096 behind every accepted one, so
    legitimate reordering inside the window is never lost. *)
Theorem would_accept_exact cs bs w c :
  Forall is_u64 cs -> is_u64 c -> run ReplayWindow_new cs = Some (bs, w) ->
  (would_accept w c = Some true <->
    (c ∉ accepted cs bs) /\ forall x, x ∈ accepted cs bs -> x - c < DEFAULT_WINDOW_SIZE) /\
  would_accept w c <> None.
Proof.
  intros Hcs Hc H. destruct (run_new cs Hcs) as (w' & E & Hi). simplify_eq.
  rewrite (would_accept_spec _ _ _ Hi Hc). split; [|done]. unfold Spec.acceptable.
  split.
  - intros [= Ha]. apply acceptable_inv in Ha as [Hn Hd].
    split; [by rewrite elem_of_reverse in Hn|]. intros x Hx. by apply Hd, elem_of_reverse.
  - intros [Hn Hd]. f_equal. apply andb_true_intro. split.
    + by rewrite bool_decide_eq_true, elem_of_reverse.
    + apply forallb_forall. intros x Hx%list_elem_of_In. rewrite elem_of_reverse in Hx. by apply Z.ltb_lt, Hd.
Qed.

(** ** Witnesses *)

Lemma replay_refines_spec_witness :
  exists w, run ReplayWindow_new [10; 12; 11; 10; 5000; 12; 904] =
    Some ([true; true; true; false; true; false; false], w).
Proof.
  destruct (replay_refines_spec [10; 12; 11; 10; 5000; 12; 904]) as (w & E & _).
  - repeat constructor; done.
  - exists w. rewrite E. vm_compute. reflexivity.
Defined.

Definition some_window (o : option (list bool * ReplayWindow)) : ReplayWindow :=
  match o with Some (_, w) => w | None => ReplayWindow_new end.

Lemma replay_at_most_once_witness :
  let cs := [0; 1; 63; 64; 65; 4095; 4096; 64; 0] in
  NoDup (accepted cs [true; true; true; true; true; true; true; false; false]).
Proof.
  cbn zeta. apply (replay_at_most_once _ _
    (some_window (run ReplayWindow_new [0; 1; 63; 64; 65; 4095; 4096; 64; 0]))).
  - repeat constructor; done.
  - vm_compute. reflexivity.
Defined.

Lemma would_accept_exact_witness :
  let w := some_window (run ReplayWindow_new [4096; 4000]) in
  would_accept w 1 = Some true /\ would_accept w 0 = Some false.
Proof.
  cbn zeta. split; [|vm_compute; reflexivity].
  eapply (would_accept_exact [4096; 4000] [true; true]).
  - repeat constructor; done.
  - done.
  - vm_compute. reflexivity.
  - split; [vm_compute; intros H; inversion H as [|? ? ? H2]; subst; inversion H2 as [|? ? ? H3]; inversion H3|].
    intros x Hx. assert (x = 4096 \/ x = 4000) as [-> | ->]; [|done..].
    change (x ∈ [4096; 4000]) in Hx. rewrite !elem_of_cons, elem_of_nil in Hx. tauto.
Defined.
