(* ===== verification/Net.v ===== *)
(** * Socket addresses and external libraries

    [std::net] addresses as the source uses them, and the interfaces to code
    that is not in the repository: the [ipnet] prefixes and the base64
    decoder.  Each interface is a class whose laws are the documented
    behaviour the code relies on. *)

From S2P Require Import Prelude.

(** ** std::net *)

Inductive IpAddr := V4 (a : u32) | V6 (a : Z).

Inductive SocketAddr :=
| SA4 (ip : u32) (port : u16)
| SA6 (ip : Z) (port : u16) (flowinfo scope_id : u32).

#[export] Instance IpAddr_eq_dec : EqDecision IpAddr.
Proof. solve_decision. Defined.
#[export] Instance SocketAddr_eq_dec : EqDecision SocketAddr.
Proof. solve_decision. Defined.

Definition sa_ip (s : SocketAddr) : IpAddr :=
  match s with SA4 ip _ => V4 ip | SA6 ip _ _ _ => V6 ip end.
Definition sa_port (s : SocketAddr) : u16 :=
  match s with SA4 _ p => p | SA6 _ p _ _ => p end.
Definition is_ipv4 (s : SocketAddr) : bool :=
  match s with SA4 _ _ => true | SA6 _ _ _ _ => false end.
Definition set_port (s : SocketAddr) (p : u16) : SocketAddr :=
  match s with SA4 ip _ => SA4 ip p | SA6 ip _ f i => SA6 ip p f i end.

(** [is_unspecified]: 0.0.0.0 and [::]. *)
Definition is_unspecified (ip : IpAddr) : bool :=
  match ip with V4 a => a =? 0 | V6 a => a =? 0 end.

(** ** ipnet *)

Class IpNet := {
  Ipv4Net : Type;
  Ipv4Net_eq_dec :: EqDecision Ipv4Net;
  net_addr : Ipv4Net -> u32;
  prefix_len : Ipv4Net -> u8;
  network : Ipv4Net -> u32;
  contains : Ipv4Net -> u32 -> bool }.

(** Documented behaviour: [network] clears the host bits, [contains] holds of
    the addresses that share the network bits. *)
Class IpNetLaws (I : IpNet) := {
  prefix_len_range : forall n, 0 <= prefix_len n <= 32;
  network_spec : forall n,
    network n = net_addr n / 2 ^ (32 - prefix_len n) * 2 ^ (32 - prefix_len n);
  contains_spec : forall n a, 0 <= a < 2 ^ 32 ->
    contains n a = (a / 2 ^ (32 - prefix_len n) =? net_addr n / 2 ^ (32 - prefix_len n)) }.

(** A concrete [ipnet], used by the witnesses. *)
Definition ref_contains (n : u32 * u8) (a : u32) : bool :=
  a / 2 ^ (32 - n.2) =? n.1 / 2 ^ (32 - n.2).

Definition clamp_len (z : Z) : Z := Z.max 0 (Z.min 32 z).

Definition ref_ipnet : IpNet := {|
  Ipv4Net := Z * Z;
  net_addr := fst;
  prefix_len n := clamp_len n.2;
  network n := n.1 / 2 ^ (32 - clamp_len n.2) * 2 ^ (32 - clamp_len n.2);
  contains n a := ref_contains (n.1, clamp_len n.2) a |}.

Lemma ref_ipnet_laws : IpNetLaws ref_ipnet.
Proof. split; cbn; unfold clamp_len; [lia|done|done]. Qed.

(** ** base64 *)

(** [STANDARD.decode]: [None] on malformed input. *)
Class Base64 := { b64_decode : string -> option bytes }.

Section Prefixes.
Context {I : IpNet} {L : IpNetLaws I}.

(** Nested prefixes: a prefix whose network lies in another, shorter one. *)
Lemma contains_network_trans (n m : Ipv4Net) a :
  0 <= a < 2 ^ 32 -> 0 <= net_addr n < 2 ^ 32 ->
  prefix_len m <= prefix_len n -> contains m (network n) = true ->
  contains n a = true -> contains m a = true.
Proof.
  intros Ha Hn Hle Hm Hc.
  pose proof (prefix_len_range n). pose proof (prefix_len_range m).
  assert (Hnet : 0 <= network n < 2 ^ 32).
  { rewrite network_spec. set (p := 2 ^ (32 - prefix_len n)).
    assert (0 < p) by (apply Z.pow_pos_nonneg; lia).
    pose proof (Z.mul_div_le (net_addr n) p ltac:(lia)).
    split; [apply Z.mul_nonneg_nonneg; [apply Z.div_pos|]|]; lia. }
  rewrite contains_spec in Hm, Hc |- * by done. zbool. apply Z.eqb_eq.
  rewrite <- Hm, network_spec.
  set (p := 2 ^ (32 - prefix_len n)) in *. set (q := 2 ^ (prefix_len n - prefix_len m)).
  assert (Hp : 0 < p) by (apply Z.pow_pos_nonneg; lia).
  assert (Hq : 0 < q) by (apply Z.pow_pos_nonneg; lia).
  assert (2 ^ (32 - prefix_len m) = p * q) as ->
    by (unfold p, q; rewrite <- Z.pow_add_r by lia; f_equal; lia).
  rewrite <- !Z.div_div, Z.div_mul by lia. by rewrite Hc.
Qed.
End Prefixes.
