(* ===== verification/PeerState.v ===== *)
(** * Peer statistics ([src/src/state.rs])

    The map of per-peer counters and learned endpoints.  The mutex makes every
    operation atomic, so an operation is a function of the map; [wall] is the
    value of [Instant::now()] in the call. *)

From S2P Require Import Prelude Net.

Record PeerStats := {
  last_seen : option Instant;
  tx_bytes : u64;
  rx_bytes : u64;
  current_endpoint : option SocketAddr }.

Definition PeerStats_default : PeerStats :=
  {| last_seen := None; tx_bytes := 0; rx_bytes := 0; current_endpoint := None |}.

(** [map.entry(name).or_default()] followed by an update of the entry. *)
Definition entry_or_default (m : gmap string PeerStats) (name : string) : PeerStats :=
  default PeerStats_default (m !! name).

(** [u64 += u64] in a build without overflow checks. *)
Definition add_u64 (a b : u64) : u64 := wrap 64 (a + b).

Definition update_endpoint (stats : PeerStats) (source : SocketAddr) : PeerStats :=
  {| last_seen := last_seen stats; tx_bytes := tx_bytes stats; rx_bytes := rx_bytes stats;
     current_endpoint := Some source |}.

Definition record_tx (m : gmap string PeerStats) (name : string) (n : usize) : gmap string PeerStats :=
  let e := entry_or_default m name in
  <[name := {| last_seen := last_seen e; tx_bytes := add_u64 (tx_bytes e) n;
               rx_bytes := rx_bytes e; current_endpoint := current_endpoint e |}]> m.

Definition record_rx (m : gmap string PeerStats) (name : string) (source : SocketAddr)
    (n : usize) (wall : Instant) : gmap string PeerStats :=
  let e := entry_or_default m name in
  let e := {| last_seen := Some wall; tx_bytes := tx_bytes e;
              rx_bytes := add_u64 (rx_bytes e) n; current_endpoint := current_endpoint e |} in
  <[name := update_endpoint e source]> m.

Definition record_keepalive (m : gmap string PeerStats) (name : string) (source : SocketAddr)
    (wall : Instant) : gmap string PeerStats :=
  let e := entry_or_default m name in
  let e := {| last_seen := Some wall; tx_bytes := tx_bytes e; rx_bytes := rx_bytes e;
              current_endpoint := current_endpoint e |} in
  <[name := update_endpoint e source]> m.

Definition snapshot (m : gmap string PeerStats) : gmap string PeerStats := m.

Definition clear_endpoint (m : gmap string PeerStats) (name : string) : gmap string PeerStats :=
  match m !! name with
  | Some e => <[name := {| last_seen := last_seen e; tx_bytes := tx_bytes e;
                           rx_bytes := rx_bytes e; current_endpoint := None |}]> m
  | None => m
  end.

(** ** Lemmas *)

Lemma record_keepalive_endpoint m name source wall :
  record_keepalive m name source wall !! name ≫= current_endpoint = Some source.
Proof. unfold record_keepalive. by rewrite lookup_insert_eq. Qed.

Lemma record_rx_endpoint m name source n wall :
  record_rx m name source n wall !! name ≫= current_endpoint = Some source.
Proof. unfold record_rx. by rewrite lookup_insert_eq. Qed.

Lemma clear_endpoint_lookup m name other :
  clear_endpoint m name !! other ≫= current_endpoint =
    if decide (name = other) then None else m !! other ≫= current_endpoint.
Proof.
  unfold clear_endpoint. destruct (m !! name) eqn:E; case_decide; subst.
  - by rewrite lookup_insert_eq.
  - by rewrite lookup_insert_ne.
  - by rewrite E.
  - done.
Qed.

Lemma record_keepalive_diff m name source wall p :
  record_keepalive m name source wall !! p <> m !! p -> name = p.
Proof.
  unfold record_keepalive. intros H. destruct (decide (name = p)); [done|].
  by rewrite lookup_insert_ne in H.
Qed.

Lemma record_rx_diff m name source n wall p : record_rx m name source n wall !! p <> m !! p -> name = p.
Proof.
  unfold record_rx. intros H. destruct (decide (name = p)); [done|]. by rewrite lookup_insert_ne in H.
Qed.
