(* ===== verification/Noise.v ===== *)
(** * Noise sessions ([src/src/noise.rs])

    The [snow] state machine and the operating system's entropy are an
    interface ([Snow]); the session wrapper around them - counters, replay
    window, framing, rekey thresholds, the checks of both handshake sides - is
    defined here. *)

From stdpp Require Import sorting.
From S2P Require Import Prelude Auth Replay.

(** ** The external Noise library

    One member per call the source makes.  A builder chain is one operation:
    its error is that of the first step that fails.  [cap] is the length of
    the output buffer.  Keys are their 32 bytes. *)
Class Snow := {
  snow_error : Type;
  HandshakeState : Type;
  StatelessTransportState : Type;
  Rng : Type;
  fill_bytes : Rng -> nat -> bytes * Rng;
  build_initiator : forall (private remote psk prologue : bytes), outcome snow_error HandshakeState;
  build_responder : forall (private psk prologue : bytes), outcome snow_error HandshakeState;
  hs_write : HandshakeState -> bytes -> usize -> Rng -> Rng * outcome snow_error (bytes * HandshakeState);
  hs_read : HandshakeState -> bytes -> usize -> outcome snow_error (bytes * HandshakeState);
  get_remote_static : HandshakeState -> option bytes;
  into_stateless : HandshakeState -> outcome snow_error StatelessTransportState;
  ts_write : StatelessTransportState -> u64 -> bytes -> usize -> outcome snow_error bytes;
  ts_read : StatelessTransportState -> u64 -> bytes -> usize -> outcome snow_error bytes }.

(** Documented behaviour of the library: it returns a [Result] and does not
    panic, entropy fills the whole buffer, and a transport message is its
    payload and a 16-byte tag. *)
Class SnowLaws (S : Snow) := {
  fill_bytes_length : forall r n, length (fill_bytes r n).1 = n;
  build_initiator_np : forall a b c d, no_panic (build_initiator a b c d);
  build_responder_np : forall a b c, no_panic (build_responder a b c);
  hs_write_np : forall h p cap r, no_panic (hs_write h p cap r).2;
  hs_read_np : forall h m cap, no_panic (hs_read h m cap);
  into_stateless_np : forall h, no_panic (into_stateless h);
  ts_write_np : forall t n p cap, no_panic (ts_write t n p cap);
  ts_read_np : forall t n c cap, no_panic (ts_read t n c cap);
  ts_write_length : forall t n p cap c, ts_write t n p cap = Ok c -> len c = len p + 16;
  ts_read_length : forall t n c cap p, ts_read t n c cap = Ok p -> len c = len p + 16 }.

Definition REKEY_AFTER_TIME : Duration := from_secs 120.
Definition REJECT_AFTER_TIME : Duration := from_secs 180.
Definition REKEY_AFTER_MESSAGES : u64 := Z.shiftl 1 32.
Definition AEAD_TAG_SIZE : usize := 16.
Definition MAX_NOISE_MESSAGE_SIZE : usize := 65535.

Section Noise.
Context {SN : Snow}.

Inductive NoiseError :=
| Snow_ (e : snow_error)
| MissingRemoteStatic
| RemoteStaticMismatch
| InvalidSessionId
| WrongSession
| MalformedTransport
| Replay_
| CounterExhausted.

Record Session := {
  session_id : bytes;
  transport : StatelessTransportState;
  created_at : Instant;
  send_counter : u64;
  received_messages : u64;
  replay : ReplayWindow }.

(** [Session::new]; [wall] is [Instant::now()]. *)
Definition Session_new (sid : bytes) (t : StatelessTransportState) (wall : Instant) : Session :=
  {| session_id := sid; transport := t; created_at := wall; send_counter := 0;
     received_messages := 0; replay := ReplayWindow_new |}.

Definition set_send_counter (s : Session) (c : u64) : Session :=
  {| session_id := session_id s; transport := transport s; created_at := created_at s;
     send_counter := c; received_messages := received_messages s; replay := replay s |}.

Definition set_received (s : Session) (n : u64) (w : ReplayWindow) : Session :=
  {| session_id := session_id s; transport := transport s; created_at := created_at s;
     send_counter := send_counter s; received_messages := n; replay := w |}.

(** The counter is reserved before encryption. *)
Definition encrypt (msg_type : MsgType.t) (payload : bytes) : M Session NoiseError bytes :=
  s ← mget;
  let counter := send_counter s in
  if counter =? U64_MAX then mfail CounterExhausted else
  _ ← mput (set_send_counter s (counter + 1));
  let plaintext := encode_transport_plaintext msg_type payload in
  ciphertext ← mlift (map_err Snow_
    (ts_write (transport s) counter plaintext (len plaintext + AEAD_TAG_SIZE)));
  mret (encode_transport (session_id s) counter ciphertext).

Definition decrypt (sid : bytes) (counter : u64) (ciphertext : bytes)
    : M Session NoiseError (MsgType.t * bytes) :=
  s ← mget;
  if negb (bool_decide (sid = session_id s)) then mfail WrongSession else
  fresh ← mlift (expect (would_accept (replay s) counter));
  if negb fresh then mfail Replay_ else
  if len ciphertext <? AEAD_TAG_SIZE + 1 then mfail MalformedTransport else
  plaintext ← mlift (map_err Snow_
    (ts_read (transport s) counter ciphertext (len ciphertext - AEAD_TAG_SIZE)));
  '(marked, w) ← mlift (expect (mark_authenticated (replay s) counter));
  if negb marked then mfail Replay_ else
  _ ← mput (set_received s (Z.min (received_messages s + 1) U64_MAX) w);
  mlift (ok_or MalformedTransport (decode_transport_plaintext plaintext)).

Definition decrypt_packet (packet : bytes) : M Session NoiseError (MsgType.t * bytes) :=
  match decode_packet packet with
  | Some (Transport sid counter ciphertext) => decrypt sid counter ciphertext
  | Some (Handshake _ _ _) => mfail MalformedTransport
  | None => mfail MalformedTransport
  end.

Definition should_rekey (s : Session) (now : Instant) : bool :=
  (saturating_duration_since now (created_at s) >=? REKEY_AFTER_TIME)
  || (send_counter s >=? REKEY_AFTER_MESSAGES)
  || (received_messages s >=? REKEY_AFTER_MESSAGES).

Definition is_expired (s : Session) (now : Instant) : bool :=
  (saturating_duration_since now (created_at s) >=? REJECT_AFTER_TIME)
  || (send_counter s =? U64_MAX).

(** ** Handshake *)

Record InitiatorState := { is_handshake_id : bytes; is_state : HandshakeState }.
Record InitiatorHandshake := { ih_handshake_id : bytes; ih_message : bytes; ih_state : InitiatorState }.
Record ResponderHandshake := { rh_message : bytes; rh_session : Session }.

(** [OsRng.fill_bytes] on an array of [n] bytes. *)
Definition draw (n : nat) : M Rng NoiseError bytes := fun r =>
  let '(b, r) := fill_bytes r n in (r, Ok b).

Definition noise_write (h : HandshakeState) (payload : bytes) : M Rng NoiseError (bytes * HandshakeState) :=
  fun r => let '(r, res) := hs_write h payload MAX_NOISE_MESSAGE_SIZE r in (r, map_err Snow_ res).

Definition initiator_start_with_id (local remote psk handshake_id : bytes)
    : M Rng NoiseError InitiatorHandshake :=
  state ← mlift (map_err Snow_
    (build_initiator local remote psk (handshake_prologue handshake_id)));
  '(message, state) ← noise_write state [];
  mret {| ih_handshake_id := handshake_id; ih_message := message;
          ih_state := {| is_handshake_id := handshake_id; is_state := state |} |}.

Definition initiator_start (local remote psk : bytes) : M Rng NoiseError InitiatorHandshake :=
  handshake_id ← draw SESSION_ID_SIZE;
  initiator_start_with_id local remote psk handshake_id.

Definition initiator_finalize (initiator : InitiatorState) (message : bytes) (wall : Instant)
    : outcome NoiseError Session :=
  '(payload, state) ← map_err Snow_
    (hs_read (is_state initiator) message (Z.of_nat SESSION_ID_SIZE + AEAD_TAG_SIZE));
  if negb (length payload =? SESSION_ID_SIZE)%nat then Err InvalidSessionId else
  t ← map_err Snow_ (into_stateless state);
  Ok (Session_new payload t wall).

Definition responder_respond (local expected_remote psk handshake_id message : bytes)
    (wall : Instant) : M Rng NoiseError ResponderHandshake :=
  state ← mlift (map_err Snow_ (build_responder local psk (handshake_prologue handshake_id)));
  '(payload, state) ← mlift (map_err Snow_ (hs_read state message MAX_NOISE_MESSAGE_SIZE));
  if negb (length payload =? 0)%nat then mfail MalformedTransport else
  remote_static ← mlift (ok_or MissingRemoteStatic (get_remote_static state));
  if negb (bool_decide (remote_static = expected_remote)) then mfail RemoteStaticMismatch else
  sid ← draw SESSION_ID_SIZE;
  '(response, state) ← noise_write state sid;
  t ← mlift (map_err Snow_ (into_stateless state));
  mret {| rh_message := response; rh_session := Session_new sid t wall |}.
End Noise.

(** ** Runs of a session *)

Section Runs.
Context {SN : Snow}.

Inductive session_op :=
| OpEncrypt (m : MsgType.t) (payload : bytes)
| OpDecrypt (packet : bytes).

(** The frames a sequence of operations emits, in order. *)
Fixpoint frames (ops : list session_op) (s : Session) : list bytes :=
  match ops with
  | [] => []
  | OpEncrypt m p :: ops =>
      match encrypt m p s with
      | (s, Ok f) => f :: frames ops s
      | (s, _) => frames ops s
      end
  | OpDecrypt f :: ops => frames ops (decrypt_packet f s).1
  end.

(** Encrypt messages in order; [None] when one fails. *)
Fixpoint encrypt_all (ms : list (MsgType.t * bytes)) (s : Session) : option (list bytes) :=
  match ms with
  | [] => Some []
  | (m, p) :: ms =>
      match encrypt m p s with
      | (s, Ok f) => fs ← encrypt_all ms s; Some (f :: fs)
      | _ => None
      end
  end.

(** Decrypt packets in order of arrival. *)
Fixpoint deliver (ps : list bytes) (s : Session) : list (outcome NoiseError (MsgType.t * bytes)) :=
  match ps with
  | [] => []
  | p :: ps => let '(s, r) := decrypt_packet p s in r :: deliver ps s
  end.

Definition frame_counter (f : bytes) : option u64 :=
  match decode_packet f with Some (Transport _ n _) => Some n | _ => None end.

(** ** Invariant *)

(** The replay window represents some set of counters and the counters fit. *)
Record session_wf (s : Session) : Prop := {
  swf_window : exists seen, window_inv seen (replay s);
  swf_send : is_u64 (send_counter s);
  swf_recv : is_u64 (received_messages s);
  swf_sid : length (session_id s) = SESSION_ID_SIZE }.

Lemma Session_new_wf sid t wall :
  length sid = SESSION_ID_SIZE -> session_wf (Session_new sid t wall).
Proof. split; cbn; [eexists; apply new_inv|done|done|done]. Qed.

Lemma encrypt_eq m p s :
  encrypt m p s =
    if send_counter s =? U64_MAX then (s, Err CounterExhausted) else
    (set_send_counter s (send_counter s + 1),
     match ts_write (transport s) (send_counter s) (encode_transport_plaintext m p)
             (len (encode_transport_plaintext m p) + AEAD_TAG_SIZE) with
     | Ok ct => Ok (encode_transport (session_id s) (send_counter s) ct)
     | Err e => Err (Snow_ e)
     | Panic => Panic
     end).
Proof.
  unfold encrypt, mget, mput, mlift, mfail, mret, M_ret, mbind, M_bind.
  destruct (send_counter s =? U64_MAX); [done|].
  by destruct (ts_write _ _ _ _).
Qed.

(** [decrypt] on a well-formed session, case by case. *)
Lemma decrypt_eq sid n ct s seen :
  window_inv seen (replay s) -> is_u64 n ->
  decrypt sid n ct s =
    if negb (bool_decide (sid = session_id s)) then (s, Err WrongSession) else
    if negb (Spec.acceptable seen n) then (s, Err Replay_) else
    if len ct <? AEAD_TAG_SIZE + 1 then (s, Err MalformedTransport) else
    match ts_read (transport s) n ct (len ct - AEAD_TAG_SIZE) with
    | Ok pt =>
        match mark_authenticated (replay s) n with
        | Some (_, w) =>
            (set_received s (Z.min (received_messages s + 1) U64_MAX) w,
             ok_or MalformedTransport (decode_transport_plaintext pt))
        | None => (s, Panic)
        end
    | Err e => (s, Err (Snow_ e))
    | Panic => (s, Panic)
    end.
Proof.
  intros Hw Hn. unfold decrypt, mget, mput, mlift, mfail, mret, M_ret, mbind, M_bind.
  destruct (bool_decide (sid = session_id s)); cbn [negb]; [|done].
  rewrite (would_accept_spec seen) by done. cbn [expect].
  destruct (Spec.acceptable seen n) eqn:E; cbn [negb]; [|done].
  destruct (len ct <? AEAD_TAG_SIZE + 1); [done|].
  destruct (ts_read _ _ _ _); cbn [map_err]; try done.
  destruct (mark_refines seen (replay s) n Hw Hn) as (w & Em & _). rewrite Em.
  cbn [expect]. unfold Spec.mark. rewrite E. done.
Qed.

Lemma decrypt_cases sid n ct s :
  session_wf s -> is_u64 n ->
  ((decrypt sid n ct s).1 = s /\ forall r, (decrypt sid n ct s).2 <> Ok r) \/
  exists pt w, sid = session_id s /\ would_accept (replay s) n = Some true /\
    ts_read (transport s) n ct (len ct - AEAD_TAG_SIZE) = Ok pt /\
    mark_authenticated (replay s) n = Some (true, w) /\
    decrypt sid n ct s = (set_received s (Z.min (received_messages s + 1) U64_MAX) w,
                          ok_or MalformedTransport (decode_transport_plaintext pt)).
Proof.
  intros [[seen Hw] _ _ _] Hn. rewrite (decrypt_eq _ _ _ _ seen Hw Hn).
  case_bool_decide as Hs; cbn [negb]; [|by left].
  destruct (Spec.acceptable seen n) eqn:E; cbn [negb]; [|by left].
  destruct (len ct <? AEAD_TAG_SIZE + 1); [by left|].
  destruct (ts_read _ _ _ _) as [pt| |]; [|by left..].
  destruct (mark_refines seen (replay s) n Hw Hn) as (w & Em & _).
  unfold Spec.mark in Em. rewrite E in Em. cbn in Em. rewrite Em.
  right. exists pt, w. rewrite (would_accept_spec seen) by done. by rewrite E.
Qed.

Lemma decrypt_wf sid n ct s : session_wf s -> is_u64 n -> session_wf (decrypt sid n ct s).1.
Proof.
  intros Hs Hn. destruct (decrypt_cases sid n ct s Hs Hn) as [[-> _]|(pt & w & _ & _ & _ & Em & ->)]; [done|].
  destruct Hs as [[seen Hw] Hsend Hrecv Hsid]. cbn. split; cbn; try done.
  - destruct (mark_refines seen (replay s) n Hw Hn) as (w' & Em' & Hw'). simplify_eq. eauto.
  - unfold is_u64, U64_MAX in *. lia.
Qed.

Lemma encrypt_wf m p s : session_wf s -> session_wf (encrypt m p s).1.
Proof.
  intros [Hw Hsend Hrecv Hsid]. rewrite encrypt_eq.
  destruct (Z.eqb_spec (send_counter s) U64_MAX); cbn; [by split|].
  split; cbn; try done. unfold is_u64 in *. lia.
Qed.

Lemma encrypt_counter m p s :
  session_wf s -> send_counter s <= send_counter (encrypt m p s).1.
Proof. intros [_ H _ _]. rewrite encrypt_eq. case_match; cbn; lia. Qed.

Lemma decrypt_send_counter sid n ct s :
  session_wf s -> is_u64 n -> send_counter (decrypt sid n ct s).1 = send_counter s.
Proof. intros Hs Hn. by destruct (decrypt_cases sid n ct s Hs Hn) as [[-> _]|(? & ? & _ & _ & _ & _ & ->)]. Qed.

Lemma decrypt_keeps sid n ct s :
  session_wf s -> is_u64 n ->
  session_id (decrypt sid n ct s).1 = session_id s /\
  transport (decrypt sid n ct s).1 = transport s /\
  created_at (decrypt sid n ct s).1 = created_at s.
Proof. intros Hs Hn. by destruct (decrypt_cases sid n ct s Hs Hn) as [[-> _]|(? & ? & _ & _ & _ & _ & ->)]. Qed.

(** The counter of a decoded packet is in range. *)
Lemma decode_counter b sid n ct :
  bytes_ok b -> decode_packet b = Some (Transport sid n ct) -> is_u64 n.
Proof. intros Hb H. by destruct (decode_packet_inv b _ Hb H) as ((_ & ? & _) & _). Qed.

Lemma decrypt_packet_inert b s :
  (forall sid n ct, decode_packet b <> Some (Transport sid n ct)) ->
  decrypt_packet b s = (s, Err MalformedTransport).
Proof. unfold decrypt_packet. intros H. by destruct (decode_packet b) as [[|]|] eqn:E; [|edestruct H|]. Qed.

Lemma decrypt_packet_wf b s :
  bytes_ok b -> session_wf s ->
  session_wf (decrypt_packet b s).1 /\ send_counter (decrypt_packet b s).1 = send_counter s.
Proof.
  intros Hb Hs. unfold decrypt_packet. destruct (decode_packet b) as [[|sid n ct]|] eqn:E; [done| |done].
  assert (is_u64 n) by (by eapply decode_counter).
  split; [by apply decrypt_wf|by apply decrypt_send_counter].
Qed.
End Runs.

(** ** A reference instance of the Noise interface

    Not a cipher: a transparent handshake and a checksum tag with the message
    shapes of the real library, so that the definitions compute. *)

Record ref_hs := { rh_local : bytes; rh_remote : option bytes; rh_psk : bytes; rh_prologue : bytes;
                   rh_initiator : bool }.

Definition ref_tag (key : bytes) (n : u64) (p : bytes) : bytes :=
  replicate 16 (fold_left (fun a b => (a * 31 + b) mod 256) (key ++ [n mod 256] ++ p) 7).

Definition ref_ts_write (key : bytes) (n : u64) (p : bytes) (cap : usize) : outcome unit bytes :=
  if (cap <? len p + 16) || (MAX_NOISE_MESSAGE_SIZE <? len p + 16) then Err tt
  else Ok (p ++ ref_tag key n p).

Definition ref_ts_read (key : bytes) (n : u64) (c : bytes) (cap : usize) : outcome unit bytes :=
  if (length c <? 16)%nat then Err tt else
  let p := take (length c - 16) c in
  if bool_decide (drop (length c - 16) c = ref_tag key n p) then Ok p else Err tt.

Definition ref_hs_write (h : ref_hs) (payload : bytes) (cap : usize) (r : Z)
    : Z * outcome unit (bytes * ref_hs) :=
  (r, if rh_initiator h then Ok (rh_local h ++ rh_prologue h ++ payload, h)
      else Ok (rh_psk h ++ payload, h)).

Definition ref_hs_read (h : ref_hs) (m : bytes) (cap : usize) : outcome unit (bytes * ref_hs) :=
  if rh_initiator h then
    if bool_decide (take 32 m = rh_psk h) then Ok (drop 32 m, h) else Err tt
  else
    let rest := drop 32 m in
    if bool_decide (take (length (rh_prologue h)) rest = rh_prologue h)
    then Ok (drop (length (rh_prologue h)) rest,
             {| rh_local := rh_local h; rh_remote := Some (take 32 m); rh_psk := rh_psk h;
                rh_prologue := rh_prologue h; rh_initiator := false |})
    else Err tt.

Definition ref_snow : Snow := {|
  snow_error := unit;
  HandshakeState := ref_hs;
  StatelessTransportState := list Z;
  Rng := Z;
  fill_bytes r n := (to_be_bytes n r, r + 1);
  build_initiator l rm psk p :=
    Ok {| rh_local := l; rh_remote := Some rm; rh_psk := psk; rh_prologue := p; rh_initiator := true |};
  build_responder l psk p :=
    Ok {| rh_local := l; rh_remote := None; rh_psk := psk; rh_prologue := p; rh_initiator := false |};
  hs_write := ref_hs_write;
  hs_read := ref_hs_read;
  get_remote_static := rh_remote;
  into_stateless h := Ok (rh_prologue h);
  ts_write := ref_ts_write;
  ts_read := ref_ts_read |}.

Lemma ref_snow_laws : SnowLaws ref_snow.
Proof.
  split; cbn; unfold no_panic, ref_hs_write, ref_hs_read, ref_ts_write, ref_ts_read;
    intros; try (repeat case_match; simplify_eq; done).
  - apply length_to_be_bytes.
  - match goal with H : _ = Ok _ |- _ => cases_in H end.
    unfold ref_tag. rewrite len_app. unfold len at 2. by rewrite length_replicate.
  - match goal with H : _ = Ok _ |- _ => cases_in H end.
    match goal with H : (_ <? _)%nat = false |- _ => apply Nat.ltb_ge in H end.
    unfold len. rewrite length_take. lia.
Qed.

(** ** Properties *)

Section Properties.
Context {SN : Snow} {SL : SnowLaws SN}.

Lemma encrypt_frame m p s f :
  session_wf s -> (encrypt m p s).2 = Ok f ->
  frame_counter f = Some (send_counter s) /\
  send_counter (encrypt m p s).1 = send_counter s + 1 /\
  exists ct, f = encode_transport (session_id s) (send_counter s) ct /\
    packet_wf (Transport (session_id s) (send_counter s) ct) /\
    ts_write (transport s) (send_counter s) (encode_transport_plaintext m p)
      (len (encode_transport_plaintext m p) + AEAD_TAG_SIZE) = Ok ct.
Proof.
  intros [_ Hsend _ Hsid]. rewrite encrypt_eq.
  destruct (send_counter s =? U64_MAX); [done|]. cbn [fst snd].
  destruct (ts_write _ _ _ _) as [ct| |] eqn:Ew; try done. intros [= <-].
  assert (packet_wf (Transport (session_id s) (send_counter s) ct)) as Hwf.
  { repeat split; try done; try apply Hsend.
    apply ts_write_length in Ew. unfold encode_transport_plaintext, len in Ew. cbn [length] in Ew. lia. }
  split; [|split; [done|eauto]].
  unfold frame_counter. by rewrite decode_encode_transport.
Qed.

Lemma frames_counters ops s :
  session_wf s ->
  Forall (fun op => match op with OpDecrypt b => bytes_ok b | _ => True end) ops ->
  exists ns, frame_counter <$> frames ops s = Some <$> ns /\
    StronglySorted Z.lt ns /\ Forall (fun n => send_counter s <= n) ns.
Proof.
  intros Hs Hops. revert s Hs.
  induction Hops as [|[m p|b] ops Hop _ IH]; intros s Hs; cbn [frames].
  - exists []. repeat constructor.
  - destruct (encrypt m p s) as [s1 r] eqn:E.
    assert (Hs1 : session_wf s1) by (pose proof (encrypt_wf m p s Hs) as H; by rewrite E in H).
    pose proof (encrypt_counter m p s Hs) as Hle. rewrite E in Hle. cbn in Hle.
    destruct (IH s1 Hs1) as (ns & Hf & Hsort & Hlow).
    assert (Hlow' : Forall (fun n => send_counter s <= n) ns)
      by (eapply Forall_impl; [done|]; cbn; lia).
    destruct r as [f| |]; [|by exists ns..].
    destruct (encrypt_frame m p s f Hs) as (Hc & Hnext & _); [by rewrite E|].
    rewrite E in Hnext. cbn in Hnext.
    exists (send_counter s :: ns). cbn [fmap list_fmap]. rewrite Hc, Hf.
    split; [done|]. split; [|by constructor].
    constructor; [done|]. eapply Forall_impl; [exact Hlow|]. cbn. lia.
  - destruct (decrypt_packet_wf b s Hop Hs) as [Hs1 Hsend].
    destruct (IH _ Hs1) as (ns & Hf & Hsort & Hlow). rewrite Hsend in Hlow. by exists ns.
Qed.

Lemma strongly_sorted_nodup ns : StronglySorted Z.lt ns -> NoDup ns.
Proof.
  induction 1 as [|n ns _ IH Hlt]; constructor; [|done].
  intros Hin. rewrite Forall_forall in Hlt. specialize (Hlt n Hin). lia.
Qed.

(** C10: no AEAD nonce is ever reused under a session key: whatever the
    interleaving of encryptions and received packets, errors included, the
    frames a session emits carry strictly increasing counters. *)
Theorem nonces_never_reused ops sid t wall :
  length sid = SESSION_ID_SIZE ->
  Forall (fun op => match op with OpDecrypt b => bytes_ok b | _ => True end) ops ->
  exists ns, frame_counter <$> frames ops (Session_new sid t wall) = Some <$> ns /\
    StronglySorted Z.lt ns /\ NoDup ns.
Proof.
  intros Hsid Hops.
  destruct (frames_counters ops (Session_new sid t wall)) as (ns & Hf & Hs & _); auto using Session_new_wf.
  exists ns. auto using strongly_sorted_nodup.
Qed.

Lemma decrypt_np sid n ct s : session_wf s -> is_u64 n -> no_panic (decrypt sid n ct s).2.
Proof.
  intros [[seen Hw] _ _ _] Hn. rewrite (decrypt_eq _ _ _ _ seen Hw Hn).
  pose proof (ts_read_np (transport s) n ct (len ct - AEAD_TAG_SIZE)) as Hnp.
  destruct (mark_refines seen (replay s) n Hw Hn) as (w & -> & _).
  unfold no_panic, ok_or in *. by repeat (case_match; try done).
Qed.

Lemma encrypt_np m p s : no_panic (encrypt m p s).2.
Proof.
  rewrite encrypt_eq. pose proof (ts_write_np (transport s) (send_counter s)
    (encode_transport_plaintext m p) (len (encode_transport_plaintext m p) + AEAD_TAG_SIZE)).
  unfold no_panic in *. by repeat (case_match; cbn; try done).
Qed.

(** A packet changes a session only when its tag authenticates and its
    counter is fresh; in every other case - wrong session, replay, short or
    forged ciphertext - the session, its replay window included, is untouched
    and the caller gets an error, never a panic. *)
Theorem unauthenticated_packet_inert b s :
  bytes_ok b -> session_wf s ->
  let '(s', r) := decrypt_packet b s in
  no_panic r /\
  ((s' = s /\ is_ok r = false) \/
   exists n ct pt, decode_packet b = Some (Transport (session_id s) n ct) /\
     would_accept (replay s) n = Some true /\
     ts_read (transport s) n ct (len ct - AEAD_TAG_SIZE) = Ok pt /\
     would_accept (replay s') n = Some false).
Proof.
  intros Hb Hs. unfold decrypt_packet.
  destruct (decode_packet b) as [[k i m|sid n ct]|] eqn:Eb; [by split; [|left]| |by split; [|left]].
  assert (Hn : is_u64 n) by (by eapply decode_counter).
  destruct (decrypt sid n ct s) as [s' r] eqn:Ed.
  split; [by pose proof (decrypt_np sid n ct s Hs Hn) as H; rewrite Ed in H|].
  destruct (decrypt_cases sid n ct s Hs Hn) as [[E1 E2]|(pt & w & -> & Ha & Er & Em & E)].
  - left. rewrite Ed in E1, E2. cbn in *. split; [done|]. destruct r; try done. by edestruct E2.
  - right. rewrite Ed in E. injection E as -> ->. exists n, ct, pt. repeat split; try done.
    cbn. destruct Hs as [[seen Hw] _ _ _].
    destruct (mark_refines seen (replay s) n Hw Hn) as (w' & Em' & Hw').
    rewrite Em in Em'. injection Em' as Hf <-.
    rewrite (would_accept_spec _ _ _ Hw' Hn). f_equal. symmetry in Hf.
    unfold Spec.mark in *. destruct (Spec.acceptable seen n); cbn in *; [|done].
    unfold Spec.acceptable. by rewrite bool_decide_eq_false_2 by set_solver.
Qed.

Lemma encrypt_all_frames ms s fs :
  session_wf s -> encrypt_all ms s = Some fs ->
  forall i m p, ms !! i = Some (m, p) ->
    let n := send_counter s + Z.of_nat i in
    exists ct cap, fs !! i = Some (encode_transport (session_id s) n ct) /\
      packet_wf (Transport (session_id s) n ct) /\
      ts_write (transport s) n (encode_transport_plaintext m p) cap = Ok ct.
Proof.
  revert s fs. induction ms as [|[m0 p0] ms IH]; intros s fs Hs H i m p Hi; [done|].
  cbn [encrypt_all] in H. destruct (encrypt m0 p0 s) as [s1 [f| |]] eqn:E; try done.
  destruct (encrypt_all ms s1) as [fs1|] eqn:E1; [|done]. injection H as <-.
  destruct (encrypt_frame m0 p0 s f Hs) as (_ & Hnext & ct & -> & Hwf & Hw); [by rewrite E|].
  destruct i as [|i]; cbn in Hi.
  - injection Hi as <- <-. cbn zeta. rewrite Z.add_0_r. eauto.
  - pose proof (encrypt_wf m0 p0 s Hs) as Hs1. rewrite E in Hs1, Hnext. cbn in Hs1, Hnext.
    assert (session_id s1 = session_id s /\ transport s1 = transport s) as [Esid Et].
    { rewrite encrypt_eq in E. by cases_in E. }
    destruct (IH s1 fs1 Hs1 E1 i m p Hi) as (ct' & cap & Hf & Hwf' & Hw').
    rewrite Hnext, Esid, Et in *.
    replace (send_counter s + Z.of_nat (S i)) with (send_counter s + 1 + Z.of_nat i) by lia. eauto.
Qed.

(** Both ends hold the two halves of one AEAD key. *)
Definition paired (ta tb : StatelessTransportState) : Prop :=
  forall n p cap c, ts_write ta n p cap = Ok c -> ts_read tb n c (len c - AEAD_TAG_SIZE) = Ok p.

(** What the receiver returns for the message with index [i]. *)
Definition delivery (ms : list (MsgType.t * bytes)) (i : nat) (fresh : bool)
    : outcome NoiseError (MsgType.t * bytes) :=
  if fresh then ok_or MalformedTransport (ms !! i) else Err Replay_.

Lemma deliver_step ta s seen n ct m p cap :
  paired ta (transport s) -> window_inv seen (replay s) ->
  packet_wf (Transport (session_id s) n ct) ->
  ts_write ta n (encode_transport_plaintext m p) cap = Ok ct ->
  exists s', decrypt_packet (encode_transport (session_id s) n ct) s =
      (s', if fst (Spec.mark seen n) then Ok (m, p) else Err Replay_) /\
    window_inv (snd (Spec.mark seen n)) (replay s') /\
    session_id s' = session_id s /\ transport s' = transport s.
Proof.
  intros Hpair Hw Hwf Hwr. unfold decrypt_packet. rewrite decode_encode_transport by done.
  destruct Hwf as (_ & Hn & Hct). rewrite (decrypt_eq _ _ _ _ seen Hw Hn).
  rewrite bool_decide_eq_true_2 by done. cbn [negb].
  destruct (mark_refines seen (replay s) n Hw Hn) as (w & Em & Hw').
  unfold Spec.mark in *. destruct (Spec.acceptable seen n); cbn [negb fst snd] in *; [|eauto].
  rewrite (proj2 (Z.ltb_ge _ _)) by (unfold len, AEAD_TAG_SIZE; lia).
  rewrite (Hpair _ _ _ _ Hwr), Em. rewrite plaintext_round_trip. cbn. eauto.
Qed.

Lemma deliver_refines ta ms (fs : list (list Z)) base idx s seen :
  paired ta (transport s) -> window_inv seen (replay s) ->
  (forall i m p, ms !! i = Some (m, p) ->
    exists ct cap, fs !! i = Some (encode_transport (session_id s) (base + Z.of_nat i) ct) /\
      packet_wf (Transport (session_id s) (base + Z.of_nat i) ct) /\
      ts_write ta (base + Z.of_nat i) (encode_transport_plaintext m p) cap = Ok ct) ->
  Forall (fun i => i < length ms)%nat idx ->
  deliver ((fun i => default [] (fs !! i)) <$> idx) s =
    zip_with (delivery ms) idx (Spec.run seen ((fun i => base + Z.of_nat i) <$> idx)).1.
Proof.
  intros Hpair Hw Hfs Hidx. revert s seen Hpair Hw Hfs.
  induction Hidx as [|i idx Hi _ IH]; intros s seen Hpair Hw Hfs; [done|].
  destruct (lookup_lt_is_Some_2 ms i Hi) as [[m p] Hmp].
  destruct (Hfs i m p Hmp) as (ct & cap & Hf & Hwf & Hwr).
  destruct (deliver_step ta s seen _ ct m p cap Hpair Hw Hwf Hwr) as (s' & Ed & Hw' & Es & Et).
  rewrite !fmap_cons. cbn [deliver]. rewrite Hf. cbn [from_option id]. rewrite Ed. cbn [Spec.run].
  destruct (Spec.mark seen (base + Z.of_nat i)) as [b seen'] eqn:Em. cbn [fst snd] in *.
  rewrite (IH s' seen') by (rewrite ?Et, ?Es; auto).
  destruct (Spec.run seen' _) as [bs seen'']. cbn [zip_with fst]. f_equal.
  unfold delivery. by rewrite Hmp.
Qed.

(** Two sessions that hold one key deliver every message exactly once:
    whatever packets of the sender arrive, in any order and with any
    duplicates and losses, the receiver returns the original message type and
    payload for a packet its window accepts and [Replay] for any other. *)
Theorem session_delivery sid ta tb wall wall' ms (fs : list (list Z)) idx :
  length sid = SESSION_ID_SIZE -> paired ta tb ->
  encrypt_all ms (Session_new sid ta wall) = Some fs ->
  Forall (fun i => i < length ms)%nat idx ->
  deliver ((fun i => default [] (fs !! i)) <$> idx) (Session_new sid tb wall') =
    zip_with (delivery ms) idx (Spec.run [] (Z.of_nat <$> idx)).1.
Proof.
  intros Hsid Hpair He Hidx.
  rewrite (deliver_refines ta ms fs 0 idx (Session_new sid tb wall') []).
  - done.
  - done.
  - apply new_inv.
  - intros i m p Hi.
    by apply (encrypt_all_frames ms _ fs (Session_new_wf sid ta wall Hsid) He i m p).
  - done.
Qed.

Lemma is_expired_time s now :
  is_expired s now = true <->
  from_secs 180 <= now - created_at s \/ send_counter s = U64_MAX.
Proof.
  unfold is_expired, saturating_duration_since, REJECT_AFTER_TIME.
  rewrite orb_true_iff, Z.geb_le, Z.eqb_eq. unfold from_secs. lia.
Qed.

Lemma should_rekey_iff s now :
  should_rekey s now = true <->
  from_secs 120 <= now - created_at s \/ 2 ^ 32 <= send_counter s \/ 2 ^ 32 <= received_messages s.
Proof.
  unfold should_rekey, saturating_duration_since, REKEY_AFTER_TIME, REKEY_AFTER_MESSAGES.
  rewrite !orb_true_iff, !Z.geb_le. change (Z.shiftl 1 32) with (2 ^ 32). unfold from_secs. lia.
Qed.

(** A session asks for a rekey at 120 s or 2^32 messages, always before
    it is rejected at 180 s; an encryption on a session that is not expired
    never fails for lack of counters. *)
Theorem rekey_before_expiry s now :
  session_wf s ->
  (is_expired s now = true -> should_rekey s now = true) /\
  (is_expired s now = false -> forall m p, (encrypt m p s).2 <> Err CounterExhausted).
Proof.
  intros Hs. split.
  - rewrite is_expired_time, should_rekey_iff. unfold from_secs, U64_MAX. lia.
  - intros He m p. rewrite encrypt_eq.
    destruct (Z.eqb_spec (send_counter s) U64_MAX) as [E|].
    + assert (is_expired s now = true) by (apply is_expired_time; auto). congruence.
    + cbn. by case_match.
Qed.

Lemma responder_respond_ok local expected psk hid message wall r r' rh :
  responder_respond local expected psk hid message wall r = (r', Ok rh) ->
  (exists h payload h', build_responder local psk (handshake_prologue hid) = Ok h /\
     hs_read h message MAX_NOISE_MESSAGE_SIZE = Ok (payload, h') /\
     payload = [] /\ get_remote_static h' = Some expected) /\
  session_wf (rh_session rh) /\ created_at (rh_session rh) = wall /\
  send_counter (rh_session rh) = 0 /\ replay (rh_session rh) = ReplayWindow_new.
Proof.
  unfold responder_respond, mlift, mfail, draw, noise_write, mbind, M_bind, mret, M_ret.
  destruct (build_responder _ _ _) as [h| |] eqn:Eb; try done. cbn [map_err].
  destruct (hs_read h message _) as [[payload h']| |] eqn:Er; try done. cbn [map_err].
  destruct (length payload) eqn:El; [|done]. cbn [Nat.eqb negb].
  destruct (get_remote_static h') as [rs|] eqn:Eg; [|done]. cbn [ok_or].
  case_bool_decide as Hrs; [|done]. cbn [negb].
  destruct (fill_bytes r SESSION_ID_SIZE) as [sid r1] eqn:Ef.
  destruct (hs_write h' sid MAX_NOISE_MESSAGE_SIZE r1) as [r2 [[resp h2]| |]]; try done.
  cbn [map_err]. destruct (into_stateless h2) as [t| |]; try done. cbn [map_err].
  intros [= <- <-]. cbn [rh_session]. split.
  - exists h, payload, h'. apply nil_length_inv in El. repeat split; congruence.
  - repeat split; try done; cbn; [eexists; apply new_inv|].
    pose proof (fill_bytes_length r SESSION_ID_SIZE) as Hl. by rewrite Ef in Hl.
Qed.

(** A responder answers only an initiator whose static key is exactly
    the configured one, and the session it opens is fresh: a new 8-byte
    identifier, counters at zero and an empty replay window. *)
Theorem responder_checks_static local expected psk hid message wall r r' rh :
  responder_respond local expected psk hid message wall r = (r', Ok rh) ->
  (exists h payload h', build_responder local psk (handshake_prologue hid) = Ok h /\
     hs_read h message MAX_NOISE_MESSAGE_SIZE = Ok (payload, h') /\
     payload = [] /\ get_remote_static h' = Some expected) /\
  session_wf (rh_session rh) /\ created_at (rh_session rh) = wall /\
  send_counter (rh_session rh) = 0 /\ replay (rh_session rh) = ReplayWindow_new.
Proof. apply responder_respond_ok. Qed.
End Properties.

(** ** Witnesses on the reference instance *)

Lemma ref_paired key : paired (SN := ref_snow) key key.
Proof.
  intros n p cap c. cbn. unfold ref_ts_write, ref_ts_read.
  destruct (_ || _)%bool; [done|]. intros [= <-].
  assert (length (ref_tag key n p) = 16%nat) as Ht by apply length_replicate.
  rewrite length_app, Ht. rewrite (proj2 (Nat.ltb_ge _ _)) by lia.
  rewrite Nat.add_sub, take_app_length, drop_app_length.
  by rewrite bool_decide_eq_true_2.
Qed.

Definition wit_sid : bytes := [1; 2; 3; 4; 5; 6; 7; 8].
Definition wit_key : bytes := [9; 9; 9].
Definition wit_msgs : list (MsgType.t * bytes) :=
  [(MsgType.Data, [69; 0]); (MsgType.Keepalive, KEEPALIVE_PROBE_PAYLOAD); (MsgType.Data, [])].
Definition wit_session : @Session ref_snow := Session_new (SN := ref_snow) wit_sid wit_key 0.
Definition wit_frames : list bytes := default [] (encrypt_all wit_msgs wit_session).
Definition wit_frame : bytes := default [] (wit_frames !! 0%nat).

Lemma wit_session_wf : session_wf wit_session.
Proof. by apply Session_new_wf. Qed.

Lemma nonces_never_reused_witness :
  exists ns, frame_counter <$> frames
      [OpEncrypt MsgType.Data [1]; OpDecrypt wit_frame; OpEncrypt MsgType.Data (replicate 100 0);
       OpDecrypt wit_frame; OpEncrypt MsgType.Keepalive []] wit_session = Some <$> ns /\
    StronglySorted Z.lt ns /\ NoDup ns.
Proof.
  apply (nonces_never_reused (SL := ref_snow_laws)).
  - reflexivity.
  - repeat (apply Forall_cons_2; [first [exact I|vm_compute; repeat constructor; discriminate]|]).
    apply Forall_nil_2.
Defined.

Lemma unauthenticated_packet_inert_witness :
  let forged := take 30 wit_frame ++ replicate 7 0 in
  is_ok (decrypt_packet forged wit_session).2 = false /\
  (let '(s', r) := decrypt_packet forged wit_session in no_panic r).
Proof.
  cbn zeta. split; [vm_compute; reflexivity|].
  assert (bytes_ok (take 30 wit_frame ++ replicate 7 0)) as Hb
    by (vm_compute; repeat constructor; discriminate).
  pose proof (unauthenticated_packet_inert (SL := ref_snow_laws)
    (take 30 wit_frame ++ replicate 7 0) wit_session Hb wit_session_wf) as H.
  destruct (decrypt_packet _ wit_session). exact (proj1 H).
Defined.

Lemma session_delivery_witness :
  to_option <$> deliver ((fun i => default [] (wit_frames !! i)) <$> [2; 0; 2; 1; 0]%nat) wit_session =
    [Some (MsgType.Data, []); Some (MsgType.Data, [69; 0]); None;
     Some (MsgType.Keepalive, [1]); None].
Proof.
  etransitivity; [apply f_equal|].
  - apply (session_delivery (SL := ref_snow_laws) wit_sid wit_key wit_key 0 0 wit_msgs
      wit_frames [2; 0; 2; 1; 0]%nat).
    + reflexivity.
    + apply ref_paired.
    + vm_compute. reflexivity.
    + repeat (apply Forall_cons_2; [cbn; lia|]). apply Forall_nil_2.
  - vm_compute. reflexivity.
Defined.

Lemma rekey_before_expiry_witness :
  is_expired wit_session (from_secs 180) = true /\
  should_rekey wit_session (from_secs 180) = true /\ should_rekey wit_session (from_secs 119) = false.
Proof.
  split; [reflexivity|]. split; [|reflexivity].
  apply (rekey_before_expiry wit_session); [apply wit_session_wf|reflexivity].
Defined.

Definition wit_initiator (r : Z) : Z * outcome (@NoiseError ref_snow) (@InitiatorHandshake ref_snow) :=
  initiator_start (SN := ref_snow) (replicate 32 1) (replicate 32 2) (replicate 32 3) r.
Definition wit_msg1 : bytes := match wit_initiator 77 with (_, Ok h) => ih_message h | _ => [] end.
Definition wit_respond (expected : bytes) : Z * outcome (@NoiseError ref_snow) (@ResponderHandshake ref_snow) :=
  responder_respond (SN := ref_snow) (replicate 32 2) expected (replicate 32 3)
    (to_be_bytes 8 77) wit_msg1 5 1000.
Definition wit_rh : @ResponderHandshake ref_snow :=
  match wit_respond (replicate 32 1) with
  | (_, Ok rh) => rh
  | _ => {| rh_message := []; rh_session := wit_session |}
  end.

Lemma wit_respond_ok : wit_respond (replicate 32 1) = (1001, Ok wit_rh).
Proof. reflexivity. Qed.

Lemma responder_checks_static_witness :
  is_ok (wit_respond (replicate 32 4)).2 = false /\ session_wf (rh_session wit_rh).
Proof.
  split; [vm_compute; reflexivity|].
  exact (proj1 (proj2 (responder_checks_static (SL := ref_snow_laws) _ _ _ _ _ _ _ _ _ wit_respond_ok))).
Defined.
