(* ===== verification/Sessions.v ===== *)
(** * Session manager ([src/src/engine.rs], [SessionManager])

    The per-peer cryptographic state: one active session, one receive-only
    previous session, one responder candidate, one pending initiation and one
    cached response per peer.  Each method holds the mutex from its first to
    its last line, so a method is one atomic transition of [SessionState];
    [SessionInv.sm_step] and [SessionInv.reachable] are their arbitrary interleaving.
    [now] is the caller's clock, [wall] the value of [Instant::now()]. *)

From stdpp Require Import sorting.
From S2P Require Import Prelude Auth Replay Noise.

Definition HANDSHAKE_RETRY_INTERVAL : Duration := from_secs 5.
Definition HANDSHAKE_ATTEMPT_LIFETIME : Duration := from_secs 30.
Definition HANDSHAKE_CACHE_LIFETIME : Duration := from_secs 60.

(** [Ord] of byte arrays: lexicographic. *)
Fixpoint bytes_le (a b : bytes) : bool :=
  match a, b with
  | [], _ => true
  | _ :: _, [] => false
  | x :: a, y :: b => (x <? y) || ((x =? y) && bytes_le a b)
  end.

Section Manager.
Context {SN : Snow}.

Record PendingInitiator := {
  pi_handshake_id : bytes;
  pi_state : InitiatorState;
  pi_packet : bytes;
  pi_created_at : Instant;
  pi_last_sent : Instant }.

Record CachedResponderHandshake := {
  ch_handshake_id : bytes;
  ch_request : bytes;
  ch_response : bytes;
  ch_created_at : Instant }.

Record SessionState := {
  sessions : gmap string Session;
  previous_sessions : gmap string Session;
  responder_candidates : gmap string Session;
  pending_init : gmap string PendingInitiator;
  responder_cache : gmap string CachedResponderHandshake;
  inbound_recovery_preference : gset string }.

Definition SessionState_default : SessionState :=
  {| sessions := ∅; previous_sessions := ∅; responder_candidates := ∅;
     pending_init := ∅; responder_cache := ∅; inbound_recovery_preference := ∅ |}.

Definition set_sessions (f : gmap string Session -> gmap string Session) (st : SessionState) :=
  {| sessions := f (sessions st); previous_sessions := previous_sessions st;
     responder_candidates := responder_candidates st; pending_init := pending_init st;
     responder_cache := responder_cache st;
     inbound_recovery_preference := inbound_recovery_preference st |}.
Definition set_previous (f : gmap string Session -> gmap string Session) (st : SessionState) :=
  {| sessions := sessions st; previous_sessions := f (previous_sessions st);
     responder_candidates := responder_candidates st; pending_init := pending_init st;
     responder_cache := responder_cache st;
     inbound_recovery_preference := inbound_recovery_preference st |}.
Definition set_candidates (f : gmap string Session -> gmap string Session) (st : SessionState) :=
  {| sessions := sessions st; previous_sessions := previous_sessions st;
     responder_candidates := f (responder_candidates st); pending_init := pending_init st;
     responder_cache := responder_cache st;
     inbound_recovery_preference := inbound_recovery_preference st |}.
Definition set_pending (f : gmap string PendingInitiator -> gmap string PendingInitiator)
    (st : SessionState) :=
  {| sessions := sessions st; previous_sessions := previous_sessions st;
     responder_candidates := responder_candidates st; pending_init := f (pending_init st);
     responder_cache := responder_cache st;
     inbound_recovery_preference := inbound_recovery_preference st |}.
Definition set_cache
    (f : gmap string CachedResponderHandshake -> gmap string CachedResponderHandshake)
    (st : SessionState) :=
  {| sessions := sessions st; previous_sessions := previous_sessions st;
     responder_candidates := responder_candidates st; pending_init := pending_init st;
     responder_cache := f (responder_cache st);
     inbound_recovery_preference := inbound_recovery_preference st |}.
Definition set_preference (f : gset string -> gset string) (st : SessionState) :=
  {| sessions := sessions st; previous_sessions := previous_sessions st;
     responder_candidates := responder_candidates st; pending_init := pending_init st;
     responder_cache := responder_cache st;
     inbound_recovery_preference := f (inbound_recovery_preference st) |}.

Record DecryptedTransport := {
  dt_peer_name : string;
  dt_msg_type : MsgType.t;
  dt_payload : bytes;
  dt_promoted : bool }.

(** [map.retain(|_, session| !session.is_expired(now))]. *)
Definition retain_live (now : Instant) (m : gmap string Session) : gmap string Session :=
  filter (fun p => is_expired p.2 now = false) m.

(** [map.get(peer).is_some_and(f)]. *)
Definition get_is {A} (m : gmap string A) (peer : string) (f : A -> bool) : bool :=
  match m !! peer with Some a => f a | None => false end.

(** [map.iter().find_map(..)] on the session identifier.  Rust leaves the
    iteration order of a [HashMap] open; identifiers are unique, so the
    order does not matter here ([SessionInv.find_session_unique]). *)
Definition find_session (m : gmap string Session) (sid : bytes) : option string :=
  (fun p => p.2.1) <$> list_find (fun p => session_id p.2 = sid) (map_to_list m).

Definition find_pending (m : gmap string PendingInitiator) (hid : bytes) : option string :=
  (fun p => p.2.1) <$> list_find (fun p => pi_handshake_id p.2 = hid) (map_to_list m).

Definition in_use (m : gmap string Session) (sid : bytes) : bool :=
  match find_session m sid with Some _ => true | None => false end.

Definition session_id_in_use (st : SessionState) (sid : bytes) : bool :=
  in_use (sessions st) sid || in_use (previous_sessions st) sid
  || in_use (responder_candidates st) sid.

Definition install_active_session (peer : string) (s : Session) (st : SessionState) : SessionState :=
  let st := set_preference (fun p => p ∖ {[peer]}) st in
  let old := sessions st !! peer in
  let st := set_sessions <[peer := s]> st in
  match old with
  | Some previous => set_previous <[peer := previous]> st
  | None => st
  end.

Definition encrypt_for_peer (peer : string) (m : MsgType.t) (payload : bytes) (now : Instant)
    : M SessionState NoiseError (option bytes) := fun st =>
  let st := set_previous (retain_live now) st in
  let st := if get_is (sessions st) peer (fun s => is_expired s now)
            then set_sessions (delete peer) st else st in
  match sessions st !! peer with
  | Some s => let '(s, r) := encrypt m payload s in (set_sessions <[peer := s]> st, Some <$> r)
  | None => (st, Ok None)
  end.

(** Decrypt with the session of [peer] in one of the maps; a missing entry is
    the [expect] that fails. *)
Definition decrypt_in (get : SessionState -> gmap string Session)
    (set : (gmap string Session -> gmap string Session) -> SessionState -> SessionState)
    (peer : string) (sid : bytes) (counter : u64) (ciphertext : bytes)
    : M SessionState NoiseError (MsgType.t * bytes) := fun st =>
  match get st !! peer with
  | Some s => let '(s, r) := decrypt sid counter ciphertext s in (set <[peer := s]> st, r)
  | None => (st, Panic)
  end.

Definition decrypt_transport (sid : bytes) (counter : u64) (ciphertext : bytes) (now : Instant)
    : M SessionState NoiseError (option DecryptedTransport) :=
  _ ← mmodify (set_sessions (retain_live now));
  _ ← mmodify (set_previous (retain_live now));
  _ ← mmodify (set_candidates (retain_live now));
  st ← mget;
  match find_session (sessions st) sid with
  | Some peer =>
      '(m, payload) ← decrypt_in sessions set_sessions peer sid counter ciphertext;
      mret (Some {| dt_peer_name := peer; dt_msg_type := m; dt_payload := payload; dt_promoted := false |})
  | None =>
  match find_session (previous_sessions st) sid with
  | Some peer =>
      '(m, payload) ← decrypt_in previous_sessions set_previous peer sid counter ciphertext;
      mret (Some {| dt_peer_name := peer; dt_msg_type := m; dt_payload := payload; dt_promoted := false |})
  | None =>
  match find_session (responder_candidates st) sid with
  | None => mret None
  | Some peer =>
      '(m, payload) ← decrypt_in responder_candidates set_candidates peer sid counter ciphertext;
      st ← mget;
      session ← mlift (expect (responder_candidates st !! peer));
      _ ← mmodify (set_candidates (delete peer));
      _ ← mmodify (install_active_session peer session);
      _ ← mmodify (set_pending (delete peer));
      _ ← mmodify (set_cache (delete peer));
      mret (Some {| dt_peer_name := peer; dt_msg_type := m; dt_payload := payload; dt_promoted := true |})
  end end end.

Definition store_responder_candidate (peer : string) (session : Session)
    (hid request response : bytes) (wall : Instant) (st : SessionState) : SessionState * bool :=
  if session_id_in_use st (session_id session) then (st, false) else
  let st := set_pending (delete peer) st in
  let st := set_candidates <[peer := session]> st in
  let st := set_cache <[peer := {| ch_handshake_id := hid; ch_request := request;
                                   ch_response := response; ch_created_at := wall |}]> st in
  (st, true).

Definition cached_responder_response (peer : string) (hid request : bytes) (wall : Instant)
    (st : SessionState) : SessionState * option bytes :=
  if get_is (responder_cache st) peer
       (fun c => saturating_duration_since wall (ch_created_at c) >=? HANDSHAKE_CACHE_LIFETIME)
  then (set_candidates (delete peer) (set_cache (delete peer) st), None)
  else
    match responder_cache st !! peer with
    | None => (st, None)
    | Some c =>
        (st, if bool_decide (ch_handshake_id c = hid) && bool_decide (ch_request c = request)
             then Some (ch_response c) else None)
    end.

Definition accept_inbound_initiation (peer : string) (remote_id : bytes) (passive : bool)
    (wall : Instant) (st : SessionState) : SessionState * bool :=
  let st := if get_is (pending_init st) peer
                 (fun p => saturating_duration_since wall (pi_created_at p) >=? HANDSHAKE_ATTEMPT_LIFETIME)
            then set_pending (delete peer) st else st in
  if passive && bool_decide (peer ∈ inbound_recovery_preference st)
  then (set_pending (delete peer) (set_preference (fun p => p ∖ {[peer]}) st), true)
  else
    match pending_init st !! peer with
    | None => (st, true)
    | Some local =>
        if bytes_le (pi_handshake_id local) remote_id then (st, false)
        else (set_pending (delete peer) st, true)
    end.

(** The state threaded here is the manager's and the entropy source. *)
Definition start_or_retry_handshake (peer : string) (local_static remote_static_pub psk : bytes)
    (now : Instant) : M (SessionState * Rng) NoiseError (option bytes) := fun '(st, rng) =>
  let st := if get_is (pending_init st) peer
                 (fun p => saturating_duration_since now (pi_created_at p) >=? HANDSHAKE_ATTEMPT_LIFETIME)
            then set_pending (delete peer) st else st in
  match pending_init st !! peer with
  | Some p =>
      if saturating_duration_since now (pi_last_sent p) <? HANDSHAKE_RETRY_INTERVAL
      then ((st, rng), Ok None)
      else
        let p := {| pi_handshake_id := pi_handshake_id p; pi_state := pi_state p;
                    pi_packet := pi_packet p; pi_created_at := pi_created_at p;
                    pi_last_sent := now |} in
        ((set_pending <[peer := p]> st, rng), Ok (Some (pi_packet p)))
  | None =>
      let st := if get_is (responder_candidates st) peer (fun s => is_expired s now)
                then set_cache (delete peer) (set_candidates (delete peer) st) else st in
      if get_is (responder_candidates st) peer (fun _ => true) then ((st, rng), Ok None) else
      let st := if get_is (sessions st) peer (fun s => is_expired s now)
                then set_sessions (delete peer) st else st in
      if get_is (sessions st) peer (fun s => negb (should_rekey s now)) then ((st, rng), Ok None) else
      match initiator_start local_static remote_static_pub psk rng with
      | (rng, Ok h) =>
          let packet := encode_handshake PacketKind.HandshakeInit (ih_handshake_id h) (ih_message h) in
          ((set_pending <[peer := {| pi_handshake_id := ih_handshake_id h; pi_state := ih_state h;
                                     pi_packet := packet; pi_created_at := now;
                                     pi_last_sent := now |}]> st, rng), Ok (Some packet))
      | (rng, Err e) => ((st, rng), Err e)
      | (rng, Panic) => ((st, rng), Panic)
      end
  end.

Definition finalize_initiator (hid response : bytes) (wall : Instant)
    : M SessionState NoiseError (option (string * bytes)) :=
  st ← mget;
  match find_pending (pending_init st) hid with
  | None => mret None
  | Some peer =>
      pending ← mlift (expect (pending_init st !! peer));
      _ ← mmodify (set_pending (delete peer));
      session ← mlift (initiator_finalize (pi_state pending) response wall);
      st ← mget;
      if session_id_in_use st (session_id session) then mfail WrongSession else
      let '(session, confirmation) := encrypt MsgType.Keepalive KEEPALIVE_PROBE_PAYLOAD session in
      confirmation ← mlift confirmation;
      _ ← mmodify (install_active_session peer session);
      _ ← mmodify (set_candidates (delete peer));
      _ ← mmodify (set_cache (delete peer));
      mret (Some (peer, confirmation))
  end.

Definition has_pending_init (peer : string) (st : SessionState) : bool :=
  get_is (pending_init st) peer (fun _ => true).

Definition has_active_session (peer : string) (wall : Instant) (st : SessionState) : bool :=
  get_is (sessions st) peer (fun s => negb (is_expired s wall)).

Definition is_some {A} (o : option A) : bool := match o with Some _ => true | None => false end.

Definition invalidate_peer (peer : string) (st : SessionState) : SessionState * bool :=
  let removed_session := is_some (sessions st !! peer) in
  let st := set_sessions (delete peer) st in
  let removed_previous := is_some (previous_sessions st !! peer) in
  let st := set_previous (delete peer) st in
  let removed_candidate := is_some (responder_candidates st !! peer) in
  let st := set_candidates (delete peer) st in
  let removed_pending := is_some (pending_init st !! peer) in
  let st := set_pending (delete peer) st in
  let st := set_cache (delete peer) st in
  let st := set_preference (fun p => {[peer]} ∪ p) st in
  (st, removed_session || removed_previous || removed_candidate || removed_pending).

Definition active_session_id (peer : string) (st : SessionState) : option bytes :=
  session_id <$> sessions st !! peer.
End Manager.
