(* ===== verification/SessionInv.v ===== *)
(** * Session manager: invariant and properties

    The manager's methods as a labelled step relation ([sm_step]), the states
    it can reach from the empty one, the invariant of those states and what
    follows from it. *)

From S2P Require Import Prelude Auth Replay Noise Sessions.

(** ** Evolution of one session *)

Section Evolution.
Context {SN : Snow}.

(** [s'] is [s] after some encryptions and received packets. *)
Record sess_le (s s' : Session) : Prop := {
  le_id : session_id s' = session_id s;
  le_transport : transport s' = transport s;
  le_created : created_at s' = created_at s;
  le_sent : send_counter s <= send_counter s';
  le_wf : session_wf s -> session_wf s';
  le_seen : forall n, is_u64 n -> would_accept (replay s) n = Some false ->
                      would_accept (replay s') n = Some false }.

Lemma sess_le_refl s : sess_le s s.
Proof. by split. Qed.

Lemma sess_le_trans s1 s2 s3 : sess_le s1 s2 -> sess_le s2 s3 -> sess_le s1 s3.
Proof. intros [] []. split; try congruence; auto. lia. Qed.

Lemma encrypt_le m p s : session_wf s -> sess_le s (encrypt m p s).1.
Proof.
  intros Hs. pose proof (encrypt_wf m p s Hs). pose proof (encrypt_counter m p s Hs).
  rewrite encrypt_eq in *. by case_match.
Qed.

Lemma acceptable_mono seen c n :
  Spec.acceptable seen n = false -> Spec.acceptable (c :: seen) n = false.
Proof.
  unfold Spec.acceptable. cbn [forallb]. intros [H|H]%andb_false_iff; apply andb_false_iff.
  - left. rewrite !bool_decide_eq_false in *. set_solver.
  - right. by rewrite H, andb_false_r.
Qed.

Lemma mark_acceptable_mono seen c n :
  Spec.acceptable seen n = false -> Spec.acceptable (Spec.mark seen c).2 n = false.
Proof. unfold Spec.mark. case_match; cbn; auto using acceptable_mono. Qed.

Lemma decrypt_le sid n ct s : session_wf s -> is_u64 n -> sess_le s (decrypt sid n ct s).1.
Proof.
  intros Hs Hn. pose proof (decrypt_wf sid n ct s Hs Hn).
  destruct (decrypt_cases sid n ct s Hs Hn) as [[E _]|(pt & w & _ & _ & _ & Em & E)];
    rewrite E in *; cbn in *; [by apply sess_le_refl|].
  split; cbn; try done; try lia. intros c Hc Hd.
  destruct Hs as [[seen Hw] _ _ _].
  destruct (mark_refines seen (replay s) n Hw Hn) as (w' & Em' & Hw'). simplify_eq.
  rewrite (would_accept_spec _ _ _ Hw) in Hd by done. simplify_eq.
  rewrite (would_accept_spec _ _ _ Hw') by done. f_equal.
  by apply mark_acceptable_mono.
Qed.

(** An accepted packet is dead afterwards. *)
Lemma decrypt_ok_dead sid n ct s r :
  session_wf s -> is_u64 n -> (decrypt sid n ct s).2 = Ok r ->
  sid = session_id s /\ would_accept (replay s) n = Some true /\
  would_accept (replay (decrypt sid n ct s).1) n = Some false.
Proof.
  intros Hs Hn Hok.
  destruct (decrypt_cases sid n ct s Hs Hn) as [[_ E]|(pt & w & -> & Ha & _ & Em & E)];
    [by edestruct E|]. rewrite E. split_and!; [done..|]. cbn.
  destruct Hs as [[seen Hw] _ _ _].
  destruct (mark_refines seen (replay s) n Hw Hn) as (w' & Em' & Hw'). simplify_eq.
  rewrite (would_accept_spec _ _ _ Hw' Hn). f_equal.
  unfold Spec.mark in *. destruct (Spec.acceptable seen n); cbn in *; [|done].
  unfold Spec.acceptable. by rewrite bool_decide_eq_false_2 by set_solver.
Qed.

(** A dead counter is rejected without looking at the packet. *)
Lemma decrypt_dead sid n ct s :
  would_accept (replay s) n = Some false -> is_ok (decrypt sid n ct s).2 = false.
Proof.
  intros Hd. unfold decrypt, mget, mput, mlift, mfail, mret, M_ret, mbind, M_bind.
  destruct (negb _); [done|]. by rewrite Hd.
Qed.
End Evolution.

#[export] Hint Resolve sess_le_refl encrypt_le decrypt_le : hushwire.

(** ** The slots of the manager *)

Inductive slot := Active | Previous | Candidate.

#[export] Instance slot_eq_dec : EqDecision slot.
Proof. solve_decision. Defined.

Section Slots.
Context {SN : Snow}.

Definition slot_of (st : SessionState) (k : slot) : gmap string Session :=
  match k with
  | Active => sessions st
  | Previous => previous_sessions st
  | Candidate => responder_candidates st
  end.

(** All sessions are well formed and no identifier names two sessions. *)
Record slots_wf (f : slot -> gmap string Session) : Prop := {
  slots_ok : forall k p s, f k !! p = Some s -> session_wf s;
  slots_inj : forall k p s k' p' s', f k !! p = Some s -> f k' !! p' = Some s' ->
    session_id s = session_id s' -> k = k' /\ p = p' }.

(** The invariant: besides the sessions, a candidate has its cached response,
    a peer never has both a candidate and a pending initiation, and the
    recovery preference is set only while the peer has no active session. *)
Record sm_wf (st : SessionState) : Prop := {
  wf_slots : slots_wf (slot_of st);
  wf_cached : forall p, is_Some (responder_candidates st !! p) -> is_Some (responder_cache st !! p);
  wf_exclusive : forall p, is_Some (pending_init st !! p) -> responder_candidates st !! p = None;
  wf_preference : forall p, p ∈ inbound_recovery_preference st -> sessions st !! p = None }.

(** Every session of [m'] is the same peer's session of [m], evolved. *)
Definition map_ev (m m' : gmap string Session) : Prop :=
  forall p s', m' !! p = Some s' -> exists s, m !! p = Some s /\ sess_le s s'.

Lemma map_ev_refl m : map_ev m m.
Proof. intros p s H. eauto with hushwire. Qed.

Lemma map_ev_trans m1 m2 m3 : map_ev m1 m2 -> map_ev m2 m3 -> map_ev m1 m3.
Proof.
  intros H1 H2 p s3 (s2 & (s1 & ? & ?)%H1 & ?)%H2. eauto using sess_le_trans.
Qed.

Lemma map_ev_delete m p : map_ev m (delete p m).
Proof. intros q s [_ H]%lookup_delete_Some. eauto with hushwire. Qed.

Lemma retain_live_Some now m p s :
  retain_live now m !! p = Some s <-> m !! p = Some s /\ is_expired s now = false.
Proof. unfold retain_live. by rewrite map_lookup_filter_Some. Qed.

Lemma map_ev_retain now m : map_ev m (retain_live now m).
Proof. intros q s [H _]%retain_live_Some. eauto with hushwire. Qed.

Lemma map_ev_insert m p s s' : m !! p = Some s -> sess_le s s' -> map_ev m (<[p := s']> m).
Proof.
  intros Hm Hle q s'' [[<- <-]|[_ H]]%lookup_insert_Some; eauto with hushwire.
Qed.

Lemma ev_wf f g : slots_wf f -> (forall k, map_ev (f k) (g k)) -> slots_wf g.
Proof.
  intros [Hok Hinj] Hev. split.
  - intros k p s' (s & Hs & Hle)%Hev. apply Hle. eauto.
  - intros k p s k' p' s' (s0 & H0 & Hle0)%Hev (s1 & H1 & Hle1)%Hev E.
    rewrite (le_id _ _ Hle0), (le_id _ _ Hle1) in E. eauto.
Qed.

(** A session with a fresh identifier may enter any slot. *)
Definition fresh_in (f : slot -> gmap string Session) (s : Session) : Prop :=
  forall k p s0, f k !! p = Some s0 -> session_id s0 <> session_id s.

Lemma fresh_ev f g s : fresh_in f s -> (forall k, map_ev (f k) (g k)) -> fresh_in g s.
Proof. intros Hf Hev k p s' (s0 & H0 & Hle)%Hev. rewrite (le_id _ _ Hle). eauto. Qed.

Lemma fresh_wf f g k p s :
  slots_wf f -> fresh_in f s -> session_wf s ->
  g k = <[p := s]> (f k) -> (forall k', k' <> k -> g k' = f k') -> slots_wf g.
Proof.
  intros [Hok Hinj] Hf Hs Hk Hne.
  assert (Hg : forall k' q s', g k' !! q = Some s' ->
            (k' = k /\ q = p /\ s' = s) \/ f k' !! q = Some s').
  { intros k' q s' H. destruct (decide (k' = k)) as [->|Hn]; [|rewrite Hne in H; auto].
    rewrite Hk in H. apply lookup_insert_Some in H as [[<- <-]|[_ H]]; auto. }
  split.
  - intros k' q s' [(_ & _ & ->)|H]%Hg; eauto.
  - intros k1 p1 s1 k2 p2 s2 [(-> & -> & ->)|H1]%Hg [(-> & -> & ->)|H2]%Hg E; eauto.
    + by apply Hf in H2.
    + by apply Hf in H1.
Qed.

(** ** Lookups by identifier *)

Lemma find_session_Some m sid p :
  find_session m sid = Some p -> exists s, m !! p = Some s /\ session_id s = sid.
Proof.
  unfold find_session. intros ((i & q & s) & (Hi & Hs & _)%list_find_Some & Ep)%fmap_Some.
  cbn in *. subst. exists s. split; [|done].
  apply elem_of_map_to_list. by eapply list_elem_of_lookup_2.
Qed.

Lemma find_session_None m sid p s :
  find_session m sid = None -> m !! p = Some s -> session_id s <> sid.
Proof.
  unfold find_session. rewrite fmap_None, list_find_None, Forall_forall.
  intros H Hm. apply (H (p, s)). by apply elem_of_map_to_list.
Qed.

(** The choice among several matches does not matter: there is one at most. *)
Lemma find_session_unique f k p s :
  slots_wf f -> f k !! p = Some s -> find_session (f k) (session_id s) = Some p.
Proof.
  intros [_ Hinj] Hs. destruct (find_session (f k) (session_id s)) as [q|] eqn:E.
  - apply find_session_Some in E as (s' & Hs' & Eid). f_equal.
    by destruct (Hinj _ _ _ _ _ _ Hs' Hs Eid).
  - by eapply find_session_None in E.
Qed.

Lemma find_pending_Some m hid p :
  find_pending m hid = Some p -> exists pi, m !! p = Some pi /\ pi_handshake_id pi = hid.
Proof.
  unfold find_pending. intros ((i & q & s) & (Hi & Hs & _)%list_find_Some & Ep)%fmap_Some.
  cbn in *. subst. exists s. split; [|done].
  apply elem_of_map_to_list. by eapply list_elem_of_lookup_2.
Qed.

Lemma in_use_false m sid p s : in_use m sid = false -> m !! p = Some s -> session_id s <> sid.
Proof. unfold in_use. destruct (find_session m sid) eqn:E; [done|]. intros _. by apply find_session_None. Qed.

Lemma not_in_use_fresh st s : session_id_in_use st (session_id s) = false -> fresh_in (slot_of st) s.
Proof.
  unfold session_id_in_use. rewrite !orb_false_iff. intros [[Ha Hp] Hc] k p s0.
  destruct k; cbn; eauto using in_use_false.
Qed.

(** Installing a session whose identifier is fresh. *)
Lemma slot_install peer s st k :
  slot_of (install_active_session peer s st) k =
    match k with
    | Active => <[peer := s]> (sessions st)
    | Previous => match sessions st !! peer with
                  | Some old => <[peer := old]> (previous_sessions st)
                  | None => previous_sessions st
                  end
    | Candidate => responder_candidates st
    end.
Proof.
  unfold install_active_session. cbn zeta.
  change (sessions (set_preference _ st)) with (sessions st).
  by destruct (sessions st !! peer), k.
Qed.

Lemma install_wf peer s st :
  slots_wf (slot_of st) -> fresh_in (slot_of st) s -> session_wf s ->
  slots_wf (slot_of (install_active_session peer s st)).
Proof.
  intros Hwf Hf Hs.
  set (st1 := set_sessions (delete peer) st).
  assert (Hev : forall k, map_ev (slot_of st k) (slot_of st1 k))
    by (intros []; cbn; auto using map_ev_refl, map_ev_delete).
  pose proof (ev_wf _ _ Hwf Hev) as Hwf1. pose proof (fresh_ev _ _ _ Hf Hev) as Hf1.
  set (st2 := match sessions st !! peer with
              | Some old => set_previous <[peer := old]> st1 | None => st1 end).
  assert (slots_wf (slot_of st2) /\ fresh_in (slot_of st2) s) as [Hwf2 Hf2].
  { unfold st2. destruct (sessions st !! peer) as [old|] eqn:Eo; [|done]. split.
    - apply (fresh_wf (slot_of st1) _ Previous peer old); try done.
      + intros k q s0 Hq Eid. destruct k; cbn in Hq.
        * apply lookup_delete_Some in Hq as [Hne Hq].
          by destruct (slots_inj _ Hwf Active q s0 Active peer old Hq Eo Eid).
        * by destruct (slots_inj _ Hwf Previous q s0 Active peer old Hq Eo Eid).
        * by destruct (slots_inj _ Hwf Candidate q s0 Active peer old Hq Eo Eid).
      + by apply (slots_ok _ Hwf Active peer).
      + by intros [].
    - intros k q s0 Hq. destruct k; cbn in Hq.
      + by apply (Hf1 Active q).
      + apply lookup_insert_Some in Hq as [[<- <-]|[_ Hq]]; [by apply (Hf Active peer)|].
        by apply (Hf Previous q).
      + by apply (Hf Candidate q). }
  apply (fresh_wf (slot_of st2) _ Active peer s Hwf2 Hf2 Hs).
  - rewrite slot_install. unfold st2. destruct (sessions st !! peer) eqn:Eo; cbn;
      by rewrite insert_delete_eq.
  - intros k Hk. rewrite slot_install. unfold st2. by destruct k, (sessions st !! peer).
Qed.
End Slots.

(** ** The operations on the slots *)

Section Operations.
Context {SN : Snow}.

Definition st_ev (st st' : SessionState) : Prop := forall k, map_ev (slot_of st k) (slot_of st' k).

Lemma map_ev_None m m' p : map_ev m m' -> m !! p = None -> m' !! p = None.
Proof. intros H Hm. destruct (m' !! p) eqn:E; [|done]. apply H in E as (? & ? & _). congruence. Qed.

Lemma st_ev_refl st : st_ev st st.
Proof. intros k. apply map_ev_refl. Qed.

Lemma st_ev_trans a b c : st_ev a b -> st_ev b c -> st_ev a c.
Proof. intros H1 H2 k. eapply map_ev_trans; eauto. Qed.

Lemma set_sessions_ev f st : map_ev (sessions st) (f (sessions st)) -> st_ev st (set_sessions f st).
Proof. intros H []; cbn; auto using map_ev_refl. Qed.
Lemma set_previous_ev f st :
  map_ev (previous_sessions st) (f (previous_sessions st)) -> st_ev st (set_previous f st).
Proof. intros H []; cbn; auto using map_ev_refl. Qed.
Lemma set_candidates_ev f st :
  map_ev (responder_candidates st) (f (responder_candidates st)) -> st_ev st (set_candidates f st).
Proof. intros H []; cbn; auto using map_ev_refl. Qed.
Lemma set_pending_ev f st : st_ev st (set_pending f st).
Proof. intros []; apply map_ev_refl. Qed.
Lemma set_cache_ev f st : st_ev st (set_cache f st).
Proof. intros []; apply map_ev_refl. Qed.
Lemma set_preference_ev f st : st_ev st (set_preference f st).
Proof. intros []; apply map_ev_refl. Qed.

Hint Resolve st_ev_refl map_ev_delete map_ev_retain set_pending_ev set_cache_ev set_preference_ev
  set_sessions_ev set_previous_ev set_candidates_ev : hushwire.

(** An operation that keeps every session in its slot keeps the invariant when
    it treats the other tables as follows. *)
Lemma inplace_wf st st' :
  sm_wf st -> st_ev st st' ->
  (forall p, is_Some (responder_candidates st' !! p) -> is_Some (responder_cache st !! p) ->
             is_Some (responder_cache st' !! p)) ->
  (forall p, is_Some (pending_init st' !! p) ->
             is_Some (pending_init st !! p) \/ responder_candidates st' !! p = None) ->
  (forall p, p ∈ inbound_recovery_preference st' ->
             p ∈ inbound_recovery_preference st \/ sessions st' !! p = None) ->
  sm_wf st'.
Proof.
  intros [Hs Hc He Hp] Hev Hc' He' Hp'. split.
  - by eapply ev_wf.
  - intros p Hsome. apply Hc'; [done|]. apply Hc.
    destruct Hsome as [s' (s & ? & _)%(Hev Candidate)]. eauto.
  - intros p [Hx|Hx]%He'; [|done]. eapply (map_ev_None _ _ p (Hev Candidate)), He; eauto.
  - intros p [Hx|Hx]%Hp'; [|done]. eapply (map_ev_None _ _ p (Hev Active)), Hp; eauto.
Qed.

(** The tables other than the session slots. *)
Definition rest_eq (st st' : SessionState) : Prop :=
  pending_init st' = pending_init st /\ responder_cache st' = responder_cache st /\
  inbound_recovery_preference st' = inbound_recovery_preference st.

Lemma rest_eq_wf st st' : sm_wf st -> st_ev st st' -> rest_eq st st' -> sm_wf st'.
Proof.
  intros Hwf Hev (Hi & Hc & Hp). apply (inplace_wf st); try done; rewrite ?Hi, ?Hc, ?Hp; auto.
Qed.

(** [encrypt_for_peer] prunes the expired sessions it meets, then encrypts. *)
Definition encrypt_prune (peer : string) (now : Instant) (st : SessionState) : SessionState :=
  let st := set_previous (retain_live now) st in
  if get_is (sessions st) peer (fun s => is_expired s now) then set_sessions (delete peer) st else st.

Lemma encrypt_for_peer_eq peer m payload now st :
  encrypt_for_peer peer m payload now st =
    match sessions (encrypt_prune peer now st) !! peer with
    | Some s => (set_sessions <[peer := (encrypt m payload s).1]> (encrypt_prune peer now st),
                 Some <$> (encrypt m payload s).2)
    | None => (encrypt_prune peer now st, Ok None)
    end.
Proof.
  unfold encrypt_for_peer, encrypt_prune. cbv zeta.
  destruct (get_is _ _ _);
    (destruct (sessions _ !! peer); [by destruct (encrypt m payload _)|done]).
Qed.

Lemma encrypt_prune_ev peer now st : st_ev st (encrypt_prune peer now st).
Proof.
  unfold encrypt_prune. cbv zeta. case_match.
  - eapply st_ev_trans; [apply set_previous_ev, map_ev_retain|apply set_sessions_ev, map_ev_delete].
  - apply set_previous_ev, map_ev_retain.
Qed.

Lemma encrypt_prune_rest peer now st : rest_eq st (encrypt_prune peer now st).
Proof. unfold encrypt_prune. cbv zeta. by case_match. Qed.

Lemma encrypt_prune_live peer now st s :
  sessions (encrypt_prune peer now st) !! peer = Some s <->
  sessions st !! peer = Some s /\ is_expired s now = false.
Proof.
  unfold encrypt_prune, get_is. cbv zeta. cbn [sessions set_previous].
  destruct (sessions st !! peer) as [s0|] eqn:E; [|cbn; rewrite E; by split; [|intros []]].
  destruct (is_expired s0 now) eqn:Ee; cbn.
  - rewrite lookup_delete_eq. split; [done|]. intros [[= ->] ?]; congruence.
  - rewrite E. split; [intros [= ->]; auto|by intros [[= ->] _]].
Qed.

Lemma encrypt_for_peer_ev peer m payload now st :
  sm_wf st -> st_ev st (encrypt_for_peer peer m payload now st).1 /\ rest_eq st (encrypt_for_peer peer m payload now st).1.
Proof.
  intros Hwf. pose proof (encrypt_prune_ev peer now st) as Hev.
  pose proof (encrypt_prune_rest peer now st) as Hr. rewrite encrypt_for_peer_eq.
  destruct (sessions (encrypt_prune peer now st) !! peer) as [s|] eqn:E; [|done].
  assert (session_wf s) as Hs.
  { apply (slots_ok _ (ev_wf _ _ (wf_slots _ Hwf) Hev) Active peer s E). }
  split; [|done]. eapply st_ev_trans; [exact Hev|]. apply set_sessions_ev.
  eapply map_ev_insert; [exact E|]. auto with hushwire.
Qed.

Definition prune (now : Instant) (st : SessionState) : SessionState :=
  set_candidates (retain_live now) (set_previous (retain_live now) (set_sessions (retain_live now) st)).

Lemma slot_prune now st k : slot_of (prune now st) k = retain_live now (slot_of st k).
Proof. by destruct k. Qed.

Lemma prune_ev now st : st_ev st (prune now st).
Proof. intros k. rewrite slot_prune. apply map_ev_retain. Qed.

Definition set_slot (k : slot) (f : gmap string Session -> gmap string Session) (st : SessionState) :=
  match k with
  | Active => set_sessions f st
  | Previous => set_previous f st
  | Candidate => set_candidates f st
  end.

(** The confirmed candidate of [peer] becomes its active session. *)
Definition promote (peer : string) (s : Session) (st : SessionState) : SessionState :=
  set_cache (delete peer) (set_pending (delete peer)
    (install_active_session peer s (set_candidates (delete peer) st))).

(** Where [decrypt_transport] looks, and what it does with the answer. *)
Lemma decrypt_transport_cases sid n ct now st :
  (decrypt_transport sid n ct now st = (prune now st, Ok None) /\
   forall k p s, slot_of (prune now st) k !! p = Some s -> session_id s <> sid) \/
  exists k p s, slot_of (prune now st) k !! p = Some s /\ session_id s = sid /\
    decrypt_transport sid n ct now st =
      let st1 := set_slot k <[p := (decrypt sid n ct s).1]> (prune now st) in
      match (decrypt sid n ct s).2 with
      | Ok (m, payload) =>
          ((if decide (k = Candidate) then promote p (decrypt sid n ct s).1 st1 else st1),
           Ok (Some {| dt_peer_name := p; dt_msg_type := m; dt_payload := payload;
                       dt_promoted := bool_decide (k = Candidate) |}))
      | Err e => (st1, Err e)
      | Panic => (st1, Panic)
      end.
Proof.
  unfold decrypt_transport, mbind, M_bind, mmodify, mget, mret, M_ret, mlift.
  change (set_candidates (retain_live now) (set_previous (retain_live now)
    (set_sessions (retain_live now) st))) with (prune now st).
  destruct (find_session (sessions (prune now st)) sid) as [p|] eqn:Ea.
  { right. destruct (find_session_Some _ _ _ Ea) as (s & Hs & Hid).
    exists Active, p, s. split_and!; [done..|]. unfold decrypt_in. rewrite Hs.
    by destruct (decrypt sid n ct s) as [s' [[m pl]| |]]. }
  destruct (find_session (previous_sessions (prune now st)) sid) as [p|] eqn:Ep.
  { right. destruct (find_session_Some _ _ _ Ep) as (s & Hs & Hid).
    exists Previous, p, s. split_and!; [done..|]. unfold decrypt_in. rewrite Hs.
    by destruct (decrypt sid n ct s) as [s' [[m pl]| |]]. }
  destruct (find_session (responder_candidates (prune now st)) sid) as [p|] eqn:Ec.
  - right. destruct (find_session_Some _ _ _ Ec) as (s & Hs & Hid).
    exists Candidate, p, s. split_and!; [done..|]. unfold decrypt_in. rewrite Hs.
    destruct (decrypt sid n ct s) as [s' [[m pl]| |]]; [|done..].
    cbn [fst snd set_slot]. rewrite decide_True by done.
    change (responder_candidates (set_candidates ?f ?x)) with (f (responder_candidates x)).
    by rewrite lookup_insert_eq.
  - left. split; [done|].
    intros [] q s Hs; [exact (find_session_None _ _ _ _ Ea Hs)|exact (find_session_None _ _ _ _ Ep Hs)
      |exact (find_session_None _ _ _ _ Ec Hs)].
Qed.

Lemma slot_promote peer s st k :
  slot_of (promote peer s st) k =
    match k with
    | Active => <[peer := s]> (sessions st)
    | Previous => match sessions st !! peer with
                  | Some old => <[peer := old]> (previous_sessions st)
                  | None => previous_sessions st
                  end
    | Candidate => delete peer (responder_candidates st)
    end.
Proof.
  transitivity (slot_of (install_active_session peer s (set_candidates (delete peer) st)) k);
    [by destruct k|]. rewrite slot_install. by destruct k.
Qed.

Lemma install_rest peer s st :
  pending_init (install_active_session peer s st) = pending_init st /\
  responder_cache (install_active_session peer s st) = responder_cache st /\
  inbound_recovery_preference (install_active_session peer s st)
    = inbound_recovery_preference st ∖ {[peer]}.
Proof.
  unfold install_active_session. cbn zeta.
  change (sessions (set_preference _ st)) with (sessions st). by destruct (sessions st !! peer).
Qed.

Lemma promote_rest peer s st :
  pending_init (promote peer s st) = delete peer (pending_init st) /\
  responder_cache (promote peer s st) = delete peer (responder_cache st) /\
  inbound_recovery_preference (promote peer s st) = inbound_recovery_preference st ∖ {[peer]}.
Proof.
  destruct (install_rest peer s (set_candidates (delete peer) st)) as (E1 & E2 & E3).
  unfold promote. cbn [pending_init responder_cache inbound_recovery_preference set_cache set_pending].
  by rewrite E1, E2, E3.
Qed.

(** A session that enters the active slot of [peer] and clears its candidate:
    promotion and the end of a local initiation. *)
Lemma switch_wf peer s st st' :
  sm_wf st -> fresh_in (slot_of (set_candidates (delete peer) st)) s -> session_wf s ->
  (forall k, slot_of st' k = slot_of (promote peer s st) k) ->
  pending_init st' = delete peer (pending_init st) ->
  responder_cache st' = delete peer (responder_cache st) ->
  inbound_recovery_preference st' = inbound_recovery_preference st ∖ {[peer]} ->
  sm_wf st'.
Proof.
  intros [Hwf Hc He Hp] Hf Hs Hslot Ei Ec Ep.
  assert (slots_wf (slot_of (promote peer s st))) as Hwf'.
  { apply (ev_wf (slot_of (install_active_session peer s (set_candidates (delete peer) st)))).
    - apply install_wf; try done. eapply ev_wf; [exact Hwf|].
      apply set_candidates_ev, map_ev_delete.
    - intros []; apply map_ev_refl. }
  pose proof (Hslot Active) as Ha. pose proof (Hslot Candidate) as Hcand.
  rewrite slot_promote in Ha, Hcand. cbn in Ha, Hcand. split.
  - apply (ev_wf _ _ Hwf'). intros k. rewrite Hslot. apply map_ev_refl.
  - intros p [x Hx]. rewrite Hcand in Hx. apply lookup_delete_Some in Hx as [Hne Hx].
    rewrite Ec, lookup_delete_ne by done. eauto.
  - intros p [x Hx]. rewrite Ei in Hx. apply lookup_delete_Some in Hx as [Hne Hx].
    rewrite Hcand, lookup_delete_ne by done. eauto.
  - intros p. rewrite Ep, elem_of_difference, elem_of_singleton. intros [Hin Hne].
    rewrite Ha, lookup_insert_ne by done. auto.
Qed.

Lemma set_slot_ev k p s s' st :
  slot_of st k !! p = Some s -> sess_le s s' -> st_ev st (set_slot k <[p := s']> st).
Proof.
  intros Hs Hle. destruct k; [apply set_sessions_ev|apply set_previous_ev|apply set_candidates_ev];
    by eapply map_ev_insert.
Qed.

Lemma set_slot_rest k f st : rest_eq st (set_slot k f st).
Proof. by destruct k. Qed.

Lemma rest_eq_trans a b c : rest_eq a b -> rest_eq b c -> rest_eq a c.
Proof. intros (?&?&?) (?&?&?). unfold rest_eq. split_and!; congruence. Qed.

Lemma prune_wf now st : sm_wf st -> sm_wf (prune now st).
Proof. intros Hwf. by apply (rest_eq_wf st); [|apply prune_ev|]. Qed.

(** A promoted candidate is fresh once its own slot is cleared. *)
Lemma candidate_fresh p s s' st :
  sm_wf st -> responder_candidates st !! p = Some s -> sess_le s s' ->
  fresh_in (slot_of (set_candidates (delete p) (set_candidates <[p := s']> st))) s'.
Proof.
  intros Hwf Hs Hle k q s0 Hq Eid. rewrite (le_id _ _ Hle) in Eid.
  assert (exists k0, slot_of st k0 !! q = Some s0 /\ (k0 = Candidate -> q <> p)) as (k0 & Hq0 & Hne).
  { destruct k; cbn in Hq; [by exists Active|by exists Previous|].
    rewrite delete_insert_eq in Hq. apply lookup_delete_Some in Hq as [Hne Hq].
    exists Candidate. auto. }
  destruct (slots_inj _ (wf_slots _ Hwf) k0 q s0 Candidate p s Hq0 Hs Eid) as [-> ->]. by apply Hne.
Qed.

Lemma decrypt_transport_wf sid n ct now st :
  sm_wf st -> is_u64 n -> sm_wf (decrypt_transport sid n ct now st).1.
Proof.
  intros Hwf Hn. pose proof (prune_wf now st Hwf) as Hwf1.
  destruct (decrypt_transport_cases sid n ct now st) as [[-> _]|(k & p & s & Hs & Hid & ->)]; [done|].
  assert (Hle : sess_le s (decrypt sid n ct s).1).
  { apply decrypt_le; [|done]. by apply (slots_ok _ (wf_slots _ Hwf1) k p). }
  assert (Hwf2 : sm_wf (set_slot k <[p := (decrypt sid n ct s).1]> (prune now st))).
  { apply (rest_eq_wf _ _ Hwf1); [by eapply set_slot_ev|apply set_slot_rest]. }
  cbn zeta. destruct (decrypt sid n ct s).2 as [[m pl]|e|]; [|done..]. cbn [fst].
  case_decide as Hk; [|done]. subst k.
  destruct (promote_rest p (decrypt sid n ct s).1
    (set_slot Candidate <[p := (decrypt sid n ct s).1]> (prune now st))) as (E1 & E2 & E3).
  eapply (switch_wf p (decrypt sid n ct s).1); try done.
  - by eapply candidate_fresh.
  - apply Hle. by apply (slots_ok _ (wf_slots _ Hwf1) Candidate p).
Qed.

Lemma store_responder_candidate_eq peer s hid req resp wall st :
  store_responder_candidate peer s hid req resp wall st =
    if session_id_in_use st (session_id s) then (st, false) else
    (set_cache <[peer := {| ch_handshake_id := hid; ch_request := req; ch_response := resp;
                            ch_created_at := wall |}]>
      (set_candidates <[peer := s]> (set_pending (delete peer) st)), true).
Proof. done. Qed.

Lemma store_responder_candidate_wf peer s hid req resp wall st :
  sm_wf st -> session_wf s -> sm_wf (store_responder_candidate peer s hid req resp wall st).1.
Proof.
  intros [Hwf Hc He Hp] Hs. rewrite store_responder_candidate_eq.
  destruct (session_id_in_use st (session_id s)) eqn:Eu; [done|]. cbn [fst]. split.
  - apply (fresh_wf (slot_of st) _ Candidate peer s); auto using not_in_use_fresh.
    intros [] ?; done.
  - intros p. cbn. rewrite !lookup_insert_is_Some.
    intros [?|[? ?]]; [by left|right; auto].
  - intros p [x Hx]. cbn in *. apply lookup_delete_Some in Hx as [Hne Hx].
    rewrite lookup_insert_ne by done. eauto.
  - exact Hp.
Qed.

Lemma cached_responder_response_wf peer hid req wall st :
  sm_wf st -> sm_wf (cached_responder_response peer hid req wall st).1 /\
              st_ev st (cached_responder_response peer hid req wall st).1.
Proof.
  intros Hwf. unfold cached_responder_response.
  destruct (get_is _ _ _);
    [|destruct (responder_cache st !! peer); auto using st_ev_refl]. cbn [fst].
  assert (Hev : st_ev st (set_candidates (delete peer) (set_cache (delete peer) st))).
  { eapply st_ev_trans; [apply (set_cache_ev (delete peer))|apply set_candidates_ev, map_ev_delete]. }
  split; [|done]. apply (inplace_wf st); auto; cbn.
  intros p [x [Hne _]%lookup_delete_Some] Hy. by rewrite lookup_delete_ne.
Qed.

Lemma accept_inbound_initiation_wf peer rid passive wall st :
  sm_wf st -> sm_wf (accept_inbound_initiation peer rid passive wall st).1 /\
              st_ev st (accept_inbound_initiation peer rid passive wall st).1.
Proof.
  intros Hwf. assert (Hd : forall st, sm_wf st -> sm_wf (set_pending (delete peer) st)).
  { clear. intros st Hwf. apply (inplace_wf st); auto; [apply set_pending_ev|].
    cbn. intros p [x [_ Hx]%lookup_delete_Some]. eauto. }
  assert (Hr : forall st, sm_wf st -> sm_wf (set_preference (fun p => p ∖ {[peer]}) st)).
  { clear. intros st Hwf. apply (inplace_wf st); auto; [apply set_preference_ev|].
    cbn. intros p [Hin _]%elem_of_difference. by left. }
  unfold accept_inbound_initiation. cbn zeta.
  set (st1 := if get_is _ _ _ then _ else _).
  assert (sm_wf st1 /\ st_ev st st1) as [Hwf1 Hev1].
  { unfold st1. destruct (get_is _ _ _); auto using st_ev_refl, set_pending_ev. }
  destruct (_ && _)%bool; cbn [fst].
  - split; [auto|]. eapply st_ev_trans; [done|].
    eapply st_ev_trans; [apply set_preference_ev|apply set_pending_ev].
  - destruct (pending_init st1 !! peer) as [l|]; [|done].
    destruct (bytes_le _ _); cbn [fst]; [done|]. split; [auto|].
    eapply st_ev_trans; [done|]. apply set_pending_ev.
Qed.

Lemma invalidate_peer_wf peer st :
  sm_wf st -> sm_wf (invalidate_peer peer st).1 /\ st_ev st (invalidate_peer peer st).1.
Proof.
  intros Hwf. assert (Hev : st_ev st (invalidate_peer peer st).1).
  { intros []; cbn; apply map_ev_delete. }
  split; [|done]. apply (inplace_wf st); auto; cbn.
  - intros p [x [Hne _]%lookup_delete_Some] Hy. by rewrite lookup_delete_ne.
  - intros p [x [_ Hx]%lookup_delete_Some]. eauto.
  - intros p. rewrite elem_of_union, elem_of_singleton. intros [->|Hin]; [|auto].
    right. by rewrite lookup_delete_eq.
Qed.

(** The state in which a new initiation would start. *)
Definition start_prune (peer : string) (now : Instant) (st : SessionState) : SessionState :=
  if get_is (pending_init st) peer
       (fun p => saturating_duration_since now (pi_created_at p) >=? HANDSHAKE_ATTEMPT_LIFETIME)
  then set_pending (delete peer) st else st.

Definition start_prune2 (peer : string) (now : Instant) (st : SessionState) : SessionState :=
  if get_is (responder_candidates st) peer (fun s => is_expired s now)
  then set_cache (delete peer) (set_candidates (delete peer) st) else st.

Definition start_prune3 (peer : string) (now : Instant) (st : SessionState) : SessionState :=
  if get_is (sessions st) peer (fun s => is_expired s now) then set_sessions (delete peer) st else st.

Lemma delete_pending_wf peer st : sm_wf st -> sm_wf (set_pending (delete peer) st).
Proof.
  intros Hwf. apply (inplace_wf st); auto; [apply set_pending_ev|].
  cbn. intros p [x [_ Hx]%lookup_delete_Some]. eauto.
Qed.

Lemma start_prune_wf peer now st :
  sm_wf st -> sm_wf (start_prune peer now st) /\ st_ev st (start_prune peer now st).
Proof.
  intros Hwf. unfold start_prune.
  case_match; auto using delete_pending_wf, set_pending_ev, st_ev_refl.
Qed.

Lemma start_prune_slot peer now st k : slot_of (start_prune peer now st) k = slot_of st k.
Proof. unfold start_prune. by destruct (get_is _ _ _), k. Qed.

Lemma start_prune2_sessions peer now st : sessions (start_prune2 peer now st) = sessions st.
Proof. unfold start_prune2. by destruct (get_is _ _ _). Qed.

Lemma start_prune2_wf peer now st :
  sm_wf st -> sm_wf (start_prune2 peer now st) /\ st_ev st (start_prune2 peer now st).
Proof.
  intros Hwf. unfold start_prune2. case_match; [|auto using st_ev_refl].
  assert (Hev : st_ev st (set_cache (delete peer) (set_candidates (delete peer) st))).
  { eapply st_ev_trans; [apply set_candidates_ev, (map_ev_delete _ peer)|apply set_cache_ev]. }
  split; [|done]. apply (inplace_wf st); auto; cbn.
  intros p [x [Hne _]%lookup_delete_Some] Hy. by rewrite lookup_delete_ne.
Qed.

Lemma start_prune3_wf peer now st :
  sm_wf st -> sm_wf (start_prune3 peer now st) /\ st_ev st (start_prune3 peer now st).
Proof.
  intros Hwf. unfold start_prune3. case_match; [|auto using st_ev_refl].
  assert (Hev : st_ev st (set_sessions (delete peer) st)) by apply set_sessions_ev, map_ev_delete.
  split; [|done]. by apply (rest_eq_wf st).
Qed.

(** [start_or_retry_handshake], branch by branch. *)
Lemma start_eq peer ls rs psk now st rng :
  start_or_retry_handshake peer ls rs psk now (st, rng) =
    let st1 := start_prune peer now st in
    match pending_init st1 !! peer with
    | Some p =>
        if saturating_duration_since now (pi_last_sent p) <? HANDSHAKE_RETRY_INTERVAL
        then ((st1, rng), Ok None)
        else ((set_pending <[peer := {| pi_handshake_id := pi_handshake_id p; pi_state := pi_state p;
                                        pi_packet := pi_packet p; pi_created_at := pi_created_at p;
                                        pi_last_sent := now |}]> st1, rng), Ok (Some (pi_packet p)))
    | None =>
        let st2 := start_prune2 peer now st1 in
        match responder_candidates st2 !! peer with
        | Some _ => ((st2, rng), Ok None)
        | None =>
            let st3 := start_prune3 peer now st2 in
            if get_is (sessions st3) peer (fun s => negb (should_rekey s now))
            then ((st3, rng), Ok None)
            else
              match initiator_start ls rs psk rng with
              | (rng, Ok h) =>
                  let packet := encode_handshake PacketKind.HandshakeInit (ih_handshake_id h) (ih_message h) in
                  ((set_pending <[peer := {| pi_handshake_id := ih_handshake_id h;
                       pi_state := ih_state h; pi_packet := packet; pi_created_at := now;
                       pi_last_sent := now |}]> st3, rng), Ok (Some packet))
              | (rng, Err e) => ((st3, rng), Err e)
              | (rng, Panic) => ((st3, rng), Panic)
              end
        end
    end.
Proof.
  unfold start_or_retry_handshake. cbv zeta. fold (start_prune peer now st).
  destruct (pending_init (start_prune peer now st) !! peer); [done|].
  fold (start_prune2 peer now (start_prune peer now st)). unfold get_is at 1.
  by destruct (responder_candidates (start_prune2 peer now (start_prune peer now st)) !! peer).
Qed.

Lemma get_is_None {A} (m : gmap string A) peer f : m !! peer = None -> get_is m peer f = false.
Proof. unfold get_is. by intros ->. Qed.

(** Nothing pending, no candidate and no session: an initiation starts. *)
Lemma start_fresh peer ls rs psk now st rng :
  pending_init st !! peer = None -> responder_candidates st !! peer = None ->
  sessions st !! peer = None -> (start_or_retry_handshake peer ls rs psk now (st, rng)).2 <> Ok None.
Proof.
  intros Hp Hc Hs. rewrite start_eq. cbv zeta.
  assert (start_prune peer now st = st) as -> by (unfold start_prune; by rewrite get_is_None).
  assert (start_prune2 peer now st = st) as -> by (unfold start_prune2; by rewrite get_is_None).
  assert (start_prune3 peer now st = st) as -> by (unfold start_prune3; by rewrite get_is_None).
  rewrite Hp, Hc, get_is_None by done. by destruct (initiator_start ls rs psk rng) as [r [h| |]].
Qed.

Lemma start_or_retry_handshake_wf peer ls rs psk now st rng :
  sm_wf st ->
  let st' := (start_or_retry_handshake peer ls rs psk now (st, rng)).1.1 in
  sm_wf st' /\ st_ev st st'.
Proof.
  intros Hwf. rewrite start_eq. cbv zeta.
  destruct (start_prune_wf peer now st Hwf) as [Hwf1 Hev1].
  set (st1 := start_prune peer now st) in *.
  destruct (pending_init st1 !! peer) as [p|] eqn:Ep.
  - destruct (_ <? _); [done|]. cbn [fst].
    split; [|by eapply st_ev_trans; [exact Hev1|apply set_pending_ev]].
    apply (inplace_wf st1); auto; [apply set_pending_ev|]. cbn.
    intros q. rewrite lookup_insert_is_Some. intros [<-|[_ ?]]; eauto.
  - destruct (start_prune2_wf peer now st1 Hwf1) as [Hwf2 Hev2].
    set (st2 := start_prune2 peer now st1) in *. pose proof (st_ev_trans _ _ _ Hev1 Hev2) as Hev12.
    destruct (responder_candidates st2 !! peer) eqn:Ec; [done|].
    destruct (start_prune3_wf peer now st2 Hwf2) as [Hwf3 Hev3].
    set (st3 := start_prune3 peer now st2) in *. pose proof (st_ev_trans _ _ _ Hev12 Hev3) as Hev.
    destruct (get_is _ _ _); [done|].
    destruct (initiator_start ls rs psk rng) as [rng' [h|e|]]; [|done..]. cbn [fst].
    split; [|by eapply st_ev_trans; [exact Hev|apply set_pending_ev]].
    apply (inplace_wf st3); auto; [apply set_pending_ev|]. cbn.
    intros q. rewrite lookup_insert_is_Some. intros [<-|[_ ?]]; [right|by left].
    by apply (map_ev_None _ _ _ (Hev3 Candidate)).
Qed.

Lemma initiator_finalize_new i m wall s :
  initiator_finalize i m wall = Ok s ->
  session_wf s /\ send_counter s = 0 /\ created_at s = wall /\ replay s = ReplayWindow_new.
Proof.
  unfold initiator_finalize, mbind, outcome_bind.
  destruct (hs_read _ _ _) as [[payload h]| |]; try done. cbn [map_err].
  destruct (negb _) eqn:El; [done|]. apply negb_false_iff, Nat.eqb_eq in El.
  destruct (into_stateless h) as [t| |]; try done. cbn [map_err]. intros [= <-].
  split; [by apply Session_new_wf|done].
Qed.

(** The session and confirmation a response leads to, and the state reached. *)
Definition initiated (peer : string) (s : Session) (st : SessionState) : SessionState :=
  set_cache (delete peer) (set_candidates (delete peer) (install_active_session peer s st)).

Lemma finalize_cases hid m wall st :
  (finalize_initiator hid m wall st = (st, Ok None) /\ find_pending (pending_init st) hid = None) \/
  exists p pi, pending_init st !! p = Some pi /\ pi_handshake_id pi = hid /\
    let st1 := set_pending (delete p) st in
    finalize_initiator hid m wall st =
      match initiator_finalize (pi_state pi) m wall with
      | Ok s =>
          if session_id_in_use st1 (session_id s) then (st1, Err WrongSession) else
          match (encrypt MsgType.Keepalive KEEPALIVE_PROBE_PAYLOAD s).2 with
          | Ok f => (initiated p (encrypt MsgType.Keepalive KEEPALIVE_PROBE_PAYLOAD s).1 st1,
                     Ok (Some (p, f)))
          | Err e => (st1, Err e)
          | Panic => (st1, Panic)
          end
      | Err e => (st1, Err e)
      | Panic => (st1, Panic)
      end.
Proof.
  unfold finalize_initiator, mbind, M_bind, mmodify, mget, mret, M_ret, mlift, mfail.
  destruct (find_pending (pending_init st) hid) as [p|] eqn:Ef; [right|by left].
  destruct (find_pending_Some _ _ _ Ef) as (pi & Hpi & Hid). exists p, pi.
  split_and!; [done..|]. rewrite Hpi. cbn [expect].
  destruct (initiator_finalize (pi_state pi) m wall) as [s| |]; [|done..].
  destruct (session_id_in_use _ _); [done|].
  by destruct (encrypt MsgType.Keepalive KEEPALIVE_PROBE_PAYLOAD s) as [s' [f| |]].
Qed.

Lemma initiated_wf p s st :
  sm_wf st -> fresh_in (slot_of st) s -> session_wf s -> pending_init st !! p = None ->
  sm_wf (initiated p s st).
Proof.
  intros Hwf Hf Hs Hp. destruct (install_rest p s st) as (E1 & E2 & E3).
  apply (switch_wf p s st); try done.
  - eapply fresh_ev; [exact Hf|]. apply set_candidates_ev, map_ev_delete.
  - intros k. rewrite slot_promote.
    pose proof (slot_install p s st) as Hi. destruct k; cbn; [exact (Hi Active)|exact (Hi Previous)|].
    by rewrite <- (Hi Candidate).
  - cbn. rewrite E1. by rewrite delete_id.
  - cbn. by rewrite E2.
Qed.

Lemma initiated_slot p s st k :
  slot_of (initiated p s st) k = slot_of (promote p s st) k.
Proof.
  rewrite slot_promote. pose proof (slot_install p s st) as Hi.
  destruct k; cbn; [exact (Hi Active)|exact (Hi Previous)|]. by rewrite <- (Hi Candidate).
Qed.

Lemma finalize_initiator_wf hid m wall st :
  sm_wf st -> sm_wf (finalize_initiator hid m wall st).1.
Proof.
  intros Hwf. destruct (finalize_cases hid m wall st) as [[-> _]|(p & pi & Hpi & Hid & ->)]; [done|].
  cbv zeta. pose proof (delete_pending_wf p st Hwf) as Hwf1.
  destruct (initiator_finalize (pi_state pi) m wall) as [s| |] eqn:Ei; [|done..].
  destruct (session_id_in_use _ _) eqn:Eu; [done|].
  destruct (initiator_finalize_new _ _ _ _ Ei) as (Hs & _).
  destruct (encrypt _ _ s).2; [|done..]. cbn [fst].
  pose proof (encrypt_le MsgType.Keepalive KEEPALIVE_PROBE_PAYLOAD s Hs) as Hle.
  apply initiated_wf; [done| |by apply Hle|by cbn; rewrite lookup_delete_eq].
  pose proof (not_in_use_fresh _ _ Eu) as Hf. intros k q s0 Hq. rewrite (le_id _ _ Hle). eauto.
Qed.
End Operations.

(** ** Runs of the manager *)

Section Reach.
Context {SN : Snow}.

(** One public method call.  The label is the session that entered the
    manager in the call, with its peer. *)
Inductive sm_step : SessionState -> option (string * Session) -> SessionState -> Prop :=
| step_encrypt peer m payload now st :
    sm_step st None (encrypt_for_peer peer m payload now st).1
| step_decrypt sid n ct now st :
    is_u64 n -> sm_step st None (decrypt_transport sid n ct now st).1
| step_store peer s hid req resp wall st st' ok :
    session_wf s -> store_responder_candidate peer s hid req resp wall st = (st', ok) ->
    sm_step st (if ok then Some (peer, s) else None) st'
| step_cached peer hid req wall st :
    sm_step st None (cached_responder_response peer hid req wall st).1
| step_accept peer rid passive wall st :
    sm_step st None (accept_inbound_initiation peer rid passive wall st).1
| step_start peer ls rs psk now rng st :
    sm_step st None (start_or_retry_handshake peer ls rs psk now (st, rng)).1.1
| step_finalized hid m wall st st' peer f s :
    finalize_initiator hid m wall st = (st', Ok (Some (peer, f))) -> sessions st' !! peer = Some s ->
    sm_step st (Some (peer, s)) st'
| step_not_finalized hid m wall st :
    (forall x, (finalize_initiator hid m wall st).2 <> Ok (Some x)) ->
    sm_step st None (finalize_initiator hid m wall st).1
| step_invalidate peer st :
    sm_step st None (invalidate_peer peer st).1.

Inductive sm_steps : SessionState -> list (string * Session) -> SessionState -> Prop :=
| steps_nil st : sm_steps st [] st
| steps_cons st1 l st2 ls st3 :
    sm_step st1 l st2 -> sm_steps st2 ls st3 -> sm_steps st1 (option_list l ++ ls) st3.

Definition reachable (st : SessionState) : Prop := exists ls, sm_steps SessionState_default ls st.

Lemma default_wf : sm_wf SessionState_default.
Proof.
  split; [split| | |]; cbn.
  - intros [] p s; done.
  - intros [] p s k' p' s'; done.
  - intros p [x Hx]; done.
  - intros p [x Hx]; done.
  - set_solver.
Qed.

Lemma step_wf st l st' : sm_wf st -> sm_step st l st' -> sm_wf st'.
Proof.
  intros Hwf Hstep. destruct Hstep as [peer m payload now st|sid n ct now st Hn
    |peer s hid req resp wall st st' ok Hs E|peer hid req wall st|peer rid passive wall st
    |peer ls rs psk now rng st|hid m wall st st' peer f s E Es|hid m wall st Hno|peer st].
  - destruct (encrypt_for_peer_ev peer m payload now st Hwf). by eapply rest_eq_wf.
  - by apply decrypt_transport_wf.
  - pose proof (store_responder_candidate_wf peer s hid req resp wall st Hwf Hs) as H.
    by rewrite E in H.
  - by apply cached_responder_response_wf.
  - by apply accept_inbound_initiation_wf.
  - by apply start_or_retry_handshake_wf.
  - pose proof (finalize_initiator_wf hid m wall st Hwf) as H. by rewrite E in H.
  - by apply finalize_initiator_wf.
  - by apply invalidate_peer_wf.
Qed.

Lemma steps_wf st ls st' : sm_wf st -> sm_steps st ls st' -> sm_wf st'.
Proof. intros Hwf H. induction H; eauto using step_wf. Qed.

(** The sessions of [g] come from the same peers' sessions of [f]. *)
Definition from (st : SessionState) (p : string) (s' : Session) : Prop :=
  exists k s, slot_of st k !! p = Some s /\ sess_le s s'.

Lemma st_ev_from st st' k p s' : st_ev st st' -> slot_of st' k !! p = Some s' -> from st p s'.
Proof. intros Hev (s & ? & ?)%Hev. by exists k, s. Qed.

Lemma from_refl st k p s : slot_of st k !! p = Some s -> from st p s.
Proof. intros H. exists k, s. auto using sess_le_refl. Qed.

Lemma promote_from p0 s0 st k p s' :
  slot_of (promote p0 s0 st) k !! p = Some s' -> (p = p0 /\ s' = s0) \/ from st p s'.
Proof.
  rewrite slot_promote. destruct k.
  - intros [[<- <-]|[_ H]]%lookup_insert_Some; [by left|right; by eapply (from_refl _ Active)].
  - destruct (sessions st !! p0) as [old|] eqn:Eo; [|right; by eapply (from_refl _ Previous)].
    intros [[<- <-]|[_ H]]%lookup_insert_Some; right;
      [by eapply (from_refl _ Active)|by eapply (from_refl _ Previous)].
  - intros [_ H]%lookup_delete_Some. right. by eapply (from_refl _ Candidate).
Qed.

Lemma decrypt_from sid n ct now st k p s' :
  sm_wf st -> is_u64 n ->
  slot_of (decrypt_transport sid n ct now st).1 k !! p = Some s' -> from st p s'.
Proof.
  intros Hwf Hn Hs'. pose proof (prune_ev now st) as Hev. pose proof (prune_wf now st Hwf) as Hwf1.
  destruct (decrypt_transport_cases sid n ct now st) as [[E _]|(k0 & q & s & Hq & Hid & E)];
    rewrite E in Hs'; [by eapply st_ev_from|]. cbv zeta in Hs'.
  assert (Hle : sess_le s (decrypt sid n ct s).1).
  { apply decrypt_le; [|done]. by apply (slots_ok _ (wf_slots _ Hwf1) k0 q). }
  pose proof (st_ev_trans _ _ _ Hev (set_slot_ev k0 q s _ _ Hq Hle)) as Hev2.
  destruct (decrypt sid n ct s).2 as [[m pl]|e|]; [|by eapply st_ev_from..]. cbn [fst] in Hs'.
  case_decide as Hk; [|by eapply st_ev_from]. subst k0.
  apply promote_from in Hs' as [[-> ->]|(k1 & s1 & Hk1 & Hle1)].
  - destruct (Hev Candidate q s Hq) as (s0 & ? & Hle0). exists Candidate, s0.
    eauto using sess_le_trans.
  - destruct (st_ev_from _ _ _ _ _ Hev2 Hk1) as (k2 & s2 & ? & ?).
    exists k2, s2. eauto using sess_le_trans.
Qed.

Lemma finalize_from hid m wall st k p s' :
  slot_of (finalize_initiator hid m wall st).1 k !! p = Some s' ->
  from st p s' \/
  exists f, (finalize_initiator hid m wall st).2 = Ok (Some (p, f)) /\
    sessions (finalize_initiator hid m wall st).1 !! p = Some s'.
Proof.
  intros Hs'. destruct (finalize_cases hid m wall st) as [[E _]|(q & pi & Hpi & Hid & E)];
    rewrite E in *; [left; by eapply from_refl|]. cbv zeta in *.
  assert (Hpend : forall k, slot_of (set_pending (delete q) st) k !! p = Some s' -> from st p s').
  { intros k0. apply st_ev_from, set_pending_ev. }
  destruct (initiator_finalize _ _ _) as [s|e|]; [|left; by eapply Hpend..].
  destruct (session_id_in_use _ _); [left; by eapply Hpend|].
  destruct (encrypt _ _ _).2 as [f| |]; [|left; by eapply Hpend..]. cbn [fst snd] in *.
  set (s1 := (encrypt _ _ s).1) in *.
  rewrite initiated_slot in Hs'.
  apply promote_from in Hs' as [[-> ->]|(k1 & s2 & Hk1 & Hle)].
  - right. exists f. split; [done|].
    change (slot_of (initiated q s1 (set_pending (delete q) st)) Active !! q = Some s1).
    rewrite initiated_slot, slot_promote. apply lookup_insert_eq.
  - left. destruct (st_ev_from _ _ _ _ _ (set_pending_ev _ _) Hk1) as (k2 & s3 & ? & ?).
    exists k2, s3. eauto using sess_le_trans.
Qed.

(** Sessions never move between peers, and the only new ones are those the
    step reports. *)
Lemma step_origin st l st' k p s' :
  sm_wf st -> sm_step st l st' -> slot_of st' k !! p = Some s' ->
  from st p s' \/ l = Some (p, s').
Proof.
  intros Hwf Hstep. destruct Hstep as [peer m payload now st|sid n ct now st Hn
    |peer s hid req resp wall st st' ok Hs E|peer hid req wall st|peer rid passive wall st
    |peer ls rs psk now rng st|hid m wall st st' peer f s E Es|hid m wall st Hno|peer st];
    intros Hs'.
  - left. eapply st_ev_from; [|exact Hs']. by apply encrypt_for_peer_ev.
  - left. by eapply decrypt_from.
  - rewrite store_responder_candidate_eq in E.
    destruct (session_id_in_use _ _); injection E as <- <-; [left; by eapply from_refl|].
    destruct k; cbn in Hs'; [left; by eapply (from_refl _ Active)|left; by eapply (from_refl _ Previous)|].
    apply lookup_insert_Some in Hs' as [[<- <-]|[_ H]]; [by right|left; by eapply (from_refl _ Candidate)].
  - left. eapply st_ev_from; [|exact Hs']. by apply cached_responder_response_wf.
  - left. eapply st_ev_from; [|exact Hs']. by apply accept_inbound_initiation_wf.
  - left. eapply st_ev_from; [|exact Hs']. by apply start_or_retry_handshake_wf.
  - pose proof (finalize_from hid m wall st k p s') as Hf. rewrite E in Hf.
    destruct (Hf Hs') as [|(f' & [= -> _] & Ha)]; [by left|right]. cbn in Ha. congruence.
  - destruct (finalize_from hid m wall st k p s' Hs') as [|(f & Hf & _)]; [by left|by edestruct Hno].
  - left. eapply st_ev_from; [|exact Hs']. by apply invalidate_peer_wf.
Qed.
End Reach.

(** ** Lemmas behind the properties *)

Section Lemmas.
Context {SN : Snow}.

Lemma steps_dead sid n st ls st' :
  is_u64 n -> sm_wf st -> sm_steps st ls st' ->
  (forall p s, (p, s) ∈ ls -> session_id s <> sid) ->
  (forall k p s, slot_of st k !! p = Some s -> session_id s = sid -> would_accept (replay s) n = Some false) ->
  (forall k p s, slot_of st' k !! p = Some s -> session_id s = sid -> would_accept (replay s) n = Some false).
Proof.
  intros Hn Hwf H. induction H as [|st1 l st2 ls st3 Hstep _ IH]; intros Hnew Hdead; [done|].
  apply IH; [by eapply step_wf|intros p s Hin; apply (Hnew p); set_solver|].
  intros k p s Hs Hid. destruct (step_origin _ _ _ k p s Hwf Hstep Hs) as [(k0 & s0 & Hs0 & Hle)| ->].
  - apply Hle; [done|]. eapply Hdead; [done|]. by rewrite <- (le_id _ _ Hle).
  - destruct (Hnew p s); [|done]. cbn. set_solver.
Qed.

(** What a successful [decrypt_transport] has done. *)
Lemma decrypt_transport_ok sid n ct now st st' d :
  decrypt_transport sid n ct now st = (st', Ok (Some d)) ->
  exists k s, slot_of st k !! dt_peer_name d = Some s /\ is_expired s now = false /\
    session_id s = sid /\ (decrypt sid n ct s).2 = Ok (dt_msg_type d, dt_payload d) /\
    dt_promoted d = bool_decide (k = Candidate) /\
    let st1 := set_slot k <[dt_peer_name d := (decrypt sid n ct s).1]> (prune now st) in
    st' = if dt_promoted d then promote (dt_peer_name d) (decrypt sid n ct s).1 st1 else st1.
Proof.
  intros E. destruct (decrypt_transport_cases sid n ct now st) as [[E' _]|(k & p & s & Hs & Hid & E')];
    rewrite E in E'; [done|]. cbv zeta in E'.
  rewrite slot_prune, retain_live_Some in Hs. destruct Hs as [Hs Hlive].
  destruct (decrypt sid n ct s).2 as [[m pl]| |] eqn:Ed; [|done..]. injection E' as -> ->.
  exists k, s. cbn. split_and!; try done. by destruct k.
Qed.

Lemma decrypt_transport_ok_dead sid n ct now st st' d :
  sm_wf st -> is_u64 n -> decrypt_transport sid n ct now st = (st', Ok (Some d)) ->
  forall k p s, slot_of st' k !! p = Some s -> session_id s = sid -> would_accept (replay s) n = Some false.
Proof.
  intros Hwf Hn E k p s Hs Hid.
  assert (Hwf' : sm_wf st') by (pose proof (decrypt_transport_wf sid n ct now st Hwf Hn) as H; by rewrite E in H).
  destruct (decrypt_transport_ok _ _ _ _ _ _ _ E) as (k0 & s0 & Hs0 & _ & Hid0 & Hok & _ & Est').
  assert (Hwf0 : session_wf s0) by apply (slots_ok _ (wf_slots _ Hwf) _ _ _ Hs0).
  destruct (decrypt_ok_dead sid n ct s0 _ Hwf0 Hn Hok) as (_ & _ & Hdead).
  destruct (decrypt_keeps sid n ct s0 Hwf0 Hn) as [Hid1 _].
  assert (exists k1, slot_of st' k1 !! dt_peer_name d = Some (decrypt sid n ct s0).1) as [k1 Hk1].
  { cbv zeta in Est'. destruct (dt_promoted d); subst st'.
    - exists Active. rewrite slot_promote. apply lookup_insert_eq.
    - exists k0. destruct k0; apply lookup_insert_eq. }
  destruct (slots_inj _ (wf_slots _ Hwf') _ _ _ _ _ _ Hs Hk1) as [-> ->]; [congruence|].
  rewrite Hs in Hk1. injection Hk1 as ->. done.
Qed.

Lemma decrypt_transport_dead sid n ct now st :
  (forall k p s, slot_of st k !! p = Some s -> session_id s = sid -> would_accept (replay s) n = Some false) ->
  forall d, (decrypt_transport sid n ct now st).2 <> Ok (Some d).
Proof.
  intros Hdead d Hok. destruct (decrypt_transport sid n ct now st) as [st' r] eqn:E. cbn in Hok. subst r.
  destruct (decrypt_transport_ok _ _ _ _ _ _ _ E) as (k & s & Hs & _ & Hid & Hd & _).
  pose proof (decrypt_dead sid n ct s (Hdead _ _ _ Hs Hid)) as H. by rewrite Hd in H.
Qed.

(** What makes a delivery legitimate: a live session of the peer, in some
    slot, authenticated the packet, whose counter was fresh. *)
Definition authenticated (st : SessionState) (sid : bytes) (n : u64) (ct : bytes) (now : Instant)
    (k : slot) (p : string) (m : MsgType.t) (payload : bytes) : Prop :=
  exists s pt, slot_of st k !! p = Some s /\ session_id s = sid /\ is_expired s now = false /\
    would_accept (replay s) n = Some true /\
    ts_read (transport s) n ct (len ct - AEAD_TAG_SIZE) = Ok pt /\
    decode_transport_plaintext pt = Some (m, payload).

Lemma decrypt_transport_auth sid n ct now st st' d :
  sm_wf st -> is_u64 n -> decrypt_transport sid n ct now st = (st', Ok (Some d)) ->
  exists k, authenticated st sid n ct now k (dt_peer_name d) (dt_msg_type d) (dt_payload d) /\
    dt_promoted d = bool_decide (k = Candidate).
Proof.
  intros Hwf Hn E.
  destruct (decrypt_transport_ok _ _ _ _ _ _ _ E) as (k & s & Hs & Hlive & Hid & Hok & Hpr & _).
  assert (Hw : session_wf s) by apply (slots_ok _ (wf_slots _ Hwf) _ _ _ Hs).
  destruct (decrypt_cases sid n ct s Hw Hn) as [[_ E1]|(pt & w & _ & Ha & Er & _ & E1)];
    [by edestruct E1|]. rewrite E1 in Hok. cbn [snd] in Hok.
  exists k. split; [|done]. exists s, pt. split_and!; try done.
  destruct (decode_transport_plaintext pt); [|done]. cbn in Hok. congruence.
Qed.

Lemma bytes_le_total a b : bytes_le a b = false -> bytes_le b a = true.
Proof.
  revert b. induction a as [|x a IH]; intros [|y b]; cbn; try done.
  destruct (Z.ltb_spec x y); [done|]. destruct (Z.eqb_spec x y) as [->|Hne]; cbn.
  - intros ?%IH. rewrite Z.eqb_refl. cbn. rewrite H0. by rewrite orb_true_r.
  - intros _. rewrite (proj2 (Z.ltb_lt y x)) by lia. done.
Qed.

Lemma bytes_le_antisym a b : bytes_le a b = true -> bytes_le b a = true -> a = b.
Proof.
  revert b. induction a as [|x a IH]; intros [|y b]; cbn; try done.
  destruct (Z.ltb_spec x y), (Z.ltb_spec y x), (Z.eqb_spec x y), (Z.eqb_spec y x); cbn;
    try lia; try done. subst. intros. f_equal. auto.
Qed.

(** Where an active session comes from. *)
Lemma finalize_active hid m wall st st' p f q s' :
  finalize_initiator hid m wall st = (st', Ok (Some (p, f))) -> sessions st' !! q = Some s' ->
  q = p \/ sessions st !! q = Some s'.
Proof.
  intros E Hs'. destruct (finalize_cases hid m wall st) as [[E' _]|(p0 & pi & _ & _ & E')];
    rewrite E in E'; [done|]. cbv zeta in E'.
  destruct (initiator_finalize _ _ _) as [s|e|]; [|done..].
  destruct (session_id_in_use _ _); [done|]. destruct (encrypt _ _ _).2; [|done..].
  injection E' as -> <- <-.
  change (sessions ?x) with (slot_of x Active) in Hs'. rewrite initiated_slot, slot_promote in Hs'.
  apply lookup_insert_Some in Hs' as [[<- _]|[_ H]]; auto.
Qed.

Lemma finalize_peer hid m wall st st' p f :
  finalize_initiator hid m wall st = (st', Ok (Some (p, f))) ->
  exists pi, pending_init st !! p = Some pi /\ pi_handshake_id pi = hid.
Proof.
  intros E. destruct (finalize_cases hid m wall st) as [[E' _]|(p0 & pi & Hpi & Hid & E')];
    rewrite E in E'; [done|]. cbv zeta in E'. exists pi.
  destruct (initiator_finalize _ _ _); [|done..].
  destruct (session_id_in_use _ _); [done|]. destruct (encrypt _ _ _).2; [|done..].
  by injection E' as _ -> _.
Qed.

Lemma decrypt_active sid n ct now st p s' :
  sm_wf st -> is_u64 n -> sessions (decrypt_transport sid n ct now st).1 !! p = Some s' ->
  (exists s, sessions st !! p = Some s /\ sess_le s s') \/
  exists d s, decrypt_transport sid n ct now st = ((decrypt_transport sid n ct now st).1, Ok (Some d)) /\
     dt_peer_name d = p /\ dt_promoted d = true /\
     responder_candidates st !! p = Some s /\ session_id s = sid /\ sess_le s s'.
Proof.
  intros Hwf Hn Hs'. pose proof (prune_ev now st) as Hev. pose proof (prune_wf now st Hwf) as Hwf1.
  destruct (decrypt_transport_cases sid n ct now st) as [[E _]|(k & q & s & Hq & Hid & E)];
    rewrite E in Hs' |- *; [left; by apply (Hev Active)|]. cbv zeta in *.
  assert (Hle : sess_le s (decrypt sid n ct s).1).
  { apply decrypt_le; [|done]. by apply (slots_ok _ (wf_slots _ Hwf1) k q). }
  pose proof (st_ev_trans _ _ _ Hev (set_slot_ev k q s _ _ Hq Hle)) as Hev2.
  destruct (decrypt sid n ct s).2 as [[m pl]|e|]; [|left; by apply (Hev2 Active)..].
  cbn [fst] in *. case_decide as Hk; [|left; by apply (Hev2 Active)]. subst k.
  change (slot_of (promote q (decrypt sid n ct s).1 (set_slot Candidate
    <[q := (decrypt sid n ct s).1]> (prune now st))) Active !! p = Some s') in Hs'.
  rewrite slot_promote in Hs'. apply lookup_insert_Some in Hs' as [[<- <-]|[_ Hs']].
  - right. apply retain_live_Some in Hq as [Hq _].
    eexists _, s. split; [reflexivity|]. cbn. by rewrite bool_decide_eq_true_2.
  - left. by apply (Hev2 Active).
Qed.

Lemma not_finalized_slots hid m wall st k :
  (forall x, (finalize_initiator hid m wall st).2 <> Ok (Some x)) ->
  slot_of (finalize_initiator hid m wall st).1 k = slot_of st k.
Proof.
  intros Hno. destruct (finalize_cases hid m wall st) as [[E' _]|(p0 & pi & _ & _ & E')];
    rewrite E' in *; [done|]. cbv zeta in *.
  destruct (initiator_finalize _ _ _) as [s|e|]; [|by destruct k..].
  destruct (session_id_in_use _ _); [by destruct k|].
  destruct (encrypt _ _ _).2 as [f| |]; [|by destruct k..]. by destruct (Hno (p0, f)).
Qed.

(** A live session - active, previous or candidate - receives exactly the
    packets that carry its identifier. *)
Lemma decrypt_routes st k p s n ct now :
  sm_wf st -> slot_of st k !! p = Some s -> is_expired s now = false ->
  (decrypt_transport (session_id s) n ct now st).2 =
    match (decrypt (session_id s) n ct s).2 with
    | Ok (m, pl) => Ok (Some {| dt_peer_name := p; dt_msg_type := m; dt_payload := pl;
                                dt_promoted := bool_decide (k = Candidate) |})
    | Err e => Err e
    | Panic => Panic
    end.
Proof.
  intros Hwf Hs Hl.
  assert (slot_of (prune now st) k !! p = Some s) as Hs1 by (by rewrite slot_prune, retain_live_Some).
  destruct (decrypt_transport_cases (session_id s) n ct now st) as [[_ H]|(k0 & q & s0 & Hq & Hid & ->)].
  - by destruct (H k p s Hs1).
  - destruct (slots_inj _ (wf_slots _ (prune_wf now st Hwf)) _ _ _ _ _ _ Hq Hs1 Hid) as [-> ->].
    rewrite Hq in Hs1. injection Hs1 as ->. cbv zeta. by destruct (decrypt _ n ct s).2 as [[m pl]| |].
Qed.

Lemma finalize_previous hid m wall st st' p f old :
  finalize_initiator hid m wall st = (st', Ok (Some (p, f))) -> sessions st !! p = Some old ->
  previous_sessions st' !! p = Some old.
Proof.
  intros E Hold. destruct (finalize_cases hid m wall st) as [[E' _]|(p0 & pi & _ & _ & E')];
    rewrite E in E'; [done|]. cbv zeta in E'.
  destruct (initiator_finalize _ _ _) as [s|e|]; [|done..].
  destruct (session_id_in_use _ _); [done|]. destruct (encrypt _ _ _).2; [|done..].
  injection E' as -> <- <-.
  change (previous_sessions ?x) with (slot_of x Previous). rewrite initiated_slot, slot_promote.
  cbn [sessions set_pending]. rewrite Hold. apply lookup_insert_eq.
Qed.

Lemma accept_pending peer rid passive wall st l :
  pending_init st !! peer = Some l -> wall - pi_created_at l < from_secs 30 ->
  passive && bool_decide (peer ∈ inbound_recovery_preference st) = false ->
  accept_inbound_initiation peer rid passive wall st =
    if bytes_le (pi_handshake_id l) rid then (st, false) else (set_pending (delete peer) st, true).
Proof.
  intros Hl Ht Hp. unfold accept_inbound_initiation, get_is. rewrite Hl.
  rewrite Z.geb_leb, (proj2 (Z.leb_gt _ _)); [|unfold saturating_duration_since, HANDSHAKE_ATTEMPT_LIFETIME, from_secs in *; lia].
  cbv zeta. by rewrite Hp, Hl.
Qed.
End Lemmas.

(** ** No call panics *)

Section NoPanic.
Context {SN : Snow} {SL : SnowLaws SN}.

Lemma encrypt_for_peer_np peer m payload now st : no_panic (encrypt_for_peer peer m payload now st).2.
Proof.
  rewrite encrypt_for_peer_eq. case_match; [|done]. cbn [snd].
  pose proof (encrypt_np m payload s). by destruct (encrypt m payload s).2.
Qed.

Lemma decrypt_transport_np sid n ct now st :
  sm_wf st -> is_u64 n -> no_panic (decrypt_transport sid n ct now st).2.
Proof.
  intros Hwf Hn. destruct (decrypt_transport_cases sid n ct now st) as [[-> _]|(k & p & s & Hs & _ & ->)]; [done|].
  assert (session_wf s) as Hw by apply (slots_ok _ (wf_slots _ (prune_wf now st Hwf)) _ _ _ Hs).
  pose proof (decrypt_np sid n ct s Hw Hn). cbv zeta. by destruct (decrypt sid n ct s).2 as [[]| |].
Qed.

Lemma initiator_finalize_np i m wall : no_panic (initiator_finalize i m wall).
Proof.
  unfold initiator_finalize, mbind, outcome_bind, no_panic.
  pose proof (hs_read_np (is_state i) m (Z.of_nat SESSION_ID_SIZE + AEAD_TAG_SIZE)).
  destruct (hs_read _ _ _) as [[payload h]| |]; try done. cbn [map_err].
  destruct (negb _); [done|]. pose proof (into_stateless_np h). by destruct (into_stateless h).
Qed.

Lemma finalize_initiator_np hid m wall st : no_panic (finalize_initiator hid m wall st).2.
Proof.
  destruct (finalize_cases hid m wall st) as [[-> _]|(p & pi & _ & _ & ->)]; [done|]. cbv zeta.
  pose proof (initiator_finalize_np (pi_state pi) m wall).
  destruct (initiator_finalize _ _ _) as [s| |]; [|done..]. destruct (session_id_in_use _ _); [done|].
  pose proof (encrypt_np MsgType.Keepalive KEEPALIVE_PROBE_PAYLOAD s). by destruct (encrypt _ _ s).2.
Qed.

Lemma initiator_start_np ls rs psk rng : no_panic (initiator_start ls rs psk rng).2.
Proof.
  unfold initiator_start, initiator_start_with_id, draw, noise_write, mlift, mret, M_ret, mbind, M_bind, no_panic.
  destruct (fill_bytes rng SESSION_ID_SIZE) as [hid r].
  pose proof (build_initiator_np ls rs psk (handshake_prologue hid)).
  destruct (build_initiator _ _ _ _) as [h| |]; try done. cbn [map_err].
  pose proof (hs_write_np h [] MAX_NOISE_MESSAGE_SIZE r).
  destruct (hs_write _ _ _ _) as [r1 [[m h1]| |]]; done.
Qed.

Lemma start_or_retry_handshake_np peer ls rs psk now x :
  no_panic (start_or_retry_handshake peer ls rs psk now x).2.
Proof.
  destruct x as [st rng]. rewrite start_eq. cbv zeta. destruct (pending_init _ !! peer); [by case_match|].
  destruct (responder_candidates _ !! peer); [done|]. destruct (get_is _ _ _); [done|].
  pose proof (initiator_start_np ls rs psk rng).
  by destruct (initiator_start ls rs psk rng) as [r [h| |]].
Qed.

Lemma responder_respond_np local expected psk hid message wall r :
  no_panic (responder_respond local expected psk hid message wall r).2.
Proof.
  unfold responder_respond, draw, noise_write, mlift, mfail, mret, M_ret, mbind, M_bind, no_panic.
  pose proof (build_responder_np local psk (handshake_prologue hid)).
  destruct (build_responder _ _ _) as [h| |]; try done. cbn [map_err].
  pose proof (hs_read_np h message MAX_NOISE_MESSAGE_SIZE).
  destruct (hs_read _ _ _) as [[payload h']| |]; try done. cbn [map_err].
  destruct (negb _); [done|]. destruct (get_remote_static h'); [|done]. cbn [ok_or].
  destruct (negb _); [done|]. destruct (fill_bytes r SESSION_ID_SIZE) as [sid r1].
  pose proof (hs_write_np h' sid MAX_NOISE_MESSAGE_SIZE r1).
  destruct (hs_write _ _ _ _) as [r2 [[resp h2]| |]]; try done. cbn [map_err].
  pose proof (into_stateless_np h2). by destruct (into_stateless h2).
Qed.
End NoPanic.

(** ** Properties *)

Section Properties.
Context {SN : Snow} {SL : SnowLaws SN}.

(** C18: in every state the session manager reaches, under any interleaving of
    its methods and any packets: no session identifier names two sessions, the
    replay windows are consistent, a responder candidate has its cached
    response and never coexists with a local initiation of the same peer, and
    no method panics. *)
Theorem manager_invariant st :
  reachable st ->
  sm_wf st /\
  (forall peer m payload now, no_panic (encrypt_for_peer peer m payload now st).2) /\
  (forall sid n ct now, is_u64 n -> no_panic (decrypt_transport sid n ct now st).2) /\
  (forall hid m wall, no_panic (finalize_initiator hid m wall st).2) /\
  (forall peer ls rs psk now rng, no_panic (start_or_retry_handshake peer ls rs psk now (st, rng)).2).
Proof.
  intros [ls Hst]. pose proof (steps_wf _ _ _ default_wf Hst) as Hwf.
  split; [done|]. repeat split; intros; auto using encrypt_for_peer_np, decrypt_transport_np,
    finalize_initiator_np, start_or_retry_handshake_np.
Qed.

(** C8: a transport packet is delivered at most once, across rekeys,
    promotions and expiry: after a packet with session [sid] and counter [n]
    was accepted, nothing the manager does makes it accept that pair again,
    unless a new session is opened under the same 8-byte identifier. *)
Theorem delivered_at_most_once sid n ct now st st1 d ls st2 :
  reachable st -> is_u64 n ->
  decrypt_transport sid n ct now st = (st1, Ok (Some d)) ->
  sm_steps st1 ls st2 -> (forall p s, (p, s) ∈ ls -> session_id s <> sid) ->
  forall ct' now' d', (decrypt_transport sid n ct' now' st2).2 <> Ok (Some d').
Proof.
  intros [ls0 Hst] Hn E Hsteps Hnew ct' now'.
  pose proof (steps_wf _ _ _ default_wf Hst) as Hwf.
  pose proof (decrypt_transport_wf sid n ct now st Hwf Hn) as Hwf1. rewrite E in Hwf1.
  apply decrypt_transport_dead.
  exact (steps_dead sid n _ _ _ Hn Hwf1 Hsteps Hnew
    (decrypt_transport_ok_dead _ _ _ _ _ _ _ Hwf Hn E)).
Qed.

(** C17: a payload is delivered for a peer only if a live session of that
    peer - active, previous or candidate - authenticated it and its counter
    was fresh; the peer's active session is replaced exactly when that session
    is its candidate, and the replaced one becomes the receive-only previous
    session. *)
Theorem delivery_authenticated sid n ct now st st' d :
  sm_wf st -> is_u64 n -> decrypt_transport sid n ct now st = (st', Ok (Some d)) ->
  exists k, authenticated st sid n ct now k (dt_peer_name d) (dt_msg_type d) (dt_payload d) /\
    (dt_promoted d = true <-> k = Candidate) /\
    (k = Candidate ->
       session_id <$> sessions st' !! dt_peer_name d = Some sid /\
       responder_candidates st' !! dt_peer_name d = None /\
       pending_init st' !! dt_peer_name d = None /\
       forall old, sessions st !! dt_peer_name d = Some old -> is_expired old now = false ->
         previous_sessions st' !! dt_peer_name d = Some old).
Proof.
  intros Hwf Hn E. destruct (decrypt_transport_auth _ _ _ _ _ _ _ Hwf Hn E) as (k & Hauth & Hk).
  exists k. split; [done|]. split; [by rewrite Hk, bool_decide_eq_true|]. intros ->. clear Hauth.
  destruct (decrypt_transport_ok _ _ _ _ _ _ _ E) as (k & s & Hs & _ & Hid & _ & Hpr & Est').
  rewrite (bool_decide_eq_true_2 (Candidate = Candidate)) in Hk by done. rewrite Hk in Hpr, Est'.
  symmetry in Hpr. apply bool_decide_eq_true in Hpr as ->. cbv zeta in Est'.
  assert (Hw : session_wf s) by apply (slots_ok _ (wf_slots _ Hwf) _ _ _ Hs).
  destruct (decrypt_keeps sid n ct s Hw Hn) as [Hid1 _]. subst st'.
  set (st1 := set_slot _ _ _). set (s1 := (decrypt sid n ct s).1) in *. set (p := dt_peer_name d) in *.
  pose proof (slot_promote p s1 st1) as Hslot. destruct (promote_rest p s1 st1) as (Ei & _ & _).
  pose proof (Hslot Active) as HA. pose proof (Hslot Previous) as HP. pose proof (Hslot Candidate) as HC.
  cbn [slot_of] in HA, HP, HC. split_and!.
  - rewrite HA, lookup_insert_eq. cbn. congruence.
  - rewrite HC. apply lookup_delete_eq.
  - rewrite Ei. apply lookup_delete_eq.
  - intros old Hold Hl. rewrite HP.
    assert (sessions st1 !! p = Some old) as -> by (by apply retain_live_Some).
    apply lookup_insert_eq.
Qed.

(** C7: only proof of key possession changes the session a peer is sent
    traffic on: in any step an active session is the one it was (evolved), or
    the responder candidate whose packet authenticated in that step, or the
    session of a response that answered our own initiation. *)
Theorem active_session_needs_proof st l st' p s' :
  sm_wf st -> sm_step st l st' -> sessions st' !! p = Some s' ->
  (exists s, sessions st !! p = Some s /\ sess_le s s') \/
  (exists sid n ct now d s, decrypt_transport sid n ct now st = (st', Ok (Some d)) /\
     dt_peer_name d = p /\ dt_promoted d = true /\
     responder_candidates st !! p = Some s /\ session_id s = sid /\ sess_le s s') \/
  (l = Some (p, s') /\ exists hid m wall f pi,
     finalize_initiator hid m wall st = (st', Ok (Some (p, f))) /\
     pending_init st !! p = Some pi /\ pi_handshake_id pi = hid).
Proof.
  intros Hwf Hstep.
  assert (Hin : forall st', st_ev st st' -> sessions st' !! p = Some s' ->
    exists s, sessions st !! p = Some s /\ sess_le s s') by (intros st1 Hev; apply (Hev Active)).
  destruct Hstep as [peer m payload now st|sid n ct now st Hn
    |peer s hid req resp wall st st' ok Hs E|peer hid req wall st|peer rid passive wall st
    |peer ls rs psk now rng st|hid m wall st st' peer f s E Es|hid m wall st Hno|peer st]; intros Hs'.
  - left. eapply Hin; [|exact Hs']. by apply encrypt_for_peer_ev.
  - destruct (decrypt_active sid n ct now st p s' Hwf Hn Hs') as [|(d & s & H)]; [by left|].
    right. left. by exists sid, n, ct, now, d, s.
  - left. rewrite store_responder_candidate_eq in E.
    destruct (session_id_in_use _ _); injection E as <- <-; eauto using sess_le_refl.
  - left. eapply Hin; [|exact Hs']. by apply cached_responder_response_wf.
  - left. eapply Hin; [|exact Hs']. by apply accept_inbound_initiation_wf.
  - left. eapply Hin; [|exact Hs']. by apply start_or_retry_handshake_wf.
  - destruct (finalize_active _ _ _ _ _ _ _ _ _ E Hs') as [->|H]; [|left; eauto using sess_le_refl].
    right. right. rewrite Es in Hs'. injection Hs' as <-. split; [done|].
    destruct (finalize_peer _ _ _ _ _ _ _ E) as (pi & ? & ?). eauto 10.
  - left. change (slot_of (finalize_initiator hid m wall st).1 Active !! p = Some s') in Hs'.
    rewrite not_finalized_slots in Hs' by done. eauto using sess_le_refl.
  - left. eapply Hin; [|exact Hs']. by apply invalidate_peer_wf.
Qed.

(** C11: a rekey loses no packet in flight: after the active session was
    replaced, by our own initiation or by the peer's, packets sealed with the
    old one are received exactly as before until it expires. *)
Theorem in_flight_survives_rekey st st' p old sid n0 ct0 now0 d hid m wall f now n ct :
  sm_wf st -> is_u64 n0 -> sessions st !! p = Some old -> is_expired old now = false ->
  finalize_initiator hid m wall st = (st', Ok (Some (p, f))) \/
  (decrypt_transport sid n0 ct0 now0 st = (st', Ok (Some d)) /\ dt_promoted d = true /\
   dt_peer_name d = p /\ is_expired old now0 = false) ->
  (decrypt_transport (session_id old) n ct now st').2 =
    match (decrypt (session_id old) n ct old).2 with
    | Ok (mt, pl) => Ok (Some {| dt_peer_name := p; dt_msg_type := mt; dt_payload := pl;
                                 dt_promoted := false |})
    | Err e => Err e
    | Panic => Panic
    end.
Proof.
  intros Hwf Hn Hold Hl Hrekey. enough (sm_wf st' /\ previous_sessions st' !! p = Some old) as [Hwf' Hprev].
  { by apply (decrypt_routes st' Previous p old). }
  destruct Hrekey as [E|(E & Hpr & <- & Hl0)].
  - split; [|by eapply finalize_previous].
    pose proof (finalize_initiator_wf hid m wall st Hwf) as H. by rewrite E in H.
  - split; [pose proof (decrypt_transport_wf sid n0 ct0 now0 st Hwf Hn) as H; by rewrite E in H|].
    destruct (decrypt_transport_ok _ _ _ _ _ _ _ E) as (k & s & _ & _ & _ & _ & Hk & ->).
    rewrite Hpr in *. symmetry in Hk. apply bool_decide_eq_true in Hk as ->.
    change (previous_sessions ?x) with (slot_of x Previous). rewrite slot_promote.
    assert (sessions (prune now0 st) !! dt_peer_name d = Some old) as H by (by apply retain_live_Some).
    cbn [sessions set_slot set_candidates] in *. rewrite H. apply lookup_insert_eq.
Qed.

(** C26: when both sides initiate at once, exactly one of the two initiations
    survives: the side with the smaller identifier refuses the other's and
    keeps its own, the other accepts and drops its own. *)
Theorem simultaneous_initiation pa pb sta stb la lb wa wb fa fb :
  pending_init sta !! pb = Some la -> pending_init stb !! pa = Some lb ->
  wa - pi_created_at la < from_secs 30 -> wb - pi_created_at lb < from_secs 30 ->
  fa && bool_decide (pb ∈ inbound_recovery_preference sta) = false ->
  fb && bool_decide (pa ∈ inbound_recovery_preference stb) = false ->
  pi_handshake_id la <> pi_handshake_id lb ->
  let '(sta', ra) := accept_inbound_initiation pb (pi_handshake_id lb) fa wa sta in
  let '(stb', rb) := accept_inbound_initiation pa (pi_handshake_id la) fb wb stb in
  rb = negb ra /\
  (ra = true -> pending_init sta' !! pb = None /\ stb' = stb) /\
  (rb = true -> pending_init stb' !! pa = None /\ sta' = sta).
Proof.
  intros Ha Hb Hta Htb Hfa Hfb Hne.
  rewrite (accept_pending pb _ fa wa sta la Ha Hta Hfa), (accept_pending pa _ fb wb stb lb Hb Htb Hfb).
  destruct (bytes_le (pi_handshake_id la) (pi_handshake_id lb)) eqn:E1,
    (bytes_le (pi_handshake_id lb) (pi_handshake_id la)) eqn:E2; cbn.
  - by destruct Hne; apply bytes_le_antisym.
  - split_and!; try done. intros _. by rewrite lookup_delete_eq.
  - split_and!; try done. intros _. by rewrite lookup_delete_eq.
  - apply bytes_le_total in E1. congruence.
Qed.

(** The retry schedule: for 30 s after its start a pending initiation is
    retransmitted, the very same packet, at most every 5 s; then it is
    abandoned as if it had never been. *)
Theorem retransmission_schedule peer ls rs psk now st rng p :
  pending_init st !! peer = Some p ->
  start_or_retry_handshake peer ls rs psk now (st, rng) =
    if from_secs 30 <=? now - pi_created_at p
    then start_or_retry_handshake peer ls rs psk now (set_pending (delete peer) st, rng)
    else if now - pi_last_sent p <? from_secs 5 then ((st, rng), Ok None)
    else ((set_pending <[peer := {| pi_handshake_id := pi_handshake_id p; pi_state := pi_state p;
             pi_packet := pi_packet p; pi_created_at := pi_created_at p; pi_last_sent := now |}]> st,
           rng), Ok (Some (pi_packet p))).
Proof.
  intros Hp. rewrite !start_eq. cbv zeta.
  assert (start_prune peer now (set_pending (delete peer) st) = set_pending (delete peer) st) as ->.
  { unfold start_prune, get_is. cbn. by rewrite lookup_delete_eq. }
  assert (start_prune peer now st =
    if from_secs 30 <=? now - pi_created_at p then set_pending (delete peer) st else st) as ->.
  { unfold start_prune, get_is, saturating_duration_since, HANDSHAKE_ATTEMPT_LIFETIME.
    rewrite Hp, Z.geb_leb. by destruct (Z.leb_spec (from_secs 30) (now - pi_created_at p)),
      (Z.leb_spec (from_secs 30) (Z.max 0 (now - pi_created_at p))); unfold from_secs in *; try lia. }
  destruct (from_secs 30 <=? _); [done|]. rewrite Hp.
  unfold saturating_duration_since, HANDSHAKE_RETRY_INTERVAL.
  by destruct (Z.ltb_spec (now - pi_last_sent p) (from_secs 5)),
    (Z.ltb_spec (Z.max 0 (now - pi_last_sent p)) (from_secs 5)); unfold from_secs in *; try lia.
Qed.

(** A new initiation is started only when it is needed: nothing is
    pending, no live responder candidate waits for confirmation, and the
    active session, if any, has reached its rekey threshold; the packet sent is
    the one remembered for retransmission. *)
Theorem initiation_only_when_needed peer ls rs psk now st rng st' rng' f :
  start_or_retry_handshake peer ls rs psk now (st, rng) = ((st', rng'), Ok (Some f)) ->
  (forall p, pending_init st !! peer = Some p -> from_secs 30 <= now - pi_created_at p) ->
  (forall s, responder_candidates st !! peer = Some s -> is_expired s now = true) /\
  (forall s, sessions st !! peer = Some s -> should_rekey s now = true) /\
  exists p, pending_init st' !! peer = Some p /\ pi_packet p = f /\
    pi_created_at p = now /\ pi_last_sent p = now.
Proof.
  rewrite start_eq. cbv zeta. intros E Hold.
  pose proof (start_prune_slot peer now st) as Hs1.
  assert (Hp1 : pending_init (start_prune peer now st) !! peer = None).
  { unfold start_prune, get_is. destruct (pending_init st !! peer) as [p|] eqn:Ep; [|done].
    specialize (Hold p eq_refl). unfold saturating_duration_since, HANDSHAKE_ATTEMPT_LIFETIME.
    rewrite Z.geb_leb, (proj2 (Z.leb_le _ _)) by (unfold from_secs in *; lia). apply lookup_delete_eq. }
  rewrite Hp1 in E. set (st1 := start_prune peer now st) in *.
  destruct (responder_candidates (start_prune2 peer now st1) !! peer) eqn:Ec; [done|].
  pose proof (Hs1 Candidate) as HC. pose proof (Hs1 Active) as HA. cbn in HC, HA. split.
  { intros s Hs. rewrite <- HC in Hs. unfold start_prune2, get_is in Ec. rewrite Hs in Ec.
    destruct (is_expired s now) eqn:Ee; [done|]. congruence. }
  assert (HA2 : sessions (start_prune2 peer now st1) = sessions st1)
    by apply start_prune2_sessions.
  destruct (get_is (sessions (start_prune3 _ _ _)) peer _) eqn:Eg; [done|].
  destruct (initiator_start ls rs psk rng) as [r [h| |]]; [|done..]. injection E as <- <- <-. split.
  - intros s Hs. rewrite <- HA, <- HA2 in Hs. unfold start_prune3 in Eg. unfold get_is at 2 in Eg.
    rewrite Hs in Eg. destruct (is_expired s now) eqn:Ee.
    + apply should_rekey_iff. apply is_expired_time in Ee. unfold from_secs, U64_MAX in *. lia.
    + unfold get_is in Eg. rewrite Hs in Eg. by apply negb_false_iff in Eg.
  - eexists. cbn. rewrite lookup_insert_eq. by split_and!.
Qed.

(** [invalidate_peer] forgets every key of the peer and nothing of any
    other peer, reports whether there was any, and the next initiation for the
    peer starts afresh. *)
Theorem invalidate_peer_complete peer st :
  let '(st', removed) := invalidate_peer peer st in
  (forall k, slot_of st' k = delete peer (slot_of st k)) /\
  pending_init st' = delete peer (pending_init st) /\
  responder_cache st' = delete peer (responder_cache st) /\
  (removed = true <-> (exists k, is_Some (slot_of st k !! peer)) \/ is_Some (pending_init st !! peer)) /\
  forall ls rs psk now rng, (start_or_retry_handshake peer ls rs psk now (st', rng)).2 <> Ok None.
Proof.
  unfold invalidate_peer. cbv zeta. split; [by intros []|]. split; [done|]. split; [done|]. split.
  - cbn. assert (Hs : forall {A} (o : option A), is_some o = true <-> is_Some o).
    { intros A [x|]; cbn; split; intros H; first [done|by exists x|by destruct H]. }
    rewrite !orb_true_iff, !Hs. split.
    + intros [[[H|H]|H]|H]; [left; by exists Active|left; by exists Previous|left; by exists Candidate|by right].
    + intros [[[] H]|H]; cbn in H; auto.
  - intros ls rs psk now rng. apply start_fresh; cbn; by rewrite lookup_delete_eq.
Qed.

(** Traffic leaves only through the peer's live active session: the frame
    carries that session's identifier and next counter, which is consumed; no
    frame is produced exactly when there is no such session, and counters
    never run out. *)
Theorem encrypt_for_peer_spec peer m payload now st :
  sm_wf st ->
  let '(st', r) := encrypt_for_peer peer m payload now st in
  (forall f, r = Ok (Some f) -> exists s ct, sessions st !! peer = Some s /\
     is_expired s now = false /\ f = encode_transport (session_id s) (send_counter s) ct /\
     packet_wf (Transport (session_id s) (send_counter s) ct) /\
     sessions st' !! peer = Some (set_send_counter s (send_counter s + 1))) /\
  (r = Ok None <-> forall s, sessions st !! peer = Some s -> is_expired s now = true) /\
  r <> Err CounterExhausted /\
  forall other, other <> peer -> sessions st' !! other = sessions st !! other.
Proof.
  intros Hwf. rewrite encrypt_for_peer_eq.
  assert (Hother : forall other, other <> peer ->
    sessions (encrypt_prune peer now st) !! other = sessions st !! other).
  { intros other Hne. unfold encrypt_prune. cbv zeta. case_match; cbn; [|done].
    by rewrite lookup_delete_ne. }
  destruct (sessions (encrypt_prune peer now st) !! peer) as [s|] eqn:E.
  - apply encrypt_prune_live in E as [Hs Hl].
    assert (Hw : session_wf s) by apply (slots_ok _ (wf_slots _ Hwf) Active _ _ Hs).
    assert (Hc : (send_counter s =? U64_MAX) = false).
    { apply Z.eqb_neq. intros Hc. rewrite (proj2 (is_expired_time s now)) in Hl by auto. done. }
    split_and!.
    + intros f Hf. destruct (encrypt m payload s).2 as [f0| |] eqn:Ef; [|done..]. injection Hf as ->.
      destruct (encrypt_frame m payload s f Hw Ef) as (_ & _ & ct & -> & Hct & _).
      exists s, ct. split_and!; try done. cbn. rewrite lookup_insert_eq, encrypt_eq, Hc. done.
    + rewrite encrypt_eq, Hc. cbn. split; [by case_match|]. intros H. specialize (H s Hs). congruence.
    + rewrite encrypt_eq, Hc. cbn. by case_match.
    + intros other Hne. cbn. rewrite lookup_insert_ne by done. auto.
  - split_and!; try done.
    split; [|done]. intros _ s Hs. destruct (is_expired s now) eqn:Hl; [done|].
    rewrite (proj2 (encrypt_prune_live peer now st s)) in E by done. done.
Qed.
End Properties.

(** ** Witnesses *)

Definition wit_hid : bytes := [0; 0; 0; 0; 0; 0; 0; 7].

(** A manager that holds a candidate for ["p"]. *)
Definition wit_stored : @SessionState ref_snow * bool :=
  store_responder_candidate (SN := ref_snow) "p" wit_session wit_hid [1] [2] 0 SessionState_default.
Definition wit_cand : @SessionState ref_snow := wit_stored.1.

Definition wit_ct (i : nat) : bytes :=
  match decode_packet (default [] (wit_frames !! i)) with Some (Transport _ _ ct) => ct | _ => [] end.
Definition wit_decrypt (i : nat) (now : Instant) (st : @SessionState ref_snow) :=
  decrypt_transport (SN := ref_snow) wit_sid (Z.of_nat i) (wit_ct i) now st.
Definition wit_d : DecryptedTransport :=
  match (wit_decrypt 0 0 wit_cand).2 with
  | Ok (Some d) => d
  | _ => {| dt_peer_name := ""; dt_msg_type := MsgType.Data; dt_payload := []; dt_promoted := false |}
  end.
Definition wit_active : @SessionState ref_snow := (wit_decrypt 0 0 wit_cand).1.

Lemma wit_decrypt_ok :
  decrypt_transport (SN := ref_snow) wit_sid 0 (wit_ct 0) 0 wit_cand = (wit_active, Ok (Some wit_d)).
Proof. reflexivity. Qed.

Lemma wit_cand_step : sm_step SessionState_default (Some ("p"%string, wit_session)) wit_cand.
Proof.
  apply (step_store (SN := ref_snow) "p" wit_session wit_hid [1] [2] 0 _ wit_cand true).
  - apply wit_session_wf.
  - reflexivity.
Qed.

Lemma wit_cand_reachable : reachable wit_cand.
Proof. exists [("p"%string, wit_session)]. apply (steps_cons _ _ _ [] _ wit_cand_step), steps_nil. Qed.

Lemma wit_cand_wf : sm_wf wit_cand.
Proof. apply (step_wf _ _ _ default_wf wit_cand_step). Qed.

Lemma wit_active_wf : sm_wf wit_active.
Proof.
  apply (step_wf _ None _ wit_cand_wf). apply (step_decrypt (SN := ref_snow) wit_sid 0 (wit_ct 0) 0). done.
Qed.

Lemma manager_invariant_witness :
  sm_wf wit_cand /\ no_panic (decrypt_transport wit_sid 0 (wit_ct 0) 0 wit_cand).2.
Proof.
  destruct (manager_invariant (SL := ref_snow_laws) wit_cand wit_cand_reachable) as (H & _ & Hd & _).
  split; [exact H|]. by apply Hd.
Defined.

Lemma delivered_at_most_once_witness :
  (forall d', (decrypt_transport wit_sid 0 (wit_ct 0) 0 wit_active).2 <> Ok (Some d')) /\
  is_ok (wit_decrypt 1 0 wit_active).2 = true.
Proof.
  split; [|reflexivity].
  apply (delivered_at_most_once wit_sid 0 (wit_ct 0) 0 wit_cand wit_active wit_d [] wit_active).
  - exact wit_cand_reachable.
  - done.
  - exact wit_decrypt_ok.
  - apply steps_nil.
  - intros p s Hin. by apply not_elem_of_nil in Hin.
Defined.

Lemma delivery_authenticated_witness :
  dt_promoted wit_d = true /\ exists k s pt, slot_of wit_cand k !! "p"%string = Some s /\
    ts_read (Snow := ref_snow) (transport s) 0 (wit_ct 0) (len (wit_ct 0) - AEAD_TAG_SIZE) = Ok pt.
Proof.
  split; [reflexivity|].
  destruct (delivery_authenticated wit_sid 0 (wit_ct 0) 0 wit_cand wit_active wit_d wit_cand_wf
    ltac:(done) wit_decrypt_ok) as (k & (s & pt & Hs & _ & _ & _ & Hr & _) & _).
  exists k, s, pt. split; [exact Hs|exact Hr].
Defined.

Definition wit_active_session : @Session ref_snow := default wit_session (sessions wit_active !! "p"%string).

Lemma wit_active_lookup : sessions wit_active !! "p"%string = Some wit_active_session.
Proof. reflexivity. Qed.

Lemma active_session_needs_proof_witness :
  exists d s, decrypt_transport wit_sid 0 (wit_ct 0) 0 wit_cand = (wit_active, Ok (Some d)) /\
    responder_candidates wit_cand !! "p"%string = Some s.
Proof.
  destruct (active_session_needs_proof wit_cand None wit_active "p" wit_active_session wit_cand_wf
    (step_decrypt (SN := ref_snow) wit_sid 0 (wit_ct 0) 0 wit_cand ltac:(done)) wit_active_lookup)
    as [(s & Hs & _)|[(_ & _ & _ & _ & _ & s & _ & _ & _ & Hs & _)|[[=] _]]].
  - assert (sessions wit_cand !! "p"%string = None) as H by reflexivity. congruence.
  - exists wit_d, s. split; [exact wit_decrypt_ok|exact Hs].
Defined.

(** A second candidate confirmed after the first: the first becomes previous. *)
Definition wit_sid2 : bytes := [8; 7; 6; 5; 4; 3; 2; 1].
Definition wit_session2 : @Session ref_snow := Session_new (SN := ref_snow) wit_sid2 wit_key 0.
Definition wit_cand2 : @SessionState ref_snow :=
  (store_responder_candidate (SN := ref_snow) "p" wit_session2 wit_hid [1] [2] 0 wit_active).1.
Definition wit_frames2 : list bytes := default [] (encrypt_all wit_msgs wit_session2).
Definition wit_ct2 : bytes :=
  match decode_packet (default [] (wit_frames2 !! 0%nat)) with Some (Transport _ _ ct) => ct | _ => [] end.
Definition wit_rekey := decrypt_transport (SN := ref_snow) wit_sid2 0 wit_ct2 0 wit_cand2.
Definition wit_d2 : DecryptedTransport :=
  match wit_rekey.2 with Ok (Some d) => d | _ => wit_d end.

Lemma wit_cand2_wf : sm_wf wit_cand2.
Proof.
  apply (step_wf _ _ _ wit_active_wf
    (step_store (SN := ref_snow) "p" wit_session2 wit_hid [1] [2] 0 wit_active wit_cand2 true
      (Session_new_wf (SN := ref_snow) wit_sid2 wit_key 0 eq_refl) eq_refl)).
Qed.

Lemma wit_rekey_ok :
  decrypt_transport (SN := ref_snow) wit_sid2 0 wit_ct2 0 wit_cand2 = (wit_rekey.1, Ok (Some wit_d2)).
Proof. reflexivity. Qed.

Lemma in_flight_survives_rekey_witness :
  (decrypt_transport wit_sid 1 (wit_ct 1) 0 wit_rekey.1).2 =
    Ok (Some {| dt_peer_name := "p"; dt_msg_type := MsgType.Keepalive;
                dt_payload := [1]; dt_promoted := false |}).
Proof.
  etransitivity; [apply (in_flight_survives_rekey wit_cand2 wit_rekey.1 "p" wit_active_session
    wit_sid2 0 wit_ct2 0 wit_d2 [] [] 0 [] 0 1 (wit_ct 1) wit_cand2_wf)|].
  - done.
  - reflexivity.
  - reflexivity.
  - right. split; [exact wit_rekey_ok|]. repeat split; reflexivity.
  - reflexivity.
Defined.

Definition wit_start (hid : Z) (peer : string) :=
  start_or_retry_handshake (SN := ref_snow) peer (replicate 32 1) (replicate 32 2) (replicate 32 3) 0
    (SessionState_default, hid).
Definition wit_pending_st (hid : Z) (peer : string) : @SessionState ref_snow := (wit_start hid peer).1.1.
Definition wit_no_pending : @PendingInitiator ref_snow :=
  @Build_PendingInitiator ref_snow []
    (@Build_InitiatorState ref_snow [] {| rh_local := []; rh_remote := None; rh_psk := [];
                                          rh_prologue := []; rh_initiator := true |}) [] 0 0.
Definition wit_pending (hid : Z) (peer : string) : @PendingInitiator ref_snow :=
  default wit_no_pending (pending_init (wit_pending_st hid peer) !! peer).

Lemma simultaneous_initiation_witness :
  (accept_inbound_initiation "b" (pi_handshake_id (wit_pending 6 "a")) false 0 (wit_pending_st 5 "b")).2
    = false /\
  (accept_inbound_initiation "a" (pi_handshake_id (wit_pending 5 "b")) false 0 (wit_pending_st 6 "a")).2
    = true.
Proof.
  pose proof (simultaneous_initiation "a" "b" (wit_pending_st 5 "b") (wit_pending_st 6 "a")
    (wit_pending 5 "b") (wit_pending 6 "a") 0 0 false false eq_refl eq_refl eq_refl eq_refl
    eq_refl eq_refl ltac:(vm_compute; discriminate)) as H.
  destruct (accept_inbound_initiation "b" _ _ _ _) as [sa ra] eqn:Ea.
  destruct (accept_inbound_initiation "a" _ _ _ _) as [sb rb] eqn:Eb.
  assert (ra = false) as -> by (apply (f_equal snd) in Ea; vm_compute in Ea; congruence).
  split; [done|]. apply H.
Defined.

Lemma retransmission_schedule_witness :
  (start_or_retry_handshake "b" [] [] [] (from_secs 4) (wit_pending_st 5 "b", 9)).2 = Ok None /\
  (start_or_retry_handshake "b" [] [] [] (from_secs 5) (wit_pending_st 5 "b", 9)).2
    = (wit_start 5 "b").2.
Proof.
  split.
  - exact (f_equal snd (retransmission_schedule (SN := ref_snow) "b" [] [] [] (from_secs 4)
      (wit_pending_st 5 "b") 9 (wit_pending 5 "b") eq_refl)).
  - exact (f_equal snd (retransmission_schedule (SN := ref_snow) "b" [] [] [] (from_secs 5)
      (wit_pending_st 5 "b") 9 (wit_pending 5 "b") eq_refl)).
Defined.

Definition wit_msg_init : bytes := default [] (default None (to_option (wit_start 5 "b").2)).

Lemma wit_start_ok :
  start_or_retry_handshake (SN := ref_snow) "b" (replicate 32 1) (replicate 32 2) (replicate 32 3) 0
    (SessionState_default, 5) = (((wit_start 5 "b").1.1, (wit_start 5 "b").1.2), Ok (Some wit_msg_init)).
Proof. reflexivity. Qed.

Lemma initiation_only_when_needed_witness :
  exists p, pending_init (wit_pending_st 5 "b") !! "b"%string = Some p /\ pi_packet p = wit_msg_init.
Proof.
  destruct (initiation_only_when_needed (SN := ref_snow) "b" _ _ _ 0 SessionState_default 5 _ _ _ wit_start_ok)
    as (_ & _ & p & Hp & Hf & _).
  - intros p Hp. assert (pending_init (SN := ref_snow) SessionState_default !! "b"%string = None) as H
      by reflexivity. congruence.
  - exists p. split; [exact Hp|exact Hf].
Defined.

Lemma encrypt_for_peer_spec_witness :
  let '(st', r) := encrypt_for_peer "p" MsgType.Data [69] 0 wit_active in
  is_ok r = true /\ exists s ct, sessions wit_active !! "p"%string = Some s /\
    to_option r = Some (Some (encode_transport (session_id s) (send_counter s) ct)).
Proof.
  pose proof (encrypt_for_peer_spec (SL := ref_snow_laws) "p" MsgType.Data [69] 0 wit_active wit_active_wf) as H.
  destruct (encrypt_for_peer "p" MsgType.Data [69] 0 wit_active) as [st' r] eqn:E.
  assert (is_ok r = true) as Hr by exact (eq_sym (f_equal (fun x => is_ok x.2) E)).
  split; [done|]. destruct H as [Hf [Hn _]]. destruct r as [[f|]| |]; [|exfalso|done..].
  - destruct (Hf f eq_refl) as (s & ct & Hs & _ & -> & _). by exists s, ct.
  - assert (forall s, sessions wit_active !! "p"%string = Some s -> is_expired s 0 = true) as Hx by (by apply Hn).
    specialize (Hx _ wit_active_lookup). by vm_compute in Hx.
Defined.
