(* ===== verification/Std.v ===== *)
(** * The Rust standard library, as far as the source uses it

    Strings are byte strings (UTF-8): one [ascii] per byte.  [str::trim],
    [rsplit_once], [split], integer parsing, and the parser and printer of
    socket addresses ([core::net::parser] and the [Display] of [core::net]). *)

From Stdlib Require Import Ascii String.
From S2P Require Import Prelude Net.
Open Scope Z_scope.

Abbreviation chars := (list ascii) (only parsing).
Definition chars_of (s : string) : chars := list_ascii_of_string s.
Definition of_chars (l : chars) : string := string_of_list_ascii l.

Lemma of_chars_of s : of_chars (chars_of s) = s.
Proof. apply string_of_list_ascii_of_string. Qed.
Lemma chars_of_of l : chars_of (of_chars l) = l.
Proof. apply list_ascii_of_string_of_list_ascii. Qed.
#[export] Hint Rewrite of_chars_of chars_of_of : hushwire.

Definition code (c : ascii) : Z := Z.of_N (N_of_ascii c).
Definition char_of (z : Z) : ascii := ascii_of_N (Z.to_N z).
Definition str_len (s : string) : usize := len (chars_of s).

Definition is_digit (c : ascii) : bool := (48 <=? code c) && (code c <=? 57).
Definition is_ascii_alphanumeric (c : ascii) : bool :=
  is_digit c || ((65 <=? code c) && (code c <=? 90)) || ((97 <=? code c) && (code c <=? 122)).

(** ** [str::trim]: the Unicode [White_Space] characters, in UTF-8 *)

Definition ws1 (a : Z) : bool := ((9 <=? a) && (a <=? 13)) || (a =? 32).
Definition ws2 (a b : Z) : bool := (a =? 194) && ((b =? 133) || (b =? 160)).
Definition ws3 (a b c : Z) : bool :=
  ((a =? 225) && (b =? 154) && (c =? 128))
  || ((a =? 226) && (b =? 128) &&
      (((128 <=? c) && (c <=? 138)) || (c =? 168) || (c =? 169) || (c =? 175)))
  || ((a =? 226) && (b =? 129) && (c =? 159))
  || ((a =? 227) && (b =? 128) && (c =? 128)).

(** The length of the whitespace character [l] starts with; 0 for none. *)
Definition ws_prefix (l : chars) : nat :=
  match l with
  | a :: l' =>
      if ws1 (code a) then 1%nat else
      match l' with
      | b :: l'' =>
          if ws2 (code a) (code b) then 2%nat else
          match l'' with
          | c :: _ => if ws3 (code a) (code b) (code c) then 3%nat else 0%nat
          | [] => 0%nat
          end
      | [] => 0%nat
      end
  | [] => 0%nat
  end.

(** The same for the reversed list: the whitespace character [l] ends with. *)
Definition ws_suffix (l : chars) : nat :=
  match l with
  | c :: l' =>
      if ws1 (code c) then 1%nat else
      match l' with
      | b :: l'' =>
          if ws2 (code b) (code c) then 2%nat else
          match l'' with
          | a :: _ => if ws3 (code a) (code b) (code c) then 3%nat else 0%nat
          | [] => 0%nat
          end
      | [] => 0%nat
      end
  | [] => 0%nat
  end.

Fixpoint strip (p : chars -> nat) (fuel : nat) (l : chars) : chars :=
  match fuel with
  | O => l
  | S fuel => match p l with O => l | n => strip p fuel (drop n l) end
  end.

Definition trim_chars (l : chars) : chars :=
  let l := strip ws_prefix (length l) l in
  rev (strip ws_suffix (length l) (rev l)).
Definition trim (s : string) : string := of_chars (trim_chars (chars_of s)).

(** ** Splitting *)

(** [split_once] at the first occurrence. *)
Fixpoint split_once (c : ascii) (l : chars) : option (chars * chars) :=
  match l with
  | [] => None
  | x :: l => if bool_decide (x = c) then Some ([], l)
              else '(a, b) ← split_once c l; Some (x :: a, b)
  end.
(** [rsplit_once]: at the last one. *)
Definition rsplit_once (c : ascii) (l : chars) : option (chars * chars) :=
  '(b, a) ← split_once c (rev l); Some (rev a, rev b).

(** [str::split] on a character. *)
Fixpoint split (c : ascii) (l : chars) : list chars :=
  match l with
  | [] => [[]]
  | x :: l => if bool_decide (x = c) then [] :: split c l
              else match split c l with
                   | [] => [[x]]
                   | w :: ws => (x :: w) :: ws
                   end
  end.

Definition strip_suffix (c : ascii) (l : chars) : option chars :=
  match rev l with x :: r => if bool_decide (x = c) then Some (rev r) else None | [] => None end.
Definition starts_with (c : ascii) (l : chars) : bool :=
  match l with x :: _ => bool_decide (x = c) | [] => false end.
Definition ends_with (c : ascii) (l : chars) : bool := starts_with c (rev l).

(** ** Integers *)

(** [str::parse::<uN>]: an optional [+], then at least one decimal digit, the
    value in range. *)
Fixpoint parse_digits (radix max acc : Z) (digit : ascii -> option Z) (l : chars) : option Z :=
  match l with
  | [] => Some acc
  | c :: l =>
      d ← digit c;
      let v := acc * radix + d in
      if max <? v then None else parse_digits radix max v digit l
  end.
Definition dec_digit (c : ascii) : option Z := if is_digit c then Some (code c - 48) else None.

Definition parse_uint (max : Z) (l : chars) : option Z :=
  match l with
  | [] => None
  | c :: l' =>
      if bool_decide (c = "+"%char) then
        match l' with [] => None | _ => parse_digits 10 max 0 dec_digit l' end
      else parse_digits 10 max 0 dec_digit l
  end.

(** Lower-case digits of [n], most significant first. *)
Definition digit_char (d : Z) : ascii := if d <? 10 then char_of (48 + d) else char_of (87 + d).
Fixpoint digits_fuel (fuel : nat) (radix n : Z) (acc : chars) : chars :=
  match fuel with
  | O => acc
  | S fuel =>
      let acc := digit_char (n mod radix) :: acc in
      if n / radix =? 0 then acc else digits_fuel fuel radix (n / radix) acc
  end.
(** 64 digits are enough for any integer below 2^64. *)
Definition fmt_radix (radix n : Z) : chars := digits_fuel 64 radix n [].
Definition fmt_dec (n : Z) : chars := fmt_radix 10 n.

(** ** Parsing of addresses ([core::net::parser]) *)

Definition parser (A : Type) : Type := chars -> option (A * chars).

Definition given_char (c : ascii) : parser unit := fun l =>
  match l with x :: l => if bool_decide (x = c) then Some (tt, l) else None | [] => None end.

Definition hex_digit (c : ascii) : option Z :=
  if is_digit c then Some (code c - 48)
  else if (65 <=? code c) && (code c <=? 70) then Some (code c - 55)
  else if (97 <=? code c) && (code c <=? 102) then Some (code c - 87)
  else None.
Definition to_digit (radix : Z) (c : ascii) : option Z :=
  d ← hex_digit c; if d <? radix then Some d else None.

(** The longest prefix of digits. *)
Fixpoint take_digits (radix : Z) (l : chars) : list Z * chars :=
  match l with
  | [] => ([], [])
  | c :: l' => match to_digit radix c with
               | Some d => let '(ds, r) := take_digits radix l' in (d :: ds, r)
               | None => ([], l)
               end
  end.
Definition digits_value (radix : Z) (ds : list Z) : Z := fold_left (fun a d => a * radix + d) ds 0.

(** [read_number]: [max] is the largest value of the result type. *)
Definition read_number (radix max : Z) (max_digits : option nat) (allow_zero_prefix : bool) : parser Z :=
  fun l =>
  let '(ds, r) := take_digits radix l in
  if match max_digits with Some m => (m <? length ds)%nat | None => false end then None else
  if max <? digits_value radix ds then None else
  if (length ds =? 0)%nat then None else
  if negb allow_zero_prefix && starts_with "0"%char l && (1 <? length ds)%nat then None else
  Some (digits_value radix ds, r).

(** [read_separator]: no separator before the first item. *)
Definition read_separator {A} (sep : ascii) (index : nat) (inner : parser A) : parser A := fun l =>
  match index with O => inner l | _ => '(_, l) ← given_char sep l; inner l end.

Definition read_ipv4_addr : parser u32 := fun l =>
  '(a, l) ← read_number 10 255 (Some 3%nat) false l;
  '(b, l) ← read_separator "."%char 1 (read_number 10 255 (Some 3%nat) false) l;
  '(c, l) ← read_separator "."%char 2 (read_number 10 255 (Some 3%nat) false) l;
  '(d, l) ← read_separator "."%char 3 (read_number 10 255 (Some 3%nat) false) l;
  Some (from_be_bytes [a; b; c; d], l).

(** [read_groups] from index [i] on, with [n] slots left: the groups read and
    whether the last two are an embedded IPv4 address. *)
Fixpoint read_groups (i n : nat) (l : chars) : list u16 * bool * chars :=
  match n with
  | O => ([], false, l)
  | S n' =>
      match (if (0 <? n')%nat then read_separator ":"%char i read_ipv4_addr l else None) with
      | Some (v4, l) => ([v4 / 65536; v4 mod 65536], true, l)
      | None =>
          match read_separator ":"%char i (read_number 16 U16_MAX (Some 4%nat) true) l with
          | Some (g, l) => let '(gs, b, l) := read_groups (S i) n' l in (g :: gs, b, l)
          | None => ([], false, l)
          end
      end
  end.

Definition groups_value (gs : list u16) : Z := fold_left (fun a g => a * 65536 + g) gs 0.

Definition read_ipv6_addr : parser Z := fun l =>
  let '(head, head_ipv4, l) := read_groups 0 8 l in
  if (length head =? 8)%nat then Some (groups_value head, l) else
  if head_ipv4 : bool then None else
  '(_, l) ← given_char ":"%char l;
  '(_, l) ← given_char ":"%char l;
  let '(tail, _, l) := read_groups 0 (8 - (length head + 1)) l in
  Some (groups_value (head ++ replicate (8 - length head - length tail) 0 ++ tail), l).

Definition read_port : parser u16 := fun l =>
  '(_, l) ← given_char ":"%char l; read_number 10 U16_MAX None true l.
Definition read_scope_id : parser u32 := fun l =>
  '(_, l) ← given_char "%"%char l; read_number 10 U32_MAX None true l.

Definition read_socket_addr_v4 : parser SocketAddr := fun l =>
  '(ip, l) ← read_ipv4_addr l; '(port, l) ← read_port l; Some (SA4 ip port, l).
Definition read_socket_addr_v6 : parser SocketAddr := fun l =>
  '(_, l) ← given_char "["%char l;
  '(ip, l) ← read_ipv6_addr l;
  let '(scope, l) := match read_scope_id l with Some (s, l') => (s, l') | None => (0, l) end in
  '(_, l) ← given_char "]"%char l;
  '(port, l) ← read_port l; Some (SA6 ip port 0 scope, l).

(** [str::parse::<SocketAddr>]. *)
Definition parse_socket_addr (l : chars) : option SocketAddr :=
  match (match read_socket_addr_v4 l with Some r => Some r | None => read_socket_addr_v6 l end) with
  | Some (a, []) => Some a
  | _ => None
  end.

(** ** Display of addresses *)

Definition octets (ip : u32) : bytes := to_be_bytes 4 ip.
Definition fmt_ipv4 (ip : u32) : chars :=
  match octets ip with
  | [a; b; c; d] => fmt_dec a ++ "."%char :: fmt_dec b ++ "."%char :: fmt_dec c ++ "."%char :: fmt_dec d
  | _ => []
  end.

Definition segments (ip : Z) : list u16 :=
  (fun i => Z.shiftr ip (16 * (7 - Z.of_nat i)) mod 65536) <$> seq 0 8.

(** The longest run of zero segments, the first one of several: start and
    length.  The loop carries the index, the current and the longest run. *)
Fixpoint zero_span (i : nat) (cur best : nat * nat) (l : list u16) : nat * nat :=
  match l with
  | [] => best
  | s :: l =>
      if s =? 0 then
        let cur := if (cur.2 =? 0)%nat then (i, 1%nat) else (cur.1, S cur.2) in
        zero_span (S i) cur (if (best.2 <? cur.2)%nat then cur else best) l
      else zero_span (S i) (0%nat, 0%nat) best l
  end.

Definition fmt_subslice (l : list u16) : chars :=
  match l with
  | [] => []
  | s :: l => fmt_radix 16 s ++ concat ((fun s => ":"%char :: fmt_radix 16 s) <$> l)
  end.

Definition fmt_ipv6 (ip : Z) : chars :=
  let segs := segments ip in
  if bool_decide (take 6 segs = [0; 0; 0; 0; 0; 65535]) then
    chars_of "::ffff:" ++ fmt_ipv4 (ip mod 2 ^ 32)
  else
    let '(start, n) := zero_span 0 (0%nat, 0%nat) (0%nat, 0%nat) segs in
    if (1 <? n)%nat then fmt_subslice (take start segs) ++ chars_of "::" ++ fmt_subslice (drop (start + n) segs)
    else fmt_subslice segs.

Definition fmt_ip (ip : IpAddr) : chars := match ip with V4 a => fmt_ipv4 a | V6 a => fmt_ipv6 a end.
Definition fmt_socket_addr (s : SocketAddr) : chars :=
  match s with
  | SA4 ip port => fmt_ipv4 ip ++ ":"%char :: fmt_dec port
  | SA6 ip port _ scope =>
      if scope =? 0 then "["%char :: fmt_ipv6 ip ++ chars_of "]:" ++ fmt_dec port
      else "["%char :: fmt_ipv6 ip ++ "%"%char :: fmt_dec scope ++ chars_of "]:" ++ fmt_dec port
  end.

Example parse_v4 : parse_socket_addr (chars_of "192.0.2.10:27777") = Some (SA4 3221225994 27777).
Proof. vm_compute. reflexivity. Qed.
Example parse_v6 : parse_socket_addr (chars_of "[2001:db8::1%3]:80") =
  Some (SA6 42540766411282592856903984951653826561 80 0 3).
Proof. vm_compute. reflexivity. Qed.
Example parse_leading_zero : parse_socket_addr (chars_of "192.0.02.10:80") = None.
Proof. vm_compute. reflexivity. Qed.
Example fmt_v6 : of_chars (fmt_socket_addr (SA6 42540766411282592856903984951653826561 80 0 3)) = "[2001:db8::1%3]:80"%string.
Proof. vm_compute. reflexivity. Qed.
Example trim_ws : trim (String (char_of 194) (String (char_of 160) " a b  ")) = "a b"%string.
Proof. vm_compute. reflexivity. Qed.

(** ** Printing and reading numbers *)

Lemma code_char_of z : 0 <= z < 256 -> code (char_of z) = z.
Proof. intros Hz. unfold code, char_of. rewrite N_ascii_embedding; lia. Qed.

Lemma to_digit_char radix d : radix <= 16 -> 0 <= d < radix -> to_digit radix (digit_char d) = Some d.
Proof.
  intros Hr Hd. unfold to_digit, hex_digit, is_digit, digit_char.
  destruct (Z.ltb_spec d 10).
  - rewrite code_char_of by lia.
    rewrite (proj2 (Z.leb_le 48 _)), (proj2 (Z.leb_le _ 57)) by lia. cbn [andb mbind option_bind].
    replace (48 + d - 48) with d by lia. by rewrite (proj2 (Z.ltb_lt _ _)) by lia.
  - rewrite code_char_of by lia.
    rewrite (proj2 (Z.leb_le 48 _)), (proj2 (Z.leb_gt _ 57)) by lia. cbn [andb].
    rewrite (proj2 (Z.leb_le 65 _)), (proj2 (Z.leb_gt _ 70)) by lia. cbn [andb].
    rewrite (proj2 (Z.leb_le 97 _)), (proj2 (Z.leb_le _ 102)) by lia. cbn [andb mbind option_bind].
    replace (87 + d - 87) with d by lia. by rewrite (proj2 (Z.ltb_lt _ _)) by lia.
Qed.

Lemma digits_value_app radix ds d :
  digits_value radix (ds ++ [d]) = digits_value radix ds * radix + d.
Proof. unfold digits_value. by rewrite fold_left_app. Qed.

Lemma digits_value_bound radix ds :
  2 <= radix -> Forall (fun d => 0 <= d < radix) ds ->
  0 <= digits_value radix ds < radix ^ len ds.
Proof.
  intros Hr. induction ds as [|d ds IH] using rev_ind; intros Hds; [done|].
  apply Forall_app in Hds as [Hds [Hd _]%Forall_cons]. specialize (IH Hds).
  rewrite digits_value_app, len_app, len_cons. change (1 + len (@nil Z)) with 1.
  rewrite (Z.pow_add_r radix (len ds) 1) by (pose proof (len_nonneg ds); lia). nia.
Qed.

(** The printed digits of [n]: in range, no leading zero, of value [n]. *)
Lemma digits_fuel_spec radix fuel n acc :
  2 <= radix -> (0 < fuel)%nat -> 0 <= n < radix ^ Z.of_nat fuel ->
  exists ds, digits_fuel fuel radix n acc = (digit_char <$> ds) ++ acc /\
    Forall (fun d => 0 <= d < radix) ds /\ digits_value radix ds = n /\
    (1 <= length ds)%nat /\ ((1 < length ds)%nat -> radix ^ (len ds - 1) <= n).
Proof.
  intros Hr. revert n acc. induction fuel as [|fuel IH]; intros n acc Hf Hn; [lia|].
  cbn [digits_fuel]. pose proof (Z.mod_pos_bound n radix ltac:(lia)) as Hm.
  pose proof (Z.div_mod n radix ltac:(lia)) as Hdm.
  destruct (Z.eqb_spec (n / radix) 0) as [E|E].
  - exists [n mod radix]. split_and!; [done|by constructor|cbn; lia|cbn; lia|cbn; lia].
  - assert (Hq : 0 < n / radix) by (pose proof (Z.div_pos n radix); lia).
    rewrite Nat2Z.inj_succ, Z.pow_succ_r in Hn by lia.
    assert (Hlt : n / radix < radix ^ Z.of_nat fuel) by (apply Z.div_lt_upper_bound; lia).
    destruct fuel as [|fuel]; [cbn in Hlt; lia|].
    destruct (IH (n / radix) (digit_char (n mod radix) :: acc)) as (ds & -> & Hds & Hv & Hl & Hz); [lia|lia|].
    exists (ds ++ [n mod radix]). split_and!.
    + by rewrite fmap_app, <- app_assoc.
    + apply Forall_app. split; [done|by constructor].
    + rewrite digits_value_app, Hv. lia.
    + rewrite length_app. cbn. lia.
    + intros _. rewrite len_app, len_cons. change (len (@nil Z)) with 0. replace (len ds + (1 + 0) - 1) with (len ds) by lia.
      unfold len in *. destruct (decide (1 < length ds)%nat) as [H1|H1].
      * specialize (Hz H1). replace (Z.of_nat (length ds)) with (Z.of_nat (length ds) - 1 + 1) by lia.
        rewrite Z.pow_add_r by lia. nia.
      * replace (length ds) with 1%nat by lia. cbn. nia.
Qed.

Lemma fmt_radix_spec radix n :
  2 <= radix -> 0 <= n < 2 ^ 64 ->
  exists ds, fmt_radix radix n = digit_char <$> ds /\
    Forall (fun d => 0 <= d < radix) ds /\ digits_value radix ds = n /\
    (1 <= length ds)%nat /\ ((1 < length ds)%nat -> radix ^ (len ds - 1) <= n).
Proof.
  intros Hr Hn. destruct (digits_fuel_spec radix 64 n []) as (ds & E & H); [done|lia| |].
  - assert (2 ^ 64 <= radix ^ 64) by (apply Z.pow_le_mono_l; lia). cbn [Z.of_nat]. lia.
  - exists ds. unfold fmt_radix. by rewrite E, app_nil_r.
Qed.

Definition stops (radix : Z) (l : list ascii) : Prop := take_digits radix l = ([], l).

Lemma take_digits_app radix ds rest :
  radix <= 16 -> Forall (fun d => 0 <= d < radix) ds -> stops radix rest ->
  take_digits radix ((digit_char <$> ds) ++ rest) = (ds, rest).
Proof.
  intros Hr Hds Hs. induction Hds as [|d ds Hd _ IH]; [exact Hs|].
  cbn. rewrite to_digit_char by done. by rewrite IH.
Qed.

Lemma starts_zero_small radix d ds :
  2 <= radix <= 16 -> Forall (fun d => 0 <= d < radix) (d :: ds) ->
  starts_with "0"%char ((digit_char <$> (d :: ds))) = true -> digits_value radix (d :: ds) < radix ^ len ds.
Proof.
  intros Hr [Hd Hds]%Forall_cons Hz.
  assert (d = 0) as ->.
  { cbn in Hz. apply bool_decide_eq_true in Hz.
    pose proof (to_digit_char radix d ltac:(lia) Hd) as E. rewrite Hz in E.
    unfold to_digit in E. change (hex_digit "0"%char) with (Some 0) in E.
    cbn [mbind option_bind] in E. destruct (0 <? radix); congruence. }
  apply (digits_value_bound radix ds); [lia|done].
Qed.

(** Reading back a printed number. *)
Lemma read_number_fmt radix max md az n rest :
  2 <= radix <= 16 -> 0 <= n <= max -> max < 2 ^ 64 -> stops radix rest ->
  (forall m, md = Some m -> (1 <= m)%nat /\ max < radix ^ Z.of_nat m) ->
  read_number radix max md az (fmt_radix radix n ++ rest) = Some (n, rest).
Proof.
  intros Hr Hn Hmax Hs Hmd. destruct (fmt_radix_spec radix n) as (ds & -> & Hds & Hv & Hl & Hz); [lia|lia|].
  unfold read_number. rewrite take_digits_app by (done || lia). rewrite Hv.
  assert (match md with Some m => (m <? length ds)%nat | None => false end = false) as ->.
  { destruct md as [m|]; [|done]. destruct (Hmd m eq_refl) as [Hm1 Hm2]. apply Nat.ltb_ge.
    destruct (decide (length ds <= m)%nat) as [|Hgt]; [done|exfalso].
    specialize (Hz ltac:(lia)).
    assert (radix ^ Z.of_nat m <= radix ^ (len ds - 1)) by (apply Z.pow_le_mono_r; unfold len; lia). lia. }
  rewrite (proj2 (Z.ltb_ge _ _)), (proj2 (Nat.eqb_neq _ _)) by lia.
  destruct (_ && _ && _)%bool eqn:E; [exfalso|done].
  apply andb_prop in E as [[_ E]%andb_prop H1%Nat.ltb_lt]. specialize (Hz H1).
  destruct ds as [|d ds]; [cbn in Hl; lia|].
  assert (Hlt : digits_value radix (d :: ds) < radix ^ len ds) by (apply starts_zero_small; done).
  rewrite len_cons in Hz. replace (1 + len ds - 1) with (len ds) in Hz by lia. lia.
Qed.

Lemma parse_digits_fmt max ds acc :
  Forall (fun d => 0 <= d < 10) ds -> 0 <= acc ->
  fold_left (fun a d => a * 10 + d) ds acc <= max ->
  parse_digits 10 max acc dec_digit (digit_char <$> ds) = Some (fold_left (fun a d => a * 10 + d) ds acc).
Proof.
  intros Hds. revert acc. induction Hds as [|d ds Hd Hds IH]; intros acc Ha Hm; [done|].
  rewrite fmap_cons. cbn [parse_digits fold_left] in *.
  assert (dec_digit (digit_char d) = Some d) as ->.
  { unfold dec_digit, is_digit, digit_char. rewrite (proj2 (Z.ltb_lt d 10)) by lia.
    rewrite code_char_of by lia. rewrite (proj2 (Z.leb_le 48 _)), (proj2 (Z.leb_le _ 57)) by lia.
    cbn [andb]. f_equal. lia. }
  cbn [mbind option_bind].
  assert (forall l b, Forall (fun d => 0 <= d < 10) l -> 0 <= b ->
            b <= fold_left (fun a d => a * 10 + d) l b) as Hmono.
  { clear. intros l b Hl. revert b. induction Hl as [|x l Hx _ IH]; intros b Hb; cbn; [lia|].
    specialize (IH (b * 10 + x)). lia. }
  pose proof (Hmono ds (acc * 10 + d) Hds ltac:(lia)).
  rewrite (proj2 (Z.ltb_ge _ _)) by lia. apply IH; lia.
Qed.

Lemma digit_char_neq d c : 0 <= d < 16 -> hex_digit c = None -> digit_char d <> c.
Proof.
  intros Hd Hc <-. pose proof (to_digit_char 16 d ltac:(lia) Hd) as E.
  unfold to_digit in E. by rewrite Hc in E.
Qed.

Lemma parse_uint_fmt max n : 0 <= n <= max -> max < 2 ^ 64 -> parse_uint max (fmt_dec n) = Some n.
Proof.
  intros Hn Hmax. unfold fmt_dec. destruct (fmt_radix_spec 10 n) as (ds & -> & Hds & Hv & Hl & _); [lia|lia|].
  unfold parse_uint. destruct ds as [|d ds]; [cbn in Hl; lia|]. rewrite fmap_cons.
  rewrite bool_decide_eq_false_2.
  - rewrite <- fmap_cons. unfold digits_value in Hv. rewrite parse_digits_fmt; [by rewrite Hv|done|lia|lia].
  - apply digit_char_neq; [|done]. apply Forall_cons in Hds as [? _]. lia.
Qed.

(** No printed number contains a separator. *)
Lemma fmt_dec_notin n c : 0 <= n < 2 ^ 64 -> hex_digit c = None -> c ∉ fmt_dec n.
Proof.
  intros Hn Hc. unfold fmt_dec. destruct (fmt_radix_spec 10 n) as (ds & -> & Hds & _); [lia|lia|].
  intros (d & E & Hd)%list_elem_of_fmap. rewrite Forall_forall in Hds. specialize (Hds d Hd).
  symmetry in E. revert E. apply digit_char_neq; [lia|done].
Qed.

Lemma split_once_app c a b : (c ∉ a) -> split_once c (a ++ c :: b) = Some (a, b).
Proof.
  induction a as [|x a IH]; intros Ha; cbn.
  - by rewrite bool_decide_eq_true_2.
  - apply not_elem_of_cons in Ha as [Hx Ha]. rewrite bool_decide_eq_false_2 by done.
    by rewrite IH.
Qed.

Lemma rsplit_once_app c a b : (c ∉ b) -> rsplit_once c (a ++ c :: b) = Some (a, b).
Proof.
  intros Hb. unfold rsplit_once. rewrite rev_app_distr. cbn [rev]. rewrite <- app_assoc. cbn [app].
  rewrite split_once_app by (by rewrite <- Permutation_rev).
  cbn. by rewrite !rev_involutive.
Qed.

(** ** Reading back a printed IPv4 socket address *)

Lemma stops_char radix c l : hex_digit c = None -> stops radix (c :: l).
Proof. intros Hc. unfold stops. cbn. unfold to_digit. by rewrite Hc. Qed.

Lemma stops_nil radix : stops radix [].
Proof. done. Qed.

Lemma given_char_cons c l : given_char c (c :: l) = Some (tt, l).
Proof. unfold given_char. by rewrite bool_decide_eq_true_2. Qed.

Lemma read_octet b rest :
  is_byte b -> stops 10 rest ->
  read_number 10 255 (Some 3%nat) false (fmt_dec b ++ rest) = Some (b, rest).
Proof.
  intros Hb Hs. unfold is_byte in Hb. apply read_number_fmt; try done; try lia.
  intros m [= <-]. split; [lia|done].
Qed.

Lemma octets_split ip :
  0 <= ip < 2 ^ 32 ->
  exists a b c d, octets ip = [a; b; c; d] /\ is_byte a /\ is_byte b /\ is_byte c /\ is_byte d /\
    from_be_bytes [a; b; c; d] = ip.
Proof.
  intros Hip. unfold octets. pose proof (to_be_bytes_ok 4 ip) as Hok.
  pose proof (from_to_be 4 ip Hip) as Hv. cbn [to_be_bytes] in *.
  eexists _, _, _, _. split; [reflexivity|].
  rewrite !Forall_cons in Hok. destruct Hok as (? & ? & ? & ? & _). by split_and!.
Qed.

Lemma read_ipv4_fmt ip rest :
  0 <= ip < 2 ^ 32 -> stops 10 rest -> read_ipv4_addr (fmt_ipv4 ip ++ rest) = Some (ip, rest).
Proof.
  intros Hip Hs. destruct (octets_split ip Hip) as (a & b & c & d & E & Ha & Hb & Hc & Hd & Hv).
  unfold read_ipv4_addr, fmt_ipv4. rewrite E.
  repeat (rewrite <- app_assoc; cbn [app]).
  rewrite read_octet by (done || by apply stops_char). cbn [mbind option_bind read_separator].
  do 3 (rewrite given_char_cons; cbn [mbind option_bind];
    rewrite read_octet by (done || by apply stops_char); cbn [mbind option_bind]).
  by rewrite Hv.
Qed.

Lemma read_port_fmt p : 0 <= p <= U16_MAX -> read_port (":"%char :: fmt_dec p) = Some (p, []).
Proof.
  intros Hp. unfold read_port. rewrite given_char_cons. cbn [mbind option_bind].
  rewrite <- (app_nil_r (fmt_dec p)). by apply read_number_fmt.
Qed.

Lemma parse_fmt_v4 ip port :
  0 <= ip < 2 ^ 32 -> 0 <= port <= U16_MAX ->
  parse_socket_addr (fmt_socket_addr (SA4 ip port)) = Some (SA4 ip port).
Proof.
  intros Hip Hp. unfold parse_socket_addr, read_socket_addr_v4. cbn [fmt_socket_addr].
  rewrite read_ipv4_fmt by (done || by apply stops_char). cbn [mbind option_bind].
  by rewrite read_port_fmt.
Qed.

(** ** What the parsers return is in range *)

Lemma hex_digit_range c d : hex_digit c = Some d -> 0 <= d.
Proof. unfold hex_digit, is_digit. intros H. repeat case_match; simplify_eq; zbool; lia. Qed.

Lemma to_digit_range radix c d : to_digit radix c = Some d -> 0 <= d.
Proof.
  unfold to_digit. intros H. destruct (hex_digit c) as [x|] eqn:E; [|done]. cbn in H.
  destruct (x <? radix); [|done]. injection H as <-. by eapply hex_digit_range.
Qed.

Lemma take_digits_range radix l ds r : take_digits radix l = (ds, r) -> Forall (fun d => 0 <= d) ds.
Proof.
  revert ds r. induction l as [|c l IH]; intros ds r H; cbn in H; [by simplify_eq|].
  destruct (to_digit radix c) as [d|] eqn:E; [|by simplify_eq].
  destruct (take_digits radix l) as [ds' r'] eqn:E'. simplify_eq.
  constructor; [by eapply to_digit_range|by eapply IH].
Qed.

Lemma digits_value_nonneg radix ds : 0 <= radix -> Forall (fun d => 0 <= d) ds -> 0 <= digits_value radix ds.
Proof.
  intros Hr. induction ds as [|d ds IH] using rev_ind; intros Hds; [done|].
  apply Forall_app in Hds as [Hds [Hd _]%Forall_cons]. rewrite digits_value_app. specialize (IH Hds). nia.
Qed.

Lemma read_number_range radix max md az l v r :
  0 <= radix -> read_number radix max md az l = Some (v, r) -> 0 <= v <= max.
Proof.
  intros Hr. unfold read_number. destruct (take_digits radix l) as [ds r'] eqn:E.
  destruct (match md with Some m => _ | None => _ end); [done|].
  destruct (Z.ltb_spec max (digits_value radix ds)); [done|]. destruct (_ =? 0)%nat; [done|].
  destruct (_ && _ && _)%bool; [done|]. intros [= <- <-].
  split; [|done]. apply digits_value_nonneg; [done|]. by eapply take_digits_range.
Qed.

Lemma read_separator_range sep i l v r :
  read_separator sep i (read_number 10 255 (Some 3%nat) false) l = Some (v, r) -> is_byte v.
Proof.
  unfold is_byte. destruct i; cbn [read_separator]; intros H.
  - apply read_number_range in H; lia.
  - destruct (given_char sep l) as [[? ?]|]; [|done]. apply read_number_range in H; lia.
Qed.

Lemma read_ipv4_range l ip r : read_ipv4_addr l = Some (ip, r) -> 0 <= ip < 2 ^ 32.
Proof.
  unfold read_ipv4_addr. intros H.
  destruct (read_number 10 255 (Some 3%nat) false l) as [[a l1]|] eqn:Ea; [|done].
  cbn [mbind option_bind] in H.
  destruct (read_separator "."%char 1 _ l1) as [[b l2]|] eqn:Eb; [|done]. cbn [mbind option_bind] in H.
  destruct (read_separator "."%char 2 _ l2) as [[c l3]|] eqn:Ec; [|done]. cbn [mbind option_bind] in H.
  destruct (read_separator "."%char 3 _ l3) as [[d l4]|] eqn:Ed; [|done]. cbn [mbind option_bind] in H.
  apply (read_separator_range "."%char 0) in Ea. apply read_separator_range in Eb, Ec, Ed.
  injection H as <- _. change (2 ^ 32) with (256 ^ len [a; b; c; d]).
  apply (from_be_bytes_bound [a; b; c; d]).
  repeat (apply Forall_cons_2; [done|]). apply Forall_nil_2.
Qed.

Lemma read_port_range l p r : read_port l = Some (p, r) -> 0 <= p <= U16_MAX.
Proof.
  unfold read_port. destruct (given_char _ l) as [[? ?]|]; [|done]. cbn [mbind option_bind].
  by apply read_number_range.
Qed.

Lemma parse_v4_range l ip port :
  parse_socket_addr l = Some (SA4 ip port) -> 0 <= ip < 2 ^ 32 /\ 0 <= port <= U16_MAX.
Proof.
  unfold parse_socket_addr. intros H.
  destruct (read_socket_addr_v4 l) as [[x r]|] eqn:E.
  - destruct r; [|done]. injection H as ->. unfold read_socket_addr_v4 in E.
    destruct (read_ipv4_addr l) as [[ip' l1]|] eqn:E1; [|done]. cbn [mbind option_bind] in E.
    destruct (read_port l1) as [[p' l2]|] eqn:E2; [|done]. cbn [mbind option_bind] in E.
    simplify_eq. split; [by eapply read_ipv4_range|by eapply read_port_range].
  - destruct (read_socket_addr_v6 l) as [[x r]|] eqn:E6; [|done]. destruct r; [|done]. injection H as ->.
    unfold read_socket_addr_v6 in E6.
    destruct (given_char _ l) as [[? l1]|]; [|done]. cbn [mbind option_bind] in E6.
    destruct (read_ipv6_addr l1) as [[? l2]|]; [|done]. cbn [mbind option_bind] in E6.
    destruct (match read_scope_id l2 with Some _ => _ | None => _ end) as [? l3].
    destruct (given_char _ l3) as [[? l4]|]; [|done]. cbn [mbind option_bind] in E6.
    by destruct (read_port l4) as [[? ?]|].
Qed.

Lemma parse_digits_range radix max acc f l v :
  (forall c d, f c = Some d -> 0 <= d) -> 0 <= radix -> 0 <= acc <= max ->
  parse_digits radix max acc f l = Some v -> 0 <= v <= max.
Proof.
  intros Hf Hr. revert acc. induction l as [|c l IH]; intros acc Ha H; cbn in H; [by simplify_eq|].
  destruct (f c) as [d|] eqn:E; [|done]. cbn in H. apply Hf in E.
  destruct (Z.ltb_spec max (acc * radix + d)); [done|]. apply IH in H; [done|]. nia.
Qed.

Lemma parse_uint_range max l v : 0 <= max -> parse_uint max l = Some v -> 0 <= v <= max.
Proof.
  intros Hm. assert (Hf : forall c d, dec_digit c = Some d -> 0 <= d).
  { unfold dec_digit, is_digit. intros c d H. case_match; simplify_eq. zbool. lia. }
  unfold parse_uint. destruct l as [|c l]; [done|]. case_bool_decide.
  - destruct l; [done|]. by apply parse_digits_range.
  - by apply parse_digits_range.
Qed.
