(* ===== verification/Config.v ===== *)
(** * Configuration ([src/src/config.rs])

    The configuration records, the endpoint parser, and [validate].  The TOML
    decoder, the file system, DNS resolution and base64 are parameters. *)

From Stdlib Require Import Ascii.
From S2P Require Import Prelude Net Std.

(** ** Endpoints *)

Record PeerEndpoint := { host : string; port : u16; literal : option SocketAddr }.

Inductive PeerEndpointParseError := InvalidFormat | InvalidPort | InvalidDnsName.

#[export] Instance PeerEndpoint_eq_dec : EqDecision PeerEndpoint.
Proof. solve_decision. Defined.

(** [(host, port).to_socket_addrs()], a query of the operating system. *)
Class Resolver := { io_error : Type; io_not_found : string -> io_error;
                    to_socket_addrs : string -> u16 -> outcome io_error (list SocketAddr) }.

Definition resolve `{Resolver} (e : PeerEndpoint) : outcome io_error SocketAddr :=
  match literal e with
  | Some literal => Ok literal
  | None =>
      addresses ← to_socket_addrs (host e) (port e);
      match list_find is_ipv4 addresses with
      | Some (_, a) => Ok a
      | None => ok_or (io_not_found (host e)) (head addresses)
      end
  end.

Definition is_dns_name (e : PeerEndpoint) : bool :=
  match literal e with None => true | Some _ => false end.

(** [Display for PeerEndpoint]. *)
Definition display (e : PeerEndpoint) : string :=
  match literal e with
  | Some literal => of_chars (fmt_socket_addr literal)
  | None => of_chars (chars_of (host e) ++ ":"%char :: fmt_dec (port e))
  end.

(** [From<SocketAddr>]. *)
Definition endpoint_of (value : SocketAddr) : PeerEndpoint :=
  {| host := of_chars (fmt_ip (sa_ip value)); port := sa_port value; literal := Some value |}.

Definition valid_label (label : list ascii) : bool :=
  negb (length label =? 0)%nat && (length label <=? 63)%nat
  && negb (starts_with "-"%char label) && negb (ends_with "-"%char label)
  && forallb (fun c => is_ascii_alphanumeric c || bool_decide (c = "-"%char)) label.

Definition valid_dns_name (value : list ascii) : bool :=
  let value := default value (strip_suffix "."%char value) in
  negb (length value =? 0)%nat && (length value <=? 253)%nat
  && forallb valid_label (split "."%char value).

(** [FromStr for PeerEndpoint]. *)
Definition from_str (value : string) : outcome PeerEndpointParseError PeerEndpoint :=
  match parse_socket_addr (chars_of value) with
  | Some literal => Ok (endpoint_of literal)
  | None =>
      '(host, raw_port) ← ok_or InvalidFormat (rsplit_once ":"%char (chars_of value));
      if (length host =? 0)%nat || existsb (fun c => bool_decide (c = ":"%char)) host
         || negb (bool_decide (trim_chars host = host))
      then Err InvalidFormat else
      port ← ok_or InvalidPort (parse_uint U16_MAX raw_port);
      if negb (valid_dns_name host) then Err InvalidDnsName else
      Ok {| host := of_chars host; port := port; literal := None |}
  end.

(** ** Configuration *)

Inductive TransportConfig := Udp | Tcp.
#[export] Instance TransportConfig_eq_dec : EqDecision TransportConfig.
Proof. solve_decision. Defined.

Record GatewayConfig := { lan_interface : string; tcp_mss : option u16 }.

Definition default_mtu : u16 := 1280.

Definition is_valid_linux_interface_name (name : string) : bool :=
  let l := chars_of name in
  negb (length l =? 0)%nat && (length l <=? 15)%nat
  && forallb (fun c => is_ascii_alphanumeric c || bool_decide (c = "_"%char)
                       || bool_decide (c = "-"%char) || bool_decide (c = "."%char)) l.

Section Config.
Context {IN : IpNet} {B64 : Base64}.

(** Decode a base64-encoded 32-byte key. *)
Definition decode_key (key : string) : option bytes :=
  bytes ← b64_decode key; if negb (length bytes =? 32)%nat then None else Some bytes.
Definition decode_psk (psk : string) : option bytes := decode_key psk.

Record InterfaceConfig := {
  if_name : string;
  address : Ipv4Net;
  listen : SocketAddr;
  if_transport : TransportConfig;
  mtu : u16;
  private_key : string }.

Record PeerConfig := {
  pc_name : string;
  pc_endpoint : PeerEndpoint;
  allowed_ips : list Ipv4Net;
  pc_excluded_ips : list Ipv4Net;
  pc_psk : string;
  pc_public_key : string;
  pc_persistent_keepalive : u16;
  pc_udp_rebind_after : u16;
  pc_session_timeout : option u16 }.

Record Config := { interface : InterfaceConfig; gateway : option GatewayConfig; peer : list PeerConfig }.

Inductive ConfigError :=
| EmptyInterfaceName
| EmptyPeerName
| DuplicatePeerName (name : string)
| DuplicatePeerPsk (first second : string)
| DuplicatePeerPublicKey (first second : string)
| PeerWithoutAllowedIps (name : string)
| DuplicateExcludedIp (peer : string) (prefix : Ipv4Net)
| ExcludedIpNotCovered (peer : string) (prefix : Ipv4Net)
| ExcludedDefaultRoute (name : string)
| MtuTooSmall (mtu : u16)
| EmptyGatewayLanInterface
| InvalidGatewayInterfaceName (name : string)
| IdenticalGatewayInterfaces (name : string)
| GatewayMssOutOfRange (mss minimum maximum mtu : u16)
| InvalidPsk (name : string)
| InvalidPublicKey (name : string)
| InvalidPrivateKey
| UdpRebindRequiresUdp (name : string)
| UdpRebindRequiresKeepalive (name : string)
| UdpRebindTooSoon (peer : string) (rebind_after keepalive : u16)
| SessionTimeoutRequiresKeepalive (name : string)
| SessionTimeoutTooSoon (peer : string) (timeout keepalive : u16).

(** Effective authenticated-session timeout, in seconds. *)
Definition effective_session_timeout (p : PeerConfig) (transport : TransportConfig) : u64 :=
  match pc_session_timeout p with
  | Some timeout => timeout
  | None =>
      if bool_decide (transport = Tcp) && (0 <? pc_persistent_keepalive p)
      then Z.max (pc_persistent_keepalive p * 3) 15 else 0
  end.

Abbreviation check := (outcome ConfigError unit) (only parsing).
Definition fail_if (b : bool) (e : ConfigError) : check := if b then Err e else Ok tt.

(** [u16] subtraction; it panics below zero in a checked build. *)
Definition sub_u16 {E} (a b : u16) : outcome E u16 := if a <? b then Panic else Ok (a - b).

Definition validate_gateway (i : InterfaceConfig) (g : GatewayConfig) : check :=
  let lan := trim (lan_interface g) in
  _ ← fail_if (str_len lan =? 0) EmptyGatewayLanInterface;
  _ ← fail_if (negb (is_valid_linux_interface_name (if_name i))) (InvalidGatewayInterfaceName (if_name i));
  _ ← fail_if (negb (is_valid_linux_interface_name lan)) (InvalidGatewayInterfaceName lan);
  _ ← fail_if (bool_decide (lan = if_name i)) (IdenticalGatewayInterfaces lan);
  match tcp_mss g with
  | None => Ok tt
  | Some mss =>
      maximum ← sub_u16 (mtu i) 40;
      fail_if (negb ((536 <=? mss) && (mss <=? maximum))) (GatewayMssOutOfRange mss 536 maximum (mtu i))
  end.

Definition covered (p : PeerConfig) (prefix : Ipv4Net) : bool :=
  existsb (fun allowed => (prefix_len allowed <=? prefix_len prefix)
                          && contains allowed (network prefix)) (allowed_ips p).

(** The loop over a peer's exclusions; [exclusions] are those seen. *)
Fixpoint validate_exclusions (p : PeerConfig) (exclusions prefixes : list Ipv4Net) : check :=
  match prefixes with
  | [] => Ok tt
  | prefix :: prefixes =>
      _ ← fail_if (prefix_len prefix =? 0) (ExcludedDefaultRoute (pc_name p));
      _ ← fail_if (bool_decide (prefix ∈ exclusions)) (DuplicateExcludedIp (pc_name p) prefix);
      _ ← fail_if (negb (covered p prefix)) (ExcludedIpNotCovered (pc_name p) prefix);
      validate_exclusions p (prefix :: exclusions) prefixes
  end.

Definition validate_timers (i : InterfaceConfig) (p : PeerConfig) : check :=
  let k := pc_persistent_keepalive p in
  _ ← (if 0 <? pc_udp_rebind_after p then
         _ ← fail_if (negb (bool_decide (if_transport i = Udp))) (UdpRebindRequiresUdp (pc_name p));
         _ ← fail_if (k =? 0) (UdpRebindRequiresKeepalive (pc_name p));
         fail_if (pc_udp_rebind_after p <=? k) (UdpRebindTooSoon (pc_name p) (pc_udp_rebind_after p) k)
       else Ok tt);
  match pc_session_timeout p with
  | Some timeout =>
      if 0 <? timeout then
        _ ← fail_if (k =? 0) (SessionTimeoutRequiresKeepalive (pc_name p));
        fail_if (timeout <=? k) (SessionTimeoutTooSoon (pc_name p) timeout k)
      else Ok tt
  | None => Ok tt
  end.

(** [names], [psks] and [public_keys]: those of the peers seen so far. *)
Fixpoint validate_peers (i : InterfaceConfig) (names : gset string)
    (psks public_keys : gmap (list Z) string) (peers : list PeerConfig) : check :=
  match peers with
  | [] => Ok tt
  | p :: peers =>
      _ ← fail_if (str_len (trim (pc_name p)) =? 0) EmptyPeerName;
      _ ← fail_if (bool_decide (pc_name p ∈ names)) (DuplicatePeerName (pc_name p));
      _ ← fail_if (length (allowed_ips p) =? 0)%nat (PeerWithoutAllowedIps (pc_name p));
      _ ← validate_exclusions p [] (pc_excluded_ips p);
      psk ← ok_or (InvalidPsk (pc_name p)) (decode_psk (pc_psk p));
      _ ← match psks !! psk with
          | Some first => Err (DuplicatePeerPsk first (pc_name p))
          | None => Ok tt
          end;
      key ← ok_or (InvalidPublicKey (pc_name p)) (decode_key (pc_public_key p));
      _ ← match public_keys !! key with
          | Some first => Err (DuplicatePeerPublicKey first (pc_name p))
          | None => Ok tt
          end;
      _ ← validate_timers i p;
      validate_peers i ({[pc_name p]} ∪ names) (<[psk := pc_name p]> psks)
        (<[key := pc_name p]> public_keys) peers
  end.

Definition validate (c : Config) : check :=
  let i := interface c in
  _ ← fail_if (str_len (trim (if_name i)) =? 0) EmptyInterfaceName;
  _ ← fail_if (mtu i <? 576) (MtuTooSmall (mtu i));
  _ ← match gateway c with Some g => validate_gateway i g | None => Ok tt end;
  _ ← fail_if (match decode_key (private_key i) with None => true | Some _ => false end) InvalidPrivateKey;
  validate_peers i ∅ ∅ ∅ (peer c).

(** The TOML decoder and the file system. *)
Class ConfigSource := {
  toml_error : Type;
  read_error : Type;
  toml_from_str : string -> outcome toml_error Config;
  read_to_string : string -> outcome read_error string }.

Inductive LoadError `{ConfigSource} := Read (e : read_error) | Parse (e : toml_error) | Invalid (e : ConfigError).

Definition parse `{ConfigSource} (text : string) : outcome LoadError Config :=
  config ← map_err Parse (toml_from_str text);
  _ ← map_err Invalid (validate config);
  Ok config.

Definition load `{ConfigSource} (path : string) : outcome LoadError Config :=
  text ← map_err Read (read_to_string path);
  parse text.

(** ** Specification: the configurations that are accepted *)

Record gateway_ok (i : InterfaceConfig) (g : GatewayConfig) : Prop := {
  gw_lan : is_valid_linux_interface_name (trim (lan_interface g)) = true;
  gw_if : is_valid_linux_interface_name (if_name i) = true;
  gw_ne : trim (lan_interface g) <> if_name i;
  gw_mss : forall m, tcp_mss g = Some m -> 536 <= m <= mtu i - 40 }.

Record peer_ok (i : InterfaceConfig) (p : PeerConfig) : Prop := {
  p_name : trim (pc_name p) <> ""%string;
  p_allowed : allowed_ips p <> [];
  p_excluded : NoDup (pc_excluded_ips p);
  p_covered : forall x, x ∈ pc_excluded_ips p -> prefix_len x <> 0 /\
    exists a, a ∈ allowed_ips p /\ prefix_len a <= prefix_len x /\ contains a (network x) = true;
  p_psk : is_Some (decode_psk (pc_psk p));
  p_key : is_Some (decode_key (pc_public_key p));
  p_rebind : 0 < pc_udp_rebind_after p ->
    if_transport i = Udp /\ pc_persistent_keepalive p <> 0 /\
    pc_persistent_keepalive p < pc_udp_rebind_after p;
  p_timeout : forall t, pc_session_timeout p = Some t -> 0 < t ->
    pc_persistent_keepalive p <> 0 /\ pc_persistent_keepalive p < t }.

Record config_ok (c : Config) : Prop := {
  c_name : trim (if_name (interface c)) <> ""%string;
  c_mtu : 576 <= mtu (interface c);
  c_gateway : forall g, gateway c = Some g -> gateway_ok (interface c) g;
  c_private : is_Some (decode_key (private_key (interface c)));
  c_peers : Forall (peer_ok (interface c)) (peer c);
  c_names : NoDup (pc_name <$> peer c);
  c_psks : NoDup ((fun p => decode_psk (pc_psk p)) <$> peer c);
  c_keys : NoDup ((fun p => decode_key (pc_public_key p)) <$> peer c) }.
End Config.

(** ** Lemmas *)

Section Lemmas.
Context {IN : IpNet} {B64 : Base64}.

Lemma fail_if_bind {A} b e (f : unit -> outcome ConfigError A) :
  (x ← fail_if b e; f x) = if b then Err e else f tt.
Proof. by destruct b. Qed.

Lemma fail_if_ok b e : fail_if b e = Ok tt <-> b = false.
Proof. by destruct b. Qed.

Lemma str_len_0 s : (str_len s =? 0) = bool_decide (s = ""%string).
Proof. by destruct s. Qed.

Lemma valid_name_nonempty s : is_valid_linux_interface_name s = true -> s <> ""%string.
Proof. by intros H ->. Qed.

Lemma validate_gateway_ok i g :
  576 <= mtu i -> (validate_gateway i g = Ok tt <-> gateway_ok i g) /\ no_panic (validate_gateway i g).
Proof.
  intros Hmtu. unfold validate_gateway, no_panic. rewrite !fail_if_bind, str_len_0.
  case_bool_decide as Hne.
  { split; [split; [done|]|done]. intros [Hl _ _ _]. by apply valid_name_nonempty in Hl. }
  destruct (is_valid_linux_interface_name (if_name i)) eqn:E1; cbn [negb];
    [|split; [split; [done|intros [_ H _ _]; congruence]|done]].
  destruct (is_valid_linux_interface_name (trim _)) eqn:E2; cbn [negb];
    [|split; [split; [done|intros [H _ _ _]; congruence]|done]].
  case_bool_decide as E3; [split; [split; [done|intros [_ _ H _]; congruence]|done]|].
  destruct (tcp_mss g) as [mss|] eqn:E4.
  - unfold sub_u16. rewrite (proj2 (Z.ltb_ge _ _)) by lia. cbn [mbind outcome_bind].
    split; [|by destruct (negb _)]. rewrite fail_if_ok, negb_false_iff, andb_true_iff, !Z.leb_le.
    split; [intros; split; auto; intros m ?; simplify_eq; lia|].
    intros [_ _ _ H]. specialize (H mss E4). lia.
  - split; [|done]. split; [|done]. intros _. split; auto. intros m Hm; congruence.
Qed.

Lemma covered_iff p x :
  covered p x = true <->
  exists a, a ∈ allowed_ips p /\ prefix_len a <= prefix_len x /\ contains a (network x) = true.
Proof.
  unfold covered. rewrite existsb_exists. split.
  - intros (a & Hin%list_elem_of_In & [H1%Z.leb_le H2]%andb_prop). eauto.
  - intros (a & Hin & H1 & H2). exists a. split; [by apply list_elem_of_In|].
    apply andb_true_intro. split; [by apply Z.leb_le|done].
Qed.

Lemma validate_exclusions_ok p seen l :
  NoDup seen ->
  (validate_exclusions p seen l = Ok tt <->
   NoDup (rev l ++ seen) /\ forall x, x ∈ l -> prefix_len x <> 0 /\ covered p x = true) /\
  no_panic (validate_exclusions p seen l).
Proof.
  unfold no_panic. revert seen. induction l as [|x l IH]; intros seen Hs; cbn [validate_exclusions rev].
  { split; [|done]. split; [|done]. intros _. split; [done|]. by intros x ?%not_elem_of_nil. }
  rewrite !fail_if_bind, <- app_assoc. cbn [app].
  destruct (Z.eqb_spec (prefix_len x) 0) as [E|E].
  { split; [split; [done|]|done]. intros [_ H]. destruct (H x); [left|done]. }
  case_bool_decide as Hin.
  { split; [split; [done|]|done]. intros [H _]. apply NoDup_app in H as (_ & _ & H).
    by apply NoDup_cons in H as [H _]. }
  destruct (covered p x) eqn:Ec; cbn [negb].
  2:{ split; [split; [done|]|done]. intros [_ H]. destruct (H x); [left|congruence]. }
  destruct (IH (x :: seen) (NoDup_cons_2 _ _ Hin Hs)) as [H1 H2]. split; [|done]. rewrite H1.
  split; intros [Hn H]; (split; [done|]); intros y Hy; [|apply H; by right].
  apply elem_of_cons in Hy as [->|Hy]; auto.
Qed.

Lemma validate_timers_ok i p :
  (validate_timers i p = Ok tt <->
   (0 < pc_udp_rebind_after p -> if_transport i = Udp /\ pc_persistent_keepalive p <> 0 /\
     pc_persistent_keepalive p < pc_udp_rebind_after p) /\
   (forall t, pc_session_timeout p = Some t -> 0 < t ->
     pc_persistent_keepalive p <> 0 /\ pc_persistent_keepalive p < t)) /\
  no_panic (validate_timers i p).
Proof.
  unfold validate_timers, no_panic. cbv zeta.
  set (k := pc_persistent_keepalive p).
  destruct (Z.ltb_spec 0 (pc_udp_rebind_after p)) as [Hr|Hr].
  1: rewrite !fail_if_bind; case_bool_decide as Hu; cbn [negb];
     [|split; [split; [done|]|done]; intros [H _]; destruct (H Hr); done].
  1: destruct (Z.eqb_spec k 0); [split; [split; [done|]|done]; intros [H _]; destruct (H Hr); tauto|].
  1: destruct (Z.leb_spec (pc_udp_rebind_after p) k);
     [split; [split; [done|]|done]; intros [H0 _]; destruct (H0 Hr); lia|].
  all: cbn [fail_if mbind outcome_bind]; destruct (pc_session_timeout p) as [t|];
    [|split; [split; [|done]|done]; intros _; split; [intros; split_and!; auto; lia|by intros]].
  all: destruct (Z.ltb_spec 0 t);
    [|split; [split; [|done]|done]; intros _; split; [intros; split_and!; auto; lia|
      intros ? [= <-]; lia]].
  all: rewrite ?fail_if_bind; destruct (Z.eqb_spec k 0);
    [split; [split; [done|]|done]; intros [_ H9]; destruct (H9 t eq_refl); tauto|].
  all: destruct (Z.leb_spec t k); cbn [fail_if];
    [split; [split; [done|]|done]; intros [_ H9]; destruct (H9 t eq_refl); lia|].
  all: split; [split; [|done]|done]; intros _; split; [intros; split_and!; auto; lia|].
  all: intros ? [= <-] _; split; [done|lia].
Qed.

Lemma exclusions_iff p :
  (validate_exclusions p [] (pc_excluded_ips p) = Ok tt <->
   NoDup (pc_excluded_ips p) /\ forall x, x ∈ pc_excluded_ips p -> prefix_len x <> 0 /\
    exists a, a ∈ allowed_ips p /\ prefix_len a <= prefix_len x /\ contains a (network x) = true).
Proof.
  rewrite (proj1 (validate_exclusions_ok p [] (pc_excluded_ips p) (NoDup_nil_2))), app_nil_r.
  assert (NoDup (rev (pc_excluded_ips p)) <-> NoDup (pc_excluded_ips p)) as ->
    by (by rewrite <- Permutation_rev).
  split; intros [H1 H2]; (split; [done|]); intros x Hx; destruct (H2 x Hx) as [Ha Hb];
    (split; [done|]); by apply covered_iff.
Qed.

(** One round of the loop over the peers. *)
Lemma validate_peer_step i names psks keys p ps :
  (validate_peers i names psks keys (p :: ps) = Ok tt <->
   peer_ok i p /\ (pc_name p ∉ names) /\
   exists psk key, decode_psk (pc_psk p) = Some psk /\ psks !! psk = None /\
     decode_key (pc_public_key p) = Some key /\ keys !! key = None /\
     validate_peers i ({[pc_name p]} ∪ names) (<[psk := pc_name p]> psks) (<[key := pc_name p]> keys) ps
       = Ok tt).
Proof.
  pose proof (exclusions_iff p) as Hx. pose proof (proj1 (validate_timers_ok i p)) as Ht.
  cbn [validate_peers]. rewrite !fail_if_bind, str_len_0. split.
  - case_bool_decide as H1; [done|]. case_bool_decide as H2; [done|].
    destruct (length (allowed_ips p) =? 0)%nat eqn:H3; [done|].
    destruct (validate_exclusions p [] _) as [[]| |] eqn:H4; [|done..]. cbn [mbind outcome_bind].
    destruct (decode_psk (pc_psk p)) as [psk|] eqn:H5; [|done]. cbn [ok_or mbind outcome_bind].
    destruct (psks !! psk) eqn:H6; [done|].
    destruct (decode_key (pc_public_key p)) as [key|] eqn:H7; [|done]. cbn [ok_or mbind outcome_bind].
    destruct (keys !! key) eqn:H8; [done|].
    destruct (validate_timers i p) as [[]| |] eqn:H9; [|done..]. intros H10.
    destruct (proj1 Hx eq_refl) as [Hxa Hxb]. destruct (proj1 Ht eq_refl) as [Ha Hb].
    split; [|eauto 10]. split; eauto. intros E. by rewrite E in H3.
  - intros ([H1 H3 Hxa Hxb [psk Hp] [key Hk] Ha Hb] & H2 & psk' & key' & H5 & H6 & H7 & H8 & H10).
    rewrite bool_decide_eq_false_2, bool_decide_eq_false_2 by done.
    destruct (length (allowed_ips p) =? 0)%nat eqn:E; [by apply Nat.eqb_eq, nil_length_inv in E|].
    rewrite (proj2 Hx) by done. cbn [mbind outcome_bind]. rewrite H5. cbn [ok_or mbind outcome_bind]. rewrite H6, H7.
    cbn [ok_or mbind outcome_bind]. rewrite H8. by rewrite (proj2 Ht).
Qed.

Lemma validate_peers_np i names psks keys ps : no_panic (validate_peers i names psks keys ps).
Proof.
  unfold no_panic. revert names psks keys. induction ps as [|p ps IH]; intros names psks keys; [done|].
  cbn [validate_peers]. rewrite !fail_if_bind.
  destruct (_ =? 0); [done|]. case_bool_decide; [done|]. destruct (_ =? 0)%nat; [done|].
  pose proof (proj2 (validate_exclusions_ok p [] (pc_excluded_ips p) NoDup_nil_2)) as H1.
  destruct (validate_exclusions p [] _); try done. cbn [mbind outcome_bind].
  destruct (decode_psk (pc_psk p)) as [psk|]; [|done]. cbn [ok_or mbind outcome_bind]. destruct (psks !! psk); [done|].
  destruct (decode_key (pc_public_key p)) as [key|]; [|done]. cbn [ok_or mbind outcome_bind]. destruct (keys !! key); [done|].
  pose proof (proj2 (validate_timers_ok i p)). destruct (validate_timers i p); done || apply IH.
Qed.

Lemma validate_peers_ok i names psks keys ps :
  validate_peers i names psks keys ps = Ok tt <->
  Forall (peer_ok i) ps /\
  (NoDup (pc_name <$> ps) /\ forall p, p ∈ ps -> pc_name p ∉ names) /\
  (NoDup ((fun p => decode_psk (pc_psk p)) <$> ps) /\
   forall p k, p ∈ ps -> decode_psk (pc_psk p) = Some k -> psks !! k = None) /\
  (NoDup ((fun p => decode_key (pc_public_key p)) <$> ps) /\
   forall p k, p ∈ ps -> decode_key (pc_public_key p) = Some k -> keys !! k = None).
Proof.
  revert names psks keys. induction ps as [|p ps IH]; intros names psks keys.
  { split; [|done]. intros _. split_and!; try by constructor.
    - by intros p ?%not_elem_of_nil.
    - by intros p k ?%not_elem_of_nil.
    - by intros p k ?%not_elem_of_nil. }
  rewrite validate_peer_step, Forall_cons, !fmap_cons, !NoDup_cons. split.
  - intros (Hp & Hn & psk & key & Ep & Fp & Ek & Fk & Hrest%IH).
    destruct Hrest as (Hall & [N1 N2] & [P1 P2] & [K1 K2]). split_and!; try done.
    + intros (q & E & Hq)%list_elem_of_fmap. apply (N2 q Hq). rewrite <- E.
      by apply elem_of_union_l, elem_of_singleton.
    + intros q [->|Hq]%elem_of_cons; [done|]. specialize (N2 q Hq).
      by apply not_elem_of_union in N2 as [_ ?].
    + intros (q & E & Hq)%list_elem_of_fmap. cbn in E. rewrite Ep in E.
      specialize (P2 q psk Hq (eq_sym E)). by rewrite lookup_insert_eq in P2.
    + intros q k [->|Hq]%elem_of_cons E; [congruence|].
      specialize (P2 q k Hq E). by apply lookup_insert_None in P2 as [? _].
    + intros (q & E & Hq)%list_elem_of_fmap. cbn in E. rewrite Ek in E.
      specialize (K2 q key Hq (eq_sym E)). by rewrite lookup_insert_eq in K2.
    + intros q k [->|Hq]%elem_of_cons E; [congruence|].
      specialize (K2 q k Hq E). by apply lookup_insert_None in K2 as [? _].
  - intros ([Hp Hall] & [[N0 N1] N2] & [[P0 P1] P2] & [[K0 K1] K2]).
    destruct (p_psk _ _ Hp) as [psk Ep]. destruct (p_key _ _ Hp) as [key Ek].
    split; [done|]. split; [apply N2; left|]. exists psk, key. split_and!; try done.
    + apply (P2 p); [left|done].
    + apply (K2 p); [left|done].
    + apply IH. split_and!; try done.
      * intros q Hq. rewrite not_elem_of_union, not_elem_of_singleton. split; [|apply N2; by right].
        intros E. apply N0, list_elem_of_fmap. eauto.
      * intros q k Hq E. apply lookup_insert_None. split; [by apply (P2 q); [right|]|].
        intros ->. apply P0, list_elem_of_fmap. exists q. by rewrite Ep.
      * intros q k Hq E. apply lookup_insert_None. split; [by apply (K2 q); [right|]|].
        intros ->. apply K0, list_elem_of_fmap. exists q. by rewrite Ek.
Qed.
End Lemmas.

(** ** Properties *)

(** The textual form of an endpoint reads back as the same endpoint: for
    every IPv4 address and port, and for every DNS endpoint whose printed form
    is not itself an address literal. *)
Theorem endpoint_round_trip v e :
  from_str v = Ok e ->
  match literal e with
  | Some (SA4 _ _) => True
  | Some (SA6 _ _ _ _) => False
  | None => parse_socket_addr (chars_of (display e)) = None
  end ->
  from_str (display e) = Ok e.
Proof.
  unfold from_str at 1. destruct (parse_socket_addr (chars_of v)) as [s|] eqn:Es.
  { intros [= <-]. cbn [literal endpoint_of]. destruct s as [ip p|]; [|done]. intros _.
    unfold from_str, display. cbn [literal endpoint_of]. rewrite chars_of_of.
    apply parse_v4_range in Es as [Hip Hp]. by rewrite parse_fmt_v4. }
  destruct (rsplit_once ":"%char (chars_of v)) as [[h rp]|] eqn:Er; [|done]. cbn [ok_or mbind outcome_bind].
  destruct (_ || _)%bool eqn:Eh; [done|].
  destruct (parse_uint U16_MAX rp) as [p|] eqn:Ep; [|done]. cbn [ok_or mbind outcome_bind].
  destruct (valid_dns_name h) eqn:Ed; [|done]. cbn [negb]. intros [= <-]. cbn [literal]. intros Hlit.
  unfold from_str. rewrite Hlit. unfold display. cbn [literal Config.host port]. rewrite !chars_of_of.
  assert (0 <= p <= U16_MAX) as Hp by (by eapply parse_uint_range).
  rewrite rsplit_once_app by (apply fmt_dec_notin; [unfold U16_MAX in Hp; lia|done]).
  cbn [ok_or mbind outcome_bind]. rewrite Eh, parse_uint_fmt by (done || (unfold U16_MAX in *; lia)).
  cbn [ok_or mbind outcome_bind]. by rewrite Ed.
Qed.

Section Properties.
Context {IN : IpNet} {B64 : Base64}.

Lemma validate_spec c : (validate c = Ok tt <-> config_ok c) /\ no_panic (validate c).
Proof.
  unfold validate, no_panic. cbv zeta. rewrite !fail_if_bind, str_len_0.
  case_bool_decide as H1; [split; [split; [done|by intros []]|done]|].
  destruct (Z.ltb_spec (mtu (interface c)) 576) as [H2|H2];
    [split; [split; [done|intros []; lia]|done]|].
  assert (Hg : (match gateway c with Some g => validate_gateway (interface c) g | None => Ok tt end = Ok tt
    <-> forall g, gateway c = Some g -> gateway_ok (interface c) g) /\
    match gateway c with Some g => validate_gateway (interface c) g | None => Ok tt end <> Panic).
  { destruct (gateway c) as [g|].
    - destruct (validate_gateway_ok (interface c) g H2) as [E Hnp]. split; [|done].
      rewrite E. split; [by intros ? ? [= <-]|auto].
    - by split. }
  destruct Hg as [Hg Hgnp].
  destruct (match gateway c with Some g => validate_gateway _ g | None => _ end) as [[]|e|];
    [|split; [split; [done|intros []; by apply Hg]|done]|done].
  destruct (decode_key (private_key (interface c))) as [k|] eqn:Ek; cbn [fail_if mbind outcome_bind].
  2:{ split; [split; [done|intros [_ _ _ [x Hx] _ _ _ _]; congruence]|done]. }
  split; [|apply validate_peers_np]. rewrite validate_peers_ok. split.
  - intros (Hp & [Hn _] & [Hs _] & [Hk _]). split; try done; by apply Hg.
  - intros [_ _ _ _ Hp Hn Hs Hk]. split_and!; try done; intros; apply not_elem_of_empty || apply lookup_empty.
Qed.

(** C24: [validate] accepts a configuration exactly when it satisfies the
    declarative specification [config_ok] - names, keys, prefixes and timers
    included - and it never panics, so the unchecked subtraction of the MTU
    is safe. *)
Theorem validate_exact c : (validate c = Ok tt <-> config_ok c) /\ no_panic (validate c).
Proof. exact (validate_spec c). Qed.
End Properties.

(** ** Witnesses *)

Definition wit_endpoint : PeerEndpoint :=
  {| host := "home.minjie.wang"; port := 11063; literal := None |}.

Lemma endpoint_round_trip_witness :
  from_str "home.minjie.wang:+011063" = Ok wit_endpoint /\ from_str (display wit_endpoint) = Ok wit_endpoint.
Proof.
  assert (from_str "home.minjie.wang:+011063" = Ok wit_endpoint) as H by (vm_compute; reflexivity).
  split; [exact H|]. apply (endpoint_round_trip _ _ H). vm_compute. reflexivity.
Defined.
