(* ===== verification/Router.v ===== *)
(** * Router ([src/src/router.rs])

    Routes are sorted once by descending prefix length; a lookup takes the
    first route that matches and is not excluded by its own peer. *)

From stdpp Require Import sorting.
From S2P Require Import Prelude Net Std Config.

Section Router.
Context {IN : IpNet} {B64 : Base64} {RS : Resolver}.

Record Peer := {
  name : string;
  endpoint : SocketAddr;
  configured_endpoint : PeerEndpoint;
  excluded_ips : list Ipv4Net;
  psk : bytes;
  public_key : bytes;
  persistent_keepalive : u16;
  udp_rebind_after : u16;
  session_timeout : u64 }.

Record Route := { prefix : Ipv4Net; route_peer : Peer }.
Record ExcludedRoute := { ex_prefix : Ipv4Net; ex_peer : Peer }.
Record Router := { routes : list Route; excluded_routes : list ExcludedRoute }.

Inductive RouterError :=
| DuplicatePrefix (prefix : Ipv4Net) (first_peer second_peer : string)
| EndpointResolution (peer : string) (endpoint : PeerEndpoint) (source : io_error).

Definition peer_from_config (c : PeerConfig) (transport : TransportConfig) : outcome RouterError Peer :=
  public_key_bytes ← expect (decode_key (pc_public_key c));
  endpoint ← map_err (EndpointResolution (pc_name c) (pc_endpoint c)) (resolve (pc_endpoint c));
  psk ← expect (decode_psk (pc_psk c));
  Ok {| name := pc_name c; endpoint := endpoint; configured_endpoint := pc_endpoint c;
        excluded_ips := pc_excluded_ips c; psk := psk; public_key := public_key_bytes;
        persistent_keepalive := pc_persistent_keepalive c;
        udp_rebind_after := pc_udp_rebind_after c;
        session_timeout := effective_session_timeout c transport |}.

(** [sort_by_key(Reverse(key))]: the stable sort by descending key. *)
Fixpoint insert_desc {A} (key : A -> Z) (x : A) (l : list A) : list A :=
  match l with
  | [] => [x]
  | y :: l' => if key y <=? key x then x :: l else y :: insert_desc key x l'
  end.
Definition sort_desc {A} (key : A -> Z) (l : list A) : list A := foldr (insert_desc key) [] l.

(** The inner loop over [allowed_ips]. *)
Fixpoint add_routes (p : Peer) (prefixes : list Ipv4Net) (rs : list Route) : outcome RouterError (list Route) :=
  match prefixes with
  | [] => Ok rs
  | x :: prefixes =>
      match find (fun r => bool_decide (prefix r = x)) rs with
      | Some existing => Err (DuplicatePrefix x (name (route_peer existing)) (name p))
      | None => add_routes p prefixes (rs ++ [{| prefix := x; route_peer := p |}])
      end
  end.

(** The loop over the configured peers. *)
Fixpoint add_peers (transport : TransportConfig) (peers : list PeerConfig)
    (rs : list Route) (ex : list ExcludedRoute) : outcome RouterError (list Route * list ExcludedRoute) :=
  match peers with
  | [] => Ok (rs, ex)
  | c :: peers =>
      p ← peer_from_config c transport;
      rs ← add_routes p (allowed_ips c) rs;
      add_peers transport peers rs
        (ex ++ ((fun x => {| ex_prefix := x; ex_peer := p |}) <$> pc_excluded_ips c))
  end.

Definition Router_new (config : Config) : outcome RouterError Router :=
  '(rs, ex) ← add_peers (if_transport (interface config)) (peer config) [] [];
  Ok {| routes := sort_desc (fun r => prefix_len (prefix r)) rs;
        excluded_routes := sort_desc (fun r => prefix_len (ex_prefix r)) ex |}.

(** [iterator.max()]. *)
Definition max_len (l : list Z) : option Z :=
  match l with [] => None | x :: l => Some (fold_left Z.max l x) end.

Definition route_matches (destination : u32) (r : Route) : bool :=
  if negb (contains (prefix r) destination) then false else
  let most_specific_exclusion :=
    max_len (prefix_len <$> List.filter (fun x => contains x destination) (excluded_ips (route_peer r))) in
  match most_specific_exclusion with
  | Some excluded_prefix_length => prefix_len (prefix r) >? excluded_prefix_length
  | None => true
  end.

Definition lookup (r : Router) (destination : u32) : option Route :=
  find (route_matches destination) (routes r).

(** The loop of [endpoint_exception_peers]; [seen] are the addresses taken. *)
Fixpoint exception_loop (r : Router) (seen : list u32) (rs : list Route) : list Peer :=
  match rs with
  | [] => []
  | route :: rs =>
      let p := route_peer route in
      match sa_ip (endpoint p) with
      | V6 _ => exception_loop r seen rs
      | V4 endpoint_ip =>
          if (sa_port (endpoint p) =? 0) || is_unspecified (V4 endpoint_ip) then exception_loop r seen rs else
          match lookup r endpoint_ip with
          | None => exception_loop r seen rs
          | Some _ =>
              if bool_decide (endpoint_ip ∈ seen) then exception_loop r seen rs
              else p :: exception_loop r (endpoint_ip :: seen) rs
          end
      end
  end.

Definition endpoint_exception_peers (r : Router) : list Peer := exception_loop r [] (routes r).
End Router.

(** ** The stable sort *)

Section Sort.
Context {A : Type} (key : A -> Z).

Lemma insert_desc_perm x l : insert_desc key x l ≡ₚ x :: l.
Proof.
  induction l as [|y l IH]; [done|]. cbn. destruct (key y <=? key x); [done|].
  rewrite IH. by constructor.
Qed.

Lemma sort_desc_perm l : sort_desc key l ≡ₚ l.
Proof. induction l as [|x l IH]; [done|]. cbn. by rewrite insert_desc_perm, IH. Qed.

Definition ge_key (x y : A) : Prop := key y <= key x.

Lemma insert_desc_sorted x l : StronglySorted ge_key l -> StronglySorted ge_key (insert_desc key x l).
Proof.
  induction 1 as [|y l Hs IH Hy]; cbn; [by repeat constructor|].
  destruct (Z.leb_spec (key y) (key x)).
  - constructor; [by constructor|]. constructor; [done|].
    eapply Forall_impl; [exact Hy|]. unfold ge_key. cbn. lia.
  - constructor; [done|]. rewrite insert_desc_perm. constructor; [unfold ge_key; lia|done].
Qed.

Lemma sort_desc_sorted l : StronglySorted ge_key (sort_desc key l).
Proof. induction l as [|x l IH]; cbn; [constructor|]. by apply insert_desc_sorted. Qed.

(** Stability: elements of one key keep their order. *)
Lemma sort_desc_stable k l :
  List.filter (fun x => key x =? k) (sort_desc key l) = List.filter (fun x => key x =? k) l.
Proof.
  induction l as [|x l IH]; [done|]. cbn [List.filter]. rewrite <- IH.
  change (sort_desc key (x :: l)) with (insert_desc key x (sort_desc key l)).
  pose proof (sort_desc_sorted l) as Hs. revert Hs. generalize (sort_desc key l) as s. clear.
  induction s as [|y s IH]; intros Hs; [done|].
  apply StronglySorted_inv in Hs as [Hs Hy]. cbn.
  destruct (Z.leb_spec (key y) (key x)); cbn; [done|]. rewrite IH by done. cbn.
  destruct (Z.eqb_spec (key x) k), (Z.eqb_spec (key y) k); try done. lia.
Qed.

Lemma sorted_find_max P l x :
  StronglySorted ge_key l -> find P l = Some x ->
  forall y, y ∈ l -> P y = true -> key y <= key x.
Proof.
  induction 1 as [|z l Hs IH Hz]; cbn; [done|]. destruct (P z) eqn:E.
  - intros [= <-] y [->|Hy]%elem_of_cons _; [done|]. rewrite Forall_forall in Hz. by apply Hz.
  - intros Hf y [->|Hy]%elem_of_cons Hp; [congruence|]. auto.
Qed.
End Sort.

(** ** Lemmas *)

Section Lemmas.
Context {IN : IpNet} {B64 : Base64} {RS : Resolver}.

(** The routes of one peer, and of all, in configuration order. *)
Definition peer_routes (c : PeerConfig) (p : Peer) : list Route :=
  (fun x => {| prefix := x; route_peer := p |}) <$> allowed_ips c.
Definition configured_routes (cs : list PeerConfig) (ps : list Peer) : list Route :=
  concat (zip_with peer_routes cs ps).

(** A route may carry traffic to [d]: it matches, and none of its own peer's
    exclusions that match is as specific. *)
Definition eligible (d : u32) (r : Route) : Prop :=
  contains (prefix r) d = true /\
  forall x, x ∈ excluded_ips (route_peer r) -> contains x d = true -> prefix_len x < prefix_len (prefix r).

Lemma max_len_spec l m : max_len l = Some m -> forall b, m < b <-> Forall (fun x => x < b) l.
Proof.
  destruct l as [|x l]; [done|]. cbn. intros [= <-] b. revert x.
  induction l as [|y l IH]; intros x; cbn.
  - rewrite Forall_singleton. done.
  - rewrite IH, !Forall_cons. intuition lia.
Qed.

Lemma route_matches_iff d r : route_matches d r = true <-> eligible d r.
Proof.
  unfold route_matches, eligible. destruct (contains (prefix r) d); cbn [negb]; [|naive_solver].
  set (l := List.filter _ _).
  assert (Hl : forall b, Forall (fun x => x < b) (prefix_len <$> l) <->
    forall x, x ∈ excluded_ips (route_peer r) -> contains x d = true -> prefix_len x < b).
  { intros b. rewrite Forall_fmap, Forall_forall. unfold l, compose. split.
    - intros H x Hx Hc. apply H. apply list_elem_of_In, filter_In. by rewrite <- list_elem_of_In.
    - intros H x [Hx Hc]%list_elem_of_In%filter_In. apply H; [by apply list_elem_of_In|done]. }
  rewrite <- Hl. destruct (max_len (prefix_len <$> l)) as [m|] eqn:E.
  - rewrite Z.gtb_lt, (max_len_spec _ _ E). naive_solver.
  - destruct (prefix_len <$> l); [|done]. by split.
Qed.

Lemma add_routes_ok p xs rs rs' :
  add_routes p xs rs = Ok rs' ->
  rs' = rs ++ ((fun x => {| prefix := x; route_peer := p |}) <$> xs) /\
  (NoDup (prefix <$> rs) -> NoDup (prefix <$> rs')).
Proof.
  revert rs. induction xs as [|x xs IH]; intros rs; cbn [add_routes].
  - intros [= <-]. by rewrite fmap_nil, app_nil_r.
  - destruct (find _ rs) eqn:Ef; [done|]. intros H. apply IH in H as [-> Hn].
    split; [by rewrite fmap_cons, <- app_assoc|]. intros Hrs. apply Hn.
    rewrite fmap_app, NoDup_app. split_and!; [done| |apply NoDup_singleton].
    intros y (r & -> & Hr)%list_elem_of_fmap. cbn. rewrite list_elem_of_singleton.
    intros E. pose proof (find_none _ _ Ef r) as Hx. rewrite <- list_elem_of_In in Hx.
    specialize (Hx Hr). by rewrite bool_decide_eq_true_2 in Hx.
Qed.

Lemma add_routes_np p xs rs : no_panic (add_routes p xs rs).
Proof.
  unfold no_panic. revert rs. induction xs as [|x xs IH]; intros rs; cbn [add_routes]; [done|].
  by destruct (find _ rs).
Qed.

Lemma add_routes_distinct p xs rs :
  NoDup ((prefix <$> rs) ++ xs) -> exists rs', add_routes p xs rs = Ok rs'.
Proof.
  revert rs. induction xs as [|x xs IH]; intros rs Hn; cbn [add_routes]; [eauto|].
  destruct (find _ rs) as [e|] eqn:Ef.
  - apply find_some in Ef as [Hin E]. apply bool_decide_eq_true in E.
    apply NoDup_app in Hn as (_ & Hd & _). exfalso. apply (Hd x); [|left].
    apply list_elem_of_fmap. exists e. by rewrite list_elem_of_In.
  - apply IH. rewrite fmap_app. cbn. by rewrite <- app_assoc.
Qed.

Lemma add_peers_ok t cs rs ex rs' ex' :
  add_peers t cs rs ex = Ok (rs', ex') ->
  exists ps, Forall2 (fun c p => peer_from_config c t = Ok p) cs ps /\
    rs' = rs ++ configured_routes cs ps /\ (NoDup (prefix <$> rs) -> NoDup (prefix <$> rs')).
Proof.
  revert rs ex. induction cs as [|c cs IH]; intros rs ex; cbn [add_peers].
  - intros [= <- <-]. exists []. cbn. by rewrite app_nil_r.
  - destruct (peer_from_config c t) as [p| |] eqn:Ep; [|done..]. cbn [mbind outcome_bind].
    destruct (add_routes p (allowed_ips c) rs) as [rs1| |] eqn:Er; [|done..]. cbn [mbind outcome_bind].
    intros H. apply IH in H as (ps & Hps & -> & Hn).
    apply add_routes_ok in Er as [-> Hn1]. exists (p :: ps). split; [by constructor|].
    split; [|auto]. unfold configured_routes. cbn. by rewrite <- app_assoc.
Qed.

Lemma peer_from_config_np c t :
  (forall h p, no_panic (to_socket_addrs h p)) ->
  is_Some (decode_key (pc_public_key c)) -> is_Some (decode_psk (pc_psk c)) ->
  no_panic (peer_from_config c t).
Proof.
  intros Hr [k Hk] [s Hs]. unfold peer_from_config, no_panic. rewrite Hk. cbn [expect mbind outcome_bind].
  assert (resolve (pc_endpoint c) <> Panic).
  { unfold resolve. destruct (literal _); [done|]. specialize (Hr (host (pc_endpoint c)) (port (pc_endpoint c))).
    unfold no_panic in Hr. destruct (to_socket_addrs _ _) as [l| |]; try done. cbn.
    destruct (list_find is_ipv4 l) as [[]|]; [done|]. by destruct (head l). }
  destruct (resolve (pc_endpoint c)); try done. cbn. by rewrite Hs.
Qed.

Lemma add_peers_np t cs rs ex :
  (forall h p, no_panic (to_socket_addrs h p)) ->
  Forall (fun c => is_Some (decode_key (pc_public_key c)) /\ is_Some (decode_psk (pc_psk c))) cs ->
  no_panic (add_peers t cs rs ex).
Proof.
  intros Hr Hcs. unfold no_panic. revert rs ex. induction Hcs as [|c cs [Hk Hs] _ IH]; intros rs ex; [done|].
  cbn [add_peers]. pose proof (peer_from_config_np c t Hr Hk Hs) as Hp.
  destruct (peer_from_config c t) as [p| |]; try done. cbn [mbind outcome_bind].
  pose proof (add_routes_np p (allowed_ips c) rs). destruct (add_routes _ _ _); try done. apply IH.
Qed.

Lemma add_peers_total t cs rs ex :
  Forall (fun c => exists p, peer_from_config c t = Ok p) cs ->
  NoDup ((prefix <$> rs) ++ concat (allowed_ips <$> cs)) ->
  exists x, add_peers t cs rs ex = Ok x.
Proof.
  intros Hcs. revert rs ex. induction Hcs as [|c cs [p Hp] _ IH]; intros rs ex Hn; [by eexists|].
  cbn [add_peers]. rewrite Hp. cbn [mbind outcome_bind]. rewrite fmap_cons in Hn. cbn [concat] in Hn.
  rewrite app_assoc in Hn. pose proof Hn as (Hn1 & _ & _)%NoDup_app.
  destruct (add_routes_distinct p _ _ Hn1) as [rs1 E]. rewrite E. cbn [mbind outcome_bind].
  apply IH. apply add_routes_ok in E as [-> _]. rewrite fmap_app, <- list_fmap_compose.
  by rewrite list_fmap_id.
Qed.

Lemma find_elem {A} (f : A -> bool) l x : find f l = Some x -> x ∈ l /\ f x = true.
Proof. intros [H1 H2]%find_some. by rewrite list_elem_of_In. Qed.

(** The loop over the endpoint exceptions. *)
Definition captured (r : Router) (p : Peer) (ip : u32) : Prop :=
  sa_ip (endpoint p) = V4 ip /\ sa_port (endpoint p) <> 0 /\ ip <> 0 /\ is_Some (lookup r ip).

Lemma exception_loop_spec r seen rs :
  (forall p, p ∈ exception_loop r seen rs -> exists ip rt, captured r p ip /\ (ip ∉ seen) /\
     rt ∈ rs /\ route_peer rt = p) /\
  NoDup ((fun p => sa_ip (endpoint p)) <$> exception_loop r seen rs) /\
  (forall rt ip, rt ∈ rs -> captured r (route_peer rt) ip ->
     ip ∈ seen \/ exists p, p ∈ exception_loop r seen rs /\ captured r p ip).
Proof.
  revert seen. induction rs as [|route rs IH]; intros seen.
  { split_and!; [by intros p ?%not_elem_of_nil|constructor|by intros rt ip ?%not_elem_of_nil]. }
  assert (Hskip : (forall ip, ~ captured r (route_peer route) ip \/ ip ∈ seen \/ sa_ip (endpoint (route_peer route)) <> V4 ip) ->
    exception_loop r seen (route :: rs) = exception_loop r seen rs ->
    (forall p, p ∈ exception_loop r seen (route :: rs) -> exists ip rt, captured r p ip /\ (ip ∉ seen) /\
      rt ∈ route :: rs /\ route_peer rt = p) /\
    NoDup ((fun p => sa_ip (endpoint p)) <$> exception_loop r seen (route :: rs)) /\
    (forall rt ip, rt ∈ route :: rs -> captured r (route_peer rt) ip ->
      ip ∈ seen \/ exists p, p ∈ exception_loop r seen (route :: rs) /\ captured r p ip)).
  { intros Hno ->. destruct (IH seen) as (H1 & H2 & H3). split_and!; [|done|].
    - intros p (ip & rt & ? & ? & ? & ?)%H1. exists ip, rt. split_and!; try done. by right.
    - intros rt ip [->|Hin]%elem_of_cons Hc; [|by eapply H3].
      destruct (Hno ip) as [?|[?|E]]; [done|by left|]. by destruct Hc as [? _]. }
  cbn [exception_loop] in *. cbv zeta in *.
  destruct (sa_ip (endpoint (route_peer route))) as [a|a] eqn:Ea.
  2:{ apply Hskip; [|done]. intros ip. right. by right. }
  destruct ((sa_port _ =? 0) || _)%bool eqn:Eb.
  { apply Hskip; [|done]. intros ip. left. intros (E1 & E2 & E3 & _). rewrite Ea in E1. injection E1 as <-.
    apply orb_prop in Eb as [Eb|Eb]; cbn in Eb; zbool; done. }
  apply orb_false_elim in Eb as [Eb1 Eb2]. cbn in Eb2. zbool.
  destruct (lookup r a) as [rt0|] eqn:El.
  2:{ apply Hskip; [|done]. intros ip. left. intros (E1 & _ & _ & [x E4]). rewrite Ea in E1. congruence. }
  case_bool_decide as Hs.
  { apply Hskip; [|done]. intros ip. right. destruct (decide (ip = a)) as [->|]; [by left|right]. congruence. }
  clear Hskip. assert (Hc : captured r (route_peer route) a) by (split_and!; try done; by rewrite El).
  destruct (IH (a :: seen)) as (H1 & H2 & H3). split_and!.
  - intros p [->|Hp]%elem_of_cons; [exists a, route; split_and!; try done; by left|].
    destruct (H1 p Hp) as (ip & rt & ? & Hn & ? & ?). apply not_elem_of_cons in Hn as [_ Hn].
    exists ip, rt. split_and!; try done. by right.
  - rewrite fmap_cons. constructor; [|done]. rewrite Ea.
    intros (p & E & Hp)%list_elem_of_fmap. destruct (H1 p Hp) as (ip & rt & (E1 & _) & Hn & _).
    apply not_elem_of_cons in Hn as [Hn _]. congruence.
  - intros rt ip [->|Hin]%elem_of_cons Hcap.
    + right. exists (route_peer route). split; [by left|done].
    + destruct (H3 rt ip Hin Hcap) as [[->|?]%elem_of_cons|(p & Hp & Hpc)]; [|by left|].
      * right. exists (route_peer route). split; [by left|done].
      * right. exists p. split; [by right|done].
Qed.
End Lemmas.

(** ** Properties *)

Section Properties.
Context {IN : IpNet} {B64 : Base64} {RS : Resolver}.

(** C12: a lookup is a longest-prefix match: the router holds exactly the
    configured routes, no prefix twice, and [lookup] returns a route of
    greatest prefix length among those that match the destination and are not
    excluded by their own peer (an exclusion of the same length wins), and
    none exactly when there is none. *)
Theorem lookup_longest_prefix config r :
  Router_new config = Ok r ->
  (exists ps, Forall2 (fun c p => peer_from_config c (if_transport (interface config)) = Ok p) (peer config) ps /\
     routes r ≡ₚ configured_routes (peer config) ps) /\
  NoDup (prefix <$> routes r) /\
  forall d, match lookup r d with
            | Some rt => rt ∈ routes r /\ eligible d rt /\
                forall rt', rt' ∈ routes r -> eligible d rt' -> prefix_len (prefix rt') <= prefix_len (prefix rt)
            | None => forall rt', rt' ∈ routes r -> ~ eligible d rt'
            end.
Proof.
  unfold Router_new. destruct (add_peers _ _ _ _) as [[rs ex]| |] eqn:E; [|done..].
  cbn [mbind outcome_bind]. intros [= <-]. cbn [routes].
  apply add_peers_ok in E as (ps & Hps & -> & Hn). split; [exists ps; split; [done|by rewrite sort_desc_perm]|].
  split; [rewrite sort_desc_perm; apply Hn; constructor|]. intros d. unfold lookup. cbn [routes].
  set (l := sort_desc _ _). destruct (find (route_matches d) l) as [rt|] eqn:Ef.
  - pose proof (find_elem _ _ _ Ef) as [Hin Hm]. split; [done|]. split; [by apply route_matches_iff|].
    intros rt' Hin' Hel. apply route_matches_iff in Hel.
    apply (sorted_find_max (fun r => prefix_len (prefix r)) (route_matches d) l rt); try done.
    apply sort_desc_sorted.
  - intros rt' Hin' Hel. apply route_matches_iff in Hel.
    pose proof (find_none _ _ Ef rt' (proj1 (list_elem_of_In _ _) Hin')). congruence.
Qed.

(** For a validated configuration the router is built without a panic -
    the keys [peer_from_config] expects are there - and the only failures are
    an endpoint that does not resolve and a prefix configured twice. *)
Theorem router_new_total config :
  (forall h p, no_panic (to_socket_addrs h p)) -> config_ok config ->
  no_panic (Router_new config) /\
  (Forall (fun c => exists a, resolve (pc_endpoint c) = Ok a) (peer config) ->
   NoDup (concat (allowed_ips <$> peer config)) -> exists r, Router_new config = Ok r).
Proof.
  intros Hr [_ _ _ _ Hps _ _ _].
  assert (Hkeys : Forall (fun c => is_Some (decode_key (pc_public_key c)) /\ is_Some (decode_psk (pc_psk c))) (peer config)).
  { eapply Forall_impl; [exact Hps|]. by intros c []. }
  split.
  - unfold Router_new, no_panic. pose proof (add_peers_np (if_transport (interface config)) _ [] [] Hr Hkeys).
    by destruct (add_peers _ _ _ _) as [[]| |].
  - intros Hres Hn. unfold Router_new.
    destruct (add_peers_total (if_transport (interface config)) (peer config) [] []) as [[rs ex] ->];
      [|done|cbn; eauto].
    rewrite Forall_forall in *. intros c Hc. destruct (Hres c Hc) as [a Ha].
    destruct (Hkeys c Hc) as [[k Hk] [s Hs]]. unfold peer_from_config. rewrite Hk. cbn. rewrite Ha. cbn.
    rewrite Hs. cbn. eauto.
Qed.

(** The endpoint exceptions protect the transport from its own tunnel:
    they name every IPv4 endpoint address that the tunnel routes would
    capture, each address once, and nothing else. *)
Theorem endpoint_exceptions_exact r :
  NoDup ((fun p => sa_ip (endpoint p)) <$> endpoint_exception_peers r) /\
  (forall p, p ∈ endpoint_exception_peers r -> exists ip rt, captured r p ip /\ rt ∈ routes r /\ route_peer rt = p) /\
  (forall rt ip, rt ∈ routes r -> captured r (route_peer rt) ip ->
     exists p, p ∈ endpoint_exception_peers r /\ sa_ip (endpoint p) = V4 ip).
Proof.
  destruct (exception_loop_spec r [] (routes r)) as (H1 & H2 & H3). split_and!; [done| |].
  - intros p (ip & rt & ? & _ & ? & ?)%H1. by exists ip, rt.
  - intros rt ip Hin Hc. destruct (H3 rt ip Hin Hc) as [?%not_elem_of_nil|(p & Hp & Hcp)]; [done|].
    exists p. split; [done|]. by destruct Hcp.
Qed.
End Properties.

(** ** Witnesses *)

(** A concrete decoder and resolver: the bytes of the string padded to 32, and
    one address for every name. *)
Definition ref_base64 : Base64 :=
  {| b64_decode s := match chars_of s with [] => None | l => Some (take 32 ((code <$> l) ++ replicate 32 0)) end |}.
Definition ref_resolver : Resolver :=
  {| io_error := unit; io_not_found _ := tt; to_socket_addrs _ p := Ok [SA6 1 p 0 0; SA4 3221225985 p] |}.

Definition wit_peer (n : string) (e : PeerEndpoint) (allowed excluded : list (Z * Z)) : PeerConfig (IN := ref_ipnet) :=
  @Build_PeerConfig ref_ipnet n e allowed excluded n n 25 0 None.
Definition wit_config : Config (IN := ref_ipnet) := {|
  interface := @Build_InterfaceConfig ref_ipnet "utun10" (167772161, 24) (SA4 0 0) Udp 1280 "k";
  gateway := None;
  peer := [wit_peer "home" (endpoint_of (SA4 167772170 7)) [(0, 0); (167772160, 24)] [(167772161, 32)];
           wit_peer "lab" {| host := "lab.net"; port := 9; literal := None |} [(167772160, 8)] []] |}.

Definition wit_router : Router (IN := ref_ipnet) :=
  match Router_new (IN := ref_ipnet) (B64 := ref_base64) (RS := ref_resolver) wit_config with
  | Ok r => r
  | _ => {| routes := []; excluded_routes := [] |}
  end.

Lemma wit_router_ok : Router_new (B64 := ref_base64) (RS := ref_resolver) wit_config = Ok wit_router.
Proof. vm_compute. reflexivity. Qed.

Lemma wit_config_ok : config_ok (B64 := ref_base64) wit_config.
Proof. apply (validate_spec (B64 := ref_base64) wit_config). vm_compute. reflexivity. Qed.

(** 10.0.0.1 is excluded from the /24 of ["home"] and goes to ["lab"]. *)
Lemma lookup_longest_prefix_witness :
  (fun r => name (route_peer r)) <$> lookup wit_router 167772161 = Some "lab"%string /\
  (fun r => name (route_peer r)) <$> lookup wit_router 167772162 = Some "home"%string /\
  NoDup (prefix <$> routes wit_router).
Proof.
  split; [vm_compute; reflexivity|]. split; [vm_compute; reflexivity|].
  apply (lookup_longest_prefix (B64 := ref_base64) (RS := ref_resolver) wit_config wit_router wit_router_ok).
Defined.

Lemma router_new_total_witness :
  exists r, Router_new (B64 := ref_base64) (RS := ref_resolver) wit_config = Ok r.
Proof.
  apply (router_new_total (B64 := ref_base64) (RS := ref_resolver) wit_config).
  - done.
  - exact wit_config_ok.
  - repeat (apply Forall_cons_2; [eexists; reflexivity|]). apply Forall_nil_2.
  - apply (bool_decide_unpack _). vm_compute. exact I.
Defined.

(** Two prefixes that differ only in their host bits denote one route, but the
    duplicate check compares them as written: the second is never used. *)
Definition wit_host_bits : Config (IN := ref_ipnet) := {|
  interface := interface wit_config; gateway := None;
  peer := [wit_peer "a" (endpoint_of (SA4 1 1)) [(167772161, 24)] [];
           wit_peer "b" (endpoint_of (SA4 2 2)) [(167772162, 24)] []] |}.

Example host_bits_not_duplicate :
  match Router_new (B64 := ref_base64) (RS := ref_resolver) wit_host_bits with
  | Ok r => (fun r => name (route_peer r)) <$> routes r = ["a"; "b"]%string /\
            (fun r => name (route_peer r)) <$> lookup r 167772162 = Some "a"%string
  | _ => False
  end.
Proof. vm_compute. split; reflexivity. Qed.
