(* ===== verification/Engine.v ===== *)
(** * Packet engine ([src/src/engine.rs], [Engine])

    One definition per method.  [Engine] holds what never changes (router and
    private key), [EngineState] what the locks protect: the session manager,
    the peer statistics, the refreshed endpoints, and the entropy source.
    [clock i] is the value of the [i]-th [Instant::now()] a method reads. *)

From S2P Require Import Prelude Net PeerState Auth Replay Noise Sessions SessionInv.
From S2P Require Import Std Config Router.
From S2P Require Packet.

Section Engine.
Context {IN : IpNet} {B64 : Base64} {RS : Resolver} {SN : Snow}.

Inductive EngineAction :=
| SendTransport (peer_name : string) (endpoint : SocketAddr) (frame : bytes)
| WriteIpPacket (peer_name : string) (source : SocketAddr) (packet : bytes).

Inductive HandshakeRole := Initiator | Responder.

Inductive EngineEvent :=
| HandshakeCompleted (peer_name : string) (endpoint : SocketAddr) (role : HandshakeRole).

Record EngineOutput := { actions : list EngineAction; events : list EngineEvent }.
Definition no_output : EngineOutput := {| actions := []; events := [] |}.

Inductive EngineError :=
| InvalidPrivateKeyE
| RouterE (e : RouterError)
| PacketE (e : Packet.PacketError)
| NoiseE (e : NoiseError)
| UnknownPeer (name : string)
| InvalidPeerEndpoint (endpoint : SocketAddr).

Record Engine := { router : Router; local_static : bytes }.

Record EngineState := {
  manager : SessionState;
  peer_stats : gmap string PeerStats;
  resolved_endpoints : gmap string SocketAddr;
  entropy : Rng }.

Definition EngineState_new (r : Rng) : EngineState :=
  {| manager := SessionState_default; peer_stats := ∅; resolved_endpoints := ∅; entropy := r |}.

Definition with_router (config : Config) (router : Router) : outcome EngineError Engine :=
  local_static ← ok_or InvalidPrivateKeyE (decode_key (private_key (interface config)));
  Ok {| router := router; local_static := local_static |}.

Definition Engine_new (config : Config) : outcome EngineError Engine :=
  router ← map_err RouterE (Router_new config);
  with_router config router.

(** ** State access *)

Definition set_manager (m : SessionState) (st : EngineState) : EngineState :=
  {| manager := m; peer_stats := peer_stats st; resolved_endpoints := resolved_endpoints st;
     entropy := entropy st |}.
Definition set_stats (f : gmap string PeerStats -> gmap string PeerStats) (st : EngineState) : EngineState :=
  {| manager := manager st; peer_stats := f (peer_stats st);
     resolved_endpoints := resolved_endpoints st; entropy := entropy st |}.
Definition set_resolved (f : gmap string SocketAddr -> gmap string SocketAddr) (st : EngineState) : EngineState :=
  {| manager := manager st; peer_stats := peer_stats st;
     resolved_endpoints := f (resolved_endpoints st); entropy := entropy st |}.
Definition set_entropy (r : Rng) (st : EngineState) : EngineState :=
  {| manager := manager st; peer_stats := peer_stats st;
     resolved_endpoints := resolved_endpoints st; entropy := r |}.

(** A call into the session manager; its error is converted by [?]. *)
Definition call {A} (m : M SessionState NoiseError A) : M EngineState EngineError A := fun st =>
  let '(s, r) := m (manager st) in (set_manager s st, map_err NoiseE r).
Definition call_ok {A} (m : SessionState -> SessionState * A) : M EngineState EngineError A := fun st =>
  let '(s, r) := m (manager st) in (set_manager s st, Ok r).

(** ** Peers and endpoints *)

Definition usable_peer_endpoint (endpoint : SocketAddr) : bool :=
  negb (is_unspecified (sa_ip endpoint)) && negb (sa_port endpoint =? 0).

Definition find_peer (e : Engine) (peer_name : string) : option Peer :=
  route_peer <$> find (fun r => bool_decide (name (route_peer r) = peer_name)) (routes (router e)).

Definition configured_endpoint_of (p : Peer) (st : EngineState) : SocketAddr :=
  default (endpoint p) (resolved_endpoints st !! name p).

Definition filter_opt {A} (f : A -> bool) (o : option A) : option A :=
  match o with Some a => if f a then Some a else None | None => None end.

Definition resolve_endpoint (p : Peer) (st : EngineState) : option SocketAddr :=
  let learned := filter_opt usable_peer_endpoint (snapshot (peer_stats st) !! name p ≫= current_endpoint) in
  let chosen := match learned with Some a => Some a | None => Some (configured_endpoint_of p st) end in
  filter_opt usable_peer_endpoint chosen.

Definition initiate_peer (e : Engine) (p : Peer) (now : Instant)
    : M EngineState EngineError (option EngineAction) := fun st =>
  match resolve_endpoint p st with
  | None => (st, Ok None)
  | Some endpoint =>
      let '((s, rng), r) := start_or_retry_handshake (name p) (local_static e) (public_key p) (psk p) now
                              (manager st, entropy st) in
      (set_entropy rng (set_manager s st),
       map_err NoiseE (option_map (SendTransport (name p) endpoint) <$> r))
  end.

Definition option_to_list {A} (o : option A) : list A := match o with Some a => [a] | None => [] end.

(** The common tail of [process_outbound_ip] and [create_keepalive]. *)
Definition send_or_initiate (e : Engine) (p : Peer) (m : MsgType.t) (payload : bytes) (now : Instant)
    : M EngineState EngineError EngineOutput := fun st =>
  let '(s, r) := encrypt_for_peer (name p) m payload now (manager st) in
  let st := set_manager s st in
  match r with
  | Ok (Some frame) =>
      (action ← initiate_peer e p now;
       st ← mget;
       let data := (fun endpoint => SendTransport (name p) endpoint frame) <$> resolve_endpoint p st in
       mret {| actions := option_to_list action ++ option_to_list data; events := [] |}) st
  | Ok None =>
      (action ← initiate_peer e p now; mret {| actions := option_to_list action; events := [] |}) st
  | Err _ =>
      (_ ← call_ok (invalidate_peer (name p));
       action ← initiate_peer e p now;
       mret {| actions := option_to_list action; events := [] |}) st
  | Panic => (st, Panic)
  end.

Definition process_outbound_ip (e : Engine) (packet : bytes) (now : Instant)
    : M EngineState EngineError EngineOutput :=
  ipv4 ← mlift (map_err PacketE (Packet.parse packet));
  destination ← mlift (map_err PacketE (Packet.destination ipv4));
  match lookup (router e) destination with
  | None => mret no_output
  | Some route => send_or_initiate e (route_peer route) MsgType.Data packet now
  end.

(** ** Inbound packets *)

(** The loop of [decode_handshake_init] over the routes. *)
Fixpoint try_respond (e : Engine) (hid message : bytes) (wall : Instant) (checked : list string)
    (rs : list Route) : M Rng EngineError (option (string * ResponderHandshake)) := fun r =>
  match rs with
  | [] => (r, Ok None)
  | route :: rs =>
      let p := route_peer route in
      if bool_decide (name p ∈ checked) then try_respond e hid message wall checked rs r else
      match responder_respond (local_static e) (public_key p) (psk p) hid message wall r with
      | (r, Ok handshake) => (r, Ok (Some (name p, handshake)))
      | (r, Err _) => try_respond e hid message wall (name p :: checked) rs r
      | (r, Panic) => (r, Panic)
      end
  end.

Definition decode_handshake_init (e : Engine) (hid message : bytes) (wall : Instant)
    : M EngineState EngineError (option (string * ResponderHandshake)) := fun st =>
  let '(r, res) := try_respond e hid message wall [] (routes (router e)) (entropy st) in
  (set_entropy r st, res).

Definition process_init (e : Engine) (hid message : bytes) (source : SocketAddr) (clock : nat -> Instant)
    : M EngineState EngineError EngineOutput :=
  decoded ← decode_handshake_init e hid message (clock 0%nat);
  match decoded with
  | None => mret no_output
  | Some (peer_name, handshake) =>
      let passive := match find_peer e peer_name with
                     | Some p => negb (usable_peer_endpoint (endpoint p)) | None => false end in
      accepted ← call_ok (accept_inbound_initiation peer_name hid passive (clock 1%nat));
      if negb accepted then mret no_output else
      cached ← call_ok (cached_responder_response peer_name hid message (clock 2%nat));
      match cached with
      | Some response => mret {| actions := [SendTransport peer_name source response]; events := [] |}
      | None =>
          let response := encode_handshake PacketKind.HandshakeResponse hid (rh_message handshake) in
          stored ← call_ok (store_responder_candidate peer_name (rh_session handshake) hid message
                              response (clock 3%nat));
          mret {| actions := if stored : bool then [SendTransport peer_name source response] else [];
                  events := [] |}
      end
  end.

Definition process_response (hid message : bytes) (source : SocketAddr) (clock : nat -> Instant)
    : M EngineState EngineError EngineOutput :=
  finalized ← call (finalize_initiator hid message (clock 0%nat));
  match finalized with
  | None => mret no_output
  | Some (peer_name, confirmation) =>
      _ ← mmodify (set_stats (fun m => record_keepalive m peer_name source (clock 1%nat)));
      mret {| actions := [SendTransport peer_name source confirmation];
              events := [HandshakeCompleted peer_name source Initiator] |}
  end.

Definition process_transport (sid : bytes) (counter : u64) (ciphertext : bytes) (source : SocketAddr)
    (now : Instant) (clock : nat -> Instant) : M EngineState EngineError EngineOutput :=
  decrypted ← call (decrypt_transport sid counter ciphertext now);
  match decrypted with
  | None => mret no_output
  | Some d =>
      let peer_name := dt_peer_name d in
      let events := if dt_promoted d then [HandshakeCompleted peer_name source Responder] else [] in
      match dt_msg_type d with
      | MsgType.Keepalive =>
          _ ← mmodify (set_stats (fun m => record_keepalive m peer_name source (clock 0%nat)));
          if bool_decide (dt_payload d = KEEPALIVE_PROBE_PAYLOAD) then
            acknowledgement ← call (encrypt_for_peer peer_name MsgType.Keepalive KEEPALIVE_ACK_PAYLOAD now);
            mret {| actions := match acknowledgement with
                               | Some frame => [SendTransport peer_name source frame] | None => [] end;
                    events := events |}
          else mret {| actions := []; events := events |}
      | MsgType.Data =>
          _ ← mmodify (set_stats (fun m => record_rx m peer_name source (len (dt_payload d)) (clock 0%nat)));
          _ ← mlift (map_err PacketE (Packet.parse (dt_payload d)));
          mret {| actions := [WriteIpPacket peer_name source (dt_payload d)]; events := events |}
      end
  end.

Definition process_inbound_transport (e : Engine) (frame : bytes) (source : SocketAddr) (now : Instant)
    (clock : nat -> Instant) : M EngineState EngineError EngineOutput :=
  match decode_packet frame with
  | None => mret no_output
  | Some (Handshake PacketKind.HandshakeInit hid message) => process_init e hid message source clock
  | Some (Handshake PacketKind.HandshakeResponse hid message) => process_response hid message source clock
  | Some (Handshake PacketKind.Transport _ _) => mret no_output
  | Some (Transport sid counter ciphertext) => process_transport sid counter ciphertext source now clock
  end.

(** ** The other methods *)

Definition record_transport_sent (peer_name : string) (n : usize) (st : EngineState) : EngineState :=
  set_stats (fun m => record_tx m peer_name n) st.

Definition peer_stats_of (st : EngineState) : gmap string PeerStats := snapshot (peer_stats st).

Definition engine_active_session_id (peer_name : string) (st : EngineState) : option bytes :=
  active_session_id peer_name (manager st).
Definition has_pending_handshake (peer_name : string) (st : EngineState) : bool :=
  has_pending_init peer_name (manager st).
Definition engine_has_active_session (peer_name : string) (wall : Instant) (st : EngineState) : bool :=
  has_active_session peer_name wall (manager st).
Definition engine_invalidate_peer (peer_name : string) : M EngineState EngineError bool :=
  call_ok (invalidate_peer peer_name).

Definition update_resolved_endpoint (e : Engine) (peer_name : string) (endpoint : SocketAddr)
    : M EngineState EngineError bool :=
  if negb (usable_peer_endpoint endpoint) then mfail (InvalidPeerEndpoint endpoint) else
  p ← mlift (ok_or (UnknownPeer peer_name) (find_peer e peer_name));
  st ← mget;
  let previous := configured_endpoint_of p st in
  if bool_decide (previous = endpoint) then mret false else
  _ ← mmodify (set_resolved <[peer_name := endpoint]>);
  _ ← mmodify (set_stats (fun m => clear_endpoint m peer_name));
  _ ← call_ok (invalidate_peer peer_name);
  mret true.

Definition initiate_handshake (e : Engine) (peer_name : string) (now : Instant)
    : M EngineState EngineError EngineOutput :=
  p ← mlift (ok_or (UnknownPeer peer_name) (find_peer e peer_name));
  action ← initiate_peer e p now;
  mret {| actions := option_to_list action; events := [] |}.

Definition create_keepalive (e : Engine) (peer_name : string) (payload : bytes) (now : Instant)
    : M EngineState EngineError EngineOutput :=
  p ← mlift (ok_or (UnknownPeer peer_name) (find_peer e peer_name));
  send_or_initiate e p MsgType.Keepalive payload now.
End Engine.

(** ** Safety of computations

    [safe m Q]: from a state whose manager is well formed, [m] keeps it so,
    does not panic, and its result satisfies [Q]. *)

Section Safety.
Context {IN : IpNet} {B64 : Base64} {RS : Resolver} {SN : Snow} {SL : SnowLaws SN}.

Definition safe {A} (m : M EngineState EngineError A) (Q : A -> Prop) : Prop :=
  forall st, sm_wf (manager st) ->
    sm_wf (manager (m st).1) /\ no_panic (m st).2 /\ forall a, (m st).2 = Ok a -> Q a.
Definition any {A} (_ : A) : Prop := True.

Lemma safe_ret {A} (a : A) (Q : A -> Prop) : Q a -> safe (mret a) Q.
Proof. intros HQ st Hst. split_and!; [done|done|]. by intros ? [= <-]. Qed.

Lemma safe_fail {A} (e : EngineError) (Q : A -> Prop) : safe (mfail e) Q.
Proof. by intros st. Qed.

Lemma safe_get Q : (forall st, Q st) -> safe mget Q.
Proof. intros HQ st Hst. split_and!; [done|done|]. intros ? _. apply HQ. Qed.

Lemma safe_lift {A} (o : outcome EngineError A) (Q : A -> Prop) :
  no_panic o -> (forall a, o = Ok a -> Q a) -> safe (mlift o) Q.
Proof. by intros H HQ st. Qed.

Lemma safe_bind {A B} (m : M EngineState EngineError A) (f : A -> M EngineState EngineError B) Q R :
  safe m Q -> (forall a, Q a -> safe (f a) R) -> safe (m ≫= f) R.
Proof.
  intros Hm Hf st Hst. destruct (Hm st Hst) as (H1 & H2 & H3). unfold mbind, M_bind.
  destruct (m st) as [st1 [a| |]]; cbn in *; [by apply Hf; auto|done|done].
Qed.

Lemma safe_modify f Q : (forall st, manager (f st) = manager st) -> Q tt -> safe (mmodify f) Q.
Proof. intros Hf HQ st Hst. cbn. rewrite Hf. split_and!; [done|done|]. by intros [] _. Qed.

Lemma safe_call {A} (m : M SessionState NoiseError A) :
  (forall st, sm_wf st -> sm_wf (m st).1 /\ no_panic (m st).2) -> safe (call m) any.
Proof.
  intros Hm st Hst. unfold call. destruct (Hm _ Hst) as [H1 H2].
  destruct (m (manager st)) as [s r]. cbn in *. split_and!; [done|by destruct r|done].
Qed.

Lemma safe_call_ok {A} (m : SessionState -> SessionState * A) :
  (forall st, sm_wf st -> sm_wf (m st).1) -> safe (call_ok m) any.
Proof.
  intros Hm st Hst. unfold call_ok. specialize (Hm _ Hst). by destruct (m (manager st)) as [s r].
Qed.

Lemma map_err_np {E F A} (f : E -> F) (o : outcome E A) : no_panic o -> no_panic (map_err f o).
Proof. by destruct o. Qed.

Lemma ok_or_np {E A} (e : E) (o : option A) : no_panic (ok_or e o).
Proof. by destruct o. Qed.

Lemma initiate_peer_safe e p now : safe (initiate_peer e p now) any.
Proof.
  intros st Hst. unfold initiate_peer. destruct (resolve_endpoint p st); [|done].
  pose proof (start_or_retry_handshake_wf (name p) (local_static e) (public_key p) (psk p) now
    (manager st) (entropy st) Hst) as [H1 _].
  pose proof (start_or_retry_handshake_np (name p) (local_static e) (public_key p) (psk p) now
    (manager st, entropy st)) as H2.
  destruct (start_or_retry_handshake _ _ _ _ _ _) as [[s' r] o]. cbn in *.
  split_and!; [done|by destruct o|done].
Qed.

Lemma invalidate_safe p : safe (call_ok (invalidate_peer p)) any.
Proof. apply safe_call_ok. intros st Hst. by apply invalidate_peer_wf. Qed.

Lemma encrypt_safe p m payload now : safe (call (encrypt_for_peer p m payload now)) any.
Proof.
  apply safe_call. intros st Hst. split; [|apply encrypt_for_peer_np].
  destruct (encrypt_for_peer_ev p m payload now st Hst). by eapply rest_eq_wf.
Qed.

Lemma send_or_initiate_safe e p m payload now : safe (send_or_initiate e p m payload now) any.
Proof.
  intros st Hst. unfold send_or_initiate.
  destruct (encrypt_for_peer_ev (name p) m payload now (manager st) Hst) as [Hev Hr].
  pose proof (rest_eq_wf _ _ Hst Hev Hr) as Hwf.
  pose proof (encrypt_for_peer_np (name p) m payload now (manager st)) as Hnp.
  destruct (encrypt_for_peer _ _ _ _ _) as [s' [[frame|]|err|]]; cbn [fst snd] in *; [| | |done].
  all: match goal with |- sm_wf (manager (?m ?st0).1) /\ _ => enough (safe m any) as Hm by by apply Hm end.
  - eapply safe_bind; [apply initiate_peer_safe|]. intros action _.
    eapply safe_bind; [by apply (safe_get any)|]. intros st1 _. by apply safe_ret.
  - eapply safe_bind; [apply initiate_peer_safe|]. intros action _. by apply safe_ret.
  - eapply safe_bind; [apply invalidate_safe|]. intros _ _.
    eapply safe_bind; [apply initiate_peer_safe|]. intros action _. by apply safe_ret.
Qed.

Lemma process_outbound_ip_safe e packet now : bytes_ok packet -> safe (process_outbound_ip e packet now) any.
Proof.
  intros Hb. unfold process_outbound_ip.
  eapply (safe_bind _ _ (fun ipv4 => Packet.parse packet = Ok ipv4)).
  { apply safe_lift; [apply map_err_np, Packet.parse_no_panic|]. by destruct (Packet.parse packet); intros ? [= <-]. }
  intros ipv4 Hp. destruct (Packet.destination_ok _ _ Hb Hp) as (d & Ed & _).
  eapply (safe_bind _ _ any); [apply safe_lift; [by rewrite Ed|done]|]. intros dst _.
  destruct (lookup (router e) dst); [apply send_or_initiate_safe|by apply safe_ret].
Qed.

Lemma try_respond_ok e hid msg wall checked rs r :
  no_panic (try_respond e hid msg wall checked rs r).2 /\
  forall p rh, (try_respond e hid msg wall checked rs r).2 = Ok (Some (p, rh)) ->
    session_wf (rh_session rh) /\ exists route r0 r1, route ∈ rs /\ name (route_peer route) = p /\
      responder_respond (local_static e) (public_key (route_peer route)) (psk (route_peer route))
        hid msg wall r0 = (r1, Ok rh).
Proof.
  revert checked r. induction rs as [|route rs IH]; intros checked r; [done|].
  assert (Hcons : forall checked' r', no_panic (try_respond e hid msg wall checked' rs r').2 /\
    forall p rh, (try_respond e hid msg wall checked' rs r').2 = Ok (Some (p, rh)) ->
    session_wf (rh_session rh) /\ exists route0 r0 r1, route0 ∈ route :: rs /\ name (route_peer route0) = p /\
      responder_respond (local_static e) (public_key (route_peer route0)) (psk (route_peer route0))
        hid msg wall r0 = (r1, Ok rh)).
  { intros c' r'. destruct (IH c' r') as [H1 H2]. split; [done|].
    intros p rh H. destruct (H2 p rh H) as (? & rt & r0 & r1 & ? & ? & ?). split; [done|].
    exists rt, r0, r1. split_and!; try done. by right. }
  cbn [try_respond]. cbv zeta. case_bool_decide; [apply Hcons|].
  destruct (responder_respond _ _ _ _ _ _ _) as [r1 [rh|err|]] eqn:E; [|apply Hcons|].
  - split; [done|]. intros p rh' [= <- <-]. split.
    + by destruct (responder_respond_ok _ _ _ _ _ _ _ _ _ E) as (_ & Hw & _).
    + exists route, r, r1. split_and!; try done. left.
  - pose proof (responder_respond_np (local_static e) (public_key (route_peer route))
      (psk (route_peer route)) hid msg wall r) as Hnp. by rewrite E in Hnp.
Qed.

Lemma decode_handshake_init_safe e hid msg wall :
  safe (decode_handshake_init e hid msg wall)
    (fun o => forall p rh, o = Some (p, rh) -> session_wf (rh_session rh)).
Proof.
  intros st Hst. unfold decode_handshake_init.
  destruct (try_respond_ok e hid msg wall [] (routes (router e)) (entropy st)) as [H1 H2].
  destruct (try_respond _ _ _ _ _ _ _) as [r o]. cbn in *. split_and!; try done.
  intros a -> p rh ->. by destruct (H2 p rh eq_refl).
Qed.

Lemma process_init_safe e hid msg src clock : safe (process_init e hid msg src clock) any.
Proof.
  unfold process_init. eapply safe_bind; [apply decode_handshake_init_safe|].
  intros [[p rh]|] Hrh; [|by apply safe_ret]. cbv zeta.
  eapply safe_bind; [apply safe_call_ok; intros; by apply accept_inbound_initiation_wf|].
  intros [] _; cbn [negb]; [|by apply safe_ret].
  eapply safe_bind; [apply safe_call_ok; intros; by apply cached_responder_response_wf|].
  intros [response|] _; [by apply safe_ret|].
  eapply safe_bind; [apply safe_call_ok; intros; apply store_responder_candidate_wf; [done|by apply (Hrh p)]|].
  intros stored _. by apply safe_ret.
Qed.

Lemma process_response_safe hid msg src clock : safe (process_response hid msg src clock) any.
Proof.
  unfold process_response. eapply safe_bind.
  { apply safe_call. intros. split; [by apply finalize_initiator_wf|apply finalize_initiator_np]. }
  intros [[p f]|] _; [|by apply safe_ret].
  eapply (safe_bind _ _ any); [by apply safe_modify|]. intros _ _. by apply safe_ret.
Qed.

Lemma process_transport_safe sid n ct src now clock :
  is_u64 n -> safe (process_transport sid n ct src now clock) any.
Proof.
  intros Hn. unfold process_transport. eapply safe_bind.
  { apply safe_call. intros. split; [by apply decrypt_transport_wf|by apply decrypt_transport_np]. }
  intros [d|] _; [|by apply safe_ret]. cbv zeta. destruct (dt_msg_type d).
  - eapply (safe_bind _ _ any); [by apply safe_modify|]. intros _ _.
    eapply (safe_bind _ _ any); [apply safe_lift; [apply map_err_np, Packet.parse_no_panic|done]|].
    intros _ _. by apply safe_ret.
  - eapply (safe_bind _ _ any); [by apply safe_modify|]. intros _ _.
    case_bool_decide; [|by apply safe_ret].
    eapply safe_bind; [apply encrypt_safe|]. intros a _. by apply safe_ret.
Qed.

Lemma process_inbound_transport_safe e frame src now clock :
  bytes_ok frame -> safe (process_inbound_transport e frame src now clock) any.
Proof.
  intros Hb. unfold process_inbound_transport.
  destruct (decode_packet frame) as [[[] hid msg|sid n ct]|] eqn:E; try by apply safe_ret.
  - apply process_init_safe.
  - apply process_response_safe.
  - apply process_transport_safe. by eapply decode_counter.
Qed.

Lemma update_resolved_endpoint_safe e p a : safe (update_resolved_endpoint e p a) any.
Proof.
  unfold update_resolved_endpoint. destruct (negb _); [apply safe_fail|].
  eapply (safe_bind _ _ any); [by apply safe_lift; [apply ok_or_np|]|]. intros q _.
  eapply safe_bind; [by apply (safe_get any)|]. intros st _. cbv zeta.
  case_bool_decide; [by apply safe_ret|].
  eapply (safe_bind _ _ any); [by apply safe_modify|]. intros _ _.
  eapply (safe_bind _ _ any); [by apply safe_modify|]. intros _ _.
  eapply safe_bind; [apply invalidate_safe|]. intros _ _. by apply safe_ret.
Qed.

Lemma initiate_handshake_safe e p now : safe (initiate_handshake e p now) any.
Proof.
  unfold initiate_handshake.
  eapply (safe_bind _ _ any); [by apply safe_lift; [apply ok_or_np|]|]. intros q _.
  eapply safe_bind; [apply initiate_peer_safe|]. intros a _. by apply safe_ret.
Qed.

Lemma create_keepalive_safe e p payload now : safe (create_keepalive e p payload now) any.
Proof.
  unfold create_keepalive.
  eapply (safe_bind _ _ any); [by apply safe_lift; [apply ok_or_np|]|]. intros q _.
  apply send_or_initiate_safe.
Qed.
End Safety.

(** ** Runs of the engine *)

Section Runs.
Context {IN : IpNet} {B64 : Base64} {RS : Resolver} {SN : Snow}.

Inductive engine_op :=
| DoOutbound (packet : bytes) (now : Instant)
| DoInbound (frame : bytes) (source : SocketAddr) (now : Instant) (clock : nat -> Instant)
| DoSent (peer_name : string) (n : usize)
| DoInvalidate (peer_name : string)
| DoUpdate (peer_name : string) (a : SocketAddr)
| DoInitiate (peer_name : string) (now : Instant)
| DoKeepalive (peer_name : string) (payload : bytes) (now : Instant).

Definition run_op (e : Engine) (op : engine_op) : M EngineState EngineError EngineOutput :=
  match op with
  | DoOutbound packet now => process_outbound_ip e packet now
  | DoInbound frame source now clock => process_inbound_transport e frame source now clock
  | DoSent p n => _ ← mmodify (record_transport_sent p n); mret no_output
  | DoInvalidate p => _ ← engine_invalidate_peer p; mret no_output
  | DoUpdate p a => _ ← update_resolved_endpoint e p a; mret no_output
  | DoInitiate p now => initiate_handshake e p now
  | DoKeepalive p payload now => create_keepalive e p payload now
  end.

(** The input of a step: packets are byte strings. *)
Definition op_ok (op : engine_op) : Prop :=
  match op with
  | DoOutbound packet _ => bytes_ok packet
  | DoInbound frame _ _ _ => bytes_ok frame
  | _ => True
  end.

Fixpoint run_ops (e : Engine) (ops : list engine_op) (st : EngineState)
    : EngineState * list (outcome EngineError EngineOutput) :=
  match ops with
  | [] => (st, [])
  | op :: ops => let '(st, r) := run_op e op st in
                 let '(st, rs) := run_ops e ops st in (st, r :: rs)
  end.
End Runs.

(** ** Lemmas on the effects of the manager's calls *)

Section Effects.
Context {IN : IpNet} {B64 : Base64} {RS : Resolver} {SN : Snow}.

Lemma accept_slots peer rid passive wall st k :
  slot_of (accept_inbound_initiation peer rid passive wall st).1 k = slot_of st k.
Proof.
  unfold accept_inbound_initiation. cbv zeta.
  destruct (get_is _ _ _), (_ && _)%bool; try by destruct k.
  all: destruct (pending_init _ !! peer); [|by destruct k]; by destruct (bytes_le _ _), k.
Qed.

Lemma cached_slots peer hid req wall st :
  sessions (cached_responder_response peer hid req wall st).1 = sessions st /\
  previous_sessions (cached_responder_response peer hid req wall st).1 = previous_sessions st.
Proof.
  unfold cached_responder_response. destruct (get_is _ _ _); [done|].
  by destruct (responder_cache st !! peer).
Qed.

Lemma store_slots peer s hid req resp wall st :
  sessions (store_responder_candidate peer s hid req resp wall st).1 = sessions st /\
  previous_sessions (store_responder_candidate peer s hid req resp wall st).1 = previous_sessions st.
Proof. rewrite store_responder_candidate_eq. by destruct (session_id_in_use _ _). Qed.

(** The traffic state of the engine: what a handshake initiation must leave
    alone. *)
Definition same_traffic (st st' : EngineState) : Prop :=
  sessions (manager st') = sessions (manager st) /\
  previous_sessions (manager st') = previous_sessions (manager st) /\
  peer_stats st' = peer_stats st /\ resolved_endpoints st' = resolved_endpoints st.

Lemma same_traffic_refl st : same_traffic st st.
Proof. done. Qed.

Lemma same_traffic_trans a b c : same_traffic a b -> same_traffic b c -> same_traffic a c.
Proof. intros (?&?&?&?) (?&?&?&?). unfold same_traffic. split_and!; congruence. Qed.

Lemma call_ok_traffic {A} (m : SessionState -> SessionState * A) st :
  sessions (m (manager st)).1 = sessions (manager st) ->
  previous_sessions (m (manager st)).1 = previous_sessions (manager st) ->
  same_traffic st (call_ok m st).1 /\ exists a, (call_ok m st).2 = Ok a.
Proof.
  intros H1 H2. unfold call_ok. destruct (m (manager st)) as [s r]. cbn in *.
  split; [done|eauto].
Qed.

Lemma call_ok_eq {A} (m : SessionState -> SessionState * A) st :
  call_ok m st = (set_manager (m (manager st)).1 st, Ok (m (manager st)).2).
Proof. unfold call_ok. by destruct (m (manager st)). Qed.

Lemma bind_ok {A B S E} (m : M S E A) (f : A -> M S E B) st st' b :
  (m ≫= f) st = (st', Ok b) -> exists st1 a, m st = (st1, Ok a) /\ f a st1 = (st', Ok b).
Proof.
  unfold mbind, M_bind. destruct (m st) as [st1 [a| |]]; [|done..]. eauto.
Qed.

(** The statistics after a run of [initiate_peer] or [send_or_initiate]. *)
Definition same_endpoints (st st' : EngineState) : Prop :=
  peer_stats st' = peer_stats st /\ resolved_endpoints st' = resolved_endpoints st.

Lemma resolve_same p st st' : same_endpoints st st' -> resolve_endpoint p st' = resolve_endpoint p st.
Proof. intros [E1 E2]. unfold resolve_endpoint, configured_endpoint_of. by rewrite E1, E2. Qed.

Lemma initiate_peer_effects e p now st :
  same_endpoints st (initiate_peer e p now st).1 /\
  forall a, (initiate_peer e p now st).2 = Ok (Some a) ->
    exists ep frame s', resolve_endpoint p st = Some ep /\ a = SendTransport (name p) ep frame /\
      (start_or_retry_handshake (name p) (local_static e) (public_key p) (psk p) now
         (manager st, entropy st)) = (s', Ok (Some frame)).
Proof.
  unfold initiate_peer. destruct (resolve_endpoint p st) as [ep|]; [|done].
  destruct (start_or_retry_handshake _ _ _ _ _ _) as [[s r] [[f|]|err|]] eqn:E; cbn; try done.
  split; [done|]. intros a [= <-]. eauto 6.
Qed.

Lemma send_or_initiate_effects e p m payload now st st' out :
  send_or_initiate e p m payload now st = (st', Ok out) ->
  same_endpoints st st' /\ events out = [] /\ (length (actions out) <= 2)%nat /\
  forall a, a ∈ actions out -> exists ep frame, resolve_endpoint p st = Some ep /\
    a = SendTransport (name p) ep frame /\
    ((encrypt_for_peer (name p) m payload now (manager st)).2 = Ok (Some frame) \/
     exists s s', (start_or_retry_handshake (name p) (local_static e) (public_key p) (psk p) now s)
       = (s', Ok (Some frame))).
Proof.
  unfold send_or_initiate. destruct (encrypt_for_peer _ _ _ _ _) as [s [[frame|]|err|]] eqn:Ee; [| | |done].
  - intros (st1 & action & Ei & H)%bind_ok.
    destruct (initiate_peer_effects e p now (set_manager s st)) as [Hs Ha]. rewrite Ei in Hs, Ha. cbn [fst snd] in Hs, Ha.
    assert (same_endpoints st st1) as Hs1 by exact Hs.
    unfold mget, mret, M_ret, mbind, M_bind in H. injection H as <- <-. cbn [actions events].
    rewrite (resolve_same p st st1 Hs1). split; [done|]. split; [done|]. split.
    { destruct action, (resolve_endpoint p st); cbn; lia. }
    intros a [Hin|Hin]%elem_of_app.
    + destruct action as [a'|]; cbn in Hin; [|by apply not_elem_of_nil in Hin].
      apply list_elem_of_singleton in Hin as ->. destruct (Ha a' eq_refl) as (ep & f & s' & Hr & -> & E).
      exists ep, f. split; [exact Hr|]. split; [done|]. right. eexists _, _. exact E.
    + destruct (resolve_endpoint p st) as [ep|]; cbn in Hin; [|by apply not_elem_of_nil in Hin].
      apply list_elem_of_singleton in Hin as ->. exists ep, frame.
      split; [done|]. split; [done|]. by left.
  - intros (st1 & action & Ei & H)%bind_ok.
    destruct (initiate_peer_effects e p now (set_manager s st)) as [Hs Ha]. rewrite Ei in Hs, Ha. cbn [fst snd] in Hs, Ha.
    injection H as <- <-. cbn [actions events]. split; [done|]. split; [done|]. split.
    { destruct action; cbn; lia. }
    intros a Hin. destruct action as [a'|]; cbn in Hin; [|by apply not_elem_of_nil in Hin].
    apply list_elem_of_singleton in Hin as ->. destruct (Ha a' eq_refl) as (ep & f & s' & Hr & -> & E).
    exists ep, f. split; [exact Hr|]. split; [done|]. right. eexists _, _. exact E.
  - intros (st1 & removed & Ec & (st2 & action & Ei & H)%bind_ok)%bind_ok.
    rewrite call_ok_eq in Ec. injection Ec as <- _.
    match type of Ei with initiate_peer _ _ _ ?x = _ =>
      destruct (initiate_peer_effects e p now x) as [Hs Ha]; rewrite Ei in Hs, Ha; cbn [fst snd] in Hs, Ha end.
    injection H as <- <-. cbn [actions events]. split; [done|]. split; [done|]. split.
    { destruct action; cbn; lia. }
    intros a Hin. destruct action as [a'|]; cbn in Hin; [|by apply not_elem_of_nil in Hin].
    apply list_elem_of_singleton in Hin as ->. destruct (Ha a' eq_refl) as (ep & f & s' & Hr & -> & E).
    exists ep, f. split; [exact Hr|]. split; [done|]. right. eexists _, _. exact E.
Qed.
End Effects.

(** ** Properties *)

Section Properties.
Context {IN : IpNet} {B64 : Base64} {RS : Resolver} {SN : Snow} {SL : SnowLaws SN}.

Lemma run_op_safe e op : op_ok op -> safe (run_op e op) any.
Proof.
  destruct op as [packet now|frame source now clock|p n|p|p a|p now|p payload now]; intros Hok; cbn [run_op].
  - by apply process_outbound_ip_safe.
  - by apply process_inbound_transport_safe.
  - eapply (safe_bind _ _ any); [by apply safe_modify|]. intros _ _. by apply safe_ret.
  - eapply safe_bind; [apply invalidate_safe|]. intros _ _. by apply safe_ret.
  - eapply safe_bind; [apply update_resolved_endpoint_safe|]. intros _ _. by apply safe_ret.
  - apply initiate_handshake_safe.
  - apply create_keepalive_safe.
Qed.

Lemma run_ops_safe e ops st :
  sm_wf (manager st) -> Forall op_ok ops ->
  sm_wf (manager (run_ops e ops st).1) /\ Forall no_panic (run_ops e ops st).2.
Proof.
  intros Hst Hops. revert st Hst. induction Hops as [|op ops Hop _ IH]; intros st Hst; [done|].
  cbn [run_ops]. destruct (run_op_safe e op Hop st Hst) as (H1 & H2 & _).
  destruct (run_op e op st) as [st1 r]. cbn in H1, H2. destruct (IH st1 H1) as [H3 H4].
  destruct (run_ops e ops st1) as [st2 rs]. cbn in *. split; [done|by constructor].
Qed.

(** C16: the engine is robust: from its initial state, on any sequence of
    packets - well formed or not, from anyone - and of timer and control
    calls, no call panics and the session invariant holds throughout. *)
Theorem engine_robust e r ops :
  Forall op_ok ops ->
  sm_wf (manager (run_ops e ops (EngineState_new r)).1) /\
  Forall no_panic (run_ops e ops (EngineState_new r)).2.
Proof. apply run_ops_safe, default_wf. Qed.

Lemma process_init_effects e hid msg src now clock st frame :
  decode_packet frame = Some (Handshake PacketKind.HandshakeInit hid msg) ->
  let '(st', r) := process_inbound_transport e frame src now clock st in
  same_traffic st st' /\
  forall out, r = Ok out -> events out = [] /\
    (actions out = [] \/ exists p f, actions out = [SendTransport p src f] /\
       exists route r0 r1 rh, route ∈ routes (router e) /\ name (route_peer route) = p /\
         responder_respond (local_static e) (public_key (route_peer route)) (psk (route_peer route))
           hid msg (clock 0%nat) r0 = (r1, Ok rh)).
Proof.
  intros Hd. unfold process_inbound_transport. rewrite Hd. clear Hd.
  unfold process_init, decode_handshake_init, mbind, M_bind.
  destruct (try_respond_ok e hid msg (clock 0%nat) [] (routes (router e)) (entropy st)) as [_ Hresp].
  destruct (try_respond _ _ _ _ _ _ _) as [r' [[[p rh]|]|err|]]; cbn [fst snd] in *;
    [|split; [done|]; intros out [= <-]; by split; [|left]|done|done].
  destruct (Hresp p rh eq_refl) as (_ & route & r0 & r1 & Hin & Hname & Hrr). clear Hresp.
  assert (Hone : forall f, actions {| actions := [SendTransport p src f]; events := [] |} = [] \/
    exists p' f', [SendTransport p src f] = [SendTransport p' src f'] /\
      exists route r0 r1 rh, route ∈ routes (router e) /\ name (route_peer route) = p' /\
        responder_respond (local_static e) (public_key (route_peer route)) (psk (route_peer route))
          hid msg (clock 0%nat) r0 = (r1, Ok rh)) by (intros f; right; eauto 10).
  rewrite call_ok_eq. change (manager (set_entropy r' st)) with (manager st).
  pose proof (accept_slots p hid (match find_peer e p with
    | Some q => negb (usable_peer_endpoint (endpoint q)) | None => false end) (clock 1%nat) (manager st)) as Hacc.
  destruct (accept_inbound_initiation _ _ _ _ (manager st)) as [m1 ok]. cbn [fst snd] in *.
  pose proof (Hacc Active) as HA1. pose proof (Hacc Previous) as HP1. cbn [slot_of] in HA1, HP1.
  destruct ok; cbn [negb]; [|split; [done|]; intros out [= <-]; by split; [|left]].
  rewrite call_ok_eq. destruct (cached_slots p hid msg (clock 2%nat) m1) as [HA2 HP2].
  cbn [manager set_manager] in *.
  destruct (cached_responder_response p hid msg (clock 2%nat) m1) as [m2 [resp|]]; cbn [fst snd] in *.
  - split; [by split_and!; cbn; congruence|]. intros out [= <-]. split; [done|]. apply Hone.
  - rewrite call_ok_eq. cbn [manager set_manager].
    match goal with |- context [store_responder_candidate ?a ?b ?c ?d ?f ?g ?h] =>
      destruct (store_slots a b c d f g h) as [HA3 HP3];
      destruct (store_responder_candidate a b c d f g h) as [m3 ok] end. cbn [fst snd] in *.
    split; [by split_and!; cbn; congruence|]. intros out [= <-]. split; [done|].
    destruct ok; [apply Hone|by left].
Qed.

Lemma handshake_init_traffic e frame src now clock st hid msg :
  decode_packet frame = Some (Handshake PacketKind.HandshakeInit hid msg) ->
  same_traffic st (process_inbound_transport e frame src now clock st).1.
Proof.
  intros Hd. pose proof (process_init_effects e hid msg src now clock st frame Hd) as H.
  destruct (process_inbound_transport _ _ _ _ _ _). by destruct H.
Qed.

(** C22: a handshake initiation, genuine or forged, never disturbs traffic:
    active and previous sessions, statistics and endpoints are untouched, no
    event is reported, and at most one packet leaves, a response to the
    sender, for a peer whose key the initiation proved. *)
Theorem handshake_init_inert e hid msg src now clock st frame :
  decode_packet frame = Some (Handshake PacketKind.HandshakeInit hid msg) ->
  let '(st', r) := process_inbound_transport e frame src now clock st in
  same_traffic st st' /\
  forall out, r = Ok out -> events out = [] /\
    (actions out = [] \/ exists p f, actions out = [SendTransport p src f] /\
       exists route r0 r1 rh, route ∈ routes (router e) /\ name (route_peer route) = p /\
         responder_respond (local_static e) (public_key (route_peer route)) (psk (route_peer route))
           hid msg (clock 0%nat) r0 = (r1, Ok rh)).
Proof. apply process_init_effects. Qed.

Lemma delivered_spec e frame src now clock st st' out p s pkt :
  sm_wf (manager st) -> bytes_ok frame ->
  process_inbound_transport e frame src now clock st = (st', Ok out) ->
  WriteIpPacket p s pkt ∈ actions out ->
  s = src /\
  (exists sid n ct k, decode_packet frame = Some (Transport sid n ct) /\
     authenticated (manager st) sid n ct now k p MsgType.Data pkt) /\
  exists ip, Packet.parse pkt = Ok ip.
Proof.
  intros Hwf Hb E Hin. unfold process_inbound_transport in E.
  destruct (decode_packet frame) as [[[] hid msg|sid n ct]|] eqn:Ed;
    try (injection E as <- <-; by apply not_elem_of_nil in Hin).
  - exfalso. unfold process_init in E. apply bind_ok in E as (st1 & [[q rh]|] & _ & E);
      [|injection E as <- <-; by apply not_elem_of_nil in Hin].
    cbv zeta in E. apply bind_ok in E as (st2 & [] & _ & E); cbn [negb] in E;
      [|injection E as <- <-; by apply not_elem_of_nil in Hin].
    apply bind_ok in E as (st3 & [resp|] & _ & E).
    + injection E as <- <-. cbn [actions] in Hin. by apply list_elem_of_singleton in Hin.
    + apply bind_ok in E as (st4 & [] & _ & E); injection E as <- <-; cbn [actions] in Hin;
        [by apply list_elem_of_singleton in Hin|by apply not_elem_of_nil in Hin].
  - exfalso. unfold process_response in E. apply bind_ok in E as (st1 & [[q f]|] & _ & E).
    + apply bind_ok in E as (st2 & _ & _ & E). injection E as <- <-. cbn [actions] in Hin.
      by apply list_elem_of_singleton in Hin.
    + injection E as <- <-. by apply not_elem_of_nil in Hin.
  - assert (Hn : is_u64 n) by (by eapply decode_counter).
    unfold process_transport in E. apply bind_ok in E as (st1 & [d|] & Ec & E);
      [|injection E as <- <-; by apply not_elem_of_nil in Hin].
    unfold call in Ec. destruct (decrypt_transport sid n ct now (manager st)) as [m1 [o| |]] eqn:Edt;
      [|done..]. injection Ec as <- ->. cbv zeta in E.
    destruct (decrypt_transport_auth _ _ _ _ _ _ _ Hwf Hn Edt) as (k & Hauth & _).
    destruct (dt_msg_type d) eqn:Em.
    + apply bind_ok in E as (st2 & _ & _ & E). apply bind_ok in E as (st3 & ip & Ep & E).
      injection E as <- <-. cbn [actions] in Hin. apply list_elem_of_singleton in Hin. injection Hin as -> -> ->.
      unfold mlift in Ep. injection Ep as _ Ep. split; [done|]. split; [eauto 6|].
      destruct (Packet.parse (dt_payload d)) as [ip'| |]; [eauto|done..].
    + exfalso. apply bind_ok in E as (st2 & _ & _ & E). case_bool_decide.
      * apply bind_ok in E as (st3 & [f|] & _ & E); injection E as <- <-; cbn [actions] in Hin;
          [by apply list_elem_of_singleton in Hin|by apply not_elem_of_nil in Hin].
      * injection E as <- <-. by apply not_elem_of_nil in Hin.
Qed.

(** C4: a packet reaches the platform's packet interface only if it arrived
    in this call under an authenticated data message of a live session of the
    named peer, with the sender's address as its source, and it is a
    well-formed IPv4 packet. *)
Theorem delivered_data_authenticated e frame src now clock st st' out p s pkt :
  sm_wf (manager st) -> bytes_ok frame ->
  process_inbound_transport e frame src now clock st = (st', Ok out) ->
  WriteIpPacket p s pkt ∈ actions out ->
  s = src /\
  (exists sid n ct k, decode_packet frame = Some (Transport sid n ct) /\
     authenticated (manager st) sid n ct now k p MsgType.Data pkt) /\
  exists ip, Packet.parse pkt = Ok ip.
Proof. apply delivered_spec. Qed.

(** C6: roaming is authenticated: a received packet changes what is known of
    a peer - its learned endpoint above all - only if it is an authenticated
    transport packet of that peer or the valid answer to our own initiation,
    and then the endpoint is the address the packet came from. *)
Theorem endpoint_learned_authenticated e frame src now clock st p :
  sm_wf (manager st) -> bytes_ok frame ->
  let st' := (process_inbound_transport e frame src now clock st).1 in
  peer_stats st' !! p <> peer_stats st !! p ->
  (peer_stats st' !! p ≫= current_endpoint) = Some src /\
  ((exists sid n ct k m payload, decode_packet frame = Some (Transport sid n ct) /\
      authenticated (manager st) sid n ct now k p m payload) \/
   (exists hid msg f, decode_packet frame = Some (Handshake PacketKind.HandshakeResponse hid msg) /\
      (finalize_initiator hid msg (clock 0%nat) (manager st)).2 = Ok (Some (p, f)))).
Proof.
  intros Hwf Hb st' Hdiff. subst st'. pose proof (handshake_init_traffic e frame src now clock st) as Hinit.
  unfold process_inbound_transport in *.
  destruct (decode_packet frame) as [[[] hid msg|sid n ct]|] eqn:Ed; try done.
  - specialize (Hinit hid msg eq_refl). by destruct Hinit as (_ & _ & Hs & _); rewrite Hs in Hdiff.
  - unfold process_response, call, mbind, M_bind in *.
    destruct (finalize_initiator hid msg (clock 0%nat) (manager st)) as [m1 [[[q f]|]| |]] eqn:Ef; try done.
    cbn in Hdiff |- *. apply record_keepalive_diff in Hdiff as <-.
    split; [apply record_keepalive_endpoint|]. right. exists hid, msg, f.
    by rewrite Ef.
  - assert (Hn : is_u64 n) by (by eapply decode_counter).
    unfold process_transport, call, mbind, M_bind in *.
    destruct (decrypt_transport sid n ct now (manager st)) as [m1 [[d|]| |]] eqn:Edt; try done.
    destruct (decrypt_transport_auth _ _ _ _ _ _ _ Hwf Hn Edt) as (k & Hauth & _).
    cbn [map_err mmodify mlift] in *. cbv zeta in *. destruct (dt_msg_type d) eqn:Em; cbn [mmodify mlift] in *.
    + destruct (Packet.parse (dt_payload d)); cbn in Hdiff |- *; apply record_rx_diff in Hdiff as <-;
        (split; [apply record_rx_endpoint|]); left;
        by exists sid, n, ct, k, (dt_msg_type d), (dt_payload d); rewrite Em.
    + destruct (bool_decide (dt_payload d = KEEPALIVE_PROBE_PAYLOAD)).
      * match type of Hdiff with context [encrypt_for_peer ?a ?b ?c ?f ?x] =>
          destruct (encrypt_for_peer a b c f x) as [m2 [[ack|]| |]] end; cbn in Hdiff |- *;
          apply record_keepalive_diff in Hdiff as <-; (split; [apply record_keepalive_endpoint|]); left; by exists sid, n, ct, k, (dt_msg_type d), (dt_payload d); rewrite Em.
      * cbn in Hdiff |- *. apply record_keepalive_diff in Hdiff as <-.
        split; [apply record_keepalive_endpoint|]. left.
      by exists sid, n, ct, k, (dt_msg_type d), (dt_payload d); rewrite Em.
Qed.

Lemma resolve_endpoint_usable p st a : resolve_endpoint p st = Some a -> usable_peer_endpoint a = true.
Proof.
  unfold resolve_endpoint. cbv zeta. set (o := match filter_opt _ _ with Some _ => _ | None => _ end).
  unfold filter_opt. destruct o as [b|]; [|done]. destruct (usable_peer_endpoint b) eqn:E; [|done].
  by intros [= <-].
Qed.

(** C23: cryptokey routing: an outbound packet that is not IPv4 is refused
    without any change; one without a route is dropped without any change;
    any other leaves only for the peer its destination is routed to, at that
    peer's usable endpoint, and as the ciphertext of that peer's session or
    as a handshake with that peer's keys. *)
Theorem outbound_routing e packet now st :
  bytes_ok packet ->
  match Packet.parse packet with
  | Err pe => process_outbound_ip e packet now st = (st, Err (PacketE pe))
  | Panic => False
  | Ok ip => exists d, Packet.destination ip = Ok d /\
      match lookup (router e) d with
      | None => process_outbound_ip e packet now st = (st, Ok no_output)
      | Some route => forall st' out, process_outbound_ip e packet now st = (st', Ok out) ->
          events out = [] /\ (length (actions out) <= 2)%nat /\
          forall a, a ∈ actions out -> exists ep frame,
            resolve_endpoint (route_peer route) st = Some ep /\ usable_peer_endpoint ep = true /\
            a = SendTransport (name (route_peer route)) ep frame /\
            ((encrypt_for_peer (name (route_peer route)) MsgType.Data packet now (manager st)).2 = Ok (Some frame) \/
             exists s s', start_or_retry_handshake (name (route_peer route)) (local_static e)
               (public_key (route_peer route)) (psk (route_peer route)) now s = (s', Ok (Some frame)))
      end
  end.
Proof.
  intros Hb. destruct (Packet.parse packet) as [ip|pe|] eqn:Ep.
  - destruct (Packet.destination_ok _ _ Hb Ep) as (d & Ed & _). exists d. split; [done|].
    assert (Heq : process_outbound_ip e packet now st =
      match lookup (router e) d with
      | None => (st, Ok no_output)
      | Some route => send_or_initiate e (route_peer route) MsgType.Data packet now st
      end).
    { unfold process_outbound_ip, mlift, mbind, M_bind. rewrite Ep. cbn [map_err]. rewrite Ed. cbn [map_err].
      by destruct (lookup (router e) d). }
    destruct (lookup (router e) d) as [route|]; [|done]. intros st' out E. rewrite Heq in E.
    destruct (send_or_initiate_effects _ _ _ _ _ _ _ _ E) as (_ & Hev & Hlen & Ha).
    split; [done|]. split; [done|]. intros a Hin. destruct (Ha a Hin) as (ep & frame & Hr & -> & Hf).
    exists ep, frame. split_and!; try done. by eapply resolve_endpoint_usable.
  - unfold process_outbound_ip, mlift, mbind, M_bind. by rewrite Ep.
  - by apply Packet.parse_no_panic in Ep.
Qed.

Lemma find_peer_name e p q : find_peer e p = Some q -> name q = p.
Proof.
  unfold find_peer. intros (r & Hr & ->)%fmap_Some. apply find_some in Hr as [_ H].
  by apply bool_decide_eq_true in H.
Qed.

(** C21: a refreshed DNS endpoint takes effect at once and completely: unusable
    addresses and unknown peers are refused without any change, an unchanged
    address changes nothing, and a new one becomes the peer's endpoint while
    its learned address and every key are dropped, other peers untouched. *)
Theorem update_resolved_endpoint_spec e p a st :
  let '(st', r) := update_resolved_endpoint e p a st in
  match r with
  | Err err => st' = st /\
      ((err = InvalidPeerEndpoint a /\ usable_peer_endpoint a = false) \/
       (err = UnknownPeer p /\ find_peer e p = None))
  | Panic => False
  | Ok false => st' = st /\ exists q, find_peer e p = Some q /\ configured_endpoint_of q st = a
  | Ok true => exists q, find_peer e p = Some q /\ configured_endpoint_of q st <> a /\
      resolve_endpoint q st' = Some a /\
      (forall k, slot_of (manager st') k = delete p (slot_of (manager st) k)) /\
      pending_init (manager st') !! p = None /\
      (forall q', name q' <> p -> resolve_endpoint q' st' = resolve_endpoint q' st)
  end.
Proof.
  unfold update_resolved_endpoint, mlift, mfail, mget, mmodify, mret, M_ret, mbind, M_bind.
  destruct (usable_peer_endpoint a) eqn:Ea; cbn [negb]; [|by split; [|left]].
  destruct (find_peer e p) as [q|] eqn:Eq; cbn [ok_or]; [|by split; [|right]].
  cbv zeta. case_bool_decide as Hc; [by split; [|exists q]|].
  rewrite call_ok_eq. exists q. pose proof (find_peer_name _ _ _ Eq) as Hn.
  split; [done|]. split; [done|]. split; [|split; [by intros []|split; [cbn; apply lookup_delete_eq|]]].
  - unfold resolve_endpoint, configured_endpoint_of, snapshot. cbn. rewrite Hn, clear_endpoint_lookup.
    rewrite decide_True by done. cbn. rewrite lookup_insert_eq. cbn. by rewrite Ea.
  - intros q' Hq'. unfold resolve_endpoint, configured_endpoint_of, snapshot. cbn.
    rewrite clear_endpoint_lookup, decide_False by done. by rewrite lookup_insert_ne by done.
Qed.
End Properties.

(** ** Two engines talk: an executed handshake, exchange and replay *)

Definition wit_pair (peer_name : string) (listen : SocketAddr) (ip : Z) (key peer_key : string) :
    Config (IN := ref_ipnet) := {|
  interface := @Build_InterfaceConfig ref_ipnet "utun9" (ip, 30) listen Udp 1280 key;
  gateway := None;
  peer := [@Build_PeerConfig ref_ipnet peer_name (endpoint_of (SA4 2130706433 (if bool_decide (key = "a"%string) then 2 else 1)))
             [(ip, 30)] [] "p" peer_key 5 20 None] |}.

Definition wit_engine (c : Config (IN := ref_ipnet)) : Engine (IN := ref_ipnet) :=
  match Engine_new (IN := ref_ipnet) (B64 := ref_base64) (RS := ref_resolver) (SN := ref_snow) c with
  | Ok e => e
  | _ => {| router := {| routes := []; excluded_routes := [] |}; local_static := [] |}
  end.
Definition wit_ea : Engine (IN := ref_ipnet) := wit_engine (wit_pair "b" (SA4 0 1) 172838914 "a" "b").
Definition wit_eb : Engine (IN := ref_ipnet) := wit_engine (wit_pair "a" (SA4 0 2) 172838914 "b" "a").
Definition wit_a_addr : SocketAddr := SA4 2130706433 1.
Definition wit_b_addr : SocketAddr := SA4 2130706433 2.
Definition wit_packet : bytes := [69; 0; 0; 20; 0; 0; 0; 0; 64; 17; 0; 0; 10; 77; 80; 1; 10; 77; 80; 2].

Definition wit_clock (_ : nat) : Instant := 0.
Definition wit_st0 (r : Z) : EngineState (SN := ref_snow) := EngineState_new (SN := ref_snow) r.
Definition sent (r : outcome (EngineError (IN := ref_ipnet) (RS := ref_resolver) (SN := ref_snow)) EngineOutput) : bytes :=
  match r with Ok {| actions := SendTransport _ _ f :: _ |} => f | _ => [] end.
Definition wit_out e packet st := process_outbound_ip (IN := ref_ipnet) (RS := ref_resolver) (SN := ref_snow) e packet 0 st.
Definition wit_in e frame src st :=
  process_inbound_transport (IN := ref_ipnet) (RS := ref_resolver) (SN := ref_snow) e frame src 0 wit_clock st.

Definition wit_a1 := wit_out wit_ea wit_packet (wit_st0 100).
Definition wit_b1 := wit_in wit_eb (sent wit_a1.2) wit_a_addr (wit_st0 200).
Definition wit_a2 := wit_in wit_ea (sent wit_b1.2) wit_b_addr wit_a1.1.
Definition wit_b2 := wit_in wit_eb (sent wit_a2.2) wit_a_addr wit_b1.1.
Definition wit_a3 := wit_in wit_ea (sent wit_b2.2) wit_b_addr wit_a2.1.
Definition wit_a4 := wit_out wit_ea wit_packet wit_a3.1.
Definition wit_b3 := wit_in wit_eb (sent wit_a4.2) wit_a_addr wit_b2.1.
Definition wit_b4 := wit_in wit_eb (sent wit_a4.2) wit_a_addr wit_b3.1.

Example two_engines :
  (fun o => (length (actions o), events o)) <$> to_option wit_b1.2 = Some (1%nat, []) /\
  events <$> to_option wit_a2.2 = Some [HandshakeCompleted "b" wit_b_addr Initiator] /\
  events <$> to_option wit_b2.2 = Some [HandshakeCompleted "a" wit_a_addr Responder] /\
  actions <$> to_option wit_b3.2 = Some [WriteIpPacket "a" wit_a_addr wit_packet] /\
  is_ok wit_b4.2 = false.
Proof. repeat split; reflexivity. Qed.

(** ** Witnesses *)

Ltac bytes_tac := vm_compute; repeat constructor; discriminate.

Lemma wit_b1_wf : sm_wf (manager wit_b1.1).
Proof.
  apply (process_inbound_transport_safe (RS := ref_resolver) (SL := ref_snow_laws)); [bytes_tac|apply default_wf].
Qed.
Lemma wit_b2_wf : sm_wf (manager wit_b2.1).
Proof.
  apply (process_inbound_transport_safe (RS := ref_resolver) (SL := ref_snow_laws)); [bytes_tac|apply wit_b1_wf].
Qed.

Lemma engine_robust_witness :
  let ops := [DoInbound (sent wit_a1.2) wit_a_addr 0 wit_clock; DoInbound [3; 1; 2] wit_a_addr 0 wit_clock;
              DoInbound (take 40 (sent wit_a1.2)) wit_a_addr 0 wit_clock; DoKeepalive "a" [1] 5; DoUpdate "zz" wit_a_addr] in
  Forall no_panic (run_ops (IN := ref_ipnet) (RS := ref_resolver) (SN := ref_snow) wit_eb ops
    (EngineState_new (SN := ref_snow) (200 : Z))).2.
Proof.
  cbv zeta. apply (engine_robust (RS := ref_resolver) (SL := ref_snow_laws) wit_eb).
  repeat (apply Forall_cons_2; [first [exact I|bytes_tac]|]). apply Forall_nil_2.
Defined.

Definition wit_hs (b : bytes) : bytes * bytes :=
  match decode_packet b with Some (Handshake _ hid msg) => (hid, msg) | _ => ([], []) end.

Lemma wit_b1_eq :
  process_inbound_transport (IN := ref_ipnet) (RS := ref_resolver) (SN := ref_snow) wit_eb (sent wit_a1.2)
    wit_a_addr 0 wit_clock (wit_st0 200) = (wit_b1.1, wit_b1.2).
Proof. apply surjective_pairing. Qed.

Lemma wit_a1_init :
  decode_packet (sent wit_a1.2) =
    Some (Handshake PacketKind.HandshakeInit (wit_hs (sent wit_a1.2)).1 (wit_hs (sent wit_a1.2)).2).
Proof. vm_compute. reflexivity. Qed.

Lemma handshake_init_inert_witness : same_traffic (wit_st0 200) wit_b1.1 /\ is_ok wit_b1.2 = true.
Proof.
  split; [|reflexivity].
  pose proof (handshake_init_inert (RS := ref_resolver) (SL := ref_snow_laws) wit_eb _ _ wit_a_addr 0
    wit_clock (wit_st0 200) _ wit_a1_init) as H.
  rewrite wit_b1_eq in H. cbv beta iota in H. exact (proj1 H).
Defined.

Definition wit_out_b3 : EngineOutput :=
  match wit_b3.2 with Ok o => o | _ => no_output end.

Lemma wit_in_eq e f s st :
  process_inbound_transport (IN := ref_ipnet) (RS := ref_resolver) (SN := ref_snow) e f s 0 wit_clock st
    = wit_in e f s st.
Proof. reflexivity. Qed.

Lemma wit_b3_eq : wit_in wit_eb (sent wit_a4.2) wit_a_addr wit_b2.1 = wit_b3.
Proof. unfold wit_b3. reflexivity. Qed.

Lemma wit_b3_is_ok : is_ok wit_b3.2 = true.
Proof. reflexivity. Qed.

Lemma wit_b3_ok :
  process_inbound_transport (IN := ref_ipnet) (RS := ref_resolver) (SN := ref_snow) wit_eb (sent wit_a4.2) wit_a_addr 0
    wit_clock wit_b2.1 = (wit_b3.1, Ok wit_out_b3).
Proof.
  rewrite wit_in_eq, wit_b3_eq. unfold wit_out_b3. apply is_ok_default, wit_b3_is_ok.
Qed.

Lemma wit_b3_action : WriteIpPacket "a" wit_a_addr wit_packet ∈ actions wit_out_b3.
Proof. assert (actions wit_out_b3 = [WriteIpPacket "a" wit_a_addr wit_packet]) as -> by reflexivity. left. Qed.

Lemma wit_a4_bytes : bytes_ok (sent wit_a4.2).
Proof. bytes_tac. Qed.

Lemma delivered_data_authenticated_witness :
  exists sid n ct k, decode_packet (sent wit_a4.2) = Some (Transport sid n ct) /\
    authenticated (SN := ref_snow) (manager wit_b2.1) sid n ct 0 k "a" MsgType.Data wit_packet.
Proof.
  exact (proj1 (proj2 (delivered_data_authenticated (RS := ref_resolver) (SN := ref_snow) wit_eb (sent wit_a4.2) wit_a_addr 0
    wit_clock wit_b2.1 wit_b3.1 wit_out_b3 "a" wit_a_addr wit_packet wit_b2_wf wit_a4_bytes
    wit_b3_ok wit_b3_action))).
Defined.

Lemma endpoint_learned_authenticated_witness :
  (peer_stats wit_b3.1 !! "a"%string ≫= current_endpoint) = Some wit_a_addr.
Proof.
  rewrite <- wit_b3_eq, <- wit_in_eq.
  pose proof (endpoint_learned_authenticated (RS := ref_resolver) (SL := ref_snow_laws) wit_eb (sent wit_a4.2)
    wit_a_addr 0 wit_clock wit_b2.1 "a" wit_b2_wf wit_a4_bytes) as H.
  cbv zeta in H. apply H. clear H.
  intros H. apply (f_equal (fun o => rx_bytes <$> o)) in H. vm_compute in H. discriminate.
Defined.

Definition wit_route : Route (IN := ref_ipnet) :=
  default (@Build_Route ref_ipnet (0, 0) (@Build_Peer ref_ipnet "" wit_a_addr wit_endpoint [] [] [] 0 0 0))
    (lookup (router wit_ea) 172838914).
Definition wit_ip : Packet.Ipv4Packet := {| Packet.pkt_bytes := wit_packet |}.
Definition wit_out_a4 : EngineOutput := match wit_a4.2 with Ok o => o | _ => no_output end.

Lemma wit_out_eq st :
  process_outbound_ip (IN := ref_ipnet) (RS := ref_resolver) (SN := ref_snow) wit_ea wit_packet 0 st
    = wit_out wit_ea wit_packet st.
Proof. reflexivity. Qed.

Lemma wit_a4_ok :
  process_outbound_ip (IN := ref_ipnet) (RS := ref_resolver) (SN := ref_snow) wit_ea wit_packet 0 wit_a3.1
    = (wit_a4.1, Ok wit_out_a4).
Proof.
  rewrite wit_out_eq. assert (wit_out wit_ea wit_packet wit_a3.1 = wit_a4) as -> by (unfold wit_a4; reflexivity).
  unfold wit_out_a4. apply is_ok_default. reflexivity.
Qed.

Lemma wit_packet_parse : Packet.parse wit_packet = Ok wit_ip.
Proof. vm_compute. reflexivity. Qed.
Lemma wit_packet_route : lookup (router wit_ea) 172838914 = Some wit_route.
Proof. vm_compute. reflexivity. Qed.
Lemma wit_packet_bytes : bytes_ok wit_packet.
Proof. bytes_tac. Qed.

Lemma outbound_routing_witness :
  length (actions wit_out_a4) = 1%nat /\ name (route_peer wit_route) = "b"%string /\
  forall a, a ∈ actions wit_out_a4 -> exists ep frame, a = SendTransport (name (route_peer wit_route)) ep frame.
Proof.
  split; [reflexivity|]. split; [vm_compute; reflexivity|].
  pose proof (outbound_routing (SN := ref_snow) (RS := ref_resolver) wit_ea wit_packet 0 wit_a3.1 wit_packet_bytes) as H.
  rewrite wit_packet_parse in H. destruct H as (d & Hd & H).
  assert (d = 172838914) as -> by (vm_compute in Hd; congruence).
  rewrite wit_packet_route in H. destruct (H _ _ wit_a4_ok) as (_ & _ & Ha).
  intros a Hin. destruct (Ha a Hin) as (ep & frame & _ & _ & -> & _). by exists ep, frame.
Defined.
