(* ===== verification/Scheduler.v ===== *)
(** * Maintenance scheduler ([src/src/scheduler.rs])

    One tick of the shared timing policy: handshake retries, at most one
    recovery, keepalives.  [clock i] is the [Instant::now()] that
    [has_active_session] reads for the [i]-th peer; [rebind_udp] is the
    adapter's callback. *)

From S2P Require Import Prelude Net PeerState Auth Replay Noise Sessions SessionInv.
From S2P Require Import Std Config Router Engine.

Section Scheduler.
Context {IN : IpNet} {B64 : Base64} {RS : Resolver} {SN : Snow}.

Inductive ScheduledOperation := HandshakeRetry | SessionRecovery | KeepaliveOp.

Definition label (o : ScheduledOperation) : string :=
  match o with
  | HandshakeRetry => "handshake retry" | SessionRecovery => "session recovery" | KeepaliveOp => "keepalive"
  end.

Record ScheduledOutput := { so_operation : ScheduledOperation; so_output : EngineOutput }.

Inductive SchedulerEvent :=
| Recovery (peer_name : string) (silence : Duration) (rebind_udp rebind_succeeded had_stale_state : bool).

Record SchedulerError := { se_peer_name : string; se_operation : ScheduledOperation; se_error : EngineError }.

Record SchedulerTick := {
  t_outputs : list ScheduledOutput; t_events : list SchedulerEvent; t_errors : list SchedulerError }.
Definition tick_default : SchedulerTick := {| t_outputs := []; t_events := []; t_errors := [] |}.

Record RecoveryPolicy := { timeout : Duration; rebind_udp : bool }.

Record ScheduledPeer := {
  sp_name : string; sp_persistent_keepalive : Duration; sp_recovery : option RecoveryPolicy }.

Record EngineScheduler := {
  sched_peers : list ScheduledPeer;
  last_sent : gmap string Instant;
  last_udp_rebind_attempt : option Instant;
  last_session_recovery_attempt : gmap string Instant }.

Definition recovery_policy (transport : TransportConfig) (udp_rebind_after : u16) (session_timeout : u64)
    : option RecoveryPolicy :=
  if bool_decide (transport = Udp) && (0 <? udp_rebind_after)
  then Some {| timeout := from_secs udp_rebind_after; rebind_udp := true |}
  else if 0 <? session_timeout
  then Some {| timeout := from_secs session_timeout; rebind_udp := false |} else None.

Definition recovery_due (now last_seen : Instant) (last_recovery_attempt : option Instant)
    (timeout : Duration) : bool :=
  let health_baseline := default last_seen ((fun attempt => Z.max attempt last_seen) <$> last_recovery_attempt) in
  saturating_duration_since now health_baseline >=? timeout.

Definition keepalive_should_send (now : Instant) (last_sent : option Instant) (interval : Duration)
    (recovery_enabled rebound : bool) : bool :=
  if rebound then true else
  if interval =? 0 then false else
  default recovery_enabled ((fun sent => saturating_duration_since now sent >=? interval) <$> last_sent).

Definition scheduled_peer (transport : TransportConfig) (p : PeerConfig) : ScheduledPeer :=
  {| sp_name := pc_name p;
     sp_persistent_keepalive := from_secs (pc_persistent_keepalive p);
     sp_recovery := recovery_policy transport (pc_udp_rebind_after p) (effective_session_timeout p transport) |}.

Definition EngineScheduler_new (config : Config) : EngineScheduler :=
  {| sched_peers := scheduled_peer (if_transport (interface config)) <$> peer config;
     last_sent := ∅; last_udp_rebind_attempt := None; last_session_recovery_attempt := ∅ |}.

Definition set_last_sent (f : gmap string Instant -> gmap string Instant) (s : EngineScheduler) :=
  {| sched_peers := sched_peers s; last_sent := f (last_sent s);
     last_udp_rebind_attempt := last_udp_rebind_attempt s;
     last_session_recovery_attempt := last_session_recovery_attempt s |}.
Definition set_udp_attempt (now : Instant) (s : EngineScheduler) :=
  {| sched_peers := sched_peers s; last_sent := last_sent s; last_udp_rebind_attempt := Some now;
     last_session_recovery_attempt := last_session_recovery_attempt s |}.
Definition set_session_attempt (p : string) (now : Instant) (s : EngineScheduler) :=
  {| sched_peers := sched_peers s; last_sent := last_sent s;
     last_udp_rebind_attempt := last_udp_rebind_attempt s;
     last_session_recovery_attempt := <[p := now]> (last_session_recovery_attempt s) |}.

(** [push_engine_output] of the result of an engine call. *)
Definition push_engine_output (t : SchedulerTick) (peer_name : string) (operation : ScheduledOperation)
    (result : outcome EngineError EngineOutput) : outcome EngineError SchedulerTick :=
  match result with
  | Ok output => Ok {| t_outputs := t_outputs t ++ [{| so_operation := operation; so_output := output |}];
                       t_events := t_events t; t_errors := t_errors t |}
  | Err error => Ok {| t_outputs := t_outputs t; t_events := t_events t;
                       t_errors := t_errors t ++ [{| se_peer_name := peer_name; se_operation := operation;
                                                     se_error := error |}] |}
  | Panic => Panic
  end.

Definition push_event (ev : SchedulerEvent) (t : SchedulerTick) : SchedulerTick :=
  {| t_outputs := t_outputs t; t_events := t_events t ++ [ev]; t_errors := t_errors t |}.

Definition engine_push (t : SchedulerTick) (p : string) (op : ScheduledOperation)
    (m : M EngineState EngineError EngineOutput) : M EngineState EngineError SchedulerTick := fun st =>
  let '(st, r) := m st in (st, push_engine_output t p op r).

(** The first loop: retry the pending handshakes. *)
Fixpoint retry_loop (e : Engine) (now : Instant) (peers : list ScheduledPeer) (t : SchedulerTick)
    : M EngineState EngineError SchedulerTick :=
  match peers with
  | [] => mret t
  | p :: peers =>
      st ← mget;
      if negb (has_pending_handshake (sp_name p) st) then retry_loop e now peers t else
      t ← engine_push t (sp_name p) HandshakeRetry (initiate_handshake e (sp_name p) now);
      retry_loop e now peers t
  end.

(** The second loop: the first peer whose recovery is due, if any.  The state
    is the scheduler's and the engine's; the result is the tick and whether
    the socket was rebound. *)
Fixpoint recovery_loop (e : Engine) (now : Instant) (rebind : string -> Duration -> bool)
    (clock : nat -> Instant) (snap : gmap string PeerStats) (i : nat) (peers : list ScheduledPeer)
    (t : SchedulerTick) (s : EngineScheduler)
    : M EngineState EngineError (EngineScheduler * SchedulerTick * bool) := fun st =>
  match peers with
  | [] => (st, Ok (s, t, false))
  | p :: peers =>
      let continue := recovery_loop e now rebind clock snap (S i) peers t s st in
      match sp_recovery p with
      | None => continue
      | Some policy =>
          if bool_decide (last_sent s !! sp_name p = None)
             || negb (engine_has_active_session (sp_name p) (clock i) st) then continue else
          match snap !! sp_name p ≫= last_seen with
          | None => continue
          | Some seen =>
              let last_attempt := if rebind_udp policy then last_udp_rebind_attempt s
                                  else last_session_recovery_attempt s !! sp_name p in
              if negb (recovery_due now seen last_attempt (timeout policy)) then continue else
              let silence := saturating_duration_since now seen in
              let '(s, succeeded) :=
                if rebind_udp policy then (set_udp_attempt now s, rebind (sp_name p) silence)
                else (set_session_attempt (sp_name p) now s, false) in
              (had_stale_state ← engine_invalidate_peer (sp_name p);
               t ← engine_push t (sp_name p) SessionRecovery (initiate_handshake e (sp_name p) now);
               mret (s, push_event (Recovery (sp_name p) silence (rebind_udp policy) succeeded had_stale_state) t,
                     succeeded)) st
          end
      end
  end.

(** The third loop: keepalives. *)
Fixpoint keepalive_loop (e : Engine) (now : Instant) (clock : nat -> Instant) (rebound : bool) (i : nat)
    (peers : list ScheduledPeer) (t : SchedulerTick) (s : EngineScheduler)
    : M EngineState EngineError (EngineScheduler * SchedulerTick) := fun st =>
  match peers with
  | [] => (st, Ok (s, t))
  | p :: peers =>
      let recovery_enabled := match sp_recovery p with Some _ => true | None => false end in
      let should_send := keepalive_should_send now (last_sent s !! sp_name p) (sp_persistent_keepalive p)
                           recovery_enabled rebound in
      if negb should_send then
        let s := if negb (sp_persistent_keepalive p =? 0)
                 then set_last_sent (fun m => match m !! sp_name p with Some _ => m | None => <[sp_name p := now]> m end) s
                 else s in
        keepalive_loop e now clock rebound (S i) peers t s st
      else
        let had_active_session := engine_has_active_session (sp_name p) (clock i) st in
        let payload := if recovery_enabled then KEEPALIVE_PROBE_PAYLOAD else [] in
        (t ← engine_push t (sp_name p) KeepaliveOp (create_keepalive e (sp_name p) payload now);
         let s := if had_active_session || negb recovery_enabled
                  then set_last_sent <[sp_name p := now]> s else s in
         keepalive_loop e now clock rebound (S i) peers t s) st
  end.

Definition tick (e : Engine) (now : Instant) (rebind : string -> Duration -> bool)
    (clock2 clock3 : nat -> Instant) (s : EngineScheduler)
    : M EngineState EngineError (EngineScheduler * SchedulerTick) :=
  t ← retry_loop e now (sched_peers s) tick_default;
  st ← mget;
  let snap := peer_stats_of st in
  '(s, t, rebound) ← recovery_loop e now rebind clock2 snap 0 (sched_peers s) t s;
  keepalive_loop e now clock3 rebound 0 (sched_peers s) t s.
End Scheduler.

(** ** Lemmas *)

Section Lemmas.
Context {IN : IpNet} {B64 : Base64} {RS : Resolver} {SN : Snow} {SL : SnowLaws SN}.

(** A tick never fails: errors of the engine are collected. *)
Definition total {A} (m : M EngineState EngineError A) (Q : A -> Prop) : Prop :=
  forall st, sm_wf (manager st) -> exists st' a, m st = (st', Ok a) /\ sm_wf (manager st') /\ Q a.

Lemma total_ret {A} (a : A) (Q : A -> Prop) : Q a -> total (mret a) Q.
Proof. intros HQ st Hst. by exists st, a. Qed.

Lemma total_bind {A B} (m : M EngineState EngineError A) (f : A -> M EngineState EngineError B) Q R :
  total m Q -> (forall a, Q a -> total (f a) R) -> total (m ≫= f) R.
Proof.
  intros Hm Hf st Hst. destruct (Hm st Hst) as (st1 & a & E & H1 & HQ). unfold mbind, M_bind. rewrite E.
  by apply Hf.
Qed.

Lemma engine_push_total t p op m :
  safe m any -> total (engine_push t p op m) (fun t' => t_events t' = t_events t).
Proof.
  intros Hm st Hst. destruct (Hm st Hst) as (H1 & H2 & _). unfold engine_push.
  destruct (m st) as [st1 [out|err|]]; cbn in *; [by eexists _, _..|done].
Qed.

Lemma retry_loop_total e now peers t :
  total (retry_loop e now peers t) (fun t' => t_events t' = t_events t).
Proof.
  revert t. induction peers as [|p peers IH]; intros t; cbn [retry_loop]; [by apply total_ret|].
  intros st Hst. unfold mget, mbind at 1, M_bind at 1. destruct (negb _); [by apply IH|].
  revert st Hst. change (total (t0 ← engine_push t (sp_name p) HandshakeRetry (initiate_handshake e (sp_name p) now);
    retry_loop e now peers t0) (fun t' => t_events t' = t_events t)).
  eapply total_bind; [apply engine_push_total, initiate_handshake_safe|]. intros t1 E1. cbn in E1.
  intros st Hst. destruct (IH t1 st Hst) as (st' & t2 & ? & ? & ?). exists st', t2. split_and!; congruence || done.
Qed.

Lemma invalidate_total p : total (engine_invalidate_peer p) any.
Proof.
  intros st Hst. destruct (invalidate_safe p st Hst) as (H1 & _). unfold engine_invalidate_peer.
  rewrite call_ok_eq in *. by eexists _, _.
Qed.

(** What one recovery does and when it may happen. *)
Definition recovery_ok (now : Instant) (snap : gmap string PeerStats) (peers : list ScheduledPeer)
    (s s' : EngineScheduler) (ev : SchedulerEvent) : Prop :=
  exists sp pol seen a stale, sp ∈ peers /\ sp_recovery sp = Some pol /\
    (snap !! sp_name sp ≫= last_seen) = Some seen /\ is_Some (last_sent s !! sp_name sp) /\
    ev = Recovery (sp_name sp) (saturating_duration_since now seen) (rebind_udp pol) a stale /\
    recovery_due now seen (if rebind_udp pol then last_udp_rebind_attempt s
                           else last_session_recovery_attempt s !! sp_name sp) (timeout pol) = true /\
    s' = (if rebind_udp pol then set_udp_attempt now s else set_session_attempt (sp_name sp) now s).

Lemma recovery_loop_total e now rebind clock snap i peers t s :
  total (recovery_loop e now rebind clock snap i peers t s)
    (fun '(s', t', rebound) => (s' = s /\ t' = t /\ rebound = false) \/
       exists ev, t_events t' = t_events t ++ [ev] /\ recovery_ok now snap peers s s' ev).
Proof.
  revert i. induction peers as [|p peers IH]; intros i; cbn [recovery_loop]; [by apply total_ret; left|].
  intros st Hst. cbv zeta.
  assert (Hcont : exists st' a, recovery_loop e now rebind clock snap (S i) peers t s st = (st', Ok a) /\
    sm_wf (manager st') /\ let '(s', t', rebound) := a in (s' = s /\ t' = t /\ rebound = false) \/
       exists ev, t_events t' = t_events t ++ [ev] /\ recovery_ok now snap (p :: peers) s s' ev).
  { destruct (IH (S i) st Hst) as (st' & [[s' t'] rb] & E & Hw & HQ). exists st', (s', t', rb).
    split_and!; try done. destruct HQ as [HQ|(ev & Hev & sp & pol & seen & a & stale & Hin & H)]; [by left|right].
    exists ev. split; [done|]. exists sp, pol, seen, a, stale. split; [by right|done]. }
  destruct (sp_recovery p) as [pol|] eqn:Er; [|exact Hcont].
  destruct (bool_decide _ || _)%bool eqn:Eb; [exact Hcont|].
  destruct (snap !! sp_name p ≫= last_seen) as [seen|] eqn:Es; [|exact Hcont].
  destruct (recovery_due _ _ _ _) eqn:Ed; cbn [negb]; [|exact Hcont]. clear Hcont.
  apply orb_false_elim in Eb as [Eb _]. apply bool_decide_eq_false in Eb.
  set (x := if rebind_udp pol then _ else _). destruct x as [s' ok] eqn:Ex. revert st Hst.
  eapply (total_bind _ _ any); [apply invalidate_total|].
  intros stale _. eapply total_bind; [apply engine_push_total, initiate_handshake_safe|].
  intros t1 E1. cbn in E1. apply total_ret. right. eexists. split; [cbn; by rewrite E1|].
  exists p, pol, seen, ok, stale. split; [by left|]. split_and!; try done.
  - by apply not_eq_None_Some.
  - unfold x in Ex. by destruct (rebind_udp pol); injection Ex as <- _.
Qed.

Lemma keepalive_loop_total e now clock rebound i peers t s :
  total (keepalive_loop e now clock rebound i peers t s)
    (fun '(s', t') => t_events t' = t_events t /\
       last_udp_rebind_attempt s' = last_udp_rebind_attempt s /\
       last_session_recovery_attempt s' = last_session_recovery_attempt s).
Proof.
  revert i t s. induction peers as [|p peers IH]; intros i t s; cbn [keepalive_loop]; [by apply total_ret|].
  intros st Hst. cbv zeta. destruct (keepalive_should_send _ _ _ _ _); cbn [negb].
  - set (act := engine_has_active_session (sp_name p) (clock i) st). clearbody act. revert st Hst.
    eapply total_bind; [apply engine_push_total, create_keepalive_safe|]. intros t1 E1. cbn in E1.
    intros st Hst. match goal with |- context [keepalive_loop _ _ _ _ _ _ _ ?x] => set (s1 := x) end.
    destruct (IH (S i) t1 s1 st Hst) as (st' & [s' t'] & E & Hw & H1 & H2 & H3).
    exists st', (s', t'). split_and!; try done; [congruence|..];
      [rewrite H2|rewrite H3]; unfold s1; by case_match.
  - match goal with |- context [keepalive_loop _ _ _ _ _ _ _ ?x] => set (s1 := x) end.
    destruct (IH (S i) t s1 st Hst) as (st' & [s' t'] & E & Hw & H1 & H2 & H3).
    exists st', (s', t'). split_and!; try done;
      [rewrite H2|rewrite H3]; unfold s1; by destruct (negb _).
Qed.

Lemma tick_total e now rebind c2 c3 s : total (tick e now rebind c2 c3 s) any.
Proof.
  unfold tick. eapply total_bind; [apply retry_loop_total|]. intros t _.
  eapply (total_bind _ _ any); [by intros st Hst; exists st, st|]. intros st0 _. cbv zeta.
  eapply total_bind; [apply recovery_loop_total|]. intros [[s' t'] rb] _ st Hst.
  destruct (keepalive_loop_total e now c3 rb 0 (sched_peers s') t' s' st Hst) as (st' & a & E & Hw & _).
  by exists st', a.
Qed.
End Lemmas.

(** ** Properties *)

Section Properties.
Context {IN : IpNet} {B64 : Base64} {RS : Resolver} {SN : Snow} {SL : SnowLaws SN}.

Lemma recovery_due_spec now seen last d :
  recovery_due now seen last d = true ->
  d <= saturating_duration_since now seen /\ forall a, last = Some a -> d <= saturating_duration_since now a.
Proof.
  unfold recovery_due, saturating_duration_since. rewrite Z.geb_le.
  destruct last as [a|]; cbn; intros H; (split; [lia|]); intros b Hb; simplify_eq; lia.
Qed.

Lemma initiate_handshake_stats e p now st : peer_stats (initiate_handshake e p now st).1 = peer_stats st.
Proof.
  unfold initiate_handshake, mlift, mbind, M_bind. destruct (find_peer e p) as [q|]; [|done]. cbn [ok_or].
  pose proof (proj1 (initiate_peer_effects e q now st)) as [H _].
  by destruct (initiate_peer e q now st) as [st1 [a| |]].
Qed.

Lemma retry_loop_stats e now peers t st : peer_stats (retry_loop e now peers t st).1 = peer_stats st.
Proof.
  revert t st. induction peers as [|p peers IH]; intros t st; [done|]. cbn [retry_loop].
  unfold mget, mbind, M_bind. destruct (negb _); [apply IH|]. unfold engine_push.
  pose proof (initiate_handshake_stats e (sp_name p) now st) as H.
  destruct (initiate_handshake e (sp_name p) now st) as [st1 [o|o|]]; cbn [push_engine_output fst] in *;
    [by rewrite IH, H..|exact H].
Qed.

Lemma tick_spec e now rebind c2 c3 s st :
  sm_wf (manager st) ->
  exists st' s' t', tick e now rebind c2 c3 s st = (st', Ok (s', t')) /\ sm_wf (manager st') /\
    (t_events t' = [] \/
     exists sp pol seen ok stale,
       t_events t' = [Recovery (sp_name sp) (saturating_duration_since now seen) (rebind_udp pol) ok stale] /\
       sp ∈ sched_peers s /\ sp_recovery sp = Some pol /\
       (peer_stats st !! sp_name sp ≫= last_seen) = Some seen /\
       timeout pol <= saturating_duration_since now seen /\
       (forall a, (if rebind_udp pol then last_udp_rebind_attempt s
                   else last_session_recovery_attempt s !! sp_name sp) = Some a ->
                  timeout pol <= saturating_duration_since now a) /\
       (if rebind_udp pol then last_udp_rebind_attempt s'
        else last_session_recovery_attempt s' !! sp_name sp) = Some now).
Proof.
  intros Hst. unfold tick.
  destruct (retry_loop_total e now (sched_peers s) tick_default st Hst) as (st1 & t1 & E1 & Hw1 & Hev1).
  pose proof (retry_loop_stats e now (sched_peers s) tick_default st) as Hstats. rewrite E1 in Hstats.
  unfold mbind at 1, M_bind at 1. rewrite E1. unfold mget, mbind at 1, M_bind at 1. cbv zeta.
  destruct (recovery_loop_total e now rebind c2 (peer_stats_of st1) 0 (sched_peers s) t1 s st1 Hw1)
    as (st2 & [[s2 t2] rb] & E2 & Hw2 & Hrec).
  unfold mbind, M_bind. rewrite E2.
  destruct (keepalive_loop_total e now c3 rb 0 (sched_peers s2) t2 s2 st2 Hw2)
    as (st3 & [s3 t3] & E3 & Hw3 & Hev3 & Hu & Hs).
  assert (Hp : sched_peers s2 = sched_peers s).
  { destruct Hrec as [(-> & _)|(ev & _ & sp & pol & _ & _ & _ & _ & _ & _ & _ & _ & _ & ->)]; [done|].
    by destruct (rebind_udp pol). }
  rewrite Hp in E3. exists st3, s3, t3. split; [cbn [mbind]; cbv beta iota; rewrite Hp; exact E3|]. split; [done|]. cbn in Hstats.
  destruct Hrec as [(-> & -> & _)|(ev & Hev & sp & pol & seen & ok & stale & Hin & Hr & Hseen & _ & -> & Hdue & ->)].
  - left. by rewrite Hev3, Hev1.
  - right. exists sp, pol, seen, ok, stale. rewrite Hev3, Hev, Hev1.
    apply recovery_due_spec in Hdue as [Hd1 Hd2]. unfold peer_stats_of, snapshot in Hseen. rewrite Hstats in Hseen.
    split_and!; try done. rewrite Hu, Hs. destruct (rebind_udp pol); cbn; [done|apply lookup_insert_eq].
Qed.

(** C20: a tick always completes, whatever the engine reports, keeps the
    session invariant, and starts at most one recovery: only for a peer of
    the configuration with a recovery policy that was heard before, has been
    silent for the whole timeout, and whose last recovery attempt (of any
    peer, for a socket rebind) is as long ago; the attempt is recorded. *)
Theorem tick_recovery e now rebind c2 c3 s st :
  sm_wf (manager st) ->
  exists st' s' t', tick e now rebind c2 c3 s st = (st', Ok (s', t')) /\ sm_wf (manager st') /\
    (t_events t' = [] \/
     exists sp pol seen ok stale,
       t_events t' = [Recovery (sp_name sp) (saturating_duration_since now seen) (rebind_udp pol) ok stale] /\
       sp ∈ sched_peers s /\ sp_recovery sp = Some pol /\
       (peer_stats st !! sp_name sp ≫= last_seen) = Some seen /\
       timeout pol <= saturating_duration_since now seen /\
       (forall a, (if rebind_udp pol then last_udp_rebind_attempt s
                   else last_session_recovery_attempt s !! sp_name sp) = Some a ->
                  timeout pol <= saturating_duration_since now a) /\
       (if rebind_udp pol then last_udp_rebind_attempt s'
        else last_session_recovery_attempt s' !! sp_name sp) = Some now).
Proof. apply tick_spec. Qed.

Lemma filter_ext_in {A : Type} (f g : A -> bool) (l : list A) :
  (forall x, x ∈ l -> f x = g x) -> filter (fun x => f x = true) l = filter (fun x => g x = true) l.
Proof.
  induction l as [|x l IH]; intros H; [done|]. rewrite !filter_cons, IH by (intros; apply H; by right).
  rewrite (H x) by (by left). done.
Qed.

(** When a keepalive is due. *)
Definition keepalive_due (now : Instant) (s : EngineScheduler) (rebound : bool) (p : ScheduledPeer) : bool :=
  keepalive_should_send now (last_sent s !! sp_name p) (sp_persistent_keepalive p)
    (match sp_recovery p with Some _ => true | None => false end) rebound.

Lemma keepalive_due_iff now s rebound p :
  keepalive_due now s rebound p = true <->
  rebound = true \/ (sp_persistent_keepalive p <> 0 /\
    match last_sent s !! sp_name p with
    | Some sent => sp_persistent_keepalive p <= saturating_duration_since now sent
    | None => is_Some (sp_recovery p)
    end).
Proof.
  unfold keepalive_due, keepalive_should_send. destruct rebound; [naive_solver|].
  destruct (Z.eqb_spec (sp_persistent_keepalive p) 0); [naive_solver|].
  destruct (last_sent s !! sp_name p); cbn.
  - rewrite Z.geb_le. naive_solver.
  - destruct (sp_recovery p); cbn; [|naive_solver]. split; [|done]. intros _. right. split; [done|by eexists].
Qed.

(** *** One keepalive *)

(** The part of a state that decides what is sent to one peer. *)
Definition same_session (n : string) (m m' : SessionState) : Prop :=
  sessions m' !! n = sessions m !! n /\ pending_init m' !! n = pending_init m !! n /\
  responder_candidates m' !! n = responder_candidates m !! n.
Definition same_peer (n : string) (st st' : EngineState) : Prop :=
  same_endpoints st st' /\ same_session n (manager st) (manager st').

Lemma same_session_trans n a b c : same_session n a b -> same_session n b c -> same_session n a c.
Proof. intros (?&?&?) (?&?&?). unfold same_session. split_and!; congruence. Qed.
Lemma same_peer_trans n a b c : same_peer n a b -> same_peer n b c -> same_peer n a c.
Proof.
  intros [[E1 E2] H1] [[E3 E4] H2]. split; [split; congruence|by eapply same_session_trans].
Qed.

(** What is done for one peer leaves the others alone. *)
Lemma encrypt_same n p m payload now st : n <> p -> same_session n st (encrypt_for_peer p m payload now st).1.
Proof.
  intros Hne. rewrite encrypt_for_peer_eq.
  assert (H : same_session n st (encrypt_prune p now st)).
  { unfold encrypt_prune. cbv zeta. case_match; [|done]. split_and!; try done. cbn. by rewrite lookup_delete_ne. }
  destruct (sessions (encrypt_prune p now st) !! p); [|done]. eapply same_session_trans; [exact H|].
  split_and!; try done. cbn. by rewrite lookup_insert_ne.
Qed.

Lemma start_same n p ls rs psk now st rng :
  n <> p -> same_session n st (start_or_retry_handshake p ls rs psk now (st, rng)).1.1.
Proof.
  intros Hne. rewrite start_eq. cbv zeta.
  assert (H1 : same_session n st (start_prune p now st)).
  { unfold start_prune. case_match; [|done]. split_and!; try done. cbn. by rewrite lookup_delete_ne. }
  destruct (pending_init (start_prune p now st) !! p).
  { case_match; [done|]. eapply same_session_trans; [exact H1|]. split_and!; try done. cbn. by rewrite lookup_insert_ne. }
  assert (H2 : same_session n st (start_prune2 p now (start_prune p now st))).
  { eapply same_session_trans; [exact H1|]. unfold start_prune2. case_match; [|done].
    split_and!; try done. cbn. by rewrite lookup_delete_ne. }
  destruct (responder_candidates _ !! p); [done|]. set (st2 := start_prune2 _ _ _) in *.
  assert (H3 : same_session n st (start_prune3 p now st2)).
  { eapply same_session_trans; [exact H2|]. unfold start_prune3. case_match; [|done].
    split_and!; try done. cbn. by rewrite lookup_delete_ne. }
  case_match; [done|]. destruct (initiator_start ls rs psk rng) as [r [h|x|]]; [|done..].
  eapply same_session_trans; [exact H3|]. split_and!; try done. cbn. by rewrite lookup_insert_ne.
Qed.

Lemma initiate_peer_same n e q now st : n <> name q -> same_peer n st (initiate_peer e q now st).1.
Proof.
  intros Hne. split; [apply initiate_peer_effects|]. unfold initiate_peer. destruct (resolve_endpoint q st); [|done].
  pose proof (start_same n (name q) (local_static e) (public_key q) (psk q) now (manager st) (entropy st) Hne) as H.
  by destruct (start_or_retry_handshake _ _ _ _ _ _) as [[m r] x].
Qed.

Lemma send_or_initiate_same n e q m payload now st :
  n <> name q -> same_peer n st (send_or_initiate e q m payload now st).1.
Proof.
  intros Hne. unfold send_or_initiate. pose proof (encrypt_same n (name q) m payload now (manager st) Hne) as He.
  destruct (encrypt_for_peer _ _ _ _ _) as [k x]. cbn [fst] in He.
  assert (H : same_peer n st (set_manager k st)) by done.
  assert (Hi : forall k', same_session n k k' -> same_peer n st (initiate_peer e q now (set_manager k' st)).1).
  { intros k' Hk. eapply same_peer_trans; [|by apply initiate_peer_same]. split; [done|].
    by eapply same_session_trans. }
  destruct x as [[f|]|x|]; [| | |done]; unfold mbind, M_bind.
  - specialize (Hi k ltac:(done)). by destruct (initiate_peer _ _ _ _) as [st1 [a| |]].
  - specialize (Hi k ltac:(done)). by destruct (initiate_peer _ _ _ _) as [st1 [a| |]].
  - rewrite call_ok_eq. cbn [manager set_manager fst].
    specialize (Hi (invalidate_peer (name q) k).1). destruct (initiate_peer _ _ _ _) as [st1 [a| |]]; cbn [fst] in *;
      apply Hi; unfold same_session; cbn; by rewrite !lookup_delete_ne.
Qed.

Lemma create_keepalive_same n e p payload now st :
  n <> p -> same_peer n st (create_keepalive e p payload now st).1.
Proof.
  intros Hne. unfold create_keepalive, mlift, mbind, M_bind. destruct (find_peer e p) as [q|] eqn:Ef; [|done].
  cbn [ok_or]. apply send_or_initiate_same. by rewrite (find_peer_name _ _ _ Ef).
Qed.

Definition probes (p : ScheduledPeer) : bool := match sp_recovery p with Some _ => true | None => false end.
Definition keepalive_payload (p : ScheduledPeer) : bytes := if probes p then KEEPALIVE_PROBE_PAYLOAD else [].

(** The frame that the peer's live session makes of the keepalive. *)
Definition keepalive_frame (now : Instant) (st : EngineState) (p : ScheduledPeer) : option bytes :=
  s ← sessions (manager st) !! sp_name p;
  if is_expired s now then None else to_option (encrypt MsgType.Keepalive (keepalive_payload p) s).2.

(** What the attempt for one peer sends: to the peer's endpoint and nowhere
    else, an initiation if the handshake rules ask for one, and the keepalive
    if there is a live session. *)
Definition keepalive_sends (e : Engine) (now : Instant) (st : EngineState) (p : ScheduledPeer) (q : Peer)
    (out : EngineOutput) : Prop :=
  events out = [] /\ exists init,
    actions out = match resolve_endpoint q st with
                  | None => []
                  | Some ep => SendTransport (sp_name p) ep <$> option_to_list init ++ option_to_list (keepalive_frame now st p)
                  end /\
    (init = None \/ exists x, (start_or_retry_handshake (sp_name p) (local_static e) (public_key q) (psk q) now x).2 = Ok init).

(** The result of the attempt is the engine's for that peer, whatever the
    attempts for the other peers did before. *)
Definition keepalive_result (e : Engine) (now : Instant) (st : EngineState) (p : ScheduledPeer)
    (r : outcome EngineError EngineOutput) : Prop :=
  (exists st0, same_peer (sp_name p) st st0 /\ r = (create_keepalive e (sp_name p) (keepalive_payload p) now st0).2) /\
  match find_peer e (sp_name p), r with
  | None, _ => r = Err (UnknownPeer (sp_name p))
  | Some q, Ok out => keepalive_sends e now st p q out
  | Some _, Err _ => True
  | Some _, Panic => False
  end.

Lemma encrypt_frame_of n m payload now st :
  (encrypt_for_peer n m payload now st).2 =
    match sessions st !! n with
    | Some s => if is_expired s now then Ok None else Some <$> (encrypt m payload s).2
    | None => Ok None
    end.
Proof.
  rewrite encrypt_for_peer_eq. destruct (sessions (encrypt_prune n now st) !! n) as [s|] eqn:E.
  - apply encrypt_prune_live in E as [-> ->]. done.
  - destruct (sessions st !! n) as [s|] eqn:Es; [|done]. destruct (is_expired s now) eqn:Ee; [done|].
    by rewrite (proj2 (encrypt_prune_live n now st s)) in E.
Qed.

(** The initiation that goes along, if any. *)
Lemma initiate_peer_sends e q now st st' a :
  initiate_peer e q now st = (st', Ok a) ->
  exists init, option_to_list a = match resolve_endpoint q st with
                                  | None => [] | Some ep => SendTransport (name q) ep <$> option_to_list init end /\
    (init = None \/ exists x, (start_or_retry_handshake (name q) (local_static e) (public_key q) (psk q) now x).2 = Ok init).
Proof.
  unfold initiate_peer. destruct (resolve_endpoint q st) as [ep|]; [|intros [= _ <-]; exists None; eauto].
  destruct (start_or_retry_handshake _ _ _ _ _ _) as [[m r] [init|x|]] eqn:E; [|done..].
  intros [= _ <-]. exists init. split; [by destruct init|]. right. eexists. by rewrite E.
Qed.

Lemma send_or_initiate_sends e now st0 st p q st' out :
  same_peer (sp_name p) st st0 -> name q = sp_name p ->
  send_or_initiate e q MsgType.Keepalive (keepalive_payload p) now st0 = (st', Ok out) ->
  keepalive_sends e now st p q out.
Proof.
  intros [He (Hs & _)] Hq E.
  assert (Hr : forall k, resolve_endpoint q (set_manager k st0) = resolve_endpoint q st) by (intros k; by apply resolve_same).
  pose proof (encrypt_frame_of (name q) MsgType.Keepalive (keepalive_payload p) now (manager st0)) as Hf.
  rewrite Hq, Hs in Hf. unfold send_or_initiate in E. rewrite Hq in E.
  destruct (encrypt_for_peer _ _ _ _ _) as [k x]. cbn [snd] in Hf.
  assert (Hx : keepalive_frame now st p = match x with Ok o => o | _ => None end).
  { unfold keepalive_frame. rewrite Hf. destruct (sessions (manager st) !! sp_name p) as [s|]; [|done].
    cbn [mbind option_bind]. destruct (is_expired s now); [done|]. by destruct (encrypt _ _ _).2. }
  assert (Hgo : forall k' st1 a, initiate_peer e q now (set_manager k' st0) = (st1, Ok a) -> events out = [] ->
    actions out = option_to_list a ++ match resolve_endpoint q st with
      None => [] | Some ep => SendTransport (sp_name p) ep <$> option_to_list (keepalive_frame now st p) end ->
    keepalive_sends e now st p q out).
  { intros k' st1 a Ea Hev Hact. split; [done|]. destruct (initiate_peer_sends _ _ _ _ _ _ Ea) as (init & Hi & Hor).
    rewrite Hr, Hq in Hi. rewrite Hq in Hor. exists init. split; [|done]. rewrite Hact, Hi.
    destruct (resolve_endpoint q st); [by rewrite fmap_app|done]. }
  rewrite Hx in Hgo. destruct x as [[f|]|x|]; [| | |done].
  - apply bind_ok in E as (st1 & a & Ea & E). injection E as _ <-. eapply Hgo; [exact Ea|done|].
    cbn [actions]. f_equal. rewrite (resolve_same q (set_manager k st0) st1), Hr;
      [by destruct (resolve_endpoint q st)|].
    pose proof (proj1 (initiate_peer_effects e q now (set_manager k st0))) as H. by rewrite Ea in H.
  - apply bind_ok in E as (st1 & a & Ea & E). injection E as _ <-. eapply Hgo; [exact Ea|done|].
    cbn [actions]. by destruct (resolve_endpoint q st); rewrite ?app_nil_r.
  - apply bind_ok in E as (st1 & r & Ec & E). rewrite call_ok_eq in Ec. injection Ec as <- _.
    apply bind_ok in E as (st2 & a & Ea & E). injection E as _ <-. eapply Hgo; [exact Ea|done|].
    cbn [actions]. by destruct (resolve_endpoint q st); rewrite ?app_nil_r.
Qed.

Lemma keepalive_result_of e now st st0 p : sm_wf (manager st0) -> same_peer (sp_name p) st st0 ->
  keepalive_result e now st p (create_keepalive e (sp_name p) (keepalive_payload p) now st0).2.
Proof.
  intros Hw Hsame. split; [by exists st0|].
  pose proof (create_keepalive_safe e (sp_name p) (keepalive_payload p) now st0 Hw) as (_ & Hnp & _).
  unfold create_keepalive, mlift, mbind, M_bind in *. destruct (find_peer e (sp_name p)) as [q|] eqn:Ef; [|done].
  cbn [ok_or] in *. destruct (send_or_initiate _ _ _ _ _ st0) as [st1 [out|x|]] eqn:E; cbn [snd] in *; [|done..].
  eapply send_or_initiate_sends; [done|by eapply find_peer_name|exact E].
Qed.

(** *** All keepalives of a tick *)

Abbreviation attempt := (ScheduledPeer * outcome EngineError EngineOutput)%type (only parsing).

(** The results of the attempts, in their order. *)
Definition with_attempts (t : SchedulerTick) (l : list attempt) : SchedulerTick :=
  {| t_outputs := t_outputs t ++ omap (fun '(_, r) =>
       match r with Ok out => Some {| so_operation := KeepaliveOp; so_output := out |} | _ => None end) l;
     t_events := t_events t;
     t_errors := t_errors t ++ omap (fun '(p, r) =>
       match r with
       | Err x => Some {| se_peer_name := sp_name p; se_operation := KeepaliveOp; se_error := x |}
       | _ => None
       end) l |}.

Lemma with_attempts_nil t : with_attempts t [] = t.
Proof. unfold with_attempts. cbn. rewrite !app_nil_r. by destruct t. Qed.

Lemma with_attempts_cons t t1 p r l :
  push_engine_output t (sp_name p) KeepaliveOp r = Ok t1 -> with_attempts t1 l = with_attempts t ((p, r) :: l).
Proof.
  destruct r as [out|x|]; [..|done]; intros [= <-]; unfold with_attempts; cbn; by rewrite <- app_assoc.
Qed.

(** A timer after the loop; [active] is the session seen at the attempt. *)
Definition timer_after (now : Instant) (due active : bool) (p : ScheduledPeer) (last : option Instant) : option Instant :=
  if due then (if active || negb (probes p) then Some now else last)
  else if sp_persistent_keepalive p =? 0 then last else Some (default now last).

(** One round: the attempt, if any, and the timers. *)
Lemma keepalive_round e now clock rebound i p peers t s st :
  sm_wf (manager st) ->
  exists st1 t1 s1 l, keepalive_loop e now clock rebound i (p :: peers) t s st
      = keepalive_loop e now clock rebound (S i) peers t1 s1 st1 /\
    sm_wf (manager st1) /\ (forall n, n <> sp_name p -> same_peer n st st1 /\ last_sent s1 !! n = last_sent s !! n) /\
    last_sent s1 !! sp_name p = timer_after now (keepalive_due now s rebound p)
      (engine_has_active_session (sp_name p) (clock i) st) p (last_sent s !! sp_name p) /\
    (forall l', with_attempts t1 l' = with_attempts t (l ++ l')) /\
    (l.*1 = if keepalive_due now s rebound p then [p] else []) /\
    Forall (fun '(q, r) => q = p /\ r = (create_keepalive e (sp_name p) (keepalive_payload p) now st).2) l.
Proof.
  intros Hw. cbn [keepalive_loop]. cbv zeta. fold (keepalive_due now s rebound p).
  fold (probes p). fold (keepalive_payload p).
  destruct (keepalive_due now s rebound p); cbn [negb].
  - pose proof (create_keepalive_safe e (sp_name p) (keepalive_payload p) now st Hw) as (Hw1 & Hnp & _).
    pose proof (fun n => create_keepalive_same n e (sp_name p) (keepalive_payload p) now st) as Hsame.
    unfold mbind, M_bind, engine_push.
    destruct (create_keepalive e (sp_name p) (keepalive_payload p) now st) as [st1 r]. cbn [fst snd] in *.
    assert (exists t1, push_engine_output t (sp_name p) KeepaliveOp r = Ok t1) as [t1 Ep]
      by (destruct r; cbn; [by eexists..|by destruct Hnp]).
    rewrite Ep.
    eexists st1, t1, _, [(p, r)]. split; [reflexivity|]. split_and!; [done| | | |done|by apply Forall_singleton].
    + intros n Hne. split; [by apply Hsame|]. case_match; [|done]. cbn. by rewrite lookup_insert_ne.
    + unfold timer_after. destruct (_ || _)%bool; [apply lookup_insert_eq|done].
    + intros l'. by apply with_attempts_cons.
  - eexists st, t, _, []. split; [reflexivity|]. split_and!; [done| | |done|done|by apply Forall_nil].
    + intros n Hne. split; [done|]. destruct (negb _); [|done]. cbn.
      destruct (last_sent s !! sp_name p); [done|by rewrite lookup_insert_ne].
    + unfold timer_after. destruct (sp_persistent_keepalive p =? 0); cbn; [done|].
      destruct (last_sent s !! sp_name p) as [x|] eqn:El; cbn; [by rewrite El|apply lookup_insert_eq].
Qed.

(** The loop, from any state that is still the start state for its peers. *)
Lemma keepalive_loop_spec e now clock rebound st0 i peers t s st :
  NoDup (sp_name <$> peers) -> sm_wf (manager st) -> (forall p, p ∈ peers -> same_peer (sp_name p) st0 st) ->
  exists st' s' t' l, keepalive_loop e now clock rebound i peers t s st = (st', Ok (s', t')) /\ sm_wf (manager st') /\
    t' = with_attempts t l /\ l.*1 = filter (fun p => keepalive_due now s rebound p = true) peers /\
    Forall (fun '(p, r) => keepalive_result e now st0 p r) l /\
    (forall j p, peers !! j = Some p -> last_sent s' !! sp_name p =
       timer_after now (keepalive_due now s rebound p) (engine_has_active_session (sp_name p) (clock (i + j)%nat) st0) p
         (last_sent s !! sp_name p)) /\
    (forall n, n ∉ sp_name <$> peers -> last_sent s' !! n = last_sent s !! n).
Proof.
  revert i t s st. induction peers as [|p peers IH]; intros i t s st Hn Hw Hst.
  { exists st, s, t, []. rewrite with_attempts_nil. by split_and!. }
  rewrite fmap_cons in Hn. apply NoDup_cons in Hn as [Hp Hn].
  destruct (keepalive_round e now clock rebound i p peers t s st Hw) as (st1 & t1 & s1 & l1 & -> & Hw1 & Hoth & Ht & Hl & Hl1 & Hr).
  assert (Hne : forall q, q ∈ peers -> sp_name q <> sp_name p).
  { intros q Hq Eq. apply Hp. rewrite <- Eq. by apply list_elem_of_fmap_2. }
  destruct (IH (S i) t1 s1 st1 Hn Hw1) as (st' & s' & t' & l & E & Hw' & -> & Hdue & Hres & Htim & Hout).
  { intros q Hq. eapply same_peer_trans; [apply Hst; by right|by apply Hoth, Hne]. }
  assert (Hsame : forall q, q ∈ peers -> keepalive_due now s1 rebound q = keepalive_due now s rebound q).
  { intros q Hq. unfold keepalive_due. by rewrite (proj2 (Hoth _ (Hne q Hq))). }
  exists st', s', (with_attempts t1 l), (l1 ++ l). split; [done|]. split; [done|]. split; [apply Hl|]. split_and!.
  - rewrite fmap_app, Hl1, Hdue, filter_cons, (filter_ext_in _ _ _ Hsame).
    by destruct (keepalive_due now s rebound p); case_decide.
  - apply Forall_app. split; [|done]. eapply Forall_impl; [exact Hr|]. intros [q r] [-> ->].
    apply keepalive_result_of; [done|]. apply Hst. by left.
  - intros [|j] q Hq; cbn in Hq.
    + injection Hq as <-. rewrite Hout, Ht, Nat.add_0_r by done. f_equal. unfold engine_has_active_session, has_active_session, get_is.
      by rewrite (proj1 (proj2 (Hst p (list_elem_of_here _ _)))).
    + pose proof (list_elem_of_lookup_2 _ _ _ Hq) as Hin. rewrite (Htim j q Hq), (Hsame q Hin), (proj2 (Hoth _ (Hne q Hin))).
      by rewrite Nat.add_succ_comm.
  - intros n [Hn1 Hn2]%not_elem_of_cons. rewrite Hout by done. by apply Hoth.
Qed.

(** C27: keepalives are paced: the loop completes and makes exactly one
    attempt for every peer that is due - its interval is enabled and has
    passed since the last packet counted, or the socket was rebound - in the
    order of the peers, and for no other.  Each attempt is for its own peer:
    its frames go to that peer's endpoint and to no other, and are the
    keepalive (a probe exactly if recovery is enabled) encrypted by the
    peer's live session, if there is one, and possibly an initiation; the
    attempts do not influence each other, and an unknown peer is an error
    under its name.  An attempt restarts the interval exactly if the peer had
    an active session or has no recovery policy; otherwise the timer stays, so
    that the peer is tried again on the next tick. *)
Theorem keepalive_pacing e now clock rebound i peers t s st :
  NoDup (sp_name <$> peers) -> sm_wf (manager st) ->
  exists st' s' t' l, keepalive_loop e now clock rebound i peers t s st = (st', Ok (s', t')) /\
    t' = with_attempts t l /\ l.*1 = filter (fun p => keepalive_due now s rebound p = true) peers /\
    Forall (fun '(p, r) => keepalive_result e now st p r) l /\
    (forall j p, peers !! j = Some p -> last_sent s' !! sp_name p =
       timer_after now (keepalive_due now s rebound p) (engine_has_active_session (sp_name p) (clock (i + j)%nat) st) p
         (last_sent s !! sp_name p)) /\
    (forall n, n ∉ sp_name <$> peers -> last_sent s' !! n = last_sent s !! n).
Proof.
  intros Hn Hw. destruct (keepalive_loop_spec e now clock rebound st i peers t s st Hn Hw) as
    (st' & s' & t' & l & E & _ & H); [done|]. by exists st', s', t', l.
Qed.

(** In a validated configuration a recovery never outruns the keepalives
    it relies on: a peer with a recovery policy has keepalives enabled and
    its timeout is longer than their interval; sockets are rebound on UDP
    only. *)
Theorem recovery_outlasts_keepalive c :
  config_ok c -> Forall (fun p => 0 <= pc_persistent_keepalive p) (peer c) ->
  forall sp pol, sp ∈ sched_peers (EngineScheduler_new c) -> sp_recovery sp = Some pol ->
    0 < sp_persistent_keepalive sp < timeout pol /\
    (rebind_udp pol = true -> if_transport (interface c) = Udp).
Proof.
  intros [_ _ _ _ Hps _ _ _] Hnn sp pol (p & -> & Hp)%list_elem_of_fmap Hr.
  rewrite Forall_forall in Hps, Hnn. specialize (Hps p Hp). specialize (Hnn p Hp). cbn in Hnn.
  unfold scheduled_peer in *. cbn in Hr |- *.
  unfold recovery_policy in Hr. destruct (bool_decide _ && _)%bool eqn:E.
  - apply andb_prop in E as [Et E]. apply bool_decide_eq_true in Et. zbool. injection Hr as <-. cbn.
    destruct (p_rebind _ _ Hps E) as (_ & ? & ?). unfold from_secs. split; [lia|done].
  - destruct (0 <? effective_session_timeout p (if_transport (interface c))) eqn:Es; [|done]. zbool.
    injection Hr as <-. cbn. split; [|done]. unfold effective_session_timeout in *.
    destruct (pc_session_timeout p) as [x|] eqn:Ex.
    + destruct (p_timeout _ _ Hps x Ex Es). unfold from_secs. lia.
    + destruct (bool_decide (if_transport (interface c) = Tcp) && (0 <? pc_persistent_keepalive p))%bool eqn:Eb; [|lia].
      apply andb_prop in Eb as [_ Eb]. zbool. unfold from_secs. lia.
Qed.
End Properties.

(** ** Witnesses *)

Definition wit_scheduler : EngineScheduler :=
  set_last_sent (fun _ => {["b"%string := from_secs 1]}) (EngineScheduler_new (wit_pair "b" (SA4 0 1) 172838914 "a" "b")).
Definition wit_tick (now : Instant) (s : EngineScheduler) (st : EngineState (SN := ref_snow)) :=
  tick (IN := ref_ipnet) (RS := ref_resolver) (SN := ref_snow) wit_ea now (fun _ _ => true) wit_clock wit_clock s st.

(** Engine "a" has a session with "b" and hears nothing for 20 seconds. *)
Example tick_recovers :
  (fun '(_, t) => (t_events t, so_operation <$> t_outputs t, length (t_errors t))) <$>
    to_option (wit_tick (from_secs 20) wit_scheduler wit_a3.1).2
  = Some ([Recovery "b" (from_secs 20) true true true], [SessionRecovery; KeepaliveOp], 0%nat) /\
  (fun '(_, t) => (t_events t, so_operation <$> t_outputs t, length (t_errors t))) <$>
    to_option (wit_tick (from_secs 19) wit_scheduler wit_a3.1).2
  = Some ([], [KeepaliveOp], 0%nat).
Proof. split; reflexivity. Qed.

Lemma wit_a3_wf : sm_wf (manager wit_a3.1).
Proof.
  apply (process_inbound_transport_safe (RS := ref_resolver) (SL := ref_snow_laws)); [bytes_tac|].
  apply (process_inbound_transport_safe (RS := ref_resolver) (SL := ref_snow_laws)); [bytes_tac|].
  apply (process_outbound_ip_safe (RS := ref_resolver) (SL := ref_snow_laws)); [bytes_tac|apply default_wf].
Qed.

Lemma tick_recovery_witness :
  exists st' s' t', wit_tick (from_secs 20) wit_scheduler wit_a3.1 = (st', Ok (s', t')) /\ sm_wf (manager st').
Proof.
  destruct (tick_recovery (RS := ref_resolver) (SL := ref_snow_laws) wit_ea (from_secs 20) (fun _ _ => true)
    wit_clock wit_clock wit_scheduler wit_a3.1 wit_a3_wf) as (st' & s' & t' & H1 & H2 & _).
  exists st', s', t'. split; [exact H1|exact H2].
Defined.

Definition wit_sp : ScheduledPeer :=
  {| sp_name := "b"; sp_persistent_keepalive := from_secs 5;
     sp_recovery := Some {| timeout := from_secs 60; rebind_udp := true |} |}.
Definition wit_loop := keepalive_loop (IN := ref_ipnet) (RS := ref_resolver) (SN := ref_snow) wit_ea (from_secs 20)
  wit_clock false 0 [wit_sp] tick_default wit_scheduler wit_a3.1.

Definition wit_loop_result : EngineScheduler * SchedulerTick :=
  match wit_loop.2 with Ok a => a | _ => (wit_scheduler, tick_default) end.

Lemma wit_loop_is_ok : is_ok wit_loop.2 = true.
Proof. reflexivity. Qed.
Lemma wit_loop_ok : wit_loop = (wit_loop.1, Ok (wit_loop_result.1, wit_loop_result.2)).
Proof. rewrite <- (surjective_pairing wit_loop_result). unfold wit_loop_result. apply is_ok_default, wit_loop_is_ok. Qed.

Lemma pair_ok_inj {A E B C : Type} (a a' : A) (b b' : B) (c c' : C) :
  (a, @Ok E _ (b, c)) = (a', Ok (b', c')) -> b = b' /\ c = c'.
Proof. by intros [= _ -> ->]. Qed.

Lemma wit_frame_some : is_Some (keepalive_frame (SN := ref_snow) (from_secs 20) wit_a3.1 wit_sp).
Proof.
  assert (H : is_some (keepalive_frame (SN := ref_snow) (from_secs 20) wit_a3.1 wit_sp) = true) by reflexivity.
  revert H. generalize (keepalive_frame (SN := ref_snow) (from_secs 20) wit_a3.1 wit_sp). intros [f|]; [by eexists|done].
Qed.

(** One peer with recovery and a session: it is due, and is sent a probe. *)
Lemma keepalive_pacing_witness :
  exists l, wit_loop_result.2 = with_attempts tick_default l /\ l.*1 = [wit_sp] /\
    Forall (fun '(p, r) => keepalive_result (RS := ref_resolver) wit_ea (from_secs 20) wit_a3.1 p r) l /\
    is_Some (keepalive_frame (from_secs 20) wit_a3.1 wit_sp) /\
    last_sent wit_loop_result.1 !! "b"%string = Some (from_secs 20).
Proof.
  destruct (keepalive_pacing (RS := ref_resolver) (SL := ref_snow_laws) wit_ea (from_secs 20) wit_clock false 0 [wit_sp]
    tick_default wit_scheduler wit_a3.1) as (st' & s' & t' & l & E & Ht & Hl & Hr & Htim & _).
  - apply NoDup_singleton.
  - exact wit_a3_wf.
  - change (wit_loop = (st', Ok (s', t'))) in E. destruct (pair_ok_inj _ _ _ _ _ _ (eq_trans (eq_sym wit_loop_ok) E)) as [-> ->].
    exists l.
    split; [exact Ht|]. split; [rewrite Hl; reflexivity|]. split; [exact Hr|]. split; [exact wit_frame_some|].
    rewrite (Htim 0%nat wit_sp eq_refl : last_sent _ !! "b"%string = _). reflexivity.
Defined.

Definition wit_timer_config : Config (IN := ref_ipnet) := wit_pair "b" (SA4 0 1) 172838914 "a" "b".

Lemma recovery_outlasts_keepalive_witness :
  0 < from_secs 5 < from_secs 20 /\ if_transport (interface wit_timer_config) = Udp.
Proof.
  destruct (recovery_outlasts_keepalive (B64 := ref_base64) wit_timer_config) with
    (sp := scheduled_peer Udp (default (wit_peer "" (endpoint_of (SA4 0 0)) [] []) (head (peer wit_timer_config))))
    (pol := {| timeout := from_secs 20; rebind_udp := true |}) as [H1 H2].
  - apply (validate_spec (B64 := ref_base64)). vm_compute. reflexivity.
  - repeat (apply Forall_cons_2; [done|]). apply Forall_nil_2.
  - apply list_elem_of_here.
  - reflexivity.
  - split; [exact H1|exact (H2 eq_refl)].
Defined.
