(* ===== verification/Transport.v ===== *)
(** * Packet transports ([src/src/transport.rs])

    The error type of [std::io], the [PacketTransport] trait, and the UDP
    transport.  The sockets are the operating system's: their type and the
    answers of the calls on them are parameters. *)

From S2P Require Import Prelude Net.

(** ** std::io *)

Inductive ErrorKind :=
| InvalidInput | WouldBlock | WriteZero | Interrupted | TimedOut | ConnectionReset
| InvalidData | AddrNotAvailable | NotFound | AlreadyExists | OtherKind.
#[export] Instance ErrorKind_eq_dec : EqDecision ErrorKind.
Proof. solve_decision. Defined.

Record io_error := IoError { kind : ErrorKind; message : string }.

(** ** The trait *)

Record ReceivedPacket := { rp_bytes : usize; rp_source : SocketAddr }.
Record RebindResult := { previous : SocketAddr; current : SocketAddr }.

(** A call of [recv_from] blocks until a packet arrives: [None] stands for a
    call that has not returned within the rounds looked at. *)
Class PacketTransport (T : Type) := {
  send_to : bytes -> SocketAddr -> M T io_error usize;
  recv_from : nat -> usize -> M T io_error (option (ReceivedPacket * bytes));
  local_addr : M T io_error SocketAddr;
  label : string;
  rebind_to_ephemeral : M T io_error (option RebindResult) }.

(** The trait's default method: a transport that cannot rebind. *)
Definition rebind_default {T} : M T io_error (option RebindResult) := mret None.

(** ** UDP *)

(** The calls on a [UdpSocket] and the kernel's answers; [recv s i] is the
    answer of the [i]-th receive call, the bytes and where they came from. *)
Class UdpOs := {
  UdpSocket : Type;
  udp_bind : SocketAddr -> outcome io_error UdpSocket;
  set_read_timeout : UdpSocket -> Duration -> outcome io_error unit;
  udp_local_addr : UdpSocket -> outcome io_error SocketAddr;
  udp_send : UdpSocket -> bytes -> SocketAddr -> outcome io_error usize;
  udp_recv : UdpSocket -> nat -> usize -> outcome io_error (bytes * SocketAddr) }.

Section Udp.
Context {OS : UdpOs}.

(** [Arc<RwLock<Arc<UdpSocket>>>]: the cell that every clone shares. *)
Record UdpTransport := { socket : UdpSocket; poisoned : bool }.

Definition bind_udp_socket (listen : SocketAddr) : outcome io_error UdpSocket :=
  socket ← udp_bind listen;
  _ ← set_read_timeout socket (from_secs 1);
  Ok socket.

Definition UdpTransport_bind (listen : SocketAddr) : outcome io_error UdpTransport :=
  socket ← bind_udp_socket listen;
  Ok {| socket := socket; poisoned := false |}.

Definition lock_poisoned : io_error := IoError OtherKind "UDP socket lock poisoned".

Definition active_socket (t : UdpTransport) : outcome io_error UdpSocket :=
  if poisoned t then Err lock_poisoned else Ok (socket t).

Definition udp_send_to (frame : bytes) (endpoint : SocketAddr) : M UdpTransport io_error usize := fun t =>
  (t, socket ← active_socket t; udp_send socket frame endpoint).

Definition transient (k : ErrorKind) : bool :=
  match k with WouldBlock | TimedOut | Interrupted => true | _ => false end.

(** The receive loop for at most [fuel] rounds from round [i]; [cell i] is the
    shared cell when round [i] reads it, since another thread may rebind. *)
Fixpoint udp_recv_loop (cell : nat -> UdpTransport) (buffer : usize) (fuel i : nat)
    : outcome io_error (option (ReceivedPacket * bytes)) :=
  match fuel with
  | O => Ok None
  | S fuel =>
      socket ← active_socket (cell i);
      match udp_recv socket i buffer with
      | Ok (data, source) => Ok (Some ({| rp_bytes := len data; rp_source := source |}, data))
      | Err error => if transient (kind error) then udp_recv_loop cell buffer fuel (S i) else Err error
      | Panic => Panic
      end
  end.

Definition udp_recv_from (fuel : nat) (buffer : usize) : M UdpTransport io_error (option (ReceivedPacket * bytes)) :=
  fun t => (t, udp_recv_loop (fun _ => t) buffer fuel 0).

Definition udp_local : M UdpTransport io_error SocketAddr := fun t =>
  (t, socket ← active_socket t; udp_local_addr socket).

Definition udp_rebind_to_ephemeral : M UdpTransport io_error (option RebindResult) :=
  previous ← udp_local;
  let bind_addr := set_port previous 0 in
  replacement ← mlift (bind_udp_socket bind_addr);
  current ← mlift (udp_local_addr replacement);
  active ← mget;
  if poisoned active then mfail lock_poisoned else
  _ ← mput {| socket := replacement; poisoned := poisoned active |};
  mret (Some {| previous := previous; current := current |}).

#[export] Instance UdpTransport_transport : PacketTransport UdpTransport := {|
  send_to := udp_send_to; recv_from := udp_recv_from; local_addr := udp_local;
  label := "udp"; rebind_to_ephemeral := udp_rebind_to_ephemeral |}.

(** ** Properties *)

(** C29: rebinding is atomic: it never gives up the working socket on a
    failure; on success the cell that every clone shares holds a fresh
    socket bound to the same address with an ephemeral port, with the read
    timeout set, and the result reports its address and the previous one. *)
Theorem rebind_atomic t t' r :
  rebind_to_ephemeral t = (t', r) ->
  match r with
  | Ok (Some res) =>
      poisoned t' = false /\ udp_local_addr (socket t) = Ok (previous res) /\
      udp_bind (set_port (previous res) 0) = Ok (socket t') /\
      set_read_timeout (socket t') (from_secs 1) = Ok tt /\
      udp_local_addr (socket t') = Ok (current res)
  | Ok None => False
  | _ => t' = t
  end.
Proof.
  cbn. unfold udp_rebind_to_ephemeral, udp_local, bind_udp_socket, active_socket, mlift, mget, mput, mfail.
  unfold mbind, M_bind, mret, M_ret, outcome_bind.
  destruct t as [s [|]]; cbn [poisoned socket]; [by intros [= <- <-]|].
  destruct (udp_local_addr s) as [prev|e|] eqn:E1; [|by intros [= <- <-]..].
  destruct (udp_bind (set_port prev 0)) as [s'|e|] eqn:E2; [|by intros [= <- <-]..].
  destruct (set_read_timeout s' (from_secs 1)) as [[]|e|] eqn:E3; [|by intros [= <- <-]..].
  destruct (udp_local_addr s') as [cur|e|] eqn:E4; intros [= <- <-]; done.
Qed.

(** The rounds that time out are invisible to the caller. *)
Definition round_quiet (cell : nat -> UdpTransport) (buffer : usize) (i : nat) : Prop :=
  exists s e, active_socket (cell i) = Ok s /\ udp_recv s i buffer = Err e /\ transient (kind e) = true.

(** A receive skips the rounds without a packet and returns the first
    other answer, of the socket that is active in that round: a receiver that
    waited on the old socket receives from the replacement after a rebind. *)
Theorem udp_recv_first cell buffer n i s :
  (forall j, (i <= j < i + n)%nat -> round_quiet cell buffer j) ->
  active_socket (cell (i + n)%nat) = Ok s ->
  udp_recv_loop cell buffer (S n) i =
    match udp_recv s (i + n) buffer with
    | Ok (data, source) => Ok (Some ({| rp_bytes := len data; rp_source := source |}, data))
    | Err e => if transient (kind e) then Ok None else Err e
    | Panic => Panic
    end.
Proof.
  revert i. induction n as [|n IH]; intros i Hq Hs.
  - rewrite Nat.add_0_r in *. cbn [udp_recv_loop]. by rewrite Hs.
  - destruct (Hq i ltac:(lia)) as (s0 & e & H1 & H2 & H3).
    cbn [udp_recv_loop]. rewrite H1. cbn [mbind outcome_bind]. rewrite H2, H3.
    rewrite <- Nat.add_succ_comm in *. apply IH; [|done]. intros j Hj. apply Hq. lia.
Qed.
End Udp.

(** ** Witnesses *)

(** A kernel whose sockets are their address; port 0 becomes 49152, and a
    receive answers from the third round on. *)
Definition ref_udp : UdpOs := {|
  UdpSocket := SocketAddr;
  udp_bind a := Ok (if sa_port a =? 0 then set_port a 49152 else a);
  set_read_timeout _ _ := Ok tt;
  udp_local_addr s := Ok s;
  udp_send _ f _ := Ok (len f);
  udp_recv s i _ := if (i <? 2)%nat then Err (IoError TimedOut "timed out") else Ok ([7; sa_port s], SA4 1 2) |}.

Definition wit_udp (p : u16) : UdpTransport (OS := ref_udp) :=
  @Build_UdpTransport ref_udp (SA4 2130706433 p) false.

Lemma rebind_atomic_witness :
  rebind_to_ephemeral (wit_udp 9) =
    (wit_udp 49152, Ok (Some {| previous := SA4 2130706433 9; current := SA4 2130706433 49152 |})) /\
  udp_bind (UdpOs := ref_udp) (SA4 2130706433 0) = Ok (SA4 2130706433 49152).
Proof.
  split; [reflexivity|].
  exact (proj1 (proj2 (proj2 (rebind_atomic (OS := ref_udp) (wit_udp 9) (wit_udp 49152)
    (Ok (Some {| previous := SA4 2130706433 9; current := SA4 2130706433 49152 |})) eq_refl)))).
Defined.

(** The socket is replaced after the first round. *)
Lemma udp_recv_first_witness :
  udp_recv_loop (OS := ref_udp) (fun i => wit_udp (if (i <? 1)%nat then 9 else 49152)) 65535 3 0
  = Ok (Some ({| rp_bytes := 2; rp_source := SA4 1 2 |}, [7; 49152])).
Proof.
  refine (udp_recv_first (OS := ref_udp) _ 65535 2 0 (SA4 2130706433 49152) _ _); [|reflexivity].
  intros [|[|j]] Hj; [..|lia]; eexists _, _; split_and!; reflexivity.
Defined.
