(* ===== verification/TcpTransport.v ===== *)
(** * TCP transport ([src/src/tcp_transport.rs])

    Length-prefixed frames over byte streams.  A [TcpStream] carries the
    kernel's answers to the next [read] and [write] calls (an exhausted list
    answers [WouldBlock]) and the bytes accepted so far, so every loop of the
    source recurses on the list of answers. *)

From S2P Require Import Prelude Net Std Config Transport.

(** ** Streams *)

Record TcpStream := {
  reads : list (outcome io_error bytes);
  writes : list (outcome io_error usize);
  accepted : bytes }.

Definition would_block : io_error := IoError WouldBlock "would block".

Definition MAX_PENDING_WRITE_BYTES : usize := 16 * 1024 * 1024.

(** ** Pending writes *)

Record PendingWrites := { pw_bytes : bytes; offset : usize; limit : usize }.

Definition PendingWrites_new (limit : usize) : PendingWrites :=
  {| pw_bytes := []; offset := 0; limit := limit |}.
Definition PendingWrites_default : PendingWrites := PendingWrites_new MAX_PENDING_WRITE_BYTES.

Definition pending_len (p : PendingWrites) : usize := Z.max 0 (len (pw_bytes p) - offset p).

(** [bytes.copy_within(offset.., 0)] moves the suffix to the front and leaves
    what it does not overwrite; [truncate] cuts that off. *)
Definition compact (p : PendingWrites) : PendingWrites :=
  if offset p =? 0 then p else
  let pending := pending_len p in
  let b := if pending =? 0 then [] else
             let moved := drop (Z.to_nat (offset p)) (pw_bytes p) in
             take (Z.to_nat pending) (moved ++ drop (length moved) (pw_bytes p)) in
  {| pw_bytes := b; offset := 0; limit := limit p |}.

Definition saturating_add (a b : usize) : usize := Z.min U64_MAX (a + b).

Definition enqueue_frame (frame : bytes) : M PendingWrites io_error unit := fun p =>
  if len frame >? U16_MAX then (p, Err (IoError InvalidInput "TCP frame exceeds 65535 bytes")) else
  let encoded_len := 2 + len frame in
  if saturating_add (pending_len p) encoded_len >? limit p
  then (p, Err (IoError WouldBlock "TCP pending-write queue is full")) else
  let p := compact p in
  ({| pw_bytes := pw_bytes p ++ to_be_bytes 2 (len frame) ++ frame; offset := offset p; limit := limit p |}, Ok tt).

(** The loop of [flush_to]; the state is the queue and the stream. *)
Fixpoint flush_loop (answers : list (outcome io_error usize)) (p : PendingWrites) (s : TcpStream)
    : PendingWrites * TcpStream * outcome io_error unit :=
  if negb (offset p <? len (pw_bytes p)) then
    ({| pw_bytes := []; offset := 0; limit := limit p |},
     {| reads := reads s; writes := answers; accepted := accepted s |}, Ok tt)
  else
  let stop r rest := (p, {| reads := reads s; writes := rest; accepted := accepted s |}, r) in
  match answers with
  | [] => stop (Ok tt) []
  | Ok written :: rest =>
      if written =? 0 then stop (Err (IoError WriteZero "TCP stream accepted zero bytes")) rest else
      flush_loop rest {| pw_bytes := pw_bytes p; offset := offset p + written; limit := limit p |}
        {| reads := reads s; writes := writes s;
           accepted := accepted s ++ take (Z.to_nat written) (drop (Z.to_nat (offset p)) (pw_bytes p)) |}
  | Err error :: rest =>
      match kind error with
      | Interrupted => flush_loop rest p s
      | WouldBlock | TimedOut => stop (Ok tt) rest
      | _ => stop (Err error) rest
      end
  | Panic :: rest => stop Panic rest
  end.

Definition flush_to (p : PendingWrites) (s : TcpStream) := flush_loop (writes s) p s.

(** ** Connections *)

Record ConnState := { stream : TcpStream; read_buf : bytes; pending_writes : PendingWrites }.

Definition ConnState_new (s : TcpStream) : ConnState :=
  {| stream := s; read_buf := []; pending_writes := PendingWrites_default |}.

Definition conn_flush : M ConnState io_error unit := fun c =>
  let '(p, s, r) := flush_to (pending_writes c) (stream c) in
  ({| stream := s; read_buf := read_buf c; pending_writes := p |}, r).

(** The read loop of [try_read_frame]: [tmp] has 65535 bytes, so a longer
    answer would make [&tmp[..n]] panic. *)
Fixpoint read_loop (answers : list (outcome io_error bytes)) (buf : bytes)
    : list (outcome io_error bytes) * bytes * outcome io_error unit :=
  match answers with
  | [] => ([], buf, Ok tt)
  | Ok data :: rest =>
      if len data =? 0 then (rest, buf, Err (IoError ConnectionReset "peer closed")) else
      if len data >? 65535 then (rest, buf, Panic) else read_loop rest (buf ++ data)
  | Err error :: rest =>
      match kind error with
      | WouldBlock => (rest, buf, Ok tt)
      | Interrupted | TimedOut => read_loop rest buf
      | _ => (rest, buf, Err error)
      end
  | Panic :: rest => (rest, buf, Panic)
  end.

Definition conn_read : M ConnState io_error unit := fun c =>
  let '(answers, buf, r) := read_loop (reads (stream c)) (read_buf c) in
  ({| stream := {| reads := answers; writes := writes (stream c); accepted := accepted (stream c) |};
      read_buf := buf; pending_writes := pending_writes c |}, r).

(** The end of [try_read_frame]: cut one frame off the buffer. *)
Definition take_frame : M ConnState io_error (option bytes) := fun c =>
  match read_buf c with
  | b0 :: b1 :: rest =>
      let frame_len := from_be_bytes [b0; b1] in
      if frame_len >? 65535 then (c, Err (IoError InvalidData "frame too large")) else
      if len (read_buf c) <? 2 + frame_len then (c, Ok None) else
      let frame := take (Z.to_nat frame_len) rest in
      ({| stream := stream c; read_buf := drop (Z.to_nat (2 + frame_len)) (read_buf c);
          pending_writes := pending_writes c |}, Ok (Some frame))
  | _ => (c, Ok None)
  end.

Definition try_read_frame : M ConnState io_error (option bytes) :=
  _ ← conn_flush;
  _ ← conn_read;
  take_frame.

Definition conn_enqueue (frame : bytes) : M ConnState io_error unit := fun c =>
  let '(p, r) := enqueue_frame frame (pending_writes c) in
  ({| stream := stream c; read_buf := read_buf c; pending_writes := p |}, r).

Definition queue_frame (frame : bytes) : M ConnState io_error unit :=
  _ ← conn_flush;
  _ ← conn_enqueue frame;
  conn_flush.

(** ** The transport *)

(** The listener's address and the kernel's answer to a connection attempt. *)
Class TcpOs := {
  tcp_bind : SocketAddr -> outcome io_error SocketAddr;
  connect_timeout : SocketAddr -> Duration -> outcome io_error TcpStream }.

#[export] Instance SocketAddr_countable : Countable SocketAddr.
Proof.
  refine (inj_countable'
    (fun a => match a with SA4 ip p => (false, ip, p, 0, 0) | SA6 ip p f i => (true, ip, p, f, i) end)
    (fun '(b, ip, p, f, i) => if b : bool then SA6 ip p f i else SA4 ip p) _).
  by intros [].
Defined.

(** [connections] maps an address to its [Arc], an index into [conns]: the
    connections that were ever opened, each behind its mutex. *)
Record Mutex := { data : ConnState; conn_poisoned : bool }.
Record TcpTransport := {
  listener : SocketAddr;
  connections : gmap SocketAddr nat;
  conns : list Mutex }.

Section Transport.
Context {OS : TcpOs}.

Definition TcpTransport_bind (listen : SocketAddr) : outcome io_error TcpTransport :=
  listener ← tcp_bind listen;
  Ok {| listener := listener; connections := ∅; conns := [] |}.

(** [connections.insert(addr, Arc::new(Mutex::new(state)))]. *)
Definition insert_conn (addr : SocketAddr) (c : ConnState) (t : TcpTransport) : TcpTransport :=
  {| listener := listener t; connections := <[addr := length (conns t)]> (connections t);
     conns := conns t ++ [{| data := c; conn_poisoned := false |}] |}.

(** One round of the accept thread. *)
Definition accept_round (answer : outcome io_error (TcpStream * SocketAddr)) (t : TcpTransport) : TcpTransport :=
  match answer with Ok (stream, addr) => insert_conn addr (ConnState_new stream) t | _ => t end.

Fixpoint dial (endpoint : SocketAddr) (addrs : list SocketAddr) (last_err : option io_error)
    : M TcpTransport io_error nat :=
  match addrs with
  | [] => mfail (default (IoError AddrNotAvailable "no addresses to connect to") last_err)
  | addr :: addrs =>
      match connect_timeout addr (from_secs 2) with
      | Ok stream =>
          t ← mget;
          _ ← mmodify (insert_conn endpoint (ConnState_new stream));
          mret (length (conns t))
      | Err e => dial endpoint addrs (Some e)
      | Panic => mlift Panic
      end
  end.

(** [to_socket_addrs] of a socket address is the address itself. *)
Definition get_or_dial (endpoint : SocketAddr) : M TcpTransport io_error nat :=
  t ← mget;
  match connections t !! endpoint with
  | Some conn => mret conn
  | None => dial endpoint [endpoint] None
  end.

(** Release the mutex of a connection; a panic in between poisons it. *)
Definition put_conn (poisoned : bool) (i : nat) (c : ConnState) (t : TcpTransport) : TcpTransport :=
  {| listener := listener t; connections := connections t;
     conns := <[i := {| data := c; conn_poisoned := poisoned |}]> (conns t) |}.
Definition set_conn : nat -> ConnState -> TcpTransport -> TcpTransport := put_conn false.

Definition send_on (frame : bytes) (conn : nat) : M TcpTransport io_error usize := fun t =>
  match conns t !! conn with
  | Some m =>
      if conn_poisoned m then (t, Err (IoError OtherKind "connection mutex poisoned")) else
      let '(c, r) := queue_frame frame (data m) in
      (put_conn (match r with Panic => true | _ => false end) conn c t, _ ← r; Ok (len frame))
  | None => (t, Panic)
  end.

Definition tcp_send_to (frame : bytes) (endpoint : SocketAddr) : M TcpTransport io_error usize :=
  conn ← get_or_dial endpoint;
  send_on frame conn.

Definition remove_conn (addr : SocketAddr) (t : TcpTransport) : TcpTransport :=
  {| listener := listener t; connections := delete addr (connections t); conns := conns t |}.

(** One pass of [recv_from] over a snapshot of the connections. *)
Fixpoint recv_pass (buffer : usize) (entries : list (SocketAddr * nat))
    : M TcpTransport io_error (option (ReceivedPacket * bytes)) := fun t =>
  match entries with
  | [] => (t, Ok None)
  | (addr, conn) :: entries =>
      match conns t !! conn with
      | None => (t, Panic)
      | Some m =>
          if conn_poisoned m then recv_pass buffer entries t else
          match try_read_frame (data m) with
          | (c, Ok (Some frame)) =>
              let n := Z.min (len frame) buffer in
              (set_conn conn c t, Ok (Some ({| rp_bytes := n; rp_source := addr |}, take (Z.to_nat n) frame)))
          | (c, Ok None) => recv_pass buffer entries (set_conn conn c t)
          | (c, Err _) => recv_pass buffer entries (remove_conn addr (set_conn conn c t))
          | (c, Panic) => (put_conn true conn c t, Panic)
          end
      end
  end.

(** The receive loop for at most [fuel] passes: [order] is the order in which
    the hash map is walked. *)
Fixpoint tcp_recv_loop (order : gmap SocketAddr nat -> list (SocketAddr * nat)) (fuel : nat) (buffer : usize)
    : M TcpTransport io_error (option (ReceivedPacket * bytes)) :=
  match fuel with
  | O => mret None
  | S fuel =>
      t ← mget;
      r ← recv_pass buffer (order (connections t));
      match r with Some packet => mret (Some packet) | None => tcp_recv_loop order fuel buffer end
  end.

#[export] Instance TcpTransport_transport : PacketTransport TcpTransport := {|
  send_to := tcp_send_to; recv_from := tcp_recv_loop map_to_list;
  local_addr := mgets listener; label := "tcp"; rebind_to_ephemeral := rebind_default |}.
(** [transport::bind]: the transport the configuration names. *)
Definition bind {UO : UdpOs} {IN : IpNet} (config : Config) : outcome io_error (UdpTransport + TcpTransport) :=
  match if_transport (interface config) with
  | Udp => inl <$> UdpTransport_bind (listen (interface config))
  | Tcp => inr <$> TcpTransport_bind (listen (interface config))
  end.
End Transport.

(** ** Lemmas *)

Definition encode_frame (f : bytes) : bytes := to_be_bytes 2 (len f) ++ f.

(** What the connection has taken on to deliver: the bytes the kernel
    accepted and those that wait. *)
Definition waiting (p : PendingWrites) : bytes := drop (Z.to_nat (offset p)) (pw_bytes p).
Definition output (c : ConnState) : bytes := accepted (stream c) ++ waiting (pending_writes c).
Definition write_ok (r : outcome io_error usize) : Prop :=
  match r with Ok n => 0 <= n | Err _ => True | Panic => False end.
Definition pw_ok (p : PendingWrites) : Prop := 0 <= offset p <= len (pw_bytes p).

Record conn_ok (c : ConnState) : Prop := {
  conn_pw : pw_ok (pending_writes c);
  conn_writes : Forall write_ok (writes (stream c)) }.

#[local] Arguments compact : simpl never.
#[local] Arguments pending_len : simpl never.

Lemma pending_len_waiting p : pw_ok p -> pending_len p = len (waiting p).
Proof. unfold pw_ok, pending_len, waiting, len. rewrite length_drop. lia. Qed.

Lemma compact_waiting p : pw_ok p ->
  offset (compact p) = 0 /\ pw_bytes (compact p) = waiting p /\ limit (compact p) = limit p.
Proof.
  intros H. unfold compact. destruct (Z.eqb_spec (offset p) 0) as [E|E].
  { unfold waiting. by rewrite E. }
  split_and!; [done| |done]. cbn [pw_bytes]. rewrite pending_len_waiting by done. fold (waiting p).
  destruct (Z.eqb_spec (len (waiting p)) 0) as [E0|E0].
  - unfold len in E0. by destruct (waiting p).
  - unfold len. rewrite Nat2Z.id. by rewrite take_app_length.
Qed.

(** What a flush preserves. *)
Definition flush_post (p : PendingWrites) (s : TcpStream) (p' : PendingWrites) (s' : TcpStream) : Prop :=
  reads s' = reads s /\ limit p' = limit p /\ pw_ok p' /\ Forall write_ok (writes s') /\
  accepted s' ++ waiting p' = accepted s ++ waiting p /\ len (waiting p') <= len (waiting p).

Lemma flush_done answers p s :
  Forall write_ok answers -> negb (offset p <? len (pw_bytes p)) = true ->
  flush_post p s {| pw_bytes := []; offset := 0; limit := limit p |}
    {| reads := reads s; writes := answers; accepted := accepted s |}.
Proof.
  intros Ha Hn. apply negb_true_iff in Hn. zbool. unfold flush_post. split_and!; try done.
  - unfold waiting at 2. by rewrite drop_ge by (unfold len in Hn; lia).
  - apply len_nonneg.
Qed.

Lemma flush_stop rest p s :
  Forall write_ok rest -> 0 <= offset p -> negb (offset p <? len (pw_bytes p)) = false ->
  flush_post p s p {| reads := reads s; writes := rest; accepted := accepted s |}.
Proof.
  intros Ha Hq Hn. apply negb_false_iff in Hn. zbool. unfold flush_post, pw_ok. split_and!; try done; lia.
Qed.

Lemma flush_loop_spec answers p s p' s' r :
  flush_loop answers p s = (p', s', r) -> pw_ok p -> Forall write_ok answers -> flush_post p s p' s'.
Proof.
  intros E Hp Hw. assert (0 <= offset p) as H0 by apply Hp. clear Hp. revert p s H0 E.
  induction Hw as [|a rest Ha Hw IH]; intros p s H0; cbn [flush_loop];
    destruct (negb _) eqn:Hn; try (intros [= <- <- <-]; apply flush_done; [by auto using Forall_cons|done]).
  - intros [= <- <- <-]. by apply flush_stop.
  - destruct a as [n|e|]; [|destruct (kind e)|]; try (intros [= <- <- <-]; by apply flush_stop); try (by apply IH).
    destruct (n =? 0); [intros [= <- <- <-]; by apply flush_stop|]. cbn in Ha. intros E.
    apply IH in E; [|cbn; lia]. destruct E as (H1 & H2 & H3 & H4 & H5 & H6). cbn in *. split_and!; try done.
    + rewrite H5. unfold waiting. cbn. rewrite <- app_assoc. f_equal.
      rewrite Z2Nat.inj_add, <- drop_drop by lia. by rewrite take_drop.
    + etrans; [exact H6|]. unfold waiting, len. cbn. rewrite !length_drop. lia.
Qed.

Lemma flush_loop_no_panic answers p s : Forall write_ok answers -> (flush_loop answers p s).2 <> Panic.
Proof.
  intros H. revert p s. induction H as [|a rest Ha H IH]; intros p s; cbn [flush_loop]; destruct (negb _); try done.
  destruct a as [n|e|]; [destruct (n =? 0); [done|apply IH]|destruct (kind e); try done; apply IH|done].
Qed.

Lemma conn_flush_spec c c' r :
  conn_flush c = (c', r) -> conn_ok c ->
  r <> Panic /\ reads (stream c') = reads (stream c) /\ read_buf c' = read_buf c /\
  limit (pending_writes c') = limit (pending_writes c) /\ conn_ok c' /\ output c' = output c /\
  len (waiting (pending_writes c')) <= len (waiting (pending_writes c)).
Proof.
  intros E [H1 H2]. unfold conn_flush, flush_to in E.
  destruct (flush_loop _ _ _) as [[p s] r0] eqn:Ef. injection E as <- <-.
  destruct (flush_loop_spec _ _ _ _ _ _ Ef H1 H2) as (?&?&?&?&?&?). unfold output.
  pose proof (flush_loop_no_panic _ (pending_writes c) (stream c) H2) as Hp. rewrite Ef in Hp. by split_and!.
Qed.

Lemma conn_enqueue_spec f c c' r :
  conn_enqueue f c = (c', r) -> conn_ok c -> limit (pending_writes c) < U64_MAX ->
  reads (stream c') = reads (stream c) /\ read_buf c' = read_buf c /\
  limit (pending_writes c') = limit (pending_writes c) /\ conn_ok c' /\
  match r with
  | Ok _ => len f <= U16_MAX /\ output c' = output c ++ encode_frame f /\
            len (waiting (pending_writes c')) <= limit (pending_writes c)
  | _ => c' = c
  end.
Proof.
  intros E [H1 H2] Hlim. unfold conn_enqueue, enqueue_frame in E. destruct c as [s b p]. cbn in *.
  destruct (Z.gtb_spec (len f) U16_MAX) as [Hl|Hl]; [by injection E as <- <-|].
  destruct (saturating_add _ _ >? limit p) eqn:Ef; [by injection E as <- <-|].
  destruct (compact_waiting p H1) as (Hc1 & Hc2 & Hc3). injection E as <- <-.
  unfold output, waiting. cbn. rewrite Hc1, Hc2. split_and!; try done.
  - split; cbn; [|done]. split; [done|apply len_nonneg].
  - by rewrite drop_0, <- app_assoc.
  - rewrite drop_0. unfold saturating_add in Ef. rewrite pending_len_waiting in Ef by done.
    autorewrite with hushwire. cbn [Z.of_nat] in *. rewrite Z.gtb_ltb in Ef. zbool. lia.
Qed.

(** The bytes that are on their way to the reader: those buffered and those
    the kernel still holds. *)
Definition incoming (answers : list (outcome io_error bytes)) : bytes :=
  concat ((fun r => default [] (to_option r)) <$> answers).
Definition unread (c : ConnState) : bytes := read_buf c ++ incoming (reads (stream c)).
(** [read] fills at most the 65535 bytes of the buffer. *)
Definition read_ok (r : outcome io_error bytes) : Prop :=
  match r with Ok d => len d <= 65535 | Err _ => True | Panic => False end.

Lemma read_loop_spec answers buf answers' buf' r :
  read_loop answers buf = (answers', buf', r) -> Forall read_ok answers ->
  buf' ++ incoming answers' = buf ++ incoming answers /\ Forall read_ok answers' /\ r <> Panic.
Proof.
  intros E H. revert buf E. induction H as [|a rest Ha H IH]; intros buf; cbn [read_loop].
  { by intros [= <- <- <-]. }
  destruct a as [d|e|]; [| |done]; cbn in Ha.
  - destruct (Z.eqb_spec (len d) 0) as [E0|E0].
    + intros [= <- <- <-]. assert (d = []) as -> by (destruct d; done). by split_and!.
    + destruct (Z.gtb_spec (len d) 65535); [lia|]. intros E.
      destruct (IH _ E) as (H1 & H2). split; [|done]. rewrite H1, <- app_assoc. done.
  - destruct (kind e); try (intros [= <- <- <-]; by split_and!); apply IH.
Qed.

Lemma frame_split buf f rest :
  bytes_ok buf -> buf = encode_frame f ++ rest -> len f <= U16_MAX ->
  exists b0 b1, buf = b0 :: b1 :: f ++ rest /\ from_be_bytes [b0; b1] = len f.
Proof.
  intros Hb E Hl. eexists _, _. split; [exact E|].
  change (from_be_bytes (to_be_bytes 2 (len f)) = len f). apply from_to_be.
  unfold U16_MAX in Hl. pose proof (len_nonneg f). change (256 ^ Z.of_nat 2) with 65536. lia.
Qed.

(** [take_frame] cuts off exactly the first frame of the buffer, when it is
    complete. *)
Lemma take_frame_spec c :
  bytes_ok (read_buf c) ->
  match take_frame c with
  | (c', Ok (Some f)) => len f <= U16_MAX /\ read_buf c = encode_frame f ++ read_buf c' /\ stream c' = stream c /\
                         pending_writes c' = pending_writes c
  | (c', Ok None) => c' = c /\ forall f rest, len f <= U16_MAX -> read_buf c <> encode_frame f ++ rest
  | _ => False
  end.
Proof.
  intros Hb. unfold take_frame. destruct (read_buf c) as [|b0 [|b1 buf]] eqn:E; [by split; [|intros []]..|].
  rewrite <- E in *. pose proof Hb as Hb'. rewrite E in Hb'.
  inversion Hb' as [|?? H0 Hb1]; subst. inversion Hb1 as [|?? H1 Hb2]; subst.
  assert (Hb01 : bytes_ok [b0; b1]) by auto using Forall_cons_2, Forall_nil_2.
  pose proof (from_be_bytes_bound [b0; b1] Hb01) as Hr.
  change (256 ^ len [b0; b1]) with 65536 in Hr. set (n := from_be_bytes [b0; b1]) in *.
  destruct (Z.gtb_spec n 65535); [lia|]. rewrite E, !len_cons. destruct (Z.ltb_spec (1 + (1 + len buf)) (2 + n)) as [Hn|Hn].
  - split; [done|]. intros f rest Hl Ef.
    destruct (frame_split _ _ _ Hb' Ef Hl) as (c0 & c1 & [= -> -> ->] & Hc). fold n in Hc.
    rewrite len_app in Hn. pose proof (len_nonneg rest). lia.
  - assert (Hlen : len (take (Z.to_nat n) buf) = n) by (unfold len in *; rewrite length_take; lia).
    split_and!; try done; [rewrite Hlen; unfold U16_MAX; lia|]. cbn [read_buf]. unfold encode_frame. rewrite Hlen.
    replace (Z.to_nat (2 + n)) with (S (S (Z.to_nat n))) by lia. cbn [drop].
    pose proof (to_from_be [b0; b1] Hb01) as Ht. cbn [length] in Ht. fold n in Ht.
    rewrite Ht. cbn. by rewrite take_drop.
Qed.

Lemma try_read_frame_spec c :
  conn_ok c -> bytes_ok (unread c) -> Forall read_ok (reads (stream c)) ->
  let '(c', r) := try_read_frame c in
  conn_ok c' /\ bytes_ok (unread c') /\ Forall read_ok (reads (stream c')) /\ output c' = output c /\
  match r with
  | Ok (Some f) => len f <= U16_MAX /\ unread c = encode_frame f ++ unread c'
  | Ok None => unread c' = unread c /\ forall f rest, len f <= U16_MAX -> read_buf c' <> encode_frame f ++ rest
  | Err _ => unread c' = unread c
  | Panic => False
  end.
Proof.
  intros Hc Hb Hr. unfold try_read_frame. unfold mbind, M_bind.
  destruct (conn_flush c) as [c1 r1] eqn:E1. destruct (conn_flush_spec _ _ _ E1 Hc) as (H0 & H1 & H2 & _ & H3 & H4 & _).
  assert (Hu : unread c1 = unread c) by (unfold unread; congruence).
  destruct r1 as [[]|e|]; [|by rewrite H1, Hu|done].
  unfold conn_read. destruct (read_loop (reads (stream c1)) (read_buf c1)) as [[a b] r2] eqn:E2.
  rewrite <- H1 in Hr. destruct (read_loop_spec _ _ _ _ _ E2 Hr) as (H5 & H6 & H7).
  fold (unread c1) in H5. rewrite Hu in H5.
  set (c2 := {| stream := _; read_buf := b; pending_writes := _ |}).
  assert (Hok2 : conn_ok c2) by (destruct H3; by split).
  assert (Hu2 : unread c2 = unread c) by done. assert (Ho2 : output c2 = output c) by (rewrite <- H4; done).
  destruct r2 as [[]|e|]; [|by rewrite Hu2|done].
  rewrite <- Hu2 in Hb. assert (Hbb : bytes_ok (read_buf c2)) by (apply Forall_app in Hb; apply Hb).
  pose proof (take_frame_spec c2 Hbb) as Ht. destruct (take_frame c2) as [c3 [[f|]|e|]]; [..|done|done].
  - destruct Ht as (Hl & Ht & Hs & Hp). assert (Hsplit : unread c2 = encode_frame f ++ unread c3).
    { unfold unread. by rewrite Hs, Ht, app_assoc. }
    rewrite <- Hu2. rewrite Hsplit in Hb. apply Forall_app in Hb as [_ Hb]. split_and!; try done.
    + destruct Hok2. split; by rewrite ?Hs, ?Hp.
    + by rewrite Hs.
    + rewrite <- Ho2. unfold output. by rewrite Hs, Hp.
  - destruct Ht as [-> Ht]. by split_and!.
Qed.

(** *** What breaks a connection

    The kernel's answers that the code calls fatal: the end of the stream, a
    write of nothing, and every error but the three transient ones. *)
Definition fatal_read (r : outcome io_error bytes) : Prop :=
  match r with Ok d => d = [] | Err e => transient (kind e) = false | Panic => True end.
Definition fatal_write (r : outcome io_error usize) : Prop :=
  match r with Ok n => n = 0 | Err e => transient (kind e) = false | Panic => True end.

(** From [c] to [c'] some answers were consumed: none of them fatal, or at
    least one. *)
Definition answered (P : list (outcome io_error bytes) -> list (outcome io_error usize) -> Prop) (c c' : ConnState) : Prop :=
  exists rs ws, reads (stream c) = rs ++ reads (stream c') /\ writes (stream c) = ws ++ writes (stream c') /\ P rs ws.
Definition healthy : ConnState -> ConnState -> Prop :=
  answered (fun rs ws => Forall (fun r => ~ fatal_read r) rs /\ Forall (fun w => ~ fatal_write w) ws).
Definition broken : ConnState -> ConnState -> Prop :=
  answered (fun rs ws => Exists fatal_read rs \/ Exists fatal_write ws).

Lemma healthy_refl c : healthy c c.
Proof. exists [], []. by repeat split; apply Forall_nil. Qed.

Lemma healthy_trans c1 c2 c3 : healthy c1 c2 -> healthy c2 c3 -> healthy c1 c3.
Proof.
  intros (rs & ws & E1 & E2 & H1 & H2) (rs' & ws' & E3 & E4 & H3 & H4). exists (rs ++ rs'), (ws ++ ws').
  rewrite E1, E2, E3, E4, <- !app_assoc. by rewrite !Forall_app.
Qed.

Lemma healthy_broken c1 c2 c3 : healthy c1 c2 -> broken c2 c3 -> broken c1 c3.
Proof.
  intros (rs & ws & E1 & E2 & _) (rs' & ws' & E3 & E4 & H). exists (rs ++ rs'), (ws ++ ws').
  rewrite E1, E2, E3, E4, <- !app_assoc, !Exists_app. tauto.
Qed.

(** A loop over answers stops with an error at a fatal one only. *)
Definition stops_at {A} (fatal : A -> Prop) (r : outcome io_error unit) (answers rest : list A) : Prop :=
  exists used, answers = used ++ rest /\
    if is_ok r then Forall (fun a => ~ fatal a) used else Exists fatal used.

Lemma stops_at_end {A} (fatal : A -> Prop) answers : stops_at fatal (Ok tt) answers answers.
Proof. exists []. split; [done|by apply Forall_nil]. Qed.

Lemma stops_at_here {A} (fatal : A -> Prop) r a (rest : list A) :
  (if is_ok r then ~ fatal a else fatal a) -> stops_at fatal r (a :: rest) rest.
Proof. intros H. exists [a]. split; [done|]. destruct (is_ok r); [by apply Forall_singleton|by left]. Qed.

Lemma stops_at_cons {A} (fatal : A -> Prop) r a (answers rest : list A) :
  ~ fatal a -> stops_at fatal r answers rest -> stops_at fatal r (a :: answers) rest.
Proof.
  intros Ha (used & -> & H). exists (a :: used). split; [done|]. destruct (is_ok r); [by constructor|by right].
Qed.

Lemma flush_loop_stops answers p s :
  let '(_, s', r) := flush_loop answers p s in stops_at fatal_write r answers (writes s').
Proof.
  revert p s. induction answers as [|a rest IH]; intros p s; cbn [flush_loop];
    (destruct (negb _); [apply stops_at_end|]); [apply stops_at_end|].
  destruct a as [n|e|]; [| |by apply stops_at_here].
  - destruct (Z.eqb_spec n 0) as [E|E]; [by apply stops_at_here|].
    match goal with |- context [flush_loop rest ?q ?x] => specialize (IH q x) end.
    destruct (flush_loop _ _ _) as [[p' s'] r]. by apply stops_at_cons.
  - destruct (kind e) eqn:Ek; try (apply stops_at_here; cbn; by rewrite Ek).
    specialize (IH p s). destruct (flush_loop rest p s) as [[p' s'] r].
    apply stops_at_cons; [cbn; by rewrite Ek|done].
Qed.

Lemma read_loop_stops answers buf :
  Forall read_ok answers -> let '(rest, _, r) := read_loop answers buf in stops_at fatal_read r answers rest.
Proof.
  intros H. revert buf. induction H as [|a rest Ha H IH]; intros buf; cbn [read_loop]; [apply stops_at_end|].
  destruct a as [d|e|]; [| |done]; cbn in Ha.
  - destruct (Z.eqb_spec (len d) 0) as [E0|E0]; [apply stops_at_here; by destruct d|].
    destruct (Z.gtb_spec (len d) 65535); [lia|]. specialize (IH (buf ++ d)).
    destruct (read_loop rest (buf ++ d)) as [[a b] r]. apply stops_at_cons; [cbn; by intros ->|done].
  - destruct (kind e) eqn:Ek; try (apply stops_at_here; cbn; by rewrite Ek);
      specialize (IH buf); destruct (read_loop rest buf) as [[a b] r];
      (apply stops_at_cons; [cbn; by rewrite Ek|done]).
Qed.

(** A connection fails exactly at a fatal answer. *)
Lemma try_read_frame_answers c :
  conn_ok c -> bytes_ok (unread c) -> Forall read_ok (reads (stream c)) ->
  let '(c', r) := try_read_frame c in if is_ok r then healthy c c' else broken c c'.
Proof.
  intros Hc Hb Hr. unfold try_read_frame, mbind, M_bind.
  destruct (conn_flush c) as [c1 r1] eqn:E1. destruct (conn_flush_spec _ _ _ E1 Hc) as (_ & Hreads & Hbuf & _ & Hok & _ & _).
  unfold conn_flush, flush_to in E1. pose proof (flush_loop_stops (writes (stream c)) (pending_writes c) (stream c)) as Hf.
  destruct (flush_loop _ _ _) as [[p s] r0]. injection E1 as <- <-. cbn [stream read_buf pending_writes] in *.
  destruct Hf as (ws & Ew & Hw).
  destruct r0 as [[]|e|]; cbn [is_ok] in *; [|exists [], ws; cbn [stream]; rewrite Hreads; auto..].
  unfold conn_read. cbn [stream read_buf pending_writes]. rewrite Hreads.
  pose proof (read_loop_stops _ (read_buf c) Hr) as Hl.
  destruct (read_loop (reads (stream c)) (read_buf c)) as [[a b] r2] eqn:E2.
  destruct (read_loop_spec _ _ _ _ _ E2 Hr) as (Hu & _). destruct Hl as (rs & Er & Hrs).
  destruct r2 as [[]|e|]; cbn [is_ok] in *; [|exists rs, ws; cbn; auto..].
  set (c2 := {| stream := _; read_buf := b; pending_writes := _ |}).
  assert (Hbb : bytes_ok (read_buf c2)) by (unfold unread in Hb; rewrite <- Hu in Hb; apply Forall_app in Hb; apply Hb).
  pose proof (take_frame_spec c2 Hbb) as Ht. destruct (take_frame c2) as [c3 [[f|]|e|]]; [..|done|done]; cbn [is_ok].
  - destruct Ht as (_ & _ & Hs & _). exists rs, ws. rewrite Hs. by cbn.
  - destruct Ht as [-> _]. by exists rs, ws.
Qed.

(** Frames are uniquely decodable. *)
Lemma encode_frame_inj f g x y :
  len f <= U16_MAX -> len g <= U16_MAX -> encode_frame f ++ x = encode_frame g ++ y -> f = g /\ x = y.
Proof.
  intros Hf Hg E. unfold encode_frame in E. rewrite <- !app_assoc in E.
  apply app_inj_1 in E as [E1 E2]; [|by rewrite !length_to_be_bytes].
  apply (f_equal from_be_bytes) in E1. unfold U16_MAX in *. pose proof (len_nonneg f). pose proof (len_nonneg g).
  rewrite !from_to_be in E1 by (change (256 ^ Z.of_nat 2) with 65536; lia).
  by apply app_inj_1 in E2; [|unfold len in E1; lia].
Qed.

Abbreviation encode_frames fs := (concat (encode_frame <$> fs)) (only parsing).

Lemma encode_frames_prefix fs gs x y :
  Forall (fun f => len f <= U16_MAX) fs -> Forall (fun f => len f <= U16_MAX) gs ->
  encode_frames fs ++ x ++ y = encode_frames gs -> exists hs, gs = fs ++ hs /\ x ++ y = encode_frames hs.
Proof.
  intros Hf. revert gs. induction Hf as [|f fs Hl Hf IH]; intros gs Hg E; [by exists gs|].
  destruct Hg as [|g gs Hl' Hg]; [by cbn in E|]. cbn [fmap list_fmap concat] in E. rewrite <- app_assoc in E.
  apply encode_frame_inj in E as [-> E]; [|done..]. destruct (IH gs Hg E) as (hs & -> & H). by exists hs.
Qed.

Definition queue_ok (c : ConnState) : Prop :=
  conn_ok c /\ limit (pending_writes c) < U64_MAX /\ len (waiting (pending_writes c)) <= limit (pending_writes c).

(** Queueing a frame adds the whole encoding to the output or nothing. *)
Lemma queue_frame_spec f c c' r :
  queue_frame f c = (c', r) -> queue_ok c ->
  queue_ok c' /\ limit (pending_writes c') = limit (pending_writes c) /\ unread c' = unread c /\
  ((output c' = output c ++ encode_frame f /\ len f <= U16_MAX) \/ (output c' = output c /\ is_ok r = false)).
Proof.
  unfold queue_frame, mbind, M_bind. intros E (Hc & Hlim & Hq).
  destruct (conn_flush c) as [c1 r1] eqn:E1. destruct (conn_flush_spec _ _ _ E1 Hc) as (_ & H1 & H2 & H3 & H4 & H5 & H6).
  assert (Hq1 : queue_ok c1) by (split_and!; [done|lia..]).
  assert (Hu1 : unread c1 = unread c) by (unfold unread; congruence).
  destruct r1 as [[]|e|]; [|injection E as <- <-; split_and!; [done..|by right]|injection E as <- <-; split_and!; [done..|by right]].
  destruct (conn_enqueue f c1) as [c2 r2] eqn:E2.
  destruct (conn_enqueue_spec _ _ _ _ E2 H4 ltac:(lia)) as (J1 & J2 & J3 & J4 & J5).
  destruct r2 as [[]|e|]; [|injection E as <- <-; subst c2; split_and!; [done..|by right]|injection E as <- <-; subst c2; split_and!; [done..|by right]].
  destruct J5 as (J5 & J6 & J7).
  destruct (conn_flush_spec _ _ _ E J4) as (_ & K1 & K2 & K3 & K4 & K5 & K6).
  split_and!; [split_and!; [done|lia..]|congruence|unfold unread in *; congruence|left; split; [congruence|done]].
Qed.

(** A sender: the frames for which [queue_frame] reports success. *)
Fixpoint send_frames (frames : list bytes) (c : ConnState) : ConnState * list bytes :=
  match frames with
  | [] => (c, [])
  | f :: frames =>
      let '(c, r) := queue_frame f c in
      let '(c, sent) := send_frames frames c in
      (c, if is_ok r then f :: sent else sent)
  end.

(** A receiver: the frames returned by [n] calls of [try_read_frame]. *)
Fixpoint read_frames (n : nat) (c : ConnState) : ConnState * list bytes :=
  match n with
  | O => (c, [])
  | S n =>
      let '(c, r) := try_read_frame c in
      let '(c, frames) := read_frames n c in
      (c, match r with Ok (Some f) => f :: frames | _ => frames end)
  end.

Lemma send_frames_spec frames c c' sent :
  send_frames frames c = (c', sent) -> queue_ok c ->
  queue_ok c' /\ limit (pending_writes c') = limit (pending_writes c) /\
  exists committed, output c' = output c ++ encode_frames committed /\
    sent `sublist_of` committed /\ committed `sublist_of` frames /\ Forall (fun f => len f <= U16_MAX) committed.
Proof.
  revert c c' sent. induction frames as [|f frames IH]; intros c c' sent; cbn [send_frames].
  { intros [= <- <-] H. split; [done|]. split; [done|]. exists []. by rewrite app_nil_r. }
  destruct (queue_frame f c) as [c1 r] eqn:E1. destruct (send_frames frames c1) as [c2 s2] eqn:E2.
  intros [= <- <-] H. destruct (queue_frame_spec _ _ _ _ E1 H) as (H1 & Hlim & _ & Hout).
  destruct (IH _ _ _ E2 H1) as (H2 & Hlim2 & committed & Ho & Hs & Hc & Hl).
  split; [done|]. split; [congruence|]. destruct Hout as [[Hout Hf]|[Hout Hr]].
  - exists (f :: committed). rewrite Ho, Hout, <- app_assoc. split; [done|].
    split_and!; [destruct (is_ok r); [by apply sublist_skip|by apply sublist_cons]|by apply sublist_skip|by constructor].
  - exists committed. rewrite Ho, Hout, Hr. split_and!; [done..|by apply sublist_cons|done].
Qed.

Lemma read_frames_spec n c c' fs :
  read_frames n c = (c', fs) -> conn_ok c -> bytes_ok (unread c) -> Forall read_ok (reads (stream c)) ->
  conn_ok c' /\ bytes_ok (unread c') /\ Forall read_ok (reads (stream c')) /\
  unread c = encode_frames fs ++ unread c' /\ Forall (fun f => len f <= U16_MAX) fs.
Proof.
  revert c c' fs. induction n as [|n IH]; intros c c' fs; cbn [read_frames]; [by intros [= <- <-]|].
  intros E Hc Hb Hr. pose proof (try_read_frame_spec c Hc Hb Hr) as H. destruct (try_read_frame c) as [c1 r] eqn:Et.
  destruct (read_frames n c1) as [c2 fs2] eqn:E2. injection E as <- <-. destruct H as (H1 & H2 & H3 & _ & H5).
  destruct (IH _ _ _ E2 H1 H2 H3) as (J1 & J2 & J3 & J4 & J5). split_and!; try done.
  - destruct r as [[f|]|e|]; [destruct H5 as [_ ->]; cbn; by rewrite <- app_assoc, <- J4|..].
    + destruct H5 as [H5 _]. congruence.
    + congruence.
    + done.
  - destruct r as [[f|]|e|]; try done. constructor; [apply H5|done].
Qed.

(** ** Properties *)

(** C13: framing survives any fragmentation of the stream: whatever partial
    writes the sender's kernel makes and however the receiver's kernel cuts
    the bytes, the receiver gets whole frames, each one once and in order,
    from the frames the sender queued, among them every frame reported as
    sent; once all bytes have arrived and no further frame is found, it has
    got all of them.  The queue stays within its limit. *)
Theorem tcp_framing frames ss sr n cs sent cr received :
  accepted ss = [] -> Forall write_ok (writes ss) -> send_frames frames (ConnState_new ss) = (cs, sent) ->
  Forall (fun f => bytes_ok f) frames ->
  Forall write_ok (writes sr) -> Forall read_ok (reads sr) -> read_frames n (ConnState_new sr) = (cr, received) ->
  incoming (reads sr) `prefix_of` accepted (stream cs) ->
  len (waiting (pending_writes cs)) <= MAX_PENDING_WRITE_BYTES /\
  exists committed, sent `sublist_of` committed /\ committed `sublist_of` frames /\
    received `prefix_of` committed /\
    (incoming (reads sr) = output cs -> (try_read_frame cr).2 = Ok None ->
     reads (stream (try_read_frame cr).1) = [] -> received = committed).
Proof.
  intros Ha Hws Es Hf Hwr Hr Er Hpre.
  assert (Hnew : forall s, Forall write_ok (writes s) -> conn_ok (ConnState_new s)) by (intros; by split).
  destruct (send_frames_spec _ _ _ _ Es) as ((_ & _ & Hq) & Hlim & committed & Hout & Hs & Hc & Hl);
    [split_and!; [auto|done..]|].
  rewrite Hlim in Hq. split; [exact Hq|]. exists committed. split_and!; [done..| |].
  all: assert (Hout' : output cs = encode_frames committed) by (rewrite Hout; unfold output; cbn; by rewrite Ha).
  all: assert (Hcb : bytes_ok (output cs)).
  1, 3: rewrite Hout'; apply Forall_concat, Forall_fmap, Forall_forall; intros f Hfc; apply Forall_app; split;
    [apply to_be_bytes_ok|]; rewrite Forall_forall in Hf; eapply Hf, elem_of_sublist; eassumption.
  all: assert (Hu : bytes_ok (unread (ConnState_new sr))) by
    (destruct Hpre as [k Hk]; unfold output in Hcb; rewrite Hk in Hcb; rewrite !Forall_app in Hcb; apply Hcb).
  all: destruct (read_frames_spec _ _ _ _ Er (Hnew _ Hwr) Hu Hr) as (J1 & J2 & J3 & J4 & J5).
  - destruct Hpre as [k Hk]. unfold output in Hout'. rewrite Hk in Hout'.
    change (incoming (reads sr)) with (unread (ConnState_new sr)) in Hout'. rewrite J4, <- !app_assoc in Hout'.
    apply encode_frames_prefix in Hout' as (hs & -> & _); [|done..]. by apply prefix_app_r.
  - intros Hall Hnone Hreads. change (incoming (reads sr)) with (unread (ConnState_new sr)) in Hall.
    rewrite J4, Hout', <- (app_nil_r (unread cr)) in Hall.
    apply encode_frames_prefix in Hall as (hs & -> & Hrest); [|done..]. rewrite app_nil_r in Hrest.
    pose proof (try_read_frame_spec cr J1 J2 J3) as Ht. destruct (try_read_frame cr) as [c' r]. cbn in *. subst r.
    destruct Ht as (_ & _ & _ & _ & Hu' & Hno). destruct hs as [|h hs]; [by rewrite app_nil_r|]. exfalso.
    apply (Hno h (encode_frames hs)); [rewrite Forall_app, Forall_cons in Hl; apply Hl|].
    unfold unread in Hu' at 1. rewrite Hreads in Hu'. cbn in Hu'. rewrite app_nil_r in Hu'. by rewrite Hu', Hrest.
Qed.

(** What a receiver may assume of a connection, and of all of them: every
    address has its own connection. *)
Definition mutex_ok (m : Mutex) : Prop :=
  conn_ok (data m) /\ bytes_ok (unread (data m)) /\ Forall read_ok (reads (stream (data m))).
Record transport_ok (t : TcpTransport) : Prop := {
  t_conns : Forall mutex_ok (conns t);
  t_index : forall a i, connections t !! a = Some i -> is_Some (conns t !! i);
  t_inj : forall a b i, connections t !! a = Some i -> connections t !! b = Some i -> a = b }.

(** The connection of an address is still known, with all its bytes, and its
    kernel reported nothing fatal ... *)
Definition conn_kept (t t' : TcpTransport) (a : SocketAddr) (i : nat) : Prop :=
  connections t' !! a = Some i /\ exists m m', conns t !! i = Some m /\ conns t' !! i = Some m' /\
    healthy (data m) (data m') /\ unread (data m') = unread (data m).
(** ... or it was dropped, with whatever it had not delivered, and its kernel
    did report something fatal. *)
Definition conn_dropped (t t' : TcpTransport) (a : SocketAddr) (i : nat) : Prop :=
  connections t' !! a = None /\ exists m m', conns t !! i = Some m /\ conns t' !! i = Some m' /\ broken (data m) (data m').

(** How the connections other than that of [source] were served. *)
Record served (source : option SocketAddr) (t t' : TcpTransport) : Prop := {
  s_known : forall a i, connections t !! a = Some i -> source <> Some a -> conn_kept t t' a i \/ conn_dropped t t' a i;
  s_new : forall a, connections t !! a = None -> connections t' !! a = None;
  s_rest : forall j, (forall a, connections t !! a <> Some j) -> conns t' !! j = conns t !! j }.
Abbreviation quiet := (served None) (only parsing).

Lemma served_refl t : transport_ok t -> quiet t t.
Proof.
  intros Ht. split; [|done..]. intros a i Ha _. left. split; [done|]. destruct (t_index _ Ht a i Ha) as [m Hm].
  exists m, m. split_and!; [done..|apply healthy_refl|done].
Qed.

Lemma quiet_sub t t' a i : quiet t t' -> connections t' !! a = Some i -> connections t !! a = Some i.
Proof.
  intros H Ha. destruct (connections t !! a) as [j|] eqn:E; [|by rewrite (s_new _ _ _ H a E) in Ha].
  destruct (s_known _ _ _ H a j E) as [[Hk _]|[Hd _]]; [done|congruence..].
Qed.

Lemma served_trans source t t1 t2 : transport_ok t -> quiet t t1 -> served source t1 t2 -> served source t t2.
Proof.
  intros Ht H1 H2. split.
  - intros a i Ha Hs. destruct (s_known _ _ _ H1 a i Ha) as [[E (m & m1 & Hm & Hm1 & Hh & Hu)]|[E (m & m1 & Hm & Hm1 & Hb)]]; [done|..].
    + destruct (s_known _ _ _ H2 a i E Hs) as [[E2 (m1' & m2 & Hm1' & Hm2 & Hh2 & Hu2)]|[E2 (m1' & m2 & Hm1' & Hm2 & Hb2)]];
        simplify_eq; [left|right]; (split; [done|]); exists m, m2.
      * split_and!; [done..|by eapply healthy_trans|congruence].
      * split_and!; [done..|by eapply healthy_broken].
    + right. split; [by apply (s_new _ _ _ H2)|]. exists m, m1. split_and!; try done. rewrite (s_rest _ _ _ H2); [done|].
      intros b Hb'. pose proof (t_inj _ Ht a b i Ha (quiet_sub _ _ _ _ H1 Hb')) as <-. congruence.
  - intros a Ha. by apply (s_new _ _ _ H2), (s_new _ _ _ H1).
  - intros j Hj. rewrite (s_rest _ _ _ H2), (s_rest _ _ _ H1); [done..|].
    intros b Hb. by apply (Hj b), (quiet_sub _ _ _ _ H1).
Qed.

Lemma set_conn_ok t i m c :
  transport_ok t -> conns t !! i = Some m -> mutex_ok {| data := c; conn_poisoned := false |} ->
  transport_ok (set_conn i c t).
Proof.
  intros [H1 H2 H3] Hi Hc. split; cbn; [by apply Forall_insert| |done].
  intros a j Hj. apply lookup_lt_is_Some. rewrite length_insert. by eapply lookup_lt_is_Some, H2.
Qed.

Lemma remove_conn_ok a t : transport_ok t -> transport_ok (remove_conn a t).
Proof.
  intros [H1 H2 H3]. split; [done|..]; cbn.
  - intros b i [_ Hb]%lookup_delete_Some. by eapply H2.
  - intros b b' i [_ Hb]%lookup_delete_Some [_ Hb']%lookup_delete_Some. by eapply H3.
Qed.

(** Serving one connection is serving none of the others. *)
Lemma serve_one source t a i m c (t' : TcpTransport) :
  transport_ok t -> connections t !! a = Some i -> conns t !! i = Some m ->
  conns t' = <[i := {| data := c; conn_poisoned := false |}]> (conns t) ->
  (source = Some a /\ connections t' = connections t \/
   connections t' = connections t /\ healthy (data m) c /\ unread c = unread (data m) \/
   connections t' = delete a (connections t) /\ broken (data m) c) ->
  served source t t'.
Proof.
  intros Ht Ha Hm Hc H.
  assert (Hi : conns t' !! i = Some {| data := c; conn_poisoned := false |}).
  { rewrite Hc. apply list_lookup_insert_eq. by eapply lookup_lt_Some. }
  assert (Hoth : forall b, b <> a -> connections t' !! b = connections t !! b).
  { intros b Hb. destruct H as [[_ ->]|[[-> _]|[-> _]]]; [done..|by rewrite lookup_delete_ne]. }
  split.
  - intros b j Hb Hs. destruct (decide (b = a)) as [->|Hne].
    + simplify_eq. destruct H as [[-> _]|[(E & Hh & Hu)|[E Hbr]]]; [done|left|right]; unfold conn_kept, conn_dropped; rewrite E.
      * split; [done|]. by eexists m, _.
      * rewrite lookup_delete_eq. split; [done|]. by eexists m, _.
    + left. split; [by rewrite Hoth|]. destruct (t_index _ Ht b j Hb) as [mj Hj]. exists mj, mj.
      split_and!; [done| |apply healthy_refl|done]. rewrite Hc, list_lookup_insert_ne; [done|].
      intros <-. by apply Hne, (t_inj _ Ht b a i).
  - intros b Hb. rewrite Hoth; [done|]. intros ->. congruence.
  - intros j Hj. rewrite Hc, list_lookup_insert_ne; [done|]. intros <-. by apply (Hj a).
Qed.

(** One frame of the connection known at [p]'s source address was taken. *)
Definition delivered (buffer : usize) (t t' : TcpTransport) (p : ReceivedPacket) (d : bytes) : Prop :=
  exists i m f m', connections t !! rp_source p = Some i /\ conns t !! i = Some m /\ conns t' !! i = Some m' /\
    unread (data m) = encode_frame f ++ unread (data m') /\ len f <= U16_MAX /\
    rp_bytes p = Z.min (len f) buffer /\ d = take (Z.to_nat (rp_bytes p)) f /\
    connections t' !! rp_source p = Some i /\ healthy (data m) (data m') /\ served (Some (rp_source p)) t t'.

Lemma delivered_after buffer t t1 t' p d :
  quiet t t1 -> transport_ok t -> delivered buffer t1 t' p d -> delivered buffer t t' p d.
Proof.
  intros Hq Ht (i & m1 & f & m' & Hp & Hm1 & Hm' & Hu & Hl & Hn & Hd & Hp' & Hh & Hs).
  pose proof (quiet_sub _ _ _ _ Hq Hp) as Hp0.
  destruct (s_known _ _ _ Hq _ i Hp0) as [[_ (m & m1' & Hm & Hm1' & Hh1 & Hu1)]|[E _]]; [done| |congruence].
  simplify_eq. exists i, m, f, m'. split_and!; try done; [congruence|by eapply healthy_trans|by eapply served_trans].
Qed.

(** No known connection has a whole frame in its buffer. *)
Definition no_frame (c : ConnState) : Prop :=
  forall f rest, len f <= U16_MAX -> read_buf c <> encode_frame f ++ rest.
Definition nothing_ready (t : TcpTransport) : Prop :=
  forall a i m, connections t !! a = Some i -> conns t !! i = Some m -> conn_poisoned m = false -> no_frame (data m).

(** The result of a pass over [entries]. *)
Definition pass_post (buffer : usize) (entries : list (SocketAddr * nat)) (t t' : TcpTransport)
    (res : option (ReceivedPacket * bytes)) : Prop :=
  transport_ok t' /\ (forall j, j ∉ entries.*2 -> conns t' !! j = conns t !! j) /\
  match res with
  | None => quiet t t' /\ forall i m, i ∈ entries.*2 -> (exists a, connections t' !! a = Some i) -> conns t' !! i = Some m ->
              conn_poisoned m = false -> no_frame (data m)
  | Some (p, d) => delivered buffer t t' p d
  end.

(** One round, and the rest of the pass. *)
Lemma pass_post_cons buffer a i entries t t1 t' res :
  transport_ok t -> quiet t t1 -> i ∉ entries.*2 -> (forall j, j <> i -> conns t1 !! j = conns t !! j) ->
  (forall m, (exists b, connections t1 !! b = Some i) -> conns t1 !! i = Some m -> conn_poisoned m = false -> no_frame (data m)) ->
  pass_post buffer entries t1 t' res -> pass_post buffer ((a, i) :: entries) t t' res.
Proof.
  intros Ht Hq Hi Hj Hf (H1 & H2 & H3). split; [done|]. split.
  { intros j [Hji Hjn]%not_elem_of_cons. rewrite H2 by done. by apply Hj. }
  destruct res as [[p d]|]; [by eapply delivered_after|]. destruct H3 as [H3 H4].
  split; [by eapply served_trans|]. intros j m [->|Hin]%elem_of_cons [b Hb] Hm Hp; [|eapply H4; eauto].
  cbn in *. rewrite H2 in Hm by done. apply Hf; [|done..]. exists b. by eapply quiet_sub.
Qed.

(** Two entries never share a connection. *)
Lemma entry_fresh t a i entries :
  transport_ok t -> a ∉ entries.*1 -> (forall b j, (b, j) ∈ (a, i) :: entries -> connections t !! b = Some j) ->
  i ∉ entries.*2.
Proof.
  intros Ht Hn He ([b j] & -> & Hb)%list_elem_of_fmap. cbn in *.
  pose proof (t_inj _ Ht a b j ltac:(by apply He; left) ltac:(by apply He; right)) as ->.
  apply Hn, list_elem_of_fmap. by exists (b, j).
Qed.

Lemma recv_pass_spec buffer entries t :
  transport_ok t -> NoDup entries.*1 -> (forall a i, (a, i) ∈ entries -> connections t !! a = Some i) ->
  exists t' res, recv_pass buffer entries t = (t', Ok res) /\ pass_post buffer entries t t' res.
Proof.
  revert t. induction entries as [|[a i] entries IH]; intros t Ht Hn He.
  { exists t, None. split; [done|]. split; [done|]. split; [done|]. split; [by apply served_refl|].
    by intros i m ?%not_elem_of_nil. }
  cbn in Hn. apply NoDup_cons in Hn as [Hn1 Hn].
  pose proof (He a i ltac:(by left)) as Ha. destruct (t_index _ Ht a i Ha) as [m Hm].
  pose proof (entry_fresh t a i entries Ht Hn1 He) as Hi.
  assert (Hgo : forall t1, transport_ok t1 -> quiet t t1 -> (forall b, b <> a -> connections t1 !! b = connections t !! b) ->
    (forall j, j <> i -> conns t1 !! j = conns t !! j) ->
    (forall m, (exists b, connections t1 !! b = Some i) -> conns t1 !! i = Some m -> conn_poisoned m = false -> no_frame (data m)) ->
    exists t' res, recv_pass buffer entries t1 = (t', Ok res) /\ pass_post buffer ((a, i) :: entries) t t' res).
  { intros t1 Ht1 Hq Hb Hj Hf. destruct (IH t1 Ht1 Hn) as (t' & res & E & Hp).
    { intros b j Hbj. rewrite Hb; [apply He; by right|]. intros ->. apply Hn1, list_elem_of_fmap. by exists (a, j). }
    exists t', res. split; [done|]. by eapply pass_post_cons. }
  cbn [recv_pass]. rewrite Hm. destruct (conn_poisoned m) eqn:Epo.
  { apply Hgo; try done; [by apply served_refl|]. intros m' _ Hm'. simplify_eq. congruence. }
  pose proof (t_conns _ Ht) as Hall. rewrite Forall_lookup in Hall. destruct (Hall i m Hm) as (Hc & Hb & Hr).
  pose proof (try_read_frame_spec (data m) Hc Hb Hr) as Hspec. pose proof (try_read_frame_answers (data m) Hc Hb Hr) as Hans.
  destruct (try_read_frame (data m)) as [c r]. destruct Hspec as (J1 & J2 & J3 & _ & J5).
  assert (Ht' : transport_ok (set_conn i c t)) by (eapply set_conn_ok; eauto; by split_and!).
  assert (Hset : conns (set_conn i c t) !! i = Some {| data := c; conn_poisoned := false |}).
  { apply list_lookup_insert_eq. by eapply lookup_lt_Some. }
  assert (Hj : forall j, j <> i -> conns (set_conn i c t) !! j = conns t !! j).
  { intros j Hji. by apply list_lookup_insert_ne. }
  destruct r as [[f|]|e|]; cbn [is_ok] in Hans; [..|done].
  - eexists _, _. split; [done|]. split; [done|]. split; [intros j [Hji _]%not_elem_of_cons; by apply Hj|].
    destruct J5 as [Hl Hu]. exists i, m, f, {| data := c; conn_poisoned := false |}. cbn [rp_source rp_bytes data].
    split_and!; try done. eapply (serve_one _ t a i m c); eauto.
  - destruct J5 as [Hu Hno]. apply Hgo; try done; [eapply (serve_one _ t a i m c); eauto 6|].
    intros m' _ Hm' _. rewrite Hset in Hm'. injection Hm' as <-. exact Hno.
  - apply Hgo; [by apply remove_conn_ok|eapply (serve_one _ t a i m c); eauto 6| |done|].
    + intros b Hba. cbn. by rewrite lookup_delete_ne.
    + intros m' [b Hba]. apply (lookup_delete_Some (connections t)) in Hba as [Hba Hb']. destruct Hba. by apply (t_inj _ Ht a b i).
Qed.

(** What receiving does. *)
Definition received (fuel : nat) (buffer : usize) (t t' : TcpTransport) (res : option (ReceivedPacket * bytes)) : Prop :=
  transport_ok t' /\
  match res with
  | None => quiet t t' /\ (fuel <> 0%nat -> nothing_ready t')
  | Some (p, d) => delivered buffer t t' p d
  end.

Lemma tcp_recv_spec {OS : TcpOs} order fuel buffer t :
  (forall m, order m ≡ₚ map_to_list m) -> transport_ok t ->
  exists t' res, tcp_recv_loop order fuel buffer t = (t', Ok res) /\ received fuel buffer t t' res.
Proof.
  intros Ho. revert t. induction fuel as [|fuel IH]; intros t Ht; cbn [tcp_recv_loop].
  { exists t, None. split; [done|]. split; [done|]. split; [by apply served_refl|done]. }
  unfold mget, mbind, M_bind.
  destruct (recv_pass_spec buffer (order (connections t)) t Ht) as (t1 & r & E1 & Ht1 & Hrest & H1).
  { rewrite Ho. apply NoDup_fst_map_to_list. }
  { intros a i Hi. rewrite Ho in Hi. by apply elem_of_map_to_list in Hi. }
  rewrite E1. destruct r as [[p d]|]; [by eexists _, _|]. destruct H1 as [Hq Hready].
  destruct (IH t1 Ht1) as (t' & r & E' & Ht' & H'). exists t', r. split; [done|]. split; [done|].
  destruct r as [[p d]|]; [by eapply delivered_after|]. destruct H' as [Hq' Hr'].
  split; [by eapply served_trans|]. intros _. destruct fuel as [|fuel]; [|by apply Hr'].
  cbn in E'. injection E' as <-. intros a i m Ha Hm Hp. apply (Hready i m); eauto.
  rewrite Ho. apply list_elem_of_fmap. exists (a, i). split; [done|]. apply elem_of_map_to_list. by apply (quiet_sub t t1).
Qed.

(** C28: receiving serves the connections without mixing them: the loop never
    fails or panics, and a packet is one whole frame - the next one of the
    connection known at the reported source address, cut to the caller's
    buffer; that connection stays known with the bytes behind the frame.
    Every other connection stays known with all its bytes, unless its kernel
    reported something fatal (the end of the stream, a write of nothing, or
    an error that is not transient): only then is it dropped, with whatever
    it had not delivered.  No address becomes known, and passes without a
    packet end with no whole frame left in the buffer of a connection. *)
Theorem tcp_recv_source {OS : TcpOs} order fuel buffer t :
  (forall m, order m ≡ₚ map_to_list m) -> transport_ok t ->
  exists t' res, tcp_recv_loop order fuel buffer t = (t', Ok res) /\ received fuel buffer t t' res.
Proof. apply tcp_recv_spec. Qed.

(** ** Witnesses *)

Definition wit_stream (w : list (outcome io_error usize)) (r : list (outcome io_error bytes)) : TcpStream :=
  {| reads := r; writes := w; accepted := [] |}.

(** The sender's kernel takes three bytes, blocks, takes the rest; the
    receiver's delivers the bytes in other pieces. *)
Definition wit_sender : TcpStream := wit_stream [Ok 3; Err would_block; Err (IoError Interrupted ""); Ok 2; Ok 100; Ok 100] [].
Definition wit_receiver : TcpStream := wit_stream [] [Ok [0]; Ok [2; 7; 8; 0]; Err would_block; Ok [1; 9]].
Definition wit_sent := send_frames [[7; 8]; [9]] (ConnState_new wit_sender).
Definition wit_received := read_frames 2 (ConnState_new wit_receiver).

Lemma tcp_framing_witness :
  wit_sent.2 = [[7; 8]; [9]] /\ exists committed, committed `sublist_of` [[7; 8]; [9]] /\ wit_received.2 = committed.
Proof.
  split; [reflexivity|].
  destruct (tcp_framing [[7; 8]; [9]] wit_sender wit_receiver 2 wit_sent.1 wit_sent.2 wit_received.1 wit_received.2)
    as [_ (committed & _ & H1 & _ & H2)].
  - reflexivity.
  - repeat (apply Forall_cons_2; [done|]); apply Forall_nil_2.
  - reflexivity.
  - repeat (apply Forall_cons_2; [repeat (apply Forall_cons_2; [done|]); apply Forall_nil_2|]). apply Forall_nil_2.
  - apply Forall_nil_2.
  - repeat (apply Forall_cons_2; [done|]); apply Forall_nil_2.
  - reflexivity.
  - by exists [].
  - exists committed. split; [exact H1|]. apply H2; reflexivity.
Defined.

(** A peer that sends two frames and closes: the end of the stream is seen
    before the frames are cut, so both are lost with the connection. *)
Example eof_drops_buffered_frames :
  (try_read_frame (ConnState_new (wit_stream [] [Ok (encode_frame [7] ++ encode_frame [8]); Ok []]))).2
  = Err (IoError ConnectionReset "peer closed").
Proof. reflexivity. Qed.

Definition wit_tcp : TcpTransport :=
  insert_conn (SA4 1 2) (ConnState_new wit_receiver)
    {| listener := SA4 0 7; connections := ∅; conns := [] |}.
Definition ref_tcp : TcpOs := {| tcp_bind a := Ok a; connect_timeout _ _ := Ok wit_sender |}.

(** One connection has frames, another one is closed by its peer. *)
Definition wit_tcp2 : TcpTransport := insert_conn (SA4 1 3) (ConnState_new (wit_stream [] [Ok [0; 1; 5]; Ok []])) wit_tcp.

Lemma wit_tcp2_ok : transport_ok wit_tcp2.
Proof.
  assert (H : connections wit_tcp2 = {[SA4 1 3 := 1%nat; SA4 1 2 := 0%nat]}) by reflexivity.
  split.
  - repeat apply Forall_cons_2; [..|apply Forall_nil_2]; (split_and!;
      [split; [done|apply Forall_nil_2]|vm_compute; repeat constructor; discriminate|
       repeat (apply Forall_cons_2; [done|]); apply Forall_nil_2]).
  - intros a i. rewrite H. intros [[_ <-]|[_ [_ <-]%lookup_singleton_Some]]%lookup_insert_Some; by eexists.
  - intros a b i. rewrite H. intros [[<- <-]|[_ [<- <-]%lookup_singleton_Some]]%lookup_insert_Some
      [[<- E]|[_ [<- E]%lookup_singleton_Some]]%lookup_insert_Some; done.
Qed.

Lemma tcp_recv_source_witness :
  exists t' p, tcp_recv_loop map_to_list 3 1500 wit_tcp2 = (t', Ok (Some (p, [7; 8]))) /\ rp_source p = SA4 1 2 /\
    conn_dropped wit_tcp2 t' (SA4 1 3) 1.
Proof.
  destruct (tcp_recv_source (OS := ref_tcp) map_to_list 3 1500 wit_tcp2) as (t' & res & E & _ & H).
  - done.
  - exact wit_tcp2_ok.
  - assert (Hv : (tcp_recv_loop map_to_list 3 1500 wit_tcp2).2
                 = Ok (Some ({| rp_bytes := 2; rp_source := SA4 1 2 |}, [7; 8]))) by (vm_compute; reflexivity).
    assert (Hm : connections (tcp_recv_loop map_to_list 3 1500 wit_tcp2).1 !! SA4 1 3 = None) by (vm_compute; reflexivity).
    rewrite E in Hv, Hm. cbn in Hv, Hm. injection Hv as ->. exists t', {| rp_bytes := 2; rp_source := SA4 1 2 |}.
    split; [exact E|]. split; [reflexivity|]. destruct H as (_ & _ & _ & _ & _ & _ & _ & _ & _ & _ & _ & _ & _ & Hs).
    destruct (s_known _ _ _ Hs (SA4 1 3) 1%nat) as [[Hk _]|Hd]; [reflexivity|discriminate|congruence|exact Hd].
Defined.
