(* ===== verification/Ffi.v ===== *)
(** * C ABI ([src/src/ffi.rs])

    One definition per exported function.  A pointer argument is an [option]
    ([None] is null); a call into the host is recorded in [host_calls], and
    the host's answers are functions of that history.  [now] and [clock] are
    the clock readings of a call. *)

From Stdlib Require Import Ascii.
From S2P Require Import Prelude Net PeerState Auth Replay Noise Sessions SessionInv.
From S2P Require Import Std Config Router Engine Scheduler.

Definition HW_CORE_ABI_VERSION : u32 := 3.
Definition ERROR_MESSAGE_CAPACITY : nat := 512.

Module HwStatus.
Inductive t := Ok | InvalidArgument | InvalidState | ConfigError | EngineError | InternalError | Panic.
Definition code (s : t) : Z :=
  match s with
  | Ok => 0 | InvalidArgument => 1 | InvalidState => 2 | ConfigError => 3 | EngineError => 4
  | InternalError => 5 | Panic => 6
  end.
End HwStatus.

(** [c_char] is signed: a byte above 127 becomes negative. *)
Definition as_c_char (b : Z) : Z := if b <? 128 then b else b - 256.

Record HwError := { he_code : Z; he_message : list Z }.
Definition HwError_default : HwError :=
  {| he_code := HwStatus.code HwStatus.Ok; he_message := replicate ERROR_MESSAGE_CAPACITY 0 |}.

Record FfiFailure := Failure { status : HwStatus.t; fmessage : string }.

(** ** Endpoints *)

Record HwEndpoint := { family : u8; he_address : list u8; he_port : u16; scope_id : u32 }.
Definition HwEndpoint_default : HwEndpoint :=
  {| family := 0; he_address := replicate 16 0; he_port := 0; scope_id := 0 |}.

(** [octets()] of an address is its big-endian bytes. *)
Definition endpoint_to_ffi (endpoint : SocketAddr) : HwEndpoint :=
  match endpoint with
  | SA4 ip port => {| family := 4; he_address := to_be_bytes 4 ip ++ replicate 12 0; he_port := port; scope_id := 0 |}
  | SA6 ip port _ scope => {| family := 6; he_address := to_be_bytes 16 ip; he_port := port; scope_id := scope |}
  end.

Definition endpoint_from_ffi (endpoint : HwEndpoint) : outcome FfiFailure SocketAddr :=
  if family endpoint =? 4 then Ok (SA4 (from_be_bytes (take 4 (he_address endpoint))) (he_port endpoint))
  else if family endpoint =? 6
  then Ok (SA6 (from_be_bytes (he_address endpoint)) (he_port endpoint) 0 (scope_id endpoint))
  else Err (Failure HwStatus.InvalidArgument
              ("unsupported endpoint address family: " +:+ of_chars (fmt_dec (family endpoint)))).

(** ** Errors and borrowed arguments *)

(** What a call leaves in the caller's error slot. *)
Definition clear_error (error : option HwError) : option HwError := (fun _ => HwError_default) <$> error.

Definition bytes_of_string (s : string) : list Z := code <$> chars_of s.

Definition write_error (error : option HwError) (failure : FfiFailure) : option HwError :=
  (fun _ =>
     let bytes := bytes_of_string (fmessage failure) in
     let length := Nat.min (length bytes) (ERROR_MESSAGE_CAPACITY - 1) in
     {| he_code := HwStatus.code (status failure);
        he_message := (as_c_char <$> take length bytes) ++ drop length (replicate ERROR_MESSAGE_CAPACITY 0) |})
    <$> error.

(** [guarded_status]: the operation's result, its status, and the error slot. *)
Definition guarded_status {S} (error : option HwError) (r : S * outcome FfiFailure unit)
    : S * HwStatus.t * option HwError :=
  let error := clear_error error in
  match r with
  | (s, Ok _) => (s, HwStatus.Ok, error)
  | (s, Err failure) => (s, status failure, write_error error failure)
  | (s, Panic) =>
      let failure := Failure HwStatus.Panic "Rust core panicked across ABI call" in
      (s, status failure, write_error error failure)
  end.

(** A pointer and a length; the pointer of a nonempty slice gives at least
    [bs_length] readable bytes. *)
Record BorrowedSlice := { bs_pointer : option bytes; bs_length : usize }.

Definition borrowed_bytes (b : BorrowedSlice) (name : string) : outcome FfiFailure bytes :=
  if bs_length b =? 0 then Ok [] else
  match bs_pointer b with
  | None => Err (Failure HwStatus.InvalidArgument (name +:+ " must not be null when length is nonzero"))
  | Some data => Ok (take (Z.to_nat (bs_length b)) data)
  end.

Definition within (lo hi b : Z) : bool := (lo <=? b) && (b <=? hi).

(** The well-formed byte sequences of UTF-8, as [str::from_utf8] accepts them. *)
Fixpoint utf8_valid (l : bytes) : bool :=
  match l with
  | [] => true
  | a :: l =>
      if within 0 127 a then utf8_valid l else
      match l with
      | [] => false
      | b :: l =>
          if within 194 223 a then within 128 191 b && utf8_valid l else
          match l with
          | [] => false
          | c :: l =>
              if within 224 239 a
              then within (if a =? 224 then 160 else 128) (if a =? 237 then 159 else 191) b
                   && within 128 191 c && utf8_valid l
              else
              match l with
              | [] => false
              | d :: l =>
                  within 240 244 a
                  && within (if a =? 240 then 144 else 128) (if a =? 244 then 143 else 191) b
                  && within 128 191 c && within 128 191 d && utf8_valid l
              end
          end
      end
  end.

Definition string_of_bytes (l : bytes) : string := of_chars ((fun b => ascii_of_nat (Z.to_nat b)) <$> l).

Definition from_utf8 (l : bytes) : option string := if utf8_valid l then Some (string_of_bytes l) else None.

Definition borrowed_string (b : BorrowedSlice) (name : string) : outcome FfiFailure string :=
  bytes ← borrowed_bytes b name;
  ok_or (Failure HwStatus.InvalidArgument (name +:+ " is not valid UTF-8")) (from_utf8 bytes).

(** A pointer that must not be null. *)
Definition not_null {A} (message : string) (p : option A) : outcome FfiFailure A :=
  ok_or (Failure HwStatus.InvalidArgument message) p.

(** ** The lifecycle *)

Section Lifecycle.
Context {E : Type}.

Record Lifecycle := { engine : option E; active_calls : usize; stopping : bool }.
Definition Lifecycle_stopped : Lifecycle := {| engine := None; active_calls := 0; stopping := false |}.

(** What each function does while it holds the lifecycle lock. *)
Definition lc_begin (l : Lifecycle) : Lifecycle * outcome FfiFailure E :=
  match engine l with
  | Some e =>
      if stopping l then (l, Err (Failure HwStatus.InvalidState "runtime is not running"))
      else ({| engine := engine l; active_calls := active_calls l + 1; stopping := stopping l |}, Ok e)
  | None => (l, Err (Failure HwStatus.InvalidState "runtime is not running"))
  end.
Definition lc_end (l : Lifecycle) : Lifecycle :=
  {| engine := engine l; active_calls := Z.max 0 (active_calls l - 1); stopping := stopping l |}.
Definition lc_request_stop (l : Lifecycle) : Lifecycle :=
  {| engine := engine l; active_calls := active_calls l; stopping := true |}.
Definition lc_drop_engine (l : Lifecycle) : Lifecycle :=
  {| engine := None; active_calls := active_calls l; stopping := stopping l |}.
Definition lc_end_stop (l : Lifecycle) : Lifecycle :=
  {| engine := engine l; active_calls := active_calls l; stopping := false |}.
Definition lc_start (e : E) (l : Lifecycle) : Lifecycle :=
  {| engine := Some e; active_calls := active_calls l; stopping := stopping l |}.
Definition lc_running (l : Lifecycle) : bool :=
  match engine l with Some _ => negb (stopping l) | None => false end.
End Lifecycle.
Arguments Lifecycle E : clear implicits.

(** ** The runtime *)

Section Runtime.
Context {IN : IpNet} {B64 : Base64} {RS : Resolver} {SN : Snow} {CS : ConfigSource}.

(** [Display] of the error types, generated by thiserror. *)
Class Display := {
  show_load_error : LoadError -> string;
  show_router_error : RouterError -> string;
  show_engine_error : EngineError -> string;
  show_io_error : io_error -> string }.
Context {DS : Display}.

Record HwInterfaceConfig := {
  hi_address : list u8; hi_prefix_length : u8; hi_transport : u8; hi_mtu : u16; hi_listen : HwEndpoint }.

Record HwRouteConfig := {
  hr_network : list u8; hr_prefix_length : u8; route_kind : u8; hr_endpoint : HwEndpoint;
  hr_persistent_keepalive : u16; hr_udp_rebind_after : u16; hr_session_timeout : u64 }.

Record HwPeerStats := {
  hs_tx_bytes : u64; hs_rx_bytes : u64; last_seen_milliseconds_ago : u64; hs_endpoint : HwEndpoint;
  has_last_seen : u8; has_endpoint : u8 }.

(** The calls into the host. *)
Inductive HostCall :=
| CallSend (peer_name : string) (endpoint : HwEndpoint) (frame : bytes)
| CallWrite (peer_name : string) (source : HwEndpoint) (packet : bytes)
| CallHandshake (peer_name : string) (endpoint : HwEndpoint) (role : u8)
| CallRoute (peer_name configured_endpoint : string) (route : HwRouteConfig)
| CallStats (peer_name : string) (stats : HwPeerStats)
| CallRebind (peer_name : string) (silence_milliseconds : u64).

(** A callback that answers: its answer may depend on the calls so far. *)
Abbreviation Answer := (list HostCall -> u8) (only parsing).

Record HwCallbacks := {
  cb_send_transport : option (HostCall -> Answer);
  cb_write_ip_packet : option unit;
  cb_handshake_completed : option unit }.

Record RuntimeCallbacks := {
  send_transport : HostCall -> Answer;
  write_ip_packet : unit;
  handshake_completed : option unit }.

(** [engine_state] is what the engine's [Arc]s point to; the [poisoned] flags
    are those of the two mutexes. *)
Record HwRuntime := {
  rt_config : Config;
  rt_router : Router;
  callbacks : RuntimeCallbacks;
  lifecycle : Lifecycle Engine;
  lifecycle_poisoned : bool;
  scheduler : option EngineScheduler;
  scheduler_poisoned : bool;
  engine_state : EngineState;
  host_calls : list HostCall }.

Definition set_lifecycle (f : Lifecycle Engine -> Lifecycle Engine) (r : HwRuntime) : HwRuntime :=
  {| rt_config := rt_config r; rt_router := rt_router r; callbacks := callbacks r; lifecycle := f (lifecycle r);
     lifecycle_poisoned := lifecycle_poisoned r; scheduler := scheduler r;
     scheduler_poisoned := scheduler_poisoned r; engine_state := engine_state r; host_calls := host_calls r |}.
Definition set_scheduler (s : option EngineScheduler) (r : HwRuntime) : HwRuntime :=
  {| rt_config := rt_config r; rt_router := rt_router r; callbacks := callbacks r; lifecycle := lifecycle r;
     lifecycle_poisoned := lifecycle_poisoned r; scheduler := s;
     scheduler_poisoned := scheduler_poisoned r; engine_state := engine_state r; host_calls := host_calls r |}.
Definition poison_scheduler (r : HwRuntime) : HwRuntime :=
  {| rt_config := rt_config r; rt_router := rt_router r; callbacks := callbacks r; lifecycle := lifecycle r;
     lifecycle_poisoned := lifecycle_poisoned r; scheduler := scheduler r;
     scheduler_poisoned := true; engine_state := engine_state r; host_calls := host_calls r |}.
Definition poison_lifecycle (r : HwRuntime) : HwRuntime :=
  {| rt_config := rt_config r; rt_router := rt_router r; callbacks := callbacks r; lifecycle := lifecycle r;
     lifecycle_poisoned := true; scheduler := scheduler r;
     scheduler_poisoned := scheduler_poisoned r; engine_state := engine_state r; host_calls := host_calls r |}.
Definition set_engine_state (st : EngineState) (r : HwRuntime) : HwRuntime :=
  {| rt_config := rt_config r; rt_router := rt_router r; callbacks := callbacks r; lifecycle := lifecycle r;
     lifecycle_poisoned := lifecycle_poisoned r; scheduler := scheduler r;
     scheduler_poisoned := scheduler_poisoned r; engine_state := st; host_calls := host_calls r |}.
Definition record_call (c : HostCall) (r : HwRuntime) : HwRuntime :=
  {| rt_config := rt_config r; rt_router := rt_router r; callbacks := callbacks r; lifecycle := lifecycle r;
     lifecycle_poisoned := lifecycle_poisoned r; scheduler := scheduler r;
     scheduler_poisoned := scheduler_poisoned r; engine_state := engine_state r;
     host_calls := host_calls r ++ [c] |}.

Abbreviation Op A := (M HwRuntime FfiFailure A) (only parsing).

Definition lifecycle_lock_poisoned : FfiFailure := Failure HwStatus.InternalError "runtime lifecycle lock is poisoned".
Definition scheduler_lock_poisoned : FfiFailure := Failure HwStatus.InternalError "runtime scheduler lock is poisoned".

(** A panic while a guard is held poisons the mutex. *)
Definition holding {A} (poison : HwRuntime -> HwRuntime) (m : Op A) : Op A := fun r =>
  match m r with (r, Panic) => (poison r, Panic) | x => x end.

Definition begin_call : Op Engine := fun r =>
  if lifecycle_poisoned r then (r, Err lifecycle_lock_poisoned) else
  let '(l, res) := lc_begin (lifecycle r) in (set_lifecycle (fun _ => l) r, res).

(** [Drop for RuntimeCall]. *)
Definition end_call (r : HwRuntime) : HwRuntime :=
  if lifecycle_poisoned r then r else set_lifecycle lc_end r.

(** A [RuntimeCall] lives until the function returns, however it returns. *)
Definition with_call {A} (f : Engine -> Op A) : Op A := fun r =>
  match begin_call r with
  | (r, Ok e) => let '(r, res) := f e r in (end_call r, res)
  | (r, Err e) => (r, Err e)
  | (r, Panic) => (r, Panic)
  end.

(** A call of the engine, its error turned into an [EngineError] failure. *)
Definition on_engine {A} (m : M EngineState EngineError A) : Op A := fun r =>
  let '(st, res) := m (engine_state r) in
  (set_engine_state st r, map_err (fun e => Failure HwStatus.EngineError (show_engine_error e)) res).

Definition call_host (c : HostCall) : Op unit := mmodify (record_call c).
Definition ask (answer : Answer) (c : HostCall) : Op u8 := fun r => (record_call c r, Ok (answer (host_calls r))).

Definition dispatch_event (ev : EngineEvent) : Op unit :=
  r ← mget;
  match handshake_completed (callbacks r), ev with
  | None, _ => mret tt
  | Some _, HandshakeCompleted peer_name endpoint role =>
      call_host (CallHandshake peer_name (endpoint_to_ffi endpoint)
              (match role with Initiator => 1 | Responder => 2 end))
  end.

Definition dispatch_action (a : EngineAction) : Op unit :=
  r ← mget;
  match a with
  | SendTransport peer_name endpoint frame =>
      let c := CallSend peer_name (endpoint_to_ffi endpoint) frame in
      accepted ← ask (send_transport (callbacks r) c) c;
      if negb (accepted =? 0)
      then mmodify (fun r => set_engine_state (record_transport_sent peer_name (len frame) (engine_state r)) r)
      else mret tt
  | WriteIpPacket peer_name source packet =>
      call_host (CallWrite peer_name (endpoint_to_ffi source) packet)
  end.

Fixpoint for_each {A} (f : A -> Op unit) (l : list A) : Op unit :=
  match l with [] => mret tt | a :: l => _ ← f a; for_each f l end.

Definition dispatch (output : EngineOutput) : Op unit :=
  _ ← for_each dispatch_event (events output);
  for_each dispatch_action (actions output).

(** ** Entry points *)

(** [runtime_ref] and [runtime_const_ref]. *)
Definition runtime_ref (rt : option HwRuntime) : outcome FfiFailure HwRuntime :=
  not_null "runtime must not be null" rt.

Abbreviation Result := (option HwRuntime * HwStatus.t * option HwError)%type (only parsing).

(** Run an operation on the runtime behind a pointer. *)
Definition on_runtime {A} (rt : option HwRuntime) (op : Op A) : option HwRuntime * outcome FfiFailure A :=
  match runtime_ref rt with
  | Ok r => let '(r, res) := op r in (Some r, res)
  | Err e => (rt, Err e)
  | Panic => (rt, Panic)
  end.
Definition entry (rt : option HwRuntime) (error : option HwError) (op : Op unit) : Result :=
  guarded_status error (on_runtime rt op).

Definition hw_runtime_create_body (text : BorrowedSlice) (cbs : option HwCallbacks) (rng : Rng)
    : outcome FfiFailure HwRuntime :=
  bytes ← borrowed_bytes text "config_toml";
  text ← ok_or (Failure HwStatus.ConfigError "configuration is not valid UTF-8") (from_utf8 bytes);
  config ← map_err (fun cause => Failure HwStatus.ConfigError (show_load_error cause)) (parse text);
  router ← map_err (fun cause => Failure HwStatus.ConfigError (show_router_error cause)) (Router_new config);
  _ ← map_err (fun cause => Failure HwStatus.ConfigError (show_engine_error cause)) (with_router config router);
  cbs ← not_null "callbacks must not be null" cbs;
  send_transport ← not_null "send_transport callback must not be null" (cb_send_transport cbs);
  write_ip_packet ← not_null "write_ip_packet callback must not be null" (cb_write_ip_packet cbs);
  Ok {| rt_config := config; rt_router := router;
        callbacks := {| send_transport := send_transport; write_ip_packet := write_ip_packet;
                        handshake_completed := cb_handshake_completed cbs |};
        lifecycle := Lifecycle_stopped; lifecycle_poisoned := false;
        scheduler := None; scheduler_poisoned := false;
        engine_state := EngineState_new rng; host_calls := [] |}.

Definition hw_runtime_create (text : BorrowedSlice) (cbs : option HwCallbacks) (rng : Rng) (error : option HwError)
    : option HwRuntime * option HwError :=
  let error := clear_error error in
  match hw_runtime_create_body text cbs rng with
  | Ok runtime => (Some runtime, error)
  | Err failure => (None, write_error error failure)
  | Panic => (None, write_error error (Failure HwStatus.Panic "Rust core panicked while creating runtime"))
  end.

(** Destroying frees the runtime: nothing of it can be used again. *)
Definition hw_runtime_destroy (rt : option HwRuntime) : option HwRuntime := None.

Definition hw_core_abi_version : u32 := HW_CORE_ABI_VERSION.

(** Starting makes a fresh engine: no session survives a stop. *)
Definition hw_runtime_start (rt : option HwRuntime) (error : option HwError) : Result :=
  entry rt error (fun r =>
    if lifecycle_poisoned r then (r, Err lifecycle_lock_poisoned) else
    if stopping (lifecycle r) then (r, Err (Failure HwStatus.InvalidState "runtime is currently stopping")) else
    match engine (lifecycle r) with
    | Some _ => (r, Ok tt)
    | None =>
        holding poison_lifecycle (fun r =>
          match with_router (rt_config r) (rt_router r) with
          | Ok e =>
              let r := set_engine_state (EngineState_new (entropy (engine_state r))) (set_lifecycle (lc_start e) r) in
              if scheduler_poisoned r then (r, Err scheduler_lock_poisoned)
              else (set_scheduler (Some (EngineScheduler_new (rt_config r))) r, Ok tt)
          | Err cause => (r, Err (Failure HwStatus.EngineError (show_engine_error cause)))
          | Panic => (r, Panic)
          end) r
    end).

(** [stop] waits on the condition variable until no call is active.  Each
    wakeup finds the runtime as the other threads left it; [None] is a wait
    that has not ended after the given wakeups. *)
Fixpoint wait_idle (wakeups : list (HwRuntime -> HwRuntime)) (r : HwRuntime)
    : option (HwRuntime * outcome FfiFailure unit) :=
  if active_calls (lifecycle r) =? 0 then Some (r, Ok tt) else
  match wakeups with
  | [] => None
  | wake :: wakeups =>
      let r := wake r in
      if lifecycle_poisoned r then Some (r, Err lifecycle_lock_poisoned) else wait_idle wakeups r
  end.

Definition finish_stop : Op unit := fun r =>
  let r := set_lifecycle lc_drop_engine r in
  if scheduler_poisoned r then (r, Err scheduler_lock_poisoned)
  else (set_lifecycle lc_end_stop (set_scheduler None r), Ok tt).

Definition stop_op (wakeups : list (HwRuntime -> HwRuntime)) (r : HwRuntime)
    : option (HwRuntime * outcome FfiFailure unit) :=
  if lifecycle_poisoned r then Some (r, Err lifecycle_lock_poisoned) else
  match engine (lifecycle r) with
  | None => Some (r, Ok tt)
  | Some _ =>
      match wait_idle wakeups (set_lifecycle lc_request_stop r) with
      | Some (r, Ok _) => Some (finish_stop r)
      | x => x
      end
  end.

Definition hw_runtime_stop (wakeups : list (HwRuntime -> HwRuntime)) (rt : option HwRuntime) (error : option HwError)
    : option Result :=
  match runtime_ref rt with
  | Ok r => (fun '(r, res) => guarded_status error (Some r, res)) <$> stop_op wakeups r
  | Err e => Some (guarded_status error (rt, Err e))
  | Panic => Some (guarded_status error (rt, Panic))
  end.

Definition hw_runtime_is_running (rt : option HwRuntime) : u8 :=
  match rt with
  | None => 0
  | Some r => if negb (lifecycle_poisoned r) && lc_running (lifecycle r) then 1 else 0
  end.

Definition hw_runtime_submit_outbound_ip (now : Instant) (rt : option HwRuntime) (packet : BorrowedSlice)
    (error : option HwError) : Result :=
  entry rt error (
    packet ← mlift (borrowed_bytes packet "packet");
    with_call (fun e =>
      output ← on_engine (process_outbound_ip e packet now);
      dispatch output)).

Definition hw_runtime_submit_inbound_transport (now : Instant) (clock : nat -> Instant) (rt : option HwRuntime)
    (frame : BorrowedSlice) (source : option HwEndpoint) (error : option HwError) : Result :=
  entry rt error (
    frame ← mlift (borrowed_bytes frame "frame");
    source ← mlift (not_null "source must not be null" source);
    source ← mlift (endpoint_from_ffi source);
    with_call (fun e =>
      output ← on_engine (process_inbound_transport e frame source now clock);
      dispatch output)).

Definition hw_runtime_initiate_handshake (now : Instant) (rt : option HwRuntime) (peer_name : BorrowedSlice)
    (error : option HwError) : Result :=
  entry rt error (
    peer_name ← mlift (borrowed_string peer_name "peer_name");
    with_call (fun e =>
      output ← on_engine (initiate_handshake e peer_name now);
      dispatch output)).

Definition as_millis (d : Duration) : u64 := Z.min U64_MAX (d / 1000000).

Definition failure_of_tick_error (failure : SchedulerError) : FfiFailure :=
  Failure HwStatus.EngineError
    (label (se_operation failure) +:+ " for peer " +:+ se_peer_name failure +:+ " failed: "
     +:+ show_engine_error (se_error failure)).

(** The engine and scheduler part of a tick, under the scheduler lock.  The
    rebind callback is asked before any other host call of the tick; a tick
    asks it at most once. *)
Definition locked_tick (e : Engine) (now : Instant) (clock2 clock3 : nat -> Instant)
    (rebind_transport : option (HostCall -> Answer)) : Op SchedulerTick := fun r =>
  if scheduler_poisoned r then (r, Err scheduler_lock_poisoned) else
  match scheduler r with
  | None => (r, Err (Failure HwStatus.InvalidState "runtime scheduler is not running"))
  | Some s =>
      let rebind peer_name silence :=
        match rebind_transport with
        | None => false
        | Some callback =>
            let c := CallRebind peer_name (as_millis silence) in negb (callback c (host_calls r) =? 0)
        end in
      match tick e now rebind clock2 clock3 s (engine_state r) with
      | (st, Ok (s, t)) =>
          let r := set_scheduler (Some s) (set_engine_state st r) in
          let asked := match rebind_transport, t_events t with
                       | Some _, [Recovery peer_name silence true _ _] => [CallRebind peer_name (as_millis silence)]
                       | _, _ => []
                       end in
          (foldl (fun r c => record_call c r) r asked, Ok t)
      | (st, Err cause) => (set_engine_state st r, Err (Failure HwStatus.EngineError (show_engine_error cause)))
      | (st, Panic) => (poison_scheduler (set_engine_state st r), Panic)
      end
  end.

Definition hw_runtime_tick (now : Instant) (clock2 clock3 : nat -> Instant) (rt : option HwRuntime)
    (rebind_transport : option (HostCall -> Answer)) (error : option HwError) : Result :=
  entry rt error (
    with_call (fun e =>
      t ← locked_tick e now clock2 clock3 rebind_transport;
      _ ← for_each (fun scheduled => dispatch (so_output scheduled)) (t_outputs t);
      match t_errors t with
      | failure :: _ => mfail (failure_of_tick_error failure)
      | [] => mret tt
      end)).

Definition hw_runtime_create_keepalive (now : Instant) (rt : option HwRuntime) (peer_name payload : BorrowedSlice)
    (error : option HwError) : Result :=
  entry rt error (
    peer_name ← mlift (borrowed_string peer_name "peer_name");
    payload ← mlift (borrowed_bytes payload "payload");
    with_call (fun e =>
      output ← on_engine (create_keepalive e peer_name payload now);
      dispatch output)).

(** A function that also writes an optional output: what the output slot holds
    after the call. *)
Definition write_slot {A B} (slot : option B) (f : A -> B) (x : outcome FfiFailure A) : option B :=
  match x with Ok a => (fun _ => f a) <$> slot | _ => slot end.
Definition entry_out {A B} (rt : option HwRuntime) (error : option HwError) (slot : option B) (f : A -> B)
    (op : Op A) : Result * option B :=
  let '(rt, x) := on_runtime rt op in
  (guarded_status error (rt, (fun _ => tt) <$> x), write_slot slot f x).

Definition u8_of_bool (b : bool) : u8 := if b then 1 else 0.

Definition hw_runtime_invalidate_peer (rt : option HwRuntime) (peer_name : BorrowedSlice) (invalidated : option u8)
    (error : option HwError) : Result * option u8 :=
  entry_out rt error invalidated u8_of_bool (
    peer_name ← mlift (borrowed_string peer_name "peer_name");
    with_call (fun _ => on_engine (engine_invalidate_peer peer_name))).

Definition hw_runtime_resolve_peer_endpoint (rt : option HwRuntime) (peer_name : BorrowedSlice)
    (output : option HwEndpoint) (error : option HwError) : Result * option HwEndpoint :=
  entry_out rt error output endpoint_to_ffi (
    peer_name ← mlift (borrowed_string peer_name "peer_name");
    with_call (fun _ =>
      r ← mget;
      p ← mlift (ok_or (Failure HwStatus.InvalidArgument ("unknown peer: " +:+ peer_name))
                   (find (fun p => bool_decide (pc_name p = peer_name)) (peer (rt_config r))));
      endpoint ← mlift (map_err (fun cause => Failure HwStatus.EngineError
                   ("could not resolve endpoint " +:+ display (pc_endpoint p) +:+ ": " +:+ show_io_error cause))
                   (resolve (pc_endpoint p)));
      _ ← mlift (not_null "endpoint output must not be null" output);
      mret endpoint)).

Definition hw_runtime_update_peer_endpoint (rt : option HwRuntime) (peer_name : BorrowedSlice)
    (endpoint : option HwEndpoint) (changed : option u8) (error : option HwError) : Result * option u8 :=
  entry_out rt error changed u8_of_bool (
    peer_name ← mlift (borrowed_string peer_name "peer_name");
    endpoint ← mlift (not_null "endpoint must not be null" endpoint);
    endpoint ← mlift (endpoint_from_ffi endpoint);
    with_call (fun e => on_engine (update_resolved_endpoint e peer_name endpoint))).

Definition hw_runtime_record_transport_sent (rt : option HwRuntime) (peer_name : BorrowedSlice) (byte_count : usize)
    (error : option HwError) : Result :=
  entry rt error (
    peer_name ← mlift (borrowed_string peer_name "peer_name");
    with_call (fun _ =>
      mmodify (fun r => set_engine_state (record_transport_sent peer_name byte_count (engine_state r)) r))).

Definition interface_to_ffi (i : InterfaceConfig) : HwInterfaceConfig := {|
  hi_address := to_be_bytes 4 (net_addr (address i));
  hi_prefix_length := prefix_len (address i);
  hi_transport := match if_transport i with Udp => 1 | Tcp => 2 end;
  hi_mtu := mtu i;
  hi_listen := endpoint_to_ffi (listen i) |}.

Definition hw_runtime_get_interface_config (rt : option HwRuntime) (output : option HwInterfaceConfig)
    (error : option HwError) : Result * option HwInterfaceConfig :=
  entry_out rt error output interface_to_ffi (
    r ← mget;
    _ ← mlift (not_null "output must not be null" output);
    mret (interface (rt_config r))).

Definition route_call (kind : u8) (prefix : Ipv4Net) (p : Peer) : HostCall :=
  CallRoute (name p) (display (configured_endpoint p))
    {| hr_network := to_be_bytes 4 (network prefix); hr_prefix_length := prefix_len prefix; route_kind := kind;
       hr_endpoint := endpoint_to_ffi (endpoint p); hr_persistent_keepalive := persistent_keepalive p;
       hr_udp_rebind_after := udp_rebind_after p; hr_session_timeout := session_timeout p |}.

Definition hw_runtime_visit_routes (rt : option HwRuntime) (callback : option unit) (error : option HwError) : Result :=
  entry rt error (
    _ ← mlift (not_null "route callback must not be null" callback);
    r ← mget;
    _ ← for_each (fun c => call_host (route_call 1 (prefix c) (route_peer c))) (routes (rt_router r));
    for_each (fun c => call_host (route_call 2 (ex_prefix c) (ex_peer c))) (excluded_routes (rt_router r))).

(** [sort_by] the name: Rust compares strings by their bytes. *)
Fixpoint insert_by_name {A} (x : string * A) (l : list (string * A)) : list (string * A) :=
  match l with
  | [] => [x]
  | y :: l' => if (String.leb x.1 y.1)%string then x :: l else y :: insert_by_name x l'
  end.
Definition sort_by_name {A} (l : list (string * A)) : list (string * A) := foldr insert_by_name [] l.

Definition stats_to_ffi (stats : PeerStats) (now : Instant) : HwPeerStats :=
  let endpoint : option HwEndpoint := endpoint_to_ffi <$> current_endpoint stats in
  let last_seen : option Duration := saturating_duration_since now <$> last_seen stats in
  {| hs_tx_bytes := tx_bytes stats; hs_rx_bytes := rx_bytes stats;
     last_seen_milliseconds_ago := default 0 (as_millis <$> last_seen);
     hs_endpoint := default HwEndpoint_default endpoint;
     has_last_seen := u8_of_bool (bool_decide (is_Some last_seen));
     has_endpoint := u8_of_bool (bool_decide (is_Some endpoint)) |}.

Fixpoint visit_stats (clock : nat -> Instant) (i : nat) (l : list (string * PeerStats)) : Op unit :=
  match l with
  | [] => mret tt
  | (peer_name, stats) :: l =>
      _ ← call_host (CallStats peer_name (stats_to_ffi stats (clock i)));
      visit_stats clock (S i) l
  end.

Definition hw_runtime_visit_peer_stats (clock : nat -> Instant) (rt : option HwRuntime) (callback : option unit)
    (error : option HwError) : Result :=
  entry rt error (
    _ ← mlift (not_null "stats callback must not be null" callback);
    with_call (fun _ =>
      r ← mget;
      visit_stats clock 0 (sort_by_name (map_to_list (peer_stats_of (engine_state r)))))).
End Runtime.

(** ** Concurrent calls and stops *)

Section Interleaving.
Context {E : Type}.

(** The lifecycle with the engines of the calls in flight and the number of
    threads that wait in [hw_runtime_stop]. *)
Record Threads := { lc : Lifecycle E; in_flight : list E; waiting_stops : nat }.

(** One critical section of some thread. *)
Inductive lc_step : Threads -> Threads -> Prop :=
| StepBegin t l e : lc_begin (lc t) = (l, Ok e) ->
    lc_step t {| lc := l; in_flight := e :: in_flight t; waiting_stops := waiting_stops t |}
| StepEnd t e before after : in_flight t = before ++ e :: after ->
    lc_step t {| lc := lc_end (lc t); in_flight := before ++ after; waiting_stops := waiting_stops t |}
| StepStart t e : stopping (lc t) = false -> engine (lc t) = None ->
    lc_step t {| lc := lc_start e (lc t); in_flight := in_flight t; waiting_stops := waiting_stops t |}
| StepStop t e : engine (lc t) = Some e ->
    lc_step t {| lc := lc_request_stop (lc t); in_flight := in_flight t; waiting_stops := S (waiting_stops t) |}
| StepStopped t n : waiting_stops t = S n -> active_calls (lc t) = 0 ->
    lc_step t {| lc := lc_end_stop (lc_drop_engine (lc t)); in_flight := in_flight t; waiting_stops := n |}.

Definition threads_init : Threads := {| lc := Lifecycle_stopped; in_flight := []; waiting_stops := 0 |}.

Record threads_inv (t : Threads) : Prop := {
  inv_count : active_calls (lc t) = len (in_flight t);
  inv_engine : forall e, e ∈ in_flight t -> engine (lc t) = Some e;
  inv_stopping : stopping (lc t) = true -> (0 < waiting_stops t)%nat }.

Lemma lc_step_inv t t' : threads_inv t -> lc_step t t' -> threads_inv t'.
Proof.
  intros [H1 H2 H3] Hs. destruct Hs as [t l e Hb|t e before after Hf|t e Hs Hn|t e He|t n Hw Ha].
  - unfold lc_begin in Hb. destruct (engine (lc t)) as [e0|] eqn:Ee; [|done].
    destruct (stopping (lc t)) eqn:Es; [done|]. injection Hb as <- <-. split; cbn; [rewrite len_cons; lia| |congruence].
    intros e [->|He]%elem_of_cons; [done|auto].
  - rewrite Hf, len_app, len_cons in H1. split; cbn; [|intros e' He'; apply H2; rewrite Hf; apply elem_of_app in He' as [?|?]; apply elem_of_app;
      [by left|right; by right]|done].
    rewrite len_app. pose proof (len_nonneg before). pose proof (len_nonneg after). lia.
  - split; cbn; [done| |congruence]. intros e' He'. specialize (H2 e' He'). congruence.
  - split; cbn; [done|done|lia].
  - rewrite Ha in H1. destruct (in_flight t) as [|e l] eqn:Ef; [|rewrite len_cons in H1; pose proof (len_nonneg l); lia].
    split; cbn; [done|by intros e ?%not_elem_of_nil|done].
Qed.

Lemma threads_reachable t : rtc lc_step threads_init t -> threads_inv t.
Proof.
  intros H. remember threads_init as t0 eqn:E0. assert (threads_inv t0) as Hi.
  { subst. split; [done|by intros e ?%not_elem_of_nil|done]. }
  clear E0. induction H as [|t1 t2 t3 Hs _ IH]; [done|]. apply IH. by eapply lc_step_inv.
Qed.
End Interleaving.
Arguments Threads E : clear implicits.

(** C14: under every interleaving of starts, stops and packet calls, the
    engine of a call in flight is the running one until the call ends; the
    step that erases the engine therefore happens only when no call is in
    flight; a runtime that is stopping refuses new calls and has a thread that
    waits to finish the stop, which can finish as soon as the calls ended, and
    leaves the runtime stopped. *)
Theorem stop_waits_for_calls {E} (t : Threads E) :
  rtc lc_step threads_init t ->
  (forall e, e ∈ in_flight t -> engine (lc t) = Some e) /\
  (forall t', lc_step t t' -> engine (lc t) <> None -> engine (lc t') = None -> in_flight t = []) /\
  (stopping (lc t) = true -> (lc_begin (lc t)).1 = lc t /\ is_ok (lc_begin (lc t)).2 = false /\
    (in_flight t = [] -> exists t', lc_step t t' /\ lc_running (lc t') = false /\ stopping (lc t') = false)).
Proof.
  intros Hr. apply threads_reachable in Hr as [H1 H2 H3]. split_and!; [done|..].
  - intros t' Hs Hne Hn. destruct Hs as [t l e Hb|t e before after Hf|t e Hs He|t e He|t n Hw Ha]; cbn in *; try congruence.
    + unfold lc_begin in Hb. destruct (engine (lc t)); [|done]. destruct (stopping (lc t)); [done|].
      by injection Hb as <- <-.
    + rewrite Ha in H1. unfold len in H1. by destruct (in_flight t).
  - intros Hs. unfold lc_begin. destruct (engine (lc t)) eqn:Ee; rewrite ?Hs; (split; [done|]); (split; [done|]).
    all: intros Hf; specialize (H3 Hs); destruct (waiting_stops t) as [|n] eqn:Ew; [lia|];
      eexists; split; [eapply StepStopped; [done|by rewrite H1, Hf]|done].
Qed.

(** Two stops and a start between them: the second stop erases the engine that
    was started after the first one returned, while calls were welcome. *)
Example late_stop_erases_new_engine (e1 e2 : nat) :
  exists t1 t2, rtc lc_step threads_init t1 /\ lc_running (lc t1) = true /\ engine (lc t1) = Some e2 /\
    lc_step t1 t2 /\ engine (lc t2) = None.
Proof.
  eexists _, _. split_and!.
  - eapply rtc_l; [by apply (StepStart _ e1)|]. eapply rtc_l; [by eapply StepStop|].
    eapply rtc_l; [by eapply StepStop|]. eapply rtc_l; [by eapply StepStopped|].
    eapply rtc_l; [by apply (StepStart _ e2)|]. apply rtc_refl.
  - done.
  - done.
  - by eapply StepStopped.
  - done.
Qed.

(** ** Endpoints across the ABI *)

Definition addr_ok (a : SocketAddr) : Prop :=
  match a with SA4 ip _ => 0 <= ip < 2 ^ 32 | SA6 ip _ _ _ => 0 <= ip < 2 ^ 128 end.
(** The ABI has no field for the IPv6 flow information. *)
Definition without_flowinfo (a : SocketAddr) : SocketAddr :=
  match a with SA4 ip p => SA4 ip p | SA6 ip p _ i => SA6 ip p 0 i end.
Definition endpoint_ok (e : HwEndpoint) : Prop :=
  length (he_address e) = 16%nat /\ bytes_ok (he_address e) /\
  (family e = 6 \/ (family e = 4 /\ drop 4 (he_address e) = replicate 12 0 /\ scope_id e = 0)).

(** Endpoints cross the C boundary unchanged in both directions, up to
    the IPv6 flow information that the ABI does not carry; the array has its
    sixteen bytes, and only the two families are accepted. *)
Theorem endpoint_ffi_round_trip :
  (forall a, addr_ok a -> endpoint_ok (endpoint_to_ffi a) /\
     endpoint_from_ffi (endpoint_to_ffi a) = Ok (without_flowinfo a)) /\
  (forall e, endpoint_ok e -> exists a, endpoint_from_ffi e = Ok a /\ endpoint_to_ffi a = e) /\
  (forall e, is_ok (endpoint_from_ffi e) = true <-> family e = 4 \/ family e = 6).
Proof.
  split_and!.
  - intros [ip p|ip p f i] Ha; cbn in Ha.
    + split; [|cbn -[to_be_bytes from_be_bytes]; by rewrite take_app_length', from_to_be].
      split_and!; [done|apply Forall_app; split; [apply to_be_bytes_ok|by apply Forall_replicate]|].
      right. by split_and!.
    + split; [split_and!; [done|apply to_be_bytes_ok|by left]|].
      unfold endpoint_from_ffi. cbn -[to_be_bytes from_be_bytes]. by rewrite from_to_be.
  - intros [fam addr p i] (Hl & Hb & Hf). cbn in *. unfold endpoint_from_ffi. cbn [family he_address he_port scope_id].
    destruct Hf as [->|(-> & Hd & ->)]; cbn -[to_be_bytes from_be_bytes]; (eexists; split; [done|]);
      cbn -[to_be_bytes from_be_bytes]; f_equal.
    + rewrite <- Hl. by apply to_from_be.
    + rewrite <- Hd. pose proof (to_from_be (take 4 addr) ltac:(by apply Forall_take)) as Ht.
      rewrite length_take, Hl in Ht. cbn [Nat.min] in Ht. rewrite Ht. apply take_drop.
  - intros e. unfold endpoint_from_ffi. destruct (Z.eqb_spec (family e) 4); [by split; auto|].
    destruct (Z.eqb_spec (family e) 6); [by split; auto|]. split; [done|]. tauto.
Qed.

(** ** Robustness of the entry points *)

Section Robust.
Context {IN : IpNet} {B64 : Base64} {RS : Resolver} {SN : Snow} {SL : SnowLaws SN} {CS : ConfigSource} {DS : Display}.

(** Resolving a name may fail, but it returns. *)
Definition resolver_returns : Prop := forall h p, to_socket_addrs h p <> Panic.

Record runtime_ok (r : HwRuntime) : Prop := {
  r_manager : sm_wf (manager (engine_state r));
  r_lifecycle : lifecycle_poisoned r = false;
  r_scheduler : scheduler_poisoned r = false;
  r_calls : 0 <= active_calls (lifecycle r) }.

(** What an operation inside a call leaves alone. *)
Definition frame_kept (r r' : HwRuntime) : Prop :=
  lifecycle r' = lifecycle r /\ rt_config r' = rt_config r /\ rt_router r' = rt_router r.

Definition failure_ok (e : FfiFailure) : Prop := status e <> HwStatus.Ok /\ status e <> HwStatus.Panic.

Definition sound {A} (op : M HwRuntime FfiFailure A) (Q : A -> Prop) : Prop :=
  forall r, runtime_ok r ->
    runtime_ok (op r).1 /\ frame_kept r (op r).1 /\
    match (op r).2 with Ok a => Q a | Err e => failure_ok e | Panic => False end.

Lemma sound_ret {A} (a : A) (Q : A -> Prop) : Q a -> sound (mret a) Q.
Proof. by intros HQ r Hr. Qed.

Lemma sound_get (Q : HwRuntime -> Prop) : (forall r, Q r) -> sound mget Q.
Proof. intros HQ r Hr. split_and!; [done|done|apply HQ]. Qed.

Lemma sound_bind {A B} (m : M HwRuntime FfiFailure A) (f : A -> M HwRuntime FfiFailure B) Q R :
  sound m Q -> (forall a, Q a -> sound (f a) R) -> sound (m ≫= f) R.
Proof.
  intros Hm Hf r Hr. destruct (Hm r Hr) as (H1 & H2 & H3). unfold mbind, M_bind.
  destruct (m r) as [r1 [a|e|]]; cbn [fst snd] in *; [|done|done].
  destruct (Hf a H3 r1 H1) as (J1 & (J2 & J3 & J4) & J5). destruct H2 as (K2 & K3 & K4).
  split_and!; [done|split_and!; congruence|done].
Qed.

Lemma sound_lift {A} (o : outcome FfiFailure A) (Q : A -> Prop) :
  match o with Ok a => Q a | Err e => failure_ok e | Panic => False end -> sound (mlift o) Q.
Proof. by intros H r Hr. Qed.

Lemma sound_fail {A} (e : FfiFailure) (Q : A -> Prop) : failure_ok e -> sound (mfail e) Q.
Proof. by intros H r Hr. Qed.

Lemma set_engine_state_ok r st : runtime_ok r -> sm_wf (manager st) -> runtime_ok (set_engine_state st r).
Proof. intros [H1 H2 H3 H4] Hst. by split. Qed.

Lemma sound_engine {A} (m : M EngineState EngineError A) : safe m any -> sound (on_engine m) any.
Proof.
  intros Hm r Hr. destruct (Hm _ (r_manager _ Hr)) as (H1 & H2 & _). unfold on_engine.
  destruct (m (engine_state r)) as [st [a|e|]]; cbn [fst snd map_err] in *; [..|done];
    (split; [by apply set_engine_state_ok|]; split; done).
Qed.

Lemma sound_host c : sound (call_host c) any.
Proof. intros r [H1 H2 H3 H4]. by split_and!. Qed.

Lemma sound_ask answer c : sound (ask answer c) any.
Proof. intros r [H1 H2 H3 H4]. by split_and!. Qed.

Lemma sound_record_sent p n :
  sound (mmodify (fun r => set_engine_state (record_transport_sent p n (engine_state r)) r)) any.
Proof. intros r [H1 H2 H3 H4]. by split_and!. Qed.

Lemma sound_for_each {A} (f : A -> M HwRuntime FfiFailure unit) l :
  (forall a, sound (f a) any) -> sound (for_each f l) any.
Proof.
  intros Hf. induction l as [|a l IH]; cbn [for_each]; [by apply sound_ret|].
  eapply sound_bind; [apply Hf|done].
Qed.

Lemma sound_dispatch output : sound (dispatch output) any.
Proof.
  unfold dispatch. eapply sound_bind; [apply sound_for_each|intros _ _; apply sound_for_each].
  - intros [p a role]. unfold dispatch_event. eapply (sound_bind _ _ any); [by apply sound_get|].
    intros r _. destruct (handshake_completed (callbacks r)); [apply sound_host|by apply sound_ret].
  - intros [p a f|p a f]; unfold dispatch_action; (eapply (sound_bind _ _ any); [by apply sound_get|]); intros r _;
      [|apply sound_host].
    eapply sound_bind; [apply sound_ask|]. intros x _. destruct (negb _); [apply sound_record_sent|by apply sound_ret].
Qed.

(** The two ways a call can begin, and that it is counted out again. *)
Lemma sound_with_call {A} (f : Engine -> M HwRuntime FfiFailure A) Q :
  (forall e, sound (f e) Q) -> sound (with_call f) Q.
Proof.
  intros Hf r Hr. destruct Hr as [H1 H2 H3 H4]. unfold with_call, begin_call. rewrite H2. unfold lc_begin.
  assert (Hrefuse : forall l, l = lifecycle r -> forall x : outcome FfiFailure A,
    match x with Ok a => Q a | Err e => failure_ok e | Panic => False end ->
    runtime_ok (set_lifecycle (fun _ => l) r) /\ frame_kept r (set_lifecycle (fun _ => l) r) /\
    match x with Ok a => Q a | Err e => failure_ok e | Panic => False end).
  { intros l -> x Hx. by split_and!. }
  destruct (engine (lifecycle r)) as [e|] eqn:Ee; [|by apply (Hrefuse _ eq_refl (Err _))].
  destruct (stopping (lifecycle r)) eqn:Es; [by apply (Hrefuse _ eq_refl (Err _))|].
  set (r1 := set_lifecycle _ r).
  assert (Hr1 : runtime_ok r1) by (split; try done; cbn; lia).
  destruct (Hf e r1 Hr1) as ([J1 J2 J3 J4] & (K1 & K2 & K3) & K4).
  destruct (f e r1) as [r2 x]. cbn [fst snd] in *. unfold end_call. rewrite J2.
  split; [split; try done; cbn; lia|]. split; [|done]. split_and!; [|done..].
  cbn. rewrite K1. unfold r1, lc_end. cbn. destruct (lifecycle r) as [en n s]. cbn in *. subst. f_equal. lia.
Qed.

Lemma sound_locked_tick e now c2 c3 rebind : sound (locked_tick e now c2 c3 rebind) any.
Proof.
  intros r Hr. pose proof Hr as [H1 H2 H3 H4]. unfold locked_tick. rewrite H3.
  destruct (scheduler r) as [s|]; [|by split_and!].
  set (rb := fun _ _ => _).
  destruct (tick_total e now rb c2 c3 s (engine_state r) H1) as (st' & [s' t'] & E & Hw & _).
  rewrite E.
  set (r1 := set_scheduler _ _). cbn [fst snd].
  assert (Hr1 : runtime_ok r1 /\ frame_kept r r1) by (split; [by split|done]).
  assert (Hfold : forall l r0, runtime_ok r0 /\ frame_kept r r0 ->
    runtime_ok (foldl (fun r c => record_call c r) r0 l) /\ frame_kept r (foldl (fun r c => record_call c r) r0 l)).
  { intros l. induction l as [|c l IH]; intros r0 [[A1 A2 A3 A4] B]; [by split|]. cbn. apply IH. by split. }
  split; [by apply Hfold|]. split; [by apply Hfold|done].
Qed.

(** The exported functions that take a runtime and an error slot. *)
Inductive AbiCall :=
| AbiStart
| AbiStop (wakeups : list (HwRuntime -> HwRuntime))
| AbiOutbound (now : Instant) (packet : BorrowedSlice)
| AbiInbound (now : Instant) (clock : nat -> Instant) (frame : BorrowedSlice) (source : option HwEndpoint)
| AbiInitiate (now : Instant) (peer : BorrowedSlice)
| AbiTick (now : Instant) (clock2 clock3 : nat -> Instant) (rebind : option (HostCall -> list HostCall -> u8))
| AbiKeepalive (now : Instant) (peer payload : BorrowedSlice)
| AbiInvalidate (peer : BorrowedSlice) (invalidated : option u8)
| AbiResolve (peer : BorrowedSlice) (output : option HwEndpoint)
| AbiUpdate (peer : BorrowedSlice) (endpoint : option HwEndpoint) (changed : option u8)
| AbiRecordSent (peer : BorrowedSlice) (byte_count : usize)
| AbiInterface (output : option HwInterfaceConfig)
| AbiRoutes (callback : option unit)
| AbiStats (clock : nat -> Instant) (callback : option unit).

(** [None] is a stop that still waits. *)
Definition run_abi (c : AbiCall) (rt : option HwRuntime) (error : option HwError)
    : option (option HwRuntime * HwStatus.t * option HwError) :=
  match c with
  | AbiStart => Some (hw_runtime_start rt error)
  | AbiStop wakeups => hw_runtime_stop wakeups rt error
  | AbiOutbound now packet => Some (hw_runtime_submit_outbound_ip now rt packet error)
  | AbiInbound now clock frame source => Some (hw_runtime_submit_inbound_transport now clock rt frame source error)
  | AbiInitiate now peer => Some (hw_runtime_initiate_handshake now rt peer error)
  | AbiTick now c2 c3 rebind => Some (hw_runtime_tick now c2 c3 rt rebind error)
  | AbiKeepalive now peer payload => Some (hw_runtime_create_keepalive now rt peer payload error)
  | AbiInvalidate peer slot => Some (hw_runtime_invalidate_peer rt peer slot error).1
  | AbiResolve peer slot => Some (hw_runtime_resolve_peer_endpoint rt peer slot error).1
  | AbiUpdate peer endpoint slot => Some (hw_runtime_update_peer_endpoint rt peer endpoint slot error).1
  | AbiRecordSent peer n => Some (hw_runtime_record_transport_sent rt peer n error)
  | AbiInterface slot => Some (hw_runtime_get_interface_config rt slot error).1
  | AbiRoutes callback => Some (hw_runtime_visit_routes rt callback error)
  | AbiStats clock callback => Some (hw_runtime_visit_peer_stats clock rt callback error)
  end.

(** Memory holds bytes; other threads keep the runtime sound. *)
Definition slice_ok (b : BorrowedSlice) : Prop := match bs_pointer b with Some d => bytes_ok d | None => True end.
Definition abi_ok (c : AbiCall) : Prop :=
  match c with
  | AbiStop wakeups => Forall (fun w => forall r, runtime_ok r -> runtime_ok (w r)) wakeups
  | AbiOutbound _ packet => slice_ok packet
  | AbiInbound _ _ frame _ => slice_ok frame
  | _ => True
  end.

Definition abi_post (c : AbiCall) (r : HwRuntime) (s : HwStatus.t) (r' : HwRuntime) : Prop :=
  runtime_ok r' /\
  match c with
  | AbiStart => s = HwStatus.Ok -> hw_runtime_is_running (Some r') = 1
  | AbiStop _ => s = HwStatus.Ok -> hw_runtime_is_running (Some r') = 0
  | _ => lifecycle r' = lifecycle r
  end.

(** The caller's error slot: its code is the status, its message is a
    terminated string of the fixed capacity. *)
Definition slot_ok (s : HwStatus.t) (error error' : option HwError) : Prop :=
  match error, error' with
  | None, None => True
  | Some _, Some e => he_code e = HwStatus.code s /\ length (he_message e) = ERROR_MESSAGE_CAPACITY /\
                      he_message e !! (ERROR_MESSAGE_CAPACITY - 1)%nat = Some 0
  | _, _ => False
  end.

Lemma write_error_slot error f : slot_ok (status f) error (write_error error f).
Proof.
  destruct error as [e|]; [|done]. cbn -[ERROR_MESSAGE_CAPACITY replicate Nat.min bytes_of_string].
  set (l := bytes_of_string _). set (n := Nat.min (length l) (ERROR_MESSAGE_CAPACITY - 1)).
  assert (Hn : (n <= ERROR_MESSAGE_CAPACITY - 1)%nat) by apply Nat.le_min_r.
  assert (Hl : length (as_c_char <$> take n l) = n) by (rewrite length_fmap, length_take; unfold n; lia).
  assert (Hc : (0 < ERROR_MESSAGE_CAPACITY)%nat) by (unfold ERROR_MESSAGE_CAPACITY; lia).
  split_and!; [done| |].
  - rewrite length_app, Hl, length_drop, length_replicate. lia.
  - rewrite lookup_app_r by lia. rewrite Hl, lookup_drop, lookup_replicate. split; [done|lia].
Qed.

Lemma clear_error_slot error : slot_ok HwStatus.Ok error (clear_error error).
Proof. destruct error; [|done]. split_and!; [done|apply length_replicate|done]. Qed.

Definition result_ok (c : AbiCall) (rt : option HwRuntime) (error : option HwError)
    (res : option HwRuntime * HwStatus.t * option HwError) : Prop :=
  let '(rt', s, error') := res in
  s <> HwStatus.Panic /\ slot_ok s error error' /\
  match rt, rt' with Some r, Some r' => abi_post c r s r' | None, None => s <> HwStatus.Ok | _, _ => False end.

(** The general case: the operation's result decides the status. *)
Lemma guarded_result c r r' error (x : outcome FfiFailure unit) :
  match x with Ok _ => abi_post c r HwStatus.Ok r' | Err e => failure_ok e /\ abi_post c r (status e) r' | Panic => False end ->
  result_ok c (Some r) error (guarded_status error (Some r', x)).
Proof.
  assert (Hslot : forall e, slot_ok (status e) error (write_error (clear_error error) e)).
  { intros e. pose proof (write_error_slot (clear_error error) e) as H. by destruct error. }
  destruct x as [[]|e|]; cbn; [intros H|intros [[H1 H2] H3]|done]; split_and!; auto using clear_error_slot.
Qed.

Lemma null_result c error {A} (op : M HwRuntime FfiFailure A) (f : A -> unit) :
  result_ok c None error (guarded_status error (let '(rt, x) := on_runtime None op in (rt, f <$> x))).
Proof.
  set (e := Failure HwStatus.InvalidArgument "runtime must not be null").
  change (result_ok c None error (None, status e, write_error (clear_error error) e)).
  pose proof (write_error_slot (clear_error error) e) as H. unfold result_ok. split; [done|]. split; [by destruct error|done].
Qed.

Definition plain_call (c : AbiCall) : Prop := match c with AbiStart | AbiStop _ => False | _ => True end.

Lemma plain_result c rt error {A} (op : M HwRuntime FfiFailure A) (f : A -> unit) :
  plain_call c -> sound op any -> (forall r, rt = Some r -> runtime_ok r) ->
  result_ok c rt error (guarded_status error (let '(rt, x) := on_runtime rt op in (rt, f <$> x))).
Proof.
  intros Hc Hop Hrt. destruct rt as [r|]; [|apply null_result].
  destruct (Hop r (Hrt r eq_refl)) as (H1 & (H2 & _) & H3). unfold on_runtime. cbn [runtime_ref not_null ok_or].
  destruct (op r) as [r' x]. cbn [fst snd] in *. apply guarded_result.
  assert (Hpost : forall s, abi_post c r s r') by (intros s; split; [done|by destruct c]).
  destruct x as [a|e|]; [apply Hpost|split; [done|apply Hpost]|done].
Qed.

Lemma entry_eq rt error (op : M HwRuntime FfiFailure unit) :
  entry rt error op = guarded_status error (let '(rt, x) := on_runtime rt op in (rt, (fun _ => tt) <$> x)).
Proof. unfold entry. by destruct (on_runtime rt op) as [rt' [[]|e|]]. Qed.

Lemma entry_out_eq {A B} rt error (slot : option B) (f : A -> B) (op : M HwRuntime FfiFailure A) :
  (entry_out rt error slot f op).1 = guarded_status error (let '(rt, x) := on_runtime rt op in (rt, (fun _ => tt) <$> x)).
Proof. unfold entry_out. by destruct (on_runtime rt op) as [rt' x]. Qed.

(** *** The arguments *)

Lemma sound_borrowed b n : slice_ok b -> sound (mlift (borrowed_bytes b n)) (fun d => bytes_ok d).
Proof.
  intros Hb. apply sound_lift. unfold borrowed_bytes. destruct (bs_length b =? 0); [apply Forall_nil_2|].
  unfold slice_ok in Hb. destruct (bs_pointer b); [by apply Forall_take|done].
Qed.

Lemma borrowed_bytes_cases b n :
  match borrowed_bytes b n with Ok _ => True | Err e => failure_ok e | Panic => False end.
Proof. unfold borrowed_bytes. destruct (_ =? 0); [done|]. by destruct (bs_pointer b). Qed.

Lemma sound_bytes b n : sound (mlift (borrowed_bytes b n)) any.
Proof.
  apply sound_lift. pose proof (borrowed_bytes_cases b n) as H. by destruct (borrowed_bytes b n).
Qed.

Lemma sound_string b n : sound (mlift (borrowed_string b n)) any.
Proof.
  apply sound_lift. unfold borrowed_string. pose proof (borrowed_bytes_cases b n) as H.
  destruct (borrowed_bytes b n) as [d|e|]; cbn [mbind outcome_bind]; [|done|done]. by destruct (from_utf8 d).
Qed.

Lemma sound_not_null {A} m (p : option A) : sound (mlift (not_null m p)) any.
Proof. apply sound_lift. by destruct p. Qed.

Lemma sound_endpoint e : sound (mlift (endpoint_from_ffi e)) any.
Proof. apply sound_lift. unfold endpoint_from_ffi. destruct (_ =? _); [done|]. by destruct (_ =? _). Qed.

Lemma sound_engine_call {A} (f : Engine -> M EngineState EngineError A) :
  (forall e, safe (f e) any) -> sound (with_call (fun e => on_engine (f e))) any.
Proof. intros Hf. apply sound_with_call. intros e. apply sound_engine, Hf. Qed.

Lemma sound_submit (f : Engine -> M EngineState EngineError EngineOutput) :
  (forall e, safe (f e) any) -> sound (with_call (fun e => output ← on_engine (f e); dispatch output)) any.
Proof.
  intros Hf. apply sound_with_call. intros e. eapply sound_bind; [apply sound_engine, Hf|].
  intros o _. apply sound_dispatch.
Qed.

Lemma sound_tick now c2 c3 rebind :
  sound (with_call (fun e =>
      t ← locked_tick e now c2 c3 rebind;
      _ ← for_each (fun scheduled => dispatch (so_output scheduled)) (t_outputs t);
      match t_errors t with
      | failure :: _ => mfail (failure_of_tick_error failure)
      | [] => mret tt
      end)) any.
Proof.
  apply sound_with_call. intros e. eapply sound_bind; [apply sound_locked_tick|]. intros t _.
  eapply sound_bind; [apply sound_for_each; intros o; apply sound_dispatch|]. intros _ _.
  destruct (t_errors t) as [|f fs]; [by apply sound_ret|by apply sound_fail].
Qed.

Lemma sound_visit_stats clock i l : sound (visit_stats clock i l) any.
Proof.
  revert i. induction l as [|[p s] l IH]; intros i; cbn [visit_stats]; [by apply sound_ret|].
  eapply sound_bind; [apply sound_host|]. intros _ _. apply IH.
Qed.

Lemma invalidate_engine_safe p : safe (engine_invalidate_peer p) any.
Proof. apply invalidate_safe. Qed.

Lemma sound_resolve (output : option HwEndpoint) peer_name : resolver_returns ->
  sound (with_call (fun _ : Engine =>
      r ← mget;
      p ← mlift (ok_or (Failure HwStatus.InvalidArgument ("unknown peer: " +:+ peer_name))
                   (find (fun p => bool_decide (pc_name p = peer_name)) (peer (rt_config r))));
      endpoint ← mlift (map_err (fun cause => Failure HwStatus.EngineError
                   ("could not resolve endpoint " +:+ display (pc_endpoint p) +:+ ": " +:+ show_io_error cause))
                   (resolve (pc_endpoint p)));
      _ ← mlift (not_null "endpoint output must not be null" output);
      mret endpoint)) any.
Proof.
  intros Hres. apply sound_with_call. intros _. eapply (sound_bind _ _ any); [by apply sound_get|]. intros r _.
  eapply (sound_bind _ _ any); [apply sound_lift; by destruct (find _ _)|]. intros p _.
  eapply (sound_bind _ _ any); [|intros a _; eapply sound_bind; [apply sound_not_null|intros; by apply sound_ret]].
  apply sound_lift. unfold resolve. destruct (literal (pc_endpoint p)); [done|].
  pose proof (Hres (host (pc_endpoint p)) (port (pc_endpoint p))) as Hr.
  destruct (to_socket_addrs _ _) as [l|x|]; cbn [mbind outcome_bind map_err]; [|done|done].
  destruct (list_find is_ipv4 l) as [[]|]; [done|]. by destruct (head l).
Qed.

(** *** Start and stop *)

Lemma start_result rt error :
  (forall r, rt = Some r -> runtime_ok r) -> result_ok AbiStart rt error (hw_runtime_start rt error).
Proof.
  intros Hrt. destruct rt as [r|].
  2: { unfold hw_runtime_start. rewrite entry_eq. apply null_result. }
  pose proof (Hrt r eq_refl) as [H1 H2 H3 H4]. unfold hw_runtime_start, entry, on_runtime.
  cbn [runtime_ref not_null ok_or]. rewrite H2.
  destruct (stopping (lifecycle r)) eqn:Es; [apply guarded_result; by split|].
  destruct (engine (lifecycle r)) as [e|] eqn:Ee.
  { apply guarded_result. split; [by split|]. intros _. cbn. rewrite H2. unfold lc_running. by rewrite Ee, Es. }
  unfold holding, with_router. destruct (decode_key _) as [k|]; cbn [ok_or mbind outcome_bind].
  - cbn [scheduler_poisoned set_engine_state set_lifecycle]. rewrite H3. apply guarded_result.
    split; [split; try done; apply default_wf|]. intros _. cbn. rewrite H2. unfold lc_running. cbn. by rewrite Es.
  - apply guarded_result. by split.
Qed.

Lemma wait_idle_ok wakeups r r' x :
  wait_idle wakeups r = Some (r', x) -> runtime_ok r ->
  Forall (fun w => forall r, runtime_ok r -> runtime_ok (w r)) wakeups ->
  runtime_ok r' /\ x = Ok tt /\ active_calls (lifecycle r') = 0.
Proof.
  intros E Hr Hw. revert r Hr E. induction Hw as [|w ws Hw Hws IH]; intros r Hr; cbn [wait_idle];
    (destruct (Z.eqb_spec (active_calls (lifecycle r)) 0); [by intros [= <- <-]|]); [done|].
  pose proof (Hw r Hr) as Hr'. rewrite (r_lifecycle _ Hr'). by apply IH.
Qed.

Lemma stop_result wakeups rt error :
  (forall r, rt = Some r -> runtime_ok r) -> abi_ok (AbiStop wakeups) ->
  match hw_runtime_stop wakeups rt error with
  | Some res => result_ok (AbiStop wakeups) rt error res | None => True end.
Proof.
  intros Hrt Hw. destruct rt as [r|].
  2: { exact (null_result (AbiStop wakeups) error (mret tt) (fun _ => tt)). }
  pose proof (Hrt r eq_refl) as Hr. pose proof Hr as [H1 H2 H3 H4].
  unfold hw_runtime_stop, stop_op. cbn [runtime_ref not_null ok_or]. rewrite H2.
  destruct (engine (lifecycle r)) as [e|] eqn:Ee.
  2: { apply guarded_result. split; [done|]. intros _. cbn. rewrite H2. unfold lc_running. by rewrite Ee. }
  destruct (wait_idle wakeups _) as [[r' x]|] eqn:Ew; [|done].
  apply wait_idle_ok in Ew as ([J1 J2 J3 J4] & -> & Hz); [|by split|done].
  unfold finish_stop. cbn [scheduler_poisoned set_lifecycle fmap option_fmap option_map]. rewrite J3. apply guarded_result.
  split; [split; try done; cbn; lia|]. intros _. cbn. by rewrite J2.
Qed.

(** A stop that has not returned has found an active call. *)
Lemma stop_waits wakeups rt error :
  hw_runtime_stop wakeups rt error = None -> exists r, rt = Some r /\ active_calls (lifecycle r) <> 0.
Proof.
  destruct rt as [r|]; [|done]. unfold hw_runtime_stop, stop_op. cbn [runtime_ref not_null ok_or].
  destruct (lifecycle_poisoned r); [done|]. destruct (engine (lifecycle r)); [|done]. intros H. exists r. split; [done|].
  intros Hz. revert H. destruct wakeups; cbn [wait_idle]; cbn [lifecycle set_lifecycle active_calls lc_request_stop];
    by rewrite Hz.
Qed.

(** *** Create *)

(** The TOML decoder returns a value or an error. *)
Definition decoder_returns : Prop := forall text, no_panic (toml_from_str text).

(** What [hw_runtime_create] leaves: a sound, stopped runtime of an accepted
    configuration, or the failure that was written to the error slot. *)
Definition create_ok (text : BorrowedSlice) (cbs : option HwCallbacks) (rng : Rng) (error : option HwError) : Prop :=
  match hw_runtime_create text cbs rng error with
  | (Some r, error') =>
      runtime_ok r /\ hw_runtime_is_running (Some r) = 0 /\ slot_ok HwStatus.Ok error error' /\
      config_ok (rt_config r) /\ Router_new (rt_config r) = Ok (rt_router r)
  | (None, error') =>
      exists f, hw_runtime_create_body text cbs rng = Err f /\ slot_ok (status f) error error' /\
        (status f = HwStatus.ConfigError \/ status f = HwStatus.InvalidArgument)
  end.

Lemma parse_cases text : decoder_returns ->
  match parse text with Ok c => config_ok c | Err _ => True | Panic => False end.
Proof.
  intros Hd. unfold parse. pose proof (Hd text) as Ht. destruct (toml_from_str text) as [c|e|]; [|done..].
  cbn [map_err mbind outcome_bind]. destruct (validate_spec c) as [Hv Hp].
  destruct (validate c) as [[]|e|]; cbn [map_err mbind outcome_bind]; [by apply Hv|done..].
Qed.

Lemma with_router_np c r : no_panic (with_router c r).
Proof. unfold with_router, no_panic. by destruct (decode_key _). Qed.

Lemma router_new_np c : resolver_returns -> config_ok c -> no_panic (Router_new c).
Proof. intros Hr Hc. exact (proj1 (router_new_total c Hr Hc)). Qed.

(** Every branch of the body of [hw_runtime_create]. *)
Lemma create_body_cases text cbs rng : resolver_returns -> decoder_returns ->
  match hw_runtime_create_body text cbs rng with
  | Ok r => runtime_ok r /\ hw_runtime_is_running (Some r) = 0 /\
            config_ok (rt_config r) /\ Router_new (rt_config r) = Ok (rt_router r)
  | Err f => status f = HwStatus.ConfigError \/ status f = HwStatus.InvalidArgument
  | Panic => False
  end.
Proof.
  intros Hres Hdec. unfold hw_runtime_create_body, borrowed_bytes.
  set (data := if _ : bool then _ else _).
  assert (Hb : match data with Err f => status f = HwStatus.InvalidArgument | Panic => False | Ok _ => True end).
  { unfold data. destruct (_ =? 0); [done|]. by destruct (bs_pointer text). }
  destruct data as [d|f|]; cbn [mbind outcome_bind]; [|by right|done].
  destruct (from_utf8 d) as [t|]; cbn [ok_or mbind outcome_bind]; [|by left].
  pose proof (parse_cases t Hdec) as Hp. destruct (parse t) as [c|e|]; cbn [map_err mbind outcome_bind]; [|by left|done].
  pose proof (router_new_np c Hres Hp) as Hn.
  destruct (Router_new c) as [r|e|] eqn:Er; cbn [map_err mbind outcome_bind]; [|by left|done].
  pose proof (with_router_np c r) as Hw.
  destruct (with_router c r) as [e|e|]; cbn [map_err mbind outcome_bind]; [|by left|done].
  destruct cbs as [b|]; cbn [not_null ok_or mbind outcome_bind]; [|by right].
  destruct (cb_send_transport b); cbn [not_null ok_or mbind outcome_bind]; [|by right].
  destruct (cb_write_ip_packet b); cbn [not_null ok_or mbind outcome_bind]; [|by right].
  split; [split; try done; apply default_wf|]. split_and!; done.
Qed.

Lemma create_result text cbs rng error : resolver_returns -> decoder_returns -> create_ok text cbs rng error.
Proof.
  intros Hres Hdec. unfold create_ok, hw_runtime_create. pose proof (create_body_cases text cbs rng Hres Hdec) as H.
  destruct (hw_runtime_create_body text cbs rng) as [r|f|]; [| |done].
  - destruct H as (H1 & H2 & H3 & H4). split_and!; auto using clear_error_slot.
  - exists f. split; [done|]. split; [|done]. pose proof (write_error_slot (clear_error error) f). by destruct error.
Qed.

(** *** The other functions *)

Lemma run_abi_ok c rt error :
  resolver_returns -> abi_ok c -> (forall r, rt = Some r -> runtime_ok r) ->
  match run_abi c rt error with
  | Some res => result_ok c rt error res
  | None => exists wakeups r, c = AbiStop wakeups /\ rt = Some r /\ active_calls (lifecycle r) <> 0
  end.
Proof.
  intros Hres Hc Hrt. destruct c; cbn [run_abi] in *;
    [by apply start_result|by pose proof (stop_result wakeups rt error Hrt Hc); destruct (hw_runtime_stop _ _ _) eqn:Es; [|apply stop_waits in Es as (r & -> & Hr); eauto]|..].
  all: unfold hw_runtime_submit_outbound_ip, hw_runtime_submit_inbound_transport, hw_runtime_initiate_handshake,
    hw_runtime_tick, hw_runtime_create_keepalive, hw_runtime_record_transport_sent, hw_runtime_visit_routes,
    hw_runtime_visit_peer_stats, hw_runtime_invalidate_peer, hw_runtime_resolve_peer_endpoint,
    hw_runtime_update_peer_endpoint, hw_runtime_get_interface_config.
  all: rewrite ?entry_out_eq, ?entry_eq; apply plain_result; [done| |done].
  - eapply sound_bind; [by apply sound_borrowed|]. intros d Hd. apply sound_submit. intros e.
    by apply process_outbound_ip_safe.
  - eapply sound_bind; [by apply sound_borrowed|]. intros d Hd.
    eapply sound_bind; [apply sound_not_null|]. intros s _. eapply sound_bind; [apply sound_endpoint|]. intros a _.
    apply sound_submit. intros e. by apply process_inbound_transport_safe.
  - eapply sound_bind; [apply sound_string|]. intros p _. apply sound_submit. intros e. apply initiate_handshake_safe.
  - apply sound_tick.
  - eapply sound_bind; [apply sound_string|]. intros p _. eapply sound_bind; [apply sound_bytes|]. intros d _.
    apply sound_submit. intros e. apply create_keepalive_safe.
  - eapply sound_bind; [apply sound_string|]. intros p _. apply (sound_engine_call (fun _ => engine_invalidate_peer p)).
    intros _. apply invalidate_engine_safe.
  - eapply sound_bind; [apply sound_string|]. intros p _. by apply sound_resolve.
  - eapply sound_bind; [apply sound_string|]. intros p _. eapply sound_bind; [apply sound_not_null|]. intros h _.
    eapply sound_bind; [apply sound_endpoint|]. intros a _.
    apply (sound_engine_call (fun e => update_resolved_endpoint e p a)). intros e. apply update_resolved_endpoint_safe.
  - eapply sound_bind; [apply sound_string|]. intros p _. apply sound_with_call. intros _. apply sound_record_sent.
  - eapply (sound_bind _ _ any); [by apply sound_get|]. intros r _.
    eapply sound_bind; [apply sound_not_null|]. intros o _. by apply sound_ret.
  - eapply sound_bind; [apply sound_not_null|]. intros u _. eapply (sound_bind _ _ any); [by apply sound_get|]. intros r _.
    eapply sound_bind; [|intros _ _]; apply sound_for_each; intros; apply sound_host.
  - eapply sound_bind; [apply sound_not_null|]. intros u _. apply sound_with_call. intros _.
    eapply (sound_bind _ _ any); [by apply sound_get|]. intros r _. apply sound_visit_stats.
Qed.

(** C19: the C boundary is robust: whatever the host passes - null pointers,
    wrong lengths, invalid UTF-8, any configuration text, frame, packet or
    endpoint, any answers of its callbacks - no exported function reports a
    panic.  [hw_runtime_create] gives a sound, stopped runtime of an accepted
    configuration with its router and a cleared error slot, or no runtime and
    a configuration or argument error in the slot.  Every function on a
    runtime refuses a null one, leaves its status and a terminated message in
    the error slot and keeps the runtime sound; a call that is not start or
    stop is counted out of the lifecycle on every path, a successful start
    leaves the runtime running and a successful stop leaves it stopped; the
    only call that need not return is a stop, while other calls are active.
    Assumed is only that name resolution and, for the creation, the TOML
    decoder return a value or an error.  (The functions without a status are
    the version constants, [destroy] and [is_running].) *)
Theorem abi_robust :
  resolver_returns ->
  (decoder_returns -> forall text cbs rng error, create_ok text cbs rng error) /\
  (forall c rt error, abi_ok c -> (forall r, rt = Some r -> runtime_ok r) ->
     match run_abi c rt error with
     | Some res => result_ok c rt error res
     | None => exists wakeups r, c = AbiStop wakeups /\ rt = Some r /\ active_calls (lifecycle r) <> 0
     end).
Proof. intros Hres. split; intros; [by apply create_result|by apply run_abi_ok]. Qed.
End Robust.

(** ** Witnesses *)

Definition wit_threads : Threads nat :=
  {| lc := {| engine := Some 7%nat; active_calls := 1; stopping := true |}; in_flight := [7%nat]; waiting_stops := 1 |}.

Lemma stop_waits_for_calls_witness :
  exists t : Threads nat, in_flight t = [7%nat] /\ engine (lc t) = Some 7%nat /\ is_ok (lc_begin (lc t)).2 = false.
Proof.
  assert (H : rtc lc_step threads_init wit_threads).
  { eapply rtc_l; [by apply (StepStart _ 7%nat)|]. eapply rtc_l; [by eapply StepBegin|].
    eapply rtc_l; [by eapply StepStop|]. apply rtc_refl. }
  destruct (stop_waits_for_calls _ H) as (H1 & _ & H3).
  exists wit_threads. split_and!; [reflexivity|apply H1, list_elem_of_here|apply (H3 eq_refl)].
Defined.

Lemma endpoint_ffi_round_trip_witness :
  endpoint_from_ffi (endpoint_to_ffi (SA6 42540766411282592856903984951653826561 80 5 3))
  = Ok (SA6 42540766411282592856903984951653826561 80 0 3).
Proof. apply endpoint_ffi_round_trip. split; [done|reflexivity]. Defined.

Definition ref_source : ConfigSource (IN := ref_ipnet) := {|
  toml_error := unit; read_error := unit;
  toml_from_str _ := Ok (wit_pair "b" (SA4 0 1) 172838914 "a" "b"); read_to_string _ := Err tt |}.
Definition ref_display : Display (IN := ref_ipnet) (RS := ref_resolver) (SN := ref_snow) (CS := ref_source) := {|
  show_load_error _ := "load"; show_router_error _ := "router"; show_engine_error _ := "engine";
  show_io_error _ := "io" |}.
#[local] Existing Instances ref_source ref_display ref_ipnet ref_base64 ref_resolver ref_snow.

(** The host takes every frame. *)
Definition wit_callbacks : HwCallbacks :=
  {| cb_send_transport := Some (fun _ _ => 1); cb_write_ip_packet := Some tt; cb_handshake_completed := None |}.
Definition wit_slice (b : bytes) : BorrowedSlice := {| bs_pointer := Some b; bs_length := len b |}.
Definition wit_runtime : option HwRuntime :=
  (hw_runtime_create (wit_slice [120]) (Some wit_callbacks) (100 : Z) None).1.
Definition wit_started : option HwRuntime * HwStatus.t * option HwError :=
  hw_runtime_start wit_runtime (Some HwError_default).
Definition wit_submitted := hw_runtime_submit_outbound_ip 0 wit_started.1.1 (wit_slice wit_packet) None.

(** A packet submitted to a fresh runtime makes the host send a handshake. *)
Example abi_session :
  wit_started.1.2 = HwStatus.Ok /\ wit_submitted.1.2 = HwStatus.Ok /\
  (length ∘ host_calls) <$> wit_submitted.1.1 = Some 1%nat /\
  (hw_runtime_submit_outbound_ip 0 wit_runtime (wit_slice wit_packet) None).1.2 = HwStatus.InvalidState /\
  (hw_runtime_submit_outbound_ip 0 wit_started.1.1 {| bs_pointer := None; bs_length := 4 |} None).1.2
    = HwStatus.InvalidArgument.
Proof. repeat split; reflexivity. Qed.

Lemma wit_runtime_ok r : wit_runtime = Some r -> runtime_ok r.
Proof.
  unfold wit_runtime. intros H.
  pose proof (create_result (RS := ref_resolver) (SN := ref_snow) (wit_slice [120]) (Some wit_callbacks) (100 : Z) None
    (fun _ _ => ltac:(done)) (fun _ => ltac:(done))) as Hc.
  unfold create_ok in Hc. destruct (hw_runtime_create _ _ _ _) as [[r0|] e]; [|done].
  injection H as <-. apply Hc.
Qed.

Lemma wit_started_ok r : wit_started.1.1 = Some r -> runtime_ok r.
Proof.
  pose proof (start_result wit_runtime (Some HwError_default) wit_runtime_ok) as H. fold wit_started in H.
  unfold result_ok in H. destruct wit_started as [[rt s] e]. destruct H as (_ & _ & H). cbn [fst snd].
  intros ->. destruct wit_runtime as [r0|]; [apply H|done].
Qed.

Lemma abi_robust_witness :
  create_ok (wit_slice [120]) (Some wit_callbacks) (100 : Z) (Some HwError_default) /\
  create_ok (wit_slice [255]) None (100 : Z) None /\
  result_ok (AbiOutbound 0 (wit_slice wit_packet)) wit_started.1.1 None wit_submitted.
Proof.
  destruct (abi_robust (RS := ref_resolver) (SL := ref_snow_laws)) as [Hcreate Hcall]; [by intros h p|].
  split_and!; [apply Hcreate; by intros t|apply Hcreate; by intros t|].
  apply (Hcall (AbiOutbound 0 (wit_slice wit_packet)) wit_started.1.1 None); [bytes_tac|apply wit_started_ok].
Defined.
