(* ===== verification/Os.v ===== *)
(** * Commands, files and text

    What the command-line program asks of the operating system: it runs
    [ip], [iptables], [route] and [sysctl] and reads their output.  The
    programs and the files are the interface [Os]; the text functions of the
    Rust standard library that read their output are defined here. *)

From Stdlib Require Import Ascii.
From S2P Require Import Prelude Net Std Transport.
Open Scope Z_scope.

(** ** Text *)

Definition LF : ascii := char_of 10.
Definition CR : ascii := char_of 13.

(** [str::lines]: a line ends with LF or CR LF; the last one may lack it. *)
Fixpoint lines_of (ws : list chars) : list chars :=
  match ws with
  | [] => []
  | [w] => match w with [] => [] | _ => [w] end
  | w :: ws => default w (strip_suffix CR w) :: lines_of ws
  end.
Definition lines (s : string) : list chars := lines_of (split LF (chars_of s)).

Definition flush_word (cur : chars) (ws : list chars) : list chars :=
  match cur with [] => ws | _ => cur :: ws end.

(** [str::split_whitespace]; [skip] bytes of a whitespace character remain. *)
Fixpoint words_from (skip : nat) (cur : chars) (l : chars) : list chars :=
  match l with
  | [] => flush_word cur []
  | c :: l' =>
      match skip with
      | S skip => words_from skip cur l'
      | O => match ws_prefix l with
             | O => words_from 0 (cur ++ [c]) l'
             | S n => flush_word cur (words_from n [] l')
             end
      end
  end.
Definition split_whitespace (l : chars) : list chars := words_from 0 [] l.

(** [split_ascii_whitespace]. *)
Definition ascii_ws (c : ascii) : bool :=
  (code c =? 9) || (code c =? 10) || (code c =? 12) || (code c =? 13) || (code c =? 32).
Fixpoint ascii_words_from (cur : chars) (l : chars) : list chars :=
  match l with
  | [] => flush_word cur []
  | c :: l => if ascii_ws c then flush_word cur (ascii_words_from [] l) else ascii_words_from (cur ++ [c]) l
  end.
Definition split_ascii_whitespace (l : chars) : list chars := ascii_words_from [] l.

(** [str::starts_with] on a string. *)
Fixpoint starts_with_str (p l : chars) : bool :=
  match p, l with
  | [], _ => true
  | a :: p, b :: l => bool_decide (a = b) && starts_with_str p l
  | _ :: _, [] => false
  end.
Definition ends_with_str (p l : chars) : bool := starts_with_str (rev p) (rev l).

(** ** Errors with context ([anyhow]) *)

(** The chain of messages, outermost first. *)
Abbreviation anyhow := (list string) (only parsing).
Definition context {A} (c : string) (o : outcome anyhow A) : outcome anyhow A := map_err (cons c) o.
Definition of_io {A} (o : outcome Transport.io_error A) : outcome anyhow A := map_err (fun e => [message e]) o.
Definition mcontext {S A} (c : string) (m : M S anyhow A) : M S anyhow A := fun s =>
  let '(s, r) := m s in (s, context c r).
Definition bail {S A} (c : string) : M S anyhow A := mfail [c].

(** ** The operating system *)

(** The result of a finished program; its texts are decoded as
    [String::from_utf8_lossy] does; [status_text] is the printed exit status.
    No code means that a signal ended the program. *)
Record Output := { exit_code : option Z; status_text : string; stdout : string; stderr : string }.
Definition success (o : Output) : bool := bool_decide (exit_code o = Some 0).

Class Os := {
  World : Type;
  exec : string -> list string -> World -> World * outcome Transport.io_error Output;
  read_file : string -> World -> outcome Transport.io_error string }.

Section Commands.
Context {OS : Os}.

(** [Command::new(program).args(args).output().context(what)?]. *)
Definition output (what program : string) (args : list string) : M World anyhow Output := fun w =>
  let '(w, r) := exec program args w in (w, context what (of_io r)).

(** Run a program that must succeed. *)
Definition run_status (what failed program : string) (args : list string) : M World anyhow unit :=
  o ← output what program args;
  if negb (success o) then bail failed else mret tt.

(** [fs::read_to_string(path).context(what)?], trimmed. *)
Definition read_trimmed (what path : string) : M World anyhow string := fun w =>
  (w, trim <$> context what (of_io (read_file path w))).
End Commands.

(** ** Lemmas on words *)

Definition no_ws (l : chars) : Prop := Forall (fun c => 33 <= code c <= 126) l.

Definition printable (l : chars) : Prop := Forall (fun c => 32 <= code c <= 126) l.

Lemma code_range_check lo hi l :
  forallb (fun c => (lo <=? code c) && (code c <=? hi)) l = true -> Forall (fun c => lo <= code c <= hi) l.
Proof.
  rewrite Forall_forall, forallb_forall. intros H c Hc. rewrite list_elem_of_In in Hc. specialize (H c Hc). zbool. lia.
Qed.
Ltac chars_tac := apply code_range_check; vm_compute; reflexivity.

Lemma no_ws_printable l : no_ws l -> printable l.
Proof. intros H. eapply Forall_impl; [exact H|]. cbn. lia. Qed.

Lemma no_ws_prefix c l : 33 <= code c <= 126 -> ws_prefix (c :: l) = 0%nat.
Proof.
  intros H. unfold ws_prefix, ws1, ws2, ws3. destruct l as [|b [|d l]];
    repeat match goal with |- context [code c =? ?n] => destruct (Z.eqb_spec (code c) n); [lia|] end;
    destruct (Z.leb_spec 9 (code c)); destruct (Z.leb_spec (code c) 13); try lia; done.
Qed.

Lemma words_from_word cur w l :
  no_ws w -> words_from 0 cur (w ++ l) = words_from 0 (cur ++ w) l.
Proof.
  intros H. revert cur. induction H as [|c w Hc H IH]; intros cur; [by rewrite app_nil_r|].
  cbn [app words_from]. rewrite no_ws_prefix by done. rewrite IH. by rewrite <- app_assoc.
Qed.

Lemma words_from_space cur l :
  words_from 0 cur (" "%char :: l) = flush_word cur (words_from 0 [] l).
Proof. done. Qed.

Lemma split_whitespace_cons w l :
  no_ws w -> w <> [] -> split_whitespace (w ++ " "%char :: l) = w :: split_whitespace l.
Proof.
  intros H Hne. unfold split_whitespace. rewrite words_from_word, words_from_space by done. cbn. by destruct w.
Qed.

Lemma split_whitespace_word w : no_ws w -> w <> [] -> split_whitespace w = [w].
Proof.
  intros H Hne. unfold split_whitespace. rewrite <- (app_nil_r w) at 1. rewrite words_from_word by done.
  cbn. by destruct w.
Qed.

Lemma split_whitespace_nil : split_whitespace [] = [].
Proof. done. Qed.
#[export] Hint Rewrite split_whitespace_nil : hushwire.

(** A text without LF is one line. *)
Lemma split_notin c l : c ∉ l -> split c l = [l].
Proof.
  induction l as [|x l IH]; intros H; [done|]. apply not_elem_of_cons in H as [Hx Hl]. cbn [split].
  rewrite bool_decide_false by congruence. by rewrite IH.
Qed.

Lemma split_app c l k : c ∉ l -> split c (l ++ c :: k) = l :: split c k.
Proof.
  induction l as [|x l IH]; intros H; cbn [app split]; [by rewrite bool_decide_true|].
  apply not_elem_of_cons in H as [Hx Hl]. rewrite bool_decide_false by congruence. by rewrite IH.
Qed.

Lemma split_nonempty c l : split c l <> [].
Proof.
  induction l as [|x l IH]; [done|]. cbn [split]. destruct (bool_decide _); [done|]. by destruct (split c l).
Qed.

(** A line that does not end in CR, then the rest of the text. *)
Lemma lines_cons l k :
  LF ∉ l -> strip_suffix CR l = None -> lines (of_chars (l ++ LF :: k)) = l :: lines (of_chars k).
Proof.
  intros H Hcr. unfold lines. rewrite !chars_of_of, split_app by done. cbn [lines_of].
  pose proof (split_nonempty LF k) as Hne. destruct (split LF k) as [|w ws]; [done|]. by rewrite Hcr.
Qed.

Lemma lines_nil : lines "" = [].
Proof. done. Qed.

(** Printable text has no line ends. *)
Lemma printable_no_lf l : printable l -> LF ∉ l.
Proof. intros H Hin. unfold printable in H. rewrite Forall_forall in H. specialize (H _ Hin) as [H _]. by apply H. Qed.

Lemma printable_no_cr l : printable l -> strip_suffix CR l = None.
Proof.
  intros H. unfold strip_suffix. destruct (rev l) as [|c r] eqn:E; [done|]. case_bool_decide as Hc; [|done]. subst.
  assert (Hin : CR ∈ l) by (rewrite <- (rev_involutive l), E; cbn; apply elem_of_app; right; by left).
  unfold printable in H. rewrite Forall_forall in H. specialize (H _ Hin) as [H _]. exfalso. by apply H.
Qed.

Lemma lines_printable l k : printable l -> lines (of_chars (l ++ LF :: k)) = l :: lines (of_chars k).
Proof. intros H. apply lines_cons; auto using printable_no_lf, printable_no_cr. Qed.

(** A printable text that starts with a visible character does not trim to
    nothing. *)
Lemma printable_suffix c l : printable (c :: l) -> ws_suffix (c :: l) = if code c =? 32 then 1%nat else 0%nat.
Proof.
  intros H. apply Forall_cons in H as [Hc _]. unfold ws_suffix, ws1.
  destruct (Z.leb_spec 9 (code c)); destruct (Z.leb_spec (code c) 13); try lia. cbn [andb orb].
  destruct (code c =? 32); [done|]. destruct l as [|b l]; [done|].
  assert (H2 : ws2 (code b) (code c) = false).
  { unfold ws2. destruct (Z.eqb_spec (code c) 133); [lia|]. destruct (Z.eqb_spec (code c) 160); [lia|]. apply andb_false_r. }
  rewrite H2. destruct l as [|a l]; [done|].
  assert (H3 : ws3 (code a) (code b) (code c) = false).
  { unfold ws3. repeat match goal with |- context [code c =? ?n] => destruct (Z.eqb_spec (code c) n); [lia|] end.
    destruct (Z.leb_spec 128 (code c)); [lia|]. by rewrite !andb_false_r. }
  by rewrite H3.
Qed.

Lemma strip_printable n k c :
  printable (k ++ [c]) -> code c <> 32 -> exists k', strip ws_suffix n (k ++ [c]) = k' ++ [c].
Proof.
  revert k. induction n as [|n IH]; intros k H Hc; cbn [strip]; [by exists k|].
  destruct k as [|x k].
  - cbn [app] in *. rewrite printable_suffix by done. destruct (Z.eqb_spec (code c) 32); [done|]. by exists [].
  - cbn [app] in *. rewrite printable_suffix by done. destruct (code x =? 32); [|by exists (x :: k)].
    cbn [drop]. apply IH; [|done]. by apply Forall_cons in H as [_ H].
Qed.

Lemma trim_visible c l : 33 <= code c <= 126 -> printable (c :: l) -> trim_chars (c :: l) <> [].
Proof.
  intros Hc H. unfold trim_chars. cbn [length strip]. rewrite no_ws_prefix by done. cbn [rev].
  destruct (strip_printable (length (c :: l)) (rev l) c) as [k' E].
  - apply Forall_app. apply Forall_cons in H as [H1 H2]. split; [by apply Forall_rev|by apply Forall_cons_2].
  - lia.
  - rewrite E, rev_app_distr. done.
Qed.

(** *** ASCII words *)

Lemma no_ws_ascii c : 33 <= code c <= 126 -> ascii_ws c = false.
Proof. unfold ascii_ws. lia. Qed.

Lemma ascii_words_from_word cur w l : no_ws w -> ascii_words_from cur (w ++ l) = ascii_words_from (cur ++ w) l.
Proof.
  intros H. revert cur. induction H as [|c w Hc H IH]; intros cur; [by rewrite app_nil_r|].
  cbn [app ascii_words_from]. rewrite no_ws_ascii by done. rewrite IH. by rewrite <- app_assoc.
Qed.

Lemma split_ascii_cons w l : no_ws w -> w <> [] ->
  split_ascii_whitespace (w ++ " "%char :: l) = w :: split_ascii_whitespace l.
Proof.
  intros H Hne. unfold split_ascii_whitespace. rewrite ascii_words_from_word by done. cbn. by destruct w.
Qed.
Lemma split_ascii_word w : no_ws w -> split_ascii_whitespace w = flush_word w [].
Proof.
  intros H. unfold split_ascii_whitespace. rewrite <- (app_nil_r w) at 1. by rewrite ascii_words_from_word.
Qed.

(** The words after a space do not depend on the words before it. *)
Lemma split_ascii_app l k : split_ascii_whitespace (l ++ " "%char :: k) = split_ascii_whitespace l ++ split_ascii_whitespace k.
Proof.
  assert (H : forall cur, ascii_words_from cur (l ++ " "%char :: k) = ascii_words_from cur l ++ split_ascii_whitespace k); [|apply H].
  induction l as [|c l IH]; intros cur; cbn [app ascii_words_from].
  - cbn. by destruct cur.
  - destruct (ascii_ws c); [|apply IH]. rewrite IH. by destruct cur.
Qed.
