(* ===== verification/Routing.v ===== *)
(** * Route installation ([src/src/routing.rs])

    The routes a tunnel adds to the operating system and takes away again.
    The platform functions are the class [RoutePlatform], with the Linux and
    the macOS implementation as instances; [RouteManager] is written against
    the class, and its theorems against the laws [RouteLaws], which the Linux
    instance meets when [ip] behaves as documented ([IpLaws]). *)

From Stdlib Require Import Ascii.
From S2P Require Import Prelude Net Std Config Router Transport Os.
Open Scope Z_scope.

Inductive RouteKind := Tun | EndpointException | ExcludedPrefix.
#[export] Instance RouteKind_eq_dec : EqDecision RouteKind.
Proof. solve_decision. Defined.

Record InstalledRoute := { kind : RouteKind; spec : string; tun_name : string }.
#[export] Instance InstalledRoute_eq_dec : EqDecision InstalledRoute.
Proof. solve_decision. Defined.

(** [Display] of [ipnet]'s prefixes. *)
Class NetDisplay {IN : IpNet} := { net_to_string : Ipv4Net -> string }.

(** The platform functions; [get_route_info] gives the gateway, if there is
    one, and the device of the route to an address. *)
Class RoutePlatform {OS : Os} := {
  add_route_to_dev : string -> string -> M World anyhow unit;
  del_tun_route : string -> string -> M World anyhow unit;
  add_host_route_via : string -> string -> string -> M World anyhow unit;
  add_host_route_dev : string -> string -> M World anyhow unit;
  add_prefix_route_via : string -> string -> string -> M World anyhow unit;
  add_prefix_route_dev : string -> string -> M World anyhow unit;
  del_prefix_exception : string -> string -> M World anyhow unit;
  del_host_route : string -> M World anyhow unit;
  get_route_info : string -> M World anyhow (option string * string) }.

(** ** Linux *)

Module Linux.
Section Linux.
Context {OS : Os}.

(** The token after the first ["dev"] is the expected device. *)
Fixpoint tokens_use_dev (tokens : list chars) (expected : string) : bool :=
  match tokens with
  | [] => false
  | token :: tokens =>
      if bool_decide (token = chars_of "dev") then bool_decide (head tokens = Some (chars_of expected))
      else tokens_use_dev tokens expected
  end.
Definition route_line_uses_dev (line : chars) (expected : string) : bool :=
  tokens_use_dev (split_whitespace line) expected.

Definition route_listing_contains (listing : string) (dev : option string) : bool :=
  existsb (fun line => match dev with
                       | None => negb (bool_decide (trim_chars line = []))
                       | Some expected => route_line_uses_dev line expected
                       end) (lines listing).

Definition linux_route_exists (prefix : string) (dev : option string) : M World anyhow bool :=
  o ← output "running ip route show after delete" "ip" ["route"; "show"; prefix];
  if negb (success o) then bail "ip route show failed after delete" else
  mret (route_listing_contains (stdout o) dev).

Definition ATTEMPTS : nat := 3.

(** The message after the last attempt. *)
Definition delete_failed (last_failure : option Output) (last_check_error : option anyhow) : M World anyhow unit :=
  match last_failure with
  | None => mlift Panic
  | Some o =>
      let detail := if bool_decide (trim (stderr o) = ""%string) then "no stderr"%string else trim (stderr o) in
      let failed := ("ip route del failed (" +:+ status_text o +:+ ", " +:+ detail +:+ ")")%string in
      match last_check_error with
      | Some e => bail (failed +:+ "; final route check failed: " +:+ default ""%string (head e))
      | None => bail failed
      end
  end.

(** The loop of [delete_linux_route]; an error of the check is remembered. *)
Fixpoint delete_attempts (attempts : nat) (arguments : list string) (prefix : string) (dev : option string)
    (last_failure : option Output) (last_check_error : option anyhow) : M World anyhow unit :=
  match attempts with
  | O => delete_failed last_failure last_check_error
  | S attempts =>
      o ← output "running ip route del" "ip" arguments;
      if success o then mret tt else fun w =>
      match linux_route_exists prefix dev w with
      | (w, Ok false) => (w, Ok tt)
      | (w, Ok true) => delete_attempts attempts arguments prefix dev (Some o) None w
      | (w, Err e) => delete_attempts attempts arguments prefix dev (Some o) (Some e) w
      | (w, Panic) => (w, Panic)
      end
  end.

Definition delete_linux_route (arguments : list string) (prefix : string) (dev : option string) : M World anyhow unit :=
  delete_attempts ATTEMPTS arguments prefix dev None None.

(** The tokens after ["via"] and ["dev"]; the last ones win. *)
Fixpoint scan_route (parts : list chars) (gateway dev : option string) : option string * option string :=
  match parts with
  | [] => (gateway, dev)
  | part :: rest =>
      let next := of_chars <$> head rest in
      let gateway := if bool_decide (part = chars_of "via") then match next with Some g => Some g | None => gateway end else gateway in
      let dev := if bool_decide (part = chars_of "dev") then match next with Some d => Some d | None => dev end else dev in
      scan_route rest gateway dev
  end.

Definition linux_get_route_info (dst : string) : M World anyhow (option string * string) :=
  o ← output "running ip route get" "ip" ["route"; "get"; dst];
  line ← mlift (ok_or ["empty ip route get output"%string] (head (lines (stdout o))));
  let '(gateway, dev) := scan_route (split_whitespace line) None None in
  dev ← mlift (ok_or ["could not find 'dev' in ip route get output"%string] dev);
  mret (gateway, dev).

#[export] Instance linux_routes : RoutePlatform := {|
  add_route_to_dev prefix dev :=
    run_status "running ip route add" "ip route add failed" "ip" ["route"; "add"; prefix; "dev"; dev];
  del_tun_route prefix dev := delete_linux_route ["route"; "del"; prefix; "dev"; dev] prefix (Some dev);
  add_host_route_via host gateway dev :=
    run_status "running ip route add host via" "ip route add host via failed" "ip"
      ["route"; "add"; host; "via"; gateway; "dev"; dev];
  add_host_route_dev host dev :=
    run_status "running ip route add host dev" "ip route add host dev failed" "ip" ["route"; "add"; host; "dev"; dev];
  add_prefix_route_via prefix gateway dev :=
    run_status "running ip route add excluded prefix via" "ip route add excluded prefix via failed" "ip"
      ["route"; "add"; prefix; "via"; gateway; "dev"; dev];
  add_prefix_route_dev prefix dev :=
    run_status "running ip route add excluded prefix dev" "ip route add excluded prefix dev failed" "ip"
      ["route"; "add"; prefix; "dev"; dev];
  del_prefix_exception prefix dev := delete_linux_route ["route"; "del"; prefix; "dev"; dev] prefix (Some dev);
  del_host_route host := delete_linux_route ["route"; "del"; host] host None;
  get_route_info := linux_get_route_info |}.
End Linux.
End Linux.

(** ** macOS *)

Module Macos.
Section Macos.
Context {OS : Os}.

(** The loop over the lines of [route -n get]. *)
Fixpoint scan_lines (ls : list chars) (gateway interface : option string) : option string * option string :=
  match ls with
  | [] => (gateway, interface)
  | line :: ls =>
      let line := trim_chars line in
      let second := of_chars <$> split_whitespace line !! 1%nat in
      let gateway := if starts_with_str (chars_of "gateway:") line then second else gateway in
      let interface := if starts_with_str (chars_of "interface:") line then second else interface in
      scan_lines ls gateway interface
  end.

Definition macos_get_route_info (dst : string) : M World anyhow (option string * string) :=
  o ← output "running route -n get" "route" ["-n"; "get"; dst];
  let '(gateway, interface) := scan_lines (lines (stdout o)) None None in
  interface ← mlift (ok_or ["could not find interface in route output"%string] interface);
  mret (gateway, interface).

#[export] Instance macos_routes : RoutePlatform := {|
  add_route_to_dev prefix dev :=
    run_status "running route add" "route add failed" "route" ["add"; "-net"; prefix; "-interface"; dev];
  del_tun_route prefix dev :=
    run_status "running route delete" "route delete failed" "route" ["delete"; "-net"; prefix; "-interface"; dev];
  add_host_route_via host gateway _ :=
    run_status "running route add host" "route add host failed" "route" ["add"; "-host"; host; gateway];
  add_host_route_dev host dev :=
    run_status "running route add host via interface" "route add host via interface failed" "route"
      ["add"; "-host"; host; "-interface"; dev];
  add_prefix_route_via prefix gateway _ :=
    run_status "running route add excluded prefix" "route add excluded prefix failed" "route"
      ["add"; "-net"; prefix; gateway];
  add_prefix_route_dev prefix dev :=
    run_status "running route add excluded prefix via interface" "route add excluded prefix via interface failed"
      "route" ["add"; "-net"; prefix; "-interface"; dev];
  del_prefix_exception prefix _ :=
    run_status "running route delete excluded prefix" "route delete excluded prefix failed" "route"
      ["delete"; "-net"; prefix];
  del_host_route host :=
    run_status "running route delete host" "route delete host failed" "route" ["delete"; "-host"; host];
  get_route_info := macos_get_route_info |}.
End Macos.
End Macos.

(** ** The manager *)

Section Manager.
Context {IN : IpNet} {ND : NetDisplay} {RS : Resolver} {OS : Os} {RP : RoutePlatform}.

(** The state of a [RouteManager] beside the system it changes. *)
Record RouteManager := { world : World; rm_tun_name : string; installed : list InstalledRoute }.

Definition set_world (w : World) (m : RouteManager) : RouteManager :=
  {| world := w; rm_tun_name := rm_tun_name m; installed := installed m |}.
Definition set_installed (l : list InstalledRoute) (m : RouteManager) : RouteManager :=
  {| world := world m; rm_tun_name := rm_tun_name m; installed := l |}.

Definition RouteManager_new (w : World) (tun_name : string) : RouteManager :=
  {| world := w; rm_tun_name := tun_name; installed := [] |}.

(** A call of a platform function. *)
Definition sys {A} (f : M World anyhow A) : M RouteManager anyhow A := fun m =>
  let '(w, r) := f (world m) in (set_world w m, r).
Definition push (kind : RouteKind) (spec tun : string) : M RouteManager anyhow unit :=
  mmodify (fun m => set_installed (installed m ++ [{| kind := kind; spec := spec; tun_name := tun |}]) m).

Definition add_tun_route (prefix : string) : M RouteManager anyhow unit :=
  m ← mget;
  _ ← sys (mcontext ("add route " +:+ prefix +:+ " dev " +:+ rm_tun_name m) (add_route_to_dev prefix (rm_tun_name m)));
  push Tun prefix (rm_tun_name m).

Definition ip_to_string (ip : IpAddr) : string := of_chars (fmt_ip ip).

Definition add_endpoint_exception (ip : IpAddr) : M RouteManager anyhow unit :=
  let host := ip_to_string ip in
  '(gateway, dev) ← sys (mcontext ("determine physical route before excluding endpoint " +:+ host) (get_route_info host));
  _ ← sys (match gateway with
           | Some gateway => mcontext ("add endpoint exception for " +:+ host +:+ " via " +:+ gateway)
                               (add_host_route_via host gateway dev)
           | None => mcontext ("add endpoint exception for " +:+ host +:+ " on " +:+ dev) (add_host_route_dev host dev)
           end);
  m ← mget;
  push EndpointException host (rm_tun_name m).

(** [saturating_add] on a [u32]. *)
Definition probe_of (prefix : Ipv4Net) : u32 :=
  if prefix_len prefix =? 32 then network prefix else Z.min U32_MAX (network prefix + 1).

Definition add_prefix_exception (prefix : Ipv4Net) : M RouteManager anyhow unit :=
  let spec := net_to_string prefix in
  '(gateway, dev) ← sys (mcontext ("determine physical route before excluding " +:+ spec)
                           (get_route_info (ip_to_string (V4 (probe_of prefix)))));
  _ ← sys (match gateway with
           | Some gateway => mcontext ("add direct-route exclusion " +:+ spec +:+ " via " +:+ gateway)
                               (add_prefix_route_via spec gateway dev)
           | None => mcontext ("add direct-route exclusion " +:+ spec +:+ " on " +:+ dev) (add_prefix_route_dev spec dev)
           end);
  push ExcludedPrefix spec dev.

(** The three loops of [setup_inner]. *)
Fixpoint install_exclusions (seen : list Ipv4Net) (xs : list ExcludedRoute) : M RouteManager anyhow unit :=
  match xs with
  | [] => mret tt
  | x :: xs =>
      if bool_decide (ex_prefix x ∈ seen) then install_exclusions seen xs else
      _ ← add_prefix_exception (ex_prefix x);
      install_exclusions (ex_prefix x :: seen) xs
  end.

Fixpoint install_exceptions (ps : list Peer) : M RouteManager anyhow unit :=
  match ps with
  | [] => mret tt
  | p :: ps => _ ← add_endpoint_exception (sa_ip (endpoint p)); install_exceptions ps
  end.

Definition install_route (r : Route) : M RouteManager anyhow unit :=
  if prefix_len (prefix r) =? 0 then _ ← add_tun_route "0.0.0.0/1"; add_tun_route "128.0.0.0/1"
  else if prefix_len (prefix r) =? 32 then add_tun_route (ip_to_string (V4 (net_addr (prefix r))) +:+ "/32")
  else add_tun_route (net_to_string (prefix r)).

Fixpoint install_routes (rs : list Route) : M RouteManager anyhow unit :=
  match rs with [] => mret tt | r :: rs => _ ← install_route r; install_routes rs end.

Definition setup_inner (router : Router) : M RouteManager anyhow unit :=
  _ ← install_exclusions [] (excluded_routes router);
  _ ← install_exceptions (endpoint_exception_peers router);
  install_routes (routes router).

Definition delete_entry (r : InstalledRoute) : M World anyhow unit :=
  match kind r with
  | Tun => del_tun_route (spec r) (tun_name r)
  | EndpointException => del_host_route (spec r)
  | ExcludedPrefix => del_prefix_exception (spec r) (tun_name r)
  end.

(** [cleanup_routes], newest route first; the result lists the routes whose
    deletion failed, which the source logs and passes over. *)
Fixpoint cleanup_loop (rs : list InstalledRoute) (w : World) : World * outcome anyhow (list InstalledRoute) :=
  match rs with
  | [] => (w, Ok [])
  | r :: rs =>
      match delete_entry r w with
      | (w, Panic) => (w, Panic)
      | (w, x) =>
          let '(w, rest) := cleanup_loop rs w in
          (w, (fun failed => if is_ok x then failed else r :: failed) <$> rest)
      end
  end.
Definition cleanup_routes (rs : list InstalledRoute) : M World anyhow (list InstalledRoute) := cleanup_loop (rev rs).

(** On a failure what was installed is taken back; the result also carries
    the routes that could not be deleted. *)
Definition setup (router : Router) (m : RouteManager)
    : RouteManager * outcome anyhow unit * list InstalledRoute :=
  match setup_inner router m with
  | (m, Err e) =>
      match cleanup_routes (installed m) (world m) with
      | (w, Ok failed) => (set_installed [] (set_world w m), Err e, failed)
      | (w, Err e') => (set_world w m, Err e', [])
      | (w, Panic) => (set_world w m, Panic, [])
      end
  | (m, r) => (m, r, [])
  end.

(** [RouteManager::cleanup]. *)
Definition cleanup (m : RouteManager) : RouteManager * outcome anyhow (list InstalledRoute) :=
  let '(w, r) := cleanup_routes (installed m) (world m) in (set_world w m, r).
End Manager.

(** ** The laws of the platform functions *)

(** The routing table: gateway and device by destination.  [key_of] reads a
    destination as the platform does (["a.b.c.d"] is ["a.b.c.d/32"]). *)
Class RouteTable {OS : Os} := {
  Key : Type;
  Key_eq_dec :: EqDecision Key;
  Key_countable :: Countable Key;
  key_of : string -> Key;
  table : World -> gmap Key (option string * string) }.

Section Effects.
Context {OS : Os} {RT : RouteTable}.

(** Adding a route succeeds only when there was none to the destination; a
    failure changes nothing. *)
Definition adds (m : M World anyhow unit) (k : Key) (e : option string * string) : Prop := forall w,
  match m w with
  | (w', Ok _) => table w !! k = None /\ table w' = <[k := e]> (table w)
  | (w', Err _) => table w' = table w
  | (_, Panic) => False
  end.

(** Deleting touches one destination; after a success no route of the kind
    [P] leads there. *)
Definition deletes (m : M World anyhow unit) (k : Key) (P : option string * string -> Prop) : Prop := forall w,
  match m w with
  | (w', Ok _) => (table w' = table w \/ table w' = delete k (table w)) /\
                  forall e, table w' !! k = Some e -> ~ P e
  | (w', Err _) => table w' = table w \/ table w' = delete k (table w)
  | (_, Panic) => False
  end.

Definition reads {A} (m : M World anyhow A) : Prop := forall w, table (m w).1 = table w /\ (m w).2 <> Panic.
End Effects.

Class RouteLaws {OS : Os} (RP : RoutePlatform) (RT : RouteTable) := {
  law_add_dev : forall p d, adds (add_route_to_dev p d) (key_of p) (None, d);
  law_add_host_via : forall h g d, adds (add_host_route_via h g d) (key_of h) (Some g, d);
  law_add_host_dev : forall h d, adds (add_host_route_dev h d) (key_of h) (None, d);
  law_add_prefix_via : forall p g d, adds (add_prefix_route_via p g d) (key_of p) (Some g, d);
  law_add_prefix_dev : forall p d, adds (add_prefix_route_dev p d) (key_of p) (None, d);
  law_del_tun : forall p d, deletes (del_tun_route p d) (key_of p) (fun e => e.2 = d);
  law_del_prefix : forall p d, deletes (del_prefix_exception p d) (key_of p) (fun e => e.2 = d);
  law_del_host : forall h, deletes (del_host_route h) (key_of h) (fun _ => True);
  law_get : forall dst, reads (get_route_info dst) }.

(** *** [ip], as documented *)

Definition word (s : string) : Prop := no_ws (chars_of s) /\ chars_of s <> [] /\ s <> "dev"%string.

(** The line [ip route show] prints for a route. *)
Definition shown (dst : string) (e : option string * string) (tail : chars) : chars :=
  chars_of dst ++ " "%char ::
    match e.1 with Some g => chars_of "via" ++ " "%char :: chars_of g ++ [" "%char] | None => [] end ++
    chars_of "dev" ++ " "%char :: chars_of e.2 ++ " "%char :: tail.

(** What an execution of [ip] does to the table when it succeeds, fails, or
    cannot be run. *)
Definition ip_effect {OS : Os} {RT : RouteTable} (args : list string) (w : World)
    (Q : gmap Key (option string * string) -> Output -> Prop) : Prop :=
  match exec "ip" args w with
  | (w', Ok o) => if success o then Q (table w') o else table w' = table w
  | (w', Err _) => table w' = table w
  | (_, Panic) => False
  end.

Class IpLaws {OS : Os} (RT : RouteTable) := {
  ip_add_via : forall p g d w, ip_effect ["route"; "add"; p; "via"; g; "dev"; d] w (fun t _ =>
    table w !! key_of p = None /\ t = <[key_of p := (Some g, d)]> (table w));
  ip_add_dev : forall p d w, ip_effect ["route"; "add"; p; "dev"; d] w (fun t _ =>
    table w !! key_of p = None /\ t = <[key_of p := (None, d)]> (table w));
  ip_del_dev : forall p d w, ip_effect ["route"; "del"; p; "dev"; d] w (fun t _ =>
    t = delete (key_of p) (table w));
  ip_del : forall p w, ip_effect ["route"; "del"; p] w (fun t _ => t = delete (key_of p) (table w));
  ip_show : forall p w, ip_effect ["route"; "show"; p] w (fun t o => t = table w /\
    match table w !! key_of p with
    | None => stdout o = ""%string
    | Some e => exists dst tail, word dst /\ word e.2 /\ (forall g, e.1 = Some g -> word g) /\ printable tail /\
                  stdout o = of_chars (shown dst e tail ++ [LF])
    end);
  ip_get : forall a w, ip_effect ["route"; "get"; a] w (fun t _ => t = table w) }.

(** ** The Linux functions meet the laws *)

Section LinuxLaws.
Context {OS : Os} {RT : RouteTable} {IL : IpLaws RT}.

Lemma word_not_dev s : word s -> chars_of s <> chars_of "dev".
Proof. intros (_ & _ & H) E. apply H. by rewrite <- (of_chars_of s), E. Qed.

Lemma word_printable s : word s -> printable (chars_of s).
Proof. intros [H _]. by apply no_ws_printable. Qed.

Lemma shown_printable dst e tail :
  word dst -> word e.2 -> (forall g, e.1 = Some g -> word g) -> printable tail -> printable (shown dst e tail).
Proof.
  intros Hd He Hg Ht. unfold shown. pose proof (word_printable _ Hd). pose proof (word_printable _ He).
  assert (Hsp : 32 <= Std.code " "%char <= 126) by (vm_compute; split; discriminate).
  assert (Hdev : printable (chars_of "dev")) by chars_tac.
  assert (Hvia : printable (chars_of "via")) by chars_tac.
  apply Forall_app. split; [done|]. apply Forall_cons_2; [done|]. apply Forall_app. split.
  - destruct e.1 as [g|]; [|apply Forall_nil_2]. apply Forall_app. split; [done|]. apply Forall_cons_2; [done|].
    apply Forall_app. split; [by apply word_printable, Hg|]. apply Forall_cons_2; [done|apply Forall_nil_2].
  - apply Forall_app. split; [done|]. apply Forall_cons_2; [done|]. apply Forall_app. split; [done|]. by apply Forall_cons_2.
Qed.

Lemma shown_tokens dst e tail :
  word dst -> word e.2 -> (forall g, e.1 = Some g -> word g) ->
  split_whitespace (shown dst e tail) =
    chars_of dst :: match e.1 with Some g => [chars_of "via"; chars_of g] | None => [] end ++
    chars_of "dev" :: chars_of e.2 :: split_whitespace tail.
Proof.
  intros (Hd & Hd0 & _) (He & He0 & _) Hg. unfold shown. rewrite split_whitespace_cons by done. f_equal.
  assert (Hdev : no_ws (chars_of "dev")) by chars_tac.
  assert (Hvia : no_ws (chars_of "via")) by chars_tac.
  destruct e.1 as [g|].
  - destruct (Hg g eq_refl) as (Hg1 & Hg0 & _). rewrite <- app_assoc. cbn [app].
    rewrite split_whitespace_cons by done. rewrite <- app_assoc. cbn [app].
    rewrite !split_whitespace_cons by done. done.
  - cbn [app]. by rewrite !split_whitespace_cons by done.
Qed.

Lemma listing_contains dst e tail dev :
  word dst -> word e.2 -> (forall g, e.1 = Some g -> word g) -> printable tail ->
  Linux.route_listing_contains (of_chars (shown dst e tail ++ [LF])) dev
  = match dev with None => true | Some d => bool_decide (e.2 = d) end.
Proof.
  intros Hd He Hg Ht. pose proof (shown_printable _ _ _ Hd He Hg Ht) as Hp.
  unfold Linux.route_listing_contains. rewrite lines_printable by done.
  cbn [existsb]. change (lines (of_chars [])) with (@nil chars). cbn [existsb]. rewrite orb_false_r.
  destruct dev as [d|].
  - unfold Linux.route_line_uses_dev. rewrite shown_tokens by done. cbn [Linux.tokens_use_dev].
    rewrite bool_decide_false by (by apply word_not_dev).
    assert (Hend : bool_decide (head (chars_of e.2 :: split_whitespace tail) = Some (chars_of d)) = bool_decide (e.2 = d)).
    { apply bool_decide_ext. cbn. split; [intros [= E]|by intros ->]. by rewrite <- (of_chars_of e.2), E, of_chars_of. }
    destruct e.1 as [g|]; cbn [app Linux.tokens_use_dev].
    + rewrite bool_decide_false by done. rewrite bool_decide_false by (by apply word_not_dev, Hg).
      by rewrite bool_decide_true.
    + by rewrite bool_decide_true.
  - apply negb_true_iff, bool_decide_eq_false. destruct Hd as (Hw & Hne & _). unfold shown in *.
    destruct (chars_of dst) as [|c l] eqn:E; [done|]. apply trim_visible; [|done]. by apply Forall_cons in Hw as [Hw _].
Qed.

Definition listed (dev : option string) (e : option (option string * string)) : bool :=
  match e with
  | None => false
  | Some e => match dev with None => true | Some d => bool_decide (e.2 = d) end
  end.

(** The listing tells whether the route is still there. *)
Lemma route_exists_spec p dev w :
  match Linux.linux_route_exists p dev w with
  | (w', Ok b) => table w' = table w /\ b = listed dev (table w !! key_of p)
  | (w', Err _) => table w' = table w
  | (_, Panic) => False
  end.
Proof.
  pose proof (ip_show p w) as H. unfold ip_effect in H.
  unfold Linux.linux_route_exists, output, mbind, M_bind, context, of_io.
  destruct (exec "ip" ["route"; "show"; p] w) as [w' [o|e|]]; cbn [map_err]; [|done|done].
  destruct (success o); cbn [negb]; [|done]. destruct H as [H1 H2]. unfold mret, M_ret. split; [done|].
  destruct (table w !! key_of p) as [e|]; [|by rewrite H2].
  destruct H2 as (dst & tail & Hd & He & Hg & Ht & ->). by apply listing_contains.
Qed.

Lemma delete_attempts_spec n args p dev lf le w :
  (forall w, ip_effect args w (fun t _ => t = delete (key_of p) (table w))) ->
  lf <> None \/ (0 < n)%nat ->
  match Linux.delete_attempts n args p dev lf le w with
  | (w', Ok _) => (table w' = table w \/ table w' = delete (key_of p) (table w)) /\
       forall e, table w' !! key_of p = Some e -> ~ match dev with None => True | Some d => e.2 = d end
  | (w', Err _) => table w' = table w \/ table w' = delete (key_of p) (table w)
  | (_, Panic) => False
  end.
Proof.
  intros Hdel. revert lf le w. induction n as [|n IH]; intros lf le w Hlf; cbn [Linux.delete_attempts].
  { destruct lf as [o|]; [|by destruct Hlf; [|lia]]. unfold Linux.delete_failed. destruct le; cbn; by left. }
  pose proof (Hdel w) as H. unfold ip_effect in H. unfold output, mbind, M_bind, context, of_io.
  destruct (exec "ip" args w) as [w1 [o|e|]]; cbn [map_err]; [|by left|done].
  destruct (success o).
  { cbn. split; [by right|]. rewrite H. intros e. by rewrite lookup_delete_eq. }
  pose proof (route_exists_spec p dev w1) as Hs.
  destruct (Linux.linux_route_exists p dev w1) as [w2 [[|]|e|]]; [| | |done].
  - destruct Hs as [Hs _]. specialize (IH (Some o) None w2 ltac:(by left)). by rewrite Hs, H in IH.
  - destruct Hs as [Hs Hb]. rewrite Hs, H. split; [by left|]. intros e He. rewrite H in Hb. rewrite He in Hb.
    destruct dev as [d|]; [|done]. symmetry in Hb. by apply bool_decide_eq_false in Hb.
  - specialize (IH (Some o) (Some e) w2 ltac:(by left)). by rewrite Hs, H in IH.
Qed.

Lemma run_status_adds what failed args k e :
  (forall w, ip_effect args w (fun t _ => table w !! k = None /\ t = <[k := e]> (table w))) ->
  adds (run_status what failed "ip" args) k e.
Proof.
  intros H w. specialize (H w). unfold ip_effect in H. unfold run_status, output, mbind, M_bind, context, of_io.
  destruct (exec "ip" args w) as [w1 [o|er|]]; cbn [map_err]; [|done|done].
  by destruct (success o).
Qed.

#[export] Instance linux_laws : RouteLaws Linux.linux_routes RT.
Proof.
  split; intros; cbn [add_route_to_dev add_host_route_via add_host_route_dev add_prefix_route_via add_prefix_route_dev
    del_tun_route del_prefix_exception del_host_route get_route_info Linux.linux_routes].
  1, 3, 5: apply run_status_adds; intros w; apply ip_add_dev.
  1, 2: apply run_status_adds; intros w; apply ip_add_via.
  1, 2: intros w; apply (delete_attempts_spec _ _ p (Some d)); [intros; apply ip_del_dev|right; unfold Linux.ATTEMPTS; lia].
  - intros w. apply (delete_attempts_spec _ _ h None); [intros; apply ip_del|right; unfold Linux.ATTEMPTS; lia].
  - intros w. pose proof (ip_get dst w) as H. unfold ip_effect in H.
    unfold Linux.linux_get_route_info, output, mbind, M_bind, context, of_io, mlift.
    destruct (exec "ip" ["route"; "get"; dst] w) as [w1 [o|er|]]; cbn [map_err]; [|done|done].
    assert (Ht : table w1 = table w) by (by destruct (success o)).
    destruct (head (lines (stdout o))); cbn [ok_or]; [|done].
    destruct (Linux.scan_route _ _ _) as [g [d|]]; done.
Qed.
End LinuxLaws.

(** ** What the manager has installed *)

Section ManagerLemmas.
Context {IN : IpNet} {ND : NetDisplay} {RS : Resolver} {OS : Os} {RP : RoutePlatform} {RT : RouteTable} {RL : RouteLaws RP RT}.

Definition rkey (r : InstalledRoute) : Key := key_of (spec r).
Definition entry_of (r : InstalledRoute) (e : option string * string) : Prop :=
  match kind r with EndpointException => True | _ => e.2 = tun_name r end.
Definition shape (r : InstalledRoute) : RouteKind * string := (kind r, spec r).

(** From table [t0], the routes [l] were added and nothing else changed. *)
Record added (t0 t : gmap Key (option string * string)) (l : list InstalledRoute) : Prop := {
  a_nodup : NoDup (rkey <$> l);
  a_fresh : forall r, r ∈ l -> t0 !! rkey r = None;
  a_here : forall r, r ∈ l -> exists e, t !! rkey r = Some e /\ entry_of r e;
  a_same : forall k, k ∉ rkey <$> l -> t !! k = t0 !! k }.

Lemma added_nil t : added t t [].
Proof. split; [constructor|by intros r ?%not_elem_of_nil..|done]. Qed.

Lemma added_fresh t0 t l k : added t0 t l -> t !! k = None -> (k ∉ rkey <$> l) /\ t0 !! k = None.
Proof.
  intros [_ H2 H3 H4] Hk. assert (Hn : k ∉ rkey <$> l).
  { intros (r & -> & Hr)%list_elem_of_fmap. destruct (H3 r Hr) as (e & He & _). congruence. }
  split; [done|]. by rewrite <- H4.
Qed.

Lemma added_snoc t0 t l r e :
  added t0 t l -> t !! rkey r = None -> entry_of r e -> added t0 (<[rkey r := e]> t) (l ++ [r]).
Proof.
  intros Ha Hk He. destruct (added_fresh _ _ _ _ Ha Hk) as [Hn H0]. destruct Ha as [H1 H2 H3 H4]. split.
  - rewrite fmap_app. apply NoDup_app. split_and!; [done| |by apply NoDup_singleton].
    intros k Hk1 Hk2%list_elem_of_singleton. by subst.
  - intros r' [Hr|Hr%list_elem_of_singleton]%elem_of_app; [by apply H2|by subst].
  - intros r' [Hr|Hr%list_elem_of_singleton]%elem_of_app.
    + rewrite lookup_insert_ne; [by apply H3|]. intros Eq. apply Hn. rewrite Eq. by apply list_elem_of_fmap_2.
    + subst. exists e. by rewrite lookup_insert_eq.
  - intros k Hk'. rewrite fmap_app in Hk'. apply not_elem_of_app in Hk' as [Hk1 Hk2].
    rewrite lookup_insert_ne; [by apply H4|]. intros <-. apply Hk2. by apply list_elem_of_singleton.
Qed.

(** [f] adds the routes [l], or fails after a prefix of them. *)
Definition installs (f : M RouteManager anyhow unit) (l : list (RouteKind * string)) : Prop := forall t0 m,
  added t0 (table (world m)) (installed m) ->
  let '(m', r) := f m in
  added t0 (table (world m')) (installed m') /\ r <> Panic /\ rm_tun_name m' = rm_tun_name m /\
  exists l', shape <$> installed m' = (shape <$> installed m) ++ l' /\ l' `prefix_of` l /\ (is_ok r = true -> l' = l).

Lemma installs_ret : installs (mret tt) [].
Proof. intros t0 m H. split_and!; [done..|]. exists []. by rewrite app_nil_r. Qed.

Lemma installs_bind f g l1 l2 : installs f l1 -> installs g l2 -> installs (_ ← f; g) (l1 ++ l2).
Proof.
  intros Hf Hg t0 m Hm. specialize (Hf t0 m Hm). unfold mbind, M_bind. destruct (f m) as [m1 [[]|e|]].
  - destruct Hf as (H1 & _ & H2 & l' & H3 & H4 & H5). specialize (Hg t0 m1 H1). rewrite (H5 eq_refl) in H3.
    destruct (g m1) as [m2 r]. destruct Hg as (J1 & J2 & J3 & k & J4 & J5 & J6). split_and!; [done..|congruence|].
    exists (l1 ++ k). rewrite J4, H3, app_assoc. split_and!; [done|by apply prefix_app|]. intros Hr. by rewrite J6.
  - destruct Hf as (H1 & _ & H2 & l' & H3 & H4 & H5). split_and!; [done..|]. exists l'. split_and!; [done| |done].
    etrans; [done|]. by exists l2.
  - by destruct Hf as (_ & [] & _).
Qed.

(** A step that only asks. *)
Lemma installs_read {A} (f : M World anyhow A) (g : A -> M RouteManager anyhow unit) l :
  reads f -> (forall a, installs (g a) l) -> installs (a ← sys f; g a) l.
Proof.
  intros Hf Hg t0 m Hm. destruct (Hf (world m)) as [H1 H2]. unfold mbind, M_bind, sys.
  destruct (f (world m)) as [w [a|e|]]; cbn [fst snd] in *; [..|done].
  - apply (Hg a t0 (set_world w m)). cbn. by rewrite H1.
  - split_and!; [cbn; by rewrite H1|done..|]. exists []. rewrite app_nil_r. split_and!; [done|apply prefix_nil|done].
Qed.

(** A step that adds a route and notes it. *)
Lemma installs_add (f : M World anyhow unit) (e : option string * string) (kind : RouteKind) (s : string) (tun : RouteManager -> string) :
  adds f (key_of s) e -> (forall m, entry_of {| kind := kind; spec := s; tun_name := tun m |} e) ->
  installs (_ ← sys f; m ← mget; push kind s (tun m)) [(kind, s)].
Proof.
  intros Hf He t0 m Hm. specialize (Hf (world m)). unfold mbind, M_bind, sys.
  destruct (f (world m)) as [w [[]|er|]]; [| |done].
  - destruct Hf as [Hk Ht]. cbn. split_and!; [|done..|].
    + rewrite Ht. change (key_of s) with (rkey {| kind := kind; spec := s; tun_name := tun (set_world w m) |}).
      by apply added_snoc.
    + exists [(kind, s)]. split_and!; [by rewrite fmap_app|done..].
  - cbn. split_and!; [by rewrite Hf|done..|]. exists []. rewrite app_nil_r. split_and!; [done|apply prefix_nil|done].
Qed.

Lemma adds_context c f k e : adds f k e -> adds (mcontext c f) k e.
Proof. intros H w. specialize (H w). unfold mcontext. by destruct (f w) as [w' []]. Qed.

Lemma reads_context {A} c (f : M World anyhow A) : reads f -> reads (mcontext c f).
Proof. intros H w. destruct (H w) as [H1 H2]. unfold mcontext. by destruct (f w) as [w' []]. Qed.

Lemma adds_ext f g k e : (forall w, f w = g w) -> adds f k e -> adds g k e.
Proof. intros E H w. rewrite <- E. apply H. Qed.

(** *** The operations of the manager *)

Lemma add_tun_route_installs p : installs (add_tun_route p) [(Tun, p)].
Proof.
  intros t0 m Hm. unfold add_tun_route. unfold mget, mbind at 1, M_bind at 1.
  pose proof (installs_add (mcontext ("add route " +:+ p +:+ " dev " +:+ rm_tun_name m) (add_route_to_dev p (rm_tun_name m)))
    (None, rm_tun_name m) Tun p (fun _ => rm_tun_name m) ltac:(apply adds_context, law_add_dev) ltac:(done) t0 m Hm) as H.
  exact H.
Qed.

Lemma add_endpoint_exception_installs ip :
  installs (add_endpoint_exception ip) [(EndpointException, ip_to_string ip)].
Proof.
  unfold add_endpoint_exception. apply installs_read; [apply reads_context, law_get|]. intros [[g|] d].
  - apply (installs_add _ (Some g, d) EndpointException _ rm_tun_name); [apply adds_context, law_add_host_via|done].
  - apply (installs_add _ (None, d) EndpointException _ rm_tun_name); [apply adds_context, law_add_host_dev|done].
Qed.

Lemma add_prefix_exception_installs x :
  installs (add_prefix_exception x) [(ExcludedPrefix, net_to_string x)].
Proof.
  unfold add_prefix_exception. apply installs_read; [apply reads_context, law_get|]. intros [[g|] d].
  - apply (installs_add _ (Some g, d) ExcludedPrefix _ (fun _ => d)); [apply adds_context, law_add_prefix_via|done].
  - apply (installs_add _ (None, d) ExcludedPrefix _ (fun _ => d)); [apply adds_context, law_add_prefix_dev|done].
Qed.

(** ** The plan of a router *)

(** The exclusions, each prefix once. *)
Fixpoint distinct_prefixes (seen : list Ipv4Net) (xs : list ExcludedRoute) : list Ipv4Net :=
  match xs with
  | [] => []
  | x :: xs => if bool_decide (ex_prefix x ∈ seen) then distinct_prefixes seen xs
               else ex_prefix x :: distinct_prefixes (ex_prefix x :: seen) xs
  end.

Definition route_specs (r : Route) : list string :=
  if prefix_len (prefix r) =? 0 then ["0.0.0.0/1"; "128.0.0.0/1"]%string
  else if prefix_len (prefix r) =? 32 then [(ip_to_string (V4 (net_addr (prefix r))) +:+ "/32")%string]
  else [net_to_string (prefix r)].

Definition planned_exclusions (r : Router) : list (RouteKind * string) :=
  (fun x => (ExcludedPrefix, net_to_string x)) <$> distinct_prefixes [] (excluded_routes r).
Definition planned_exceptions (r : Router) : list (RouteKind * string) :=
  (fun p => (EndpointException, ip_to_string (sa_ip (endpoint p)))) <$> endpoint_exception_peers r.
Definition planned_tun (r : Router) : list (RouteKind * string) :=
  pair Tun <$> concat (route_specs <$> routes r).
Definition planned (r : Router) : list (RouteKind * string) :=
  planned_exclusions r ++ planned_exceptions r ++ planned_tun r.

Lemma install_exclusions_installs seen xs :
  installs (install_exclusions seen xs) ((fun x => (ExcludedPrefix, net_to_string x)) <$> distinct_prefixes seen xs).
Proof.
  revert seen. induction xs as [|x xs IH]; intros seen; cbn [install_exclusions distinct_prefixes]; [apply installs_ret|].
  destruct (bool_decide _); [apply IH|]. rewrite fmap_cons.
  apply (installs_bind _ _ [_]); [apply add_prefix_exception_installs|apply IH].
Qed.

Lemma install_exceptions_installs ps :
  installs (install_exceptions ps) ((fun p => (EndpointException, ip_to_string (sa_ip (endpoint p)))) <$> ps).
Proof.
  induction ps as [|p ps IH]; cbn [install_exceptions]; [apply installs_ret|].
  apply (installs_bind _ _ [_]); [apply add_endpoint_exception_installs|apply IH].
Qed.

Lemma install_route_installs r : installs (install_route r) (pair Tun <$> route_specs r).
Proof.
  unfold install_route, route_specs. destruct (_ =? 0).
  - apply (installs_bind _ _ [_] [_]); apply add_tun_route_installs.
  - destruct (_ =? 32); apply add_tun_route_installs.
Qed.

Lemma install_routes_installs rs : installs (install_routes rs) (pair Tun <$> concat (route_specs <$> rs)).
Proof.
  induction rs as [|r rs IH]; cbn [install_routes]; [apply installs_ret|].
  rewrite fmap_cons. cbn [concat]. rewrite fmap_app. apply installs_bind; [apply install_route_installs|apply IH].
Qed.

Lemma setup_inner_installs r : installs (setup_inner r) (planned r).
Proof.
  apply installs_bind; [apply install_exclusions_installs|].
  apply installs_bind; [apply install_exceptions_installs|apply install_routes_installs].
Qed.

(** ** Taking routes away *)

Lemma delete_entry_deletes r : deletes (delete_entry r) (rkey r) (entry_of r).
Proof.
  unfold delete_entry, entry_of, rkey. destruct (kind r); [apply law_del_tun|apply law_del_host|apply law_del_prefix].
Qed.

Lemma cleanup_loop_spec rs w :
  NoDup (rkey <$> rs) -> (forall r, r ∈ rs -> exists e, table w !! rkey r = Some e /\ entry_of r e) ->
  exists w' failed, cleanup_loop rs w = (w', Ok failed) /\ (forall r, r ∈ failed -> r ∈ rs) /\
    (forall k, k ∉ rkey <$> rs -> table w' !! k = table w !! k) /\
    (forall r, r ∈ rs -> table w' !! rkey r = None \/ (r ∈ failed /\ table w' !! rkey r = table w !! rkey r)).
Proof.
  revert w. induction rs as [|r rs IH]; intros w Hn Hh; cbn [cleanup_loop].
  { exists w, []. split_and!; [done..|by intros r ?%not_elem_of_nil]. }
  rewrite fmap_cons in Hn. apply NoDup_cons in Hn as [Hr Hn].
  pose proof (delete_entry_deletes r w) as Hd. destruct (Hh r ltac:(by left)) as (e & He & Hke).
  destruct (delete_entry r w) as [w1 x].
  assert (Hx : x <> Panic /\ (forall k, k <> rkey r -> table w1 !! k = table w !! k) /\
    (table w1 !! rkey r = None \/ (is_ok x = false /\ table w1 !! rkey r = table w !! rkey r))).
  { assert (Hsame : table w1 = table w \/ table w1 = delete (rkey r) (table w) ->
      (forall k, k <> rkey r -> table w1 !! k = table w !! k) /\
      (table w1 !! rkey r = table w !! rkey r \/ table w1 !! rkey r = None)).
    { intros [->| ->]; split; [done|by left|intros k Hk; by rewrite lookup_delete_ne|right; by rewrite lookup_delete_eq]. }
    destruct x as [[]|er|]; [| |done].
    - destruct Hd as [Hd Hno]. destruct (Hsame Hd) as [H1 H2]. split_and!; [done..|]. left.
      destruct H2 as [H2|H2]; [|done]. exfalso. eapply Hno; [by rewrite H2|done].
    - destruct (Hsame Hd) as [H1 [H2|H2]]; split_and!; auto. }
  destruct Hx as (Hx & Hother & Hself).
  destruct (IH w1 Hn) as (w' & failed & E & Hsub & Hout & Hin).
  { intros r' Hr'. destruct (Hh r' ltac:(by right)) as (e' & He' & Hm'). exists e'. split; [|done].
    rewrite Hother; [done|]. intros Eq. apply Hr. rewrite <- Eq. by apply list_elem_of_fmap_2. }
  exists w', (if is_ok x then failed else r :: failed). rewrite E. split; [by destruct x|]. split_and!.
  - intros r' Hr'. destruct (is_ok x); [right; by apply Hsub|].
    apply elem_of_cons in Hr' as [->|Hr']; [by left|right; by apply Hsub].
  - intros k [Hk1 Hk2]%not_elem_of_cons. rewrite Hout by done. by apply Hother.
  - intros r' [->|Hr']%elem_of_cons.
    + rewrite Hout by done. destruct Hself as [Hs|[Hs1 Hs2]]; [by left|right]. rewrite Hs1. split; [by left|done].
    + destruct (Hin r' Hr') as [H1|[H1 H2]]; [by left|right]. split; [destruct (is_ok x); [done|by right]|].
      rewrite H2, Hother; [done|]. intros Eq. apply Hr. rewrite <- Eq. by apply list_elem_of_fmap_2.
Qed.

(** Taking back what was added restores the table, up to the routes whose
    deletion failed; the routes of [t0] are there all along. *)
Lemma cleanup_restores t0 l w :
  added t0 (table w) l ->
  exists w' failed, cleanup_routes l w = (w', Ok failed) /\ (forall r, r ∈ failed -> r ∈ l) /\
    (forall k, k ∉ rkey <$> failed -> table w' !! k = t0 !! k) /\
    (forall k e, t0 !! k = Some e -> table w' !! k = Some e).
Proof.
  intros [H1 H2 H3 H4]. unfold cleanup_routes.
  assert (Hp : rev l ≡ₚ l) by (symmetry; apply Permutation_rev).
  destruct (cleanup_loop_spec (rev l) w) as (w' & failed & E & Hs & Ho & Hi).
  - by rewrite Hp.
  - intros r Hr. rewrite Hp in Hr. by apply H3.
  - exists w', failed. assert (Hkey : forall k, k ∉ rkey <$> failed -> table w' !! k = t0 !! k).
    { intros k Hk. destruct (decide (k ∈ rkey <$> l)) as [Hin|Hnin].
      - apply list_elem_of_fmap in Hin as (r & -> & Hr). rewrite (H2 r Hr).
        destruct (Hi r) as [H|[H _]]; [by rewrite Hp|done|]. exfalso. apply Hk. by apply list_elem_of_fmap_2.
      - rewrite Ho by (by rewrite Hp). by apply H4. }
    split_and!; [done| |done|].
    + intros r Hr. rewrite <- Hp. by apply Hs.
    + intros k e Hk. rewrite <- Hk. destruct (decide (k ∈ rkey <$> failed)) as [Hin|Hnin]; [|by apply Hkey].
      apply list_elem_of_fmap in Hin as (r & -> & Hr). rewrite (H2 r) in Hk; [done|]. rewrite <- Hp. by apply Hs.
Qed.
End ManagerLemmas.

(** ** Properties *)

Section Properties.
Context {IN : IpNet} {ND : NetDisplay} {RS : Resolver} {OS : Os} {RP : RoutePlatform} {RT : RouteTable} {RL : RouteLaws RP RT}.

Lemma setup_inner_spec router w tun :
  let '(m, r) := setup_inner router (RouteManager_new w tun) in
  added (table w) (table (world m)) (installed m) /\ r <> Panic /\
  (is_ok r = true -> shape <$> installed m = planned router).
Proof.
  pose proof (setup_inner_installs router (table w) (RouteManager_new w tun) (added_nil _)) as H.
  destruct (setup_inner router (RouteManager_new w tun)) as [m r]. destruct H as (H1 & H2 & _ & l & H3 & _ & H4).
  split_and!; [done..|]. intros Hr. by rewrite H3, H4.
Qed.

Lemma added_keeps t0 t l k e : added t0 t l -> t0 !! k = Some e -> t !! k = Some e.
Proof.
  intros [_ H2 _ H4] Hk. rewrite H4; [done|]. intros (r & -> & Hr)%list_elem_of_fmap. by rewrite H2 in Hk.
Qed.

(** C30: installing the routes of a tunnel is all or nothing and never touches
    a route that was there before: on success exactly the planned routes were
    added, in the planned order; on a failure of any step every route added
    so far is taken back, and the table is as before but for the routes whose
    deletion the system refused. *)
Theorem setup_all_or_nothing router w tun m r failed :
  setup router (RouteManager_new w tun) = (m, r, failed) ->
  r <> Panic /\ (forall k e, table w !! k = Some e -> table (world m) !! k = Some e) /\
  match r with
  | Ok _ => shape <$> installed m = planned router /\ added (table w) (table (world m)) (installed m)
  | _ => installed m = [] /\ forall k, k ∉ rkey <$> failed -> table (world m) !! k = table w !! k
  end.
Proof.
  intros E. unfold setup in E. pose proof (setup_inner_spec router w tun) as H.
  destruct (setup_inner router (RouteManager_new w tun)) as [m1 r1]. destruct H as (H1 & H2 & H3).
  destruct r1 as [[]|e|]; [| |done].
  - injection E as <- <- <-. split_and!; [done| |by apply H3|done]. intros k e. by eapply added_keeps.
  - destruct (cleanup_restores _ _ _ H1) as (w' & fs & Ec & _ & Hk & Hold). rewrite Ec in E. injection E as <- <- <-.
    split_and!; [done|exact Hold|done|exact Hk].
Qed.

(** C31: a tunnel that started leaves no trace when it stops: cleaning up
    after a successful installation never fails and restores the routing
    table, but for the routes whose deletion the system refused. *)
Theorem setup_cleanup_round_trip router w tun m failed0 :
  setup router (RouteManager_new w tun) = (m, Ok tt, failed0) ->
  exists m' failed, cleanup m = (m', Ok failed) /\ (forall r, r ∈ failed -> r ∈ installed m) /\
    (forall k, k ∉ rkey <$> failed -> table (world m') !! k = table w !! k) /\
    (forall k e, table w !! k = Some e -> table (world m') !! k = Some e).
Proof.
  intros E. unfold setup in E. pose proof (setup_inner_spec router w tun) as H.
  destruct (setup_inner router (RouteManager_new w tun)) as [m1 r1]. destruct H as (H1 & H2 & _).
  destruct r1 as [[]|e|]; [| |done].
  - injection E as <- <-. destruct (cleanup_restores _ _ _ H1) as (w' & fs & Ec & Hs & Hk & Hold).
    unfold cleanup. rewrite Ec. by eexists _, fs.
  - by destruct (cleanup_routes _ _) as [? [?|?|]].
Qed.

(** C32: the tunnel's own traffic is pinned to the physical network before it
    is captured: in a successful installation every direct-route exclusion
    and an exception for every captured endpoint address precede the first
    tunnel route, and every configured prefix has its tunnel routes. *)
Theorem endpoints_pinned_first router w tun m failed :
  setup router (RouteManager_new w tun) = (m, Ok tt, failed) ->
  exists pinned tuns, installed m = pinned ++ tuns /\
    (forall r, r ∈ pinned -> kind r <> Tun) /\ (forall r, r ∈ tuns -> kind r = Tun) /\
    (forall x, x ∈ excluded_routes router -> (ExcludedPrefix, net_to_string (ex_prefix x)) ∈ shape <$> pinned) /\
    (forall rt ip, rt ∈ routes router -> captured router (route_peer rt) ip ->
       (EndpointException, ip_to_string (V4 ip)) ∈ shape <$> pinned) /\
    (forall rt s, rt ∈ routes router -> s ∈ route_specs rt -> (Tun, s) ∈ shape <$> tuns).
Proof.
  intros E. unfold setup in E. pose proof (setup_inner_spec router w tun) as H.
  destruct (setup_inner router (RouteManager_new w tun)) as [m1 r1]. destruct H as (_ & _ & H3).
  destruct r1 as [[]|e|]; [|by destruct (cleanup_routes _ _) as [? [?|?|]]|done].
  injection E as <- <-. specialize (H3 eq_refl). unfold planned in H3. rewrite app_assoc in H3.
  apply fmap_app_inv in H3 as (pinned & tuns & Hp & Ht & ->). exists pinned, tuns. rewrite <- Hp, <- Ht.
  assert (Hkind : forall r l, r ∈ l -> shape r ∈ shape <$> l) by (intros; by apply list_elem_of_fmap_2).
  split_and!; [done|..].
  - intros r Hr%Hkind. rewrite <- Hp in Hr.
    apply elem_of_app in Hr as [(x & Hx & _)%list_elem_of_fmap|(p & Hx & _)%list_elem_of_fmap]; injection Hx; congruence.
  - intros r Hr%Hkind. rewrite <- Ht in Hr. apply list_elem_of_fmap in Hr as (s & Hs & _). by injection Hs.
  - intros x Hx. apply elem_of_app. left. unfold planned_exclusions.
    apply (list_elem_of_fmap_2 (fun x => (ExcludedPrefix, net_to_string x)) _ (ex_prefix x)).
    assert (Hd : forall seen xs, x ∈ xs -> ex_prefix x ∈ seen \/ ex_prefix x ∈ distinct_prefixes seen xs).
    { intros seen xs. revert seen. induction xs as [|y xs IH]; intros seen Hin; [by apply not_elem_of_nil in Hin|].
      cbn [distinct_prefixes]. case_bool_decide as Hy; apply elem_of_cons in Hin as [->|Hin].
      - by left.
      - by apply IH.
      - right. by left.
      - destruct (IH (ex_prefix y :: seen) Hin) as [[->|Hs]%elem_of_cons|Hs]; [right; by left|by left|right; by right]. }
    by destruct (Hd [] _ Hx) as [?%not_elem_of_nil|Hd'].
  - intros rt ip Hrt Hc. apply elem_of_app. right. unfold planned_exceptions, endpoint_exception_peers.
    destruct (exception_loop_spec router [] (routes router)) as (_ & _ & Hex).
    destruct (Hex rt ip Hrt Hc) as [?%not_elem_of_nil|(p & Hpin & Hcp & _)]; [done|].
    rewrite <- Hcp. by apply (list_elem_of_fmap_2 (fun p => (EndpointException, ip_to_string (sa_ip (endpoint p))))).
  - intros rt s Hrt Hs. apply list_elem_of_fmap_2, list_elem_of_In, in_concat. exists (route_specs rt).
    split; apply list_elem_of_In; [by apply list_elem_of_fmap_2|done].
Qed.

(** Two planned routes to one destination make the installation fail. *)
Lemma conflicting_plan_fails router w tun m r failed :
  setup router (RouteManager_new w tun) = (m, r, failed) ->
  ~ NoDup ((fun x => key_of x.2) <$> planned router) -> is_ok r = false.
Proof.
  intros E Hn. unfold setup in E. pose proof (setup_inner_spec router w tun) as H.
  destruct (setup_inner router (RouteManager_new w tun)) as [m1 r1]. destruct H as ([H1 _ _ _] & _ & H3).
  destruct r1 as [[]|e|].
  - exfalso. apply Hn. rewrite <- (H3 eq_refl), <- list_fmap_compose. exact H1.
  - destruct (cleanup_routes _ _) as [? [?|?|]]; by injection E as _ <- _.
  - by injection E as _ <- _.
Qed.
End Properties.

(** ** Witnesses *)

(** An [ip] command over a map by destination; the device ["bad"] is refused,
    and ["via"]/["dev"] values must be words. *)
Definition is_word (s : string) : bool :=
  forallb (fun c => (33 <=? Std.code c) && (Std.code c <=? 126)) (chars_of s)
  && negb (bool_decide (chars_of s = [])) && negb (bool_decide (s = "dev"%string)).

Lemma is_word_spec s : is_word s = true -> word s.
Proof.
  unfold is_word. intros [[H1 H2]%andb_prop H3]%andb_prop. apply negb_true_iff, bool_decide_eq_false in H2, H3.
  split_and!; [by apply code_range_check|done|done].
Qed.

Definition done_with (text : string) : outcome Transport.io_error Output :=
  Ok {| exit_code := Some 0; status_text := "exit status: 0"; stdout := text; stderr := "" |}.
Definition refused : outcome Transport.io_error Output :=
  Ok {| exit_code := Some 2; status_text := "exit status: 2"; stdout := ""; stderr := "RTNETLINK answers: File exists" |}.

Definition ref_add (p : string) (e : option string * string) (w : gmap string (option string * string)) :=
  if is_word e.2 && match e.1 with Some g => is_word g | None => true end && is_word p
     && negb (bool_decide (e.2 = "bad"%string)) && bool_decide (w !! p = None)
  then (<[p := e]> w, done_with "") else (w, refused).

Definition ref_exec (program : string) (args : list string) (w : gmap string (option string * string)) :=
  match args with
  | ["route"; "add"; p; "via"; g; "dev"; d] => ref_add p (Some g, d) w
  | ["route"; "add"; p; "dev"; d] => ref_add p (None, d) w
  | ["route"; "del"; p; "dev"; d] => if bool_decide (snd <$> w !! p = Some d) then (delete p w, done_with "") else (w, refused)
  | ["route"; "del"; p] => if bool_decide (w !! p = None) then (w, refused) else (delete p w, done_with "")
  | ["route"; "show"; p] =>
      match w !! p with
      | None => (w, done_with "")
      | Some e => if is_word e.2 && match e.1 with Some g => is_word g | None => true end && is_word p
                  then (w, done_with (of_chars (shown p e [] ++ [LF]))) else (w, refused)
      end
  | ["route"; "get"; a] => (w, done_with (of_chars (shown "0.0.0.0" (Some "192.0.2.1"%string, "eth0"%string) [] ++ [LF])))
  | _ => (w, refused)
  end%string.

Definition ref_ip : Os := {|
  World := gmap string (option string * string); exec := ref_exec; read_file _ _ := Err (IoError NotFound "") |}.
Definition ref_table : RouteTable (OS := ref_ip) := @Build_RouteTable ref_ip string _ _ (fun s => s) (fun w => w).

Lemma ref_add_effect p e w : match ref_add p e w with
  | (w', Ok o) => if success o then w !! p = None /\ w' = <[p := e]> w else w' = w
  | _ => False end.
Proof.
  unfold ref_add. destruct (_ && _)%bool eqn:E; [|done]. apply andb_prop in E as [_ E]. by apply bool_decide_eq_true in E.
Qed.

Lemma ref_ip_laws : IpLaws ref_table.
Proof.
  split; intros; unfold ip_effect; cbn -[ref_add shown is_word success].
  - pose proof (ref_add_effect p (Some g, d) w) as H. by destruct (ref_add _ _ _) as [w' [o| |]].
  - pose proof (ref_add_effect p (None, d) w) as H. by destruct (ref_add _ _ _) as [w' [o| |]].
  - by case_bool_decide.
  - by case_bool_decide.
  - destruct ((w : gmap string (option string * string)) !! p) as [e|] eqn:E.
    + destruct (_ && _)%bool eqn:Ew; [|done].
      apply andb_prop in Ew as [[H1 H2]%andb_prop H3]. cbn -[shown is_word]. split; [done|]. exists p, [].
      split_and!; [by apply is_word_spec|by apply is_word_spec| |apply Forall_nil_2|done].
      intros g Hg. rewrite Hg in H2. by apply is_word_spec.
    + cbn. done.
  - done.
Qed.

Definition ref_net_display : NetDisplay (IN := ref_ipnet) :=
  @Build_NetDisplay ref_ipnet (fun n : Z * Z => of_chars (fmt_ipv4 n.1 ++ "/"%char :: fmt_dec n.2)).

#[local] Existing Instances ref_ipnet ref_net_display ref_resolver ref_ip ref_table ref_ip_laws.

#[local] Existing Instance Linux.linux_routes.
Definition no_routes : World (Os := ref_ip) := (∅ : gmap string (option string * string)).
Definition wit_setup (tun : string) := setup (OS := ref_ip) wit_router (RouteManager_new no_routes tun).

(** The routes of [wit_router]: the exclusion and the endpoints, then the tunnel routes; on a
    refused device nothing remains. *)
Example setup_runs :
  spec <$> installed (wit_setup "utun10").1.1
    = ["10.0.0.1/32"; "10.0.0.10"; "192.0.2.1"; "10.0.0.0/24"; "10.0.0.0/8"; "0.0.0.0/1"; "128.0.0.0/1"]%string /\
  size (world (wit_setup "utun10").1.1 : gmap string (option string * string)) = 7%nat /\
  is_ok (wit_setup "bad").1.2 = false /\
  (world (wit_setup "bad").1.1 : gmap string (option string * string)) = ∅.
Proof. split_and!; vm_compute; reflexivity. Qed.

Lemma wit_setup_eq tun : wit_setup tun = ((wit_setup tun).1.1, (wit_setup tun).1.2, (wit_setup tun).2).
Proof. by destruct (wit_setup tun) as [[m r] f]. Qed.

Lemma setup_all_or_nothing_witness :
  installed (wit_setup "bad").1.1 = [] /\
  forall k, k ∉ rkey <$> (wit_setup "bad").2 -> table (world (wit_setup "bad").1.1) !! k = table no_routes !! k.
Proof.
  destruct (setup_all_or_nothing wit_router no_routes "bad" _ _ _ (wit_setup_eq "bad")) as (_ & _ & H).
  assert (E : is_ok (wit_setup "bad").1.2 = false) by (vm_compute; reflexivity).
  destruct ((wit_setup "bad").1.2) as [[]|e|]; [discriminate E|exact H|exact H].
Defined.

Lemma wit_setup_ok : wit_setup "utun10" = ((wit_setup "utun10").1.1, Ok tt, (wit_setup "utun10").2).
Proof. vm_compute. reflexivity. Qed.

Lemma setup_cleanup_round_trip_witness :
  exists m' failed, cleanup (wit_setup "utun10").1.1 = (m', Ok failed).
Proof.
  destruct (setup_cleanup_round_trip wit_router no_routes "utun10" _ _ wit_setup_ok) as (m' & failed & H & _).
  exists m', failed. exact H.
Defined.

Lemma endpoints_pinned_first_witness :
  exists pinned tuns, installed (wit_setup "utun10").1.1 = pinned ++ tuns /\ (forall r, r ∈ tuns -> kind r = Tun).
Proof.
  destruct (endpoints_pinned_first wit_router no_routes "utun10" _ _ wit_setup_ok) as (pinned & tuns & H1 & _ & H2 & _).
  exists pinned, tuns. split; [exact H1|exact H2].
Defined.

(** A validated configuration whose routes cannot be installed: the full
    tunnel adds 0.0.0.0/1 itself. *)
Definition wit_half : Config (IN := ref_ipnet) := {|
  interface := interface wit_config; gateway := None;
  peer := [wit_peer "home" (endpoint_of (SA4 167772170 7)) [(0, 0); (0, 1)] []] |}.
Example full_tunnel_with_half_fails :
  validate (B64 := ref_base64) wit_half = Ok tt /\
  (fun r => is_ok (setup (OS := ref_ip) r (RouteManager_new no_routes "utun10")).1.2) <$> to_option (Router_new (B64 := ref_base64) wit_half)
    = Some false.
Proof. split; vm_compute; reflexivity. Qed.
