(* ===== verification/Iptables.v ===== *)
(** * Packet filter and forwarding switch

    The documented behaviour of [iptables] and of the [ip_forward] switch
    that [src/src/firewall.rs] and [src/src/gateway.rs] rely on.  A chain is a
    list of rules; a command that fails changes nothing. *)

From Stdlib Require Import Ascii.
From S2P Require Import Prelude Net Std Transport Os.
Open Scope Z_scope.

(** A table and a chain; the default table is [filter]. *)
Definition Location : Type := string * string.
Definition place (t : option string) (c : string) : Location := (default "filter"%string t, c).

(** [-t table] when there is one. *)
Definition table_args (t : option string) : list string :=
  match t with Some t => ["-t"; t]%string | None => [] end.

(** The rules as the kernel keeps them: [rule_of] reads the words of a rule,
    [show_rule] is the line [iptables -S] prints for it. *)
Class PacketFilter {OS : Os} := {
  Rule : Type;
  Rule_eq_dec :: EqDecision Rule;
  rule_of : list string -> Rule;
  show_rule : string -> Rule -> chars;
  chain_rules : World -> Location -> list Rule }.

(** The forwarding switch and the contents of the files. *)
Class HostView {OS : Os} := {
  forwarding : World -> string;
  file : World -> string -> option string }.

Fixpoint remove_first {A} `{EqDecision A} (x : A) (l : list A) : list A :=
  match l with [] => [] | y :: l => if decide (x = y) then l else y :: remove_first x l end.

Section Effects.
Context {OS : Os} {PF : PacketFilter} {HV : HostView}.

Record host_same (w w' : World) : Prop := {
  same_forwarding : forwarding w' = forwarding w;
  same_files : forall p, file w' p = file w p }.
Definition rules_same (w w' : World) : Prop := forall loc, chain_rules w' loc = chain_rules w loc.
(** One chain changed. *)
Record chain_becomes (w w' : World) (loc : Location) (l : list Rule) : Prop := {
  becomes_at : chain_rules w' loc = l;
  becomes_other : forall loc', loc' <> loc -> chain_rules w' loc' = chain_rules w loc' }.

(** The outcome of running a program: [Q] describes the new state when it ran
    and exited; without an exit nothing changed. *)
Definition runs (program : string) (args : list string) (w : World) (Q : World -> Output -> Prop) : Prop :=
  match exec program args w with
  | (w', Ok o) => host_same w w' /\ Q w' o
  | (w', Err _) => host_same w w' /\ rules_same w w'
  | (_, Panic) => False
  end.

#[export] Instance host_same_preorder : PreOrder host_same.
Proof. split; [by split|]. intros w1 w2 w3 [H1 H2] [J1 J2]. split; [congruence|]. intros p. by rewrite J2. Qed.

#[export] Instance rules_same_preorder : PreOrder rules_same.
Proof. split; [done|]. intros w1 w2 w3 H J loc. by rewrite J. Qed.
End Effects.

(** The first line of a listing: [-P chain target] or [-N chain]. *)
Definition chain_header (c : string) (line : chars) : Prop :=
  (exists target, no_ws target /\ line = chars_of "-P " ++ chars_of c ++ " "%char :: target) \/ line = chars_of "-N " ++ chars_of c.

(** [iptables] under the name [program] with leading options [pre]. *)
Class IptablesLaws {OS : Os} (PF : PacketFilter) (HV : HostView) (program : string) (pre : list string) := {
  ipt_append : forall t c spec w, runs program (pre ++ table_args t ++ ["-A"; c]%string ++ spec) w (fun w' o =>
    if success o then chain_becomes w w' (place t c) (chain_rules w (place t c) ++ [rule_of spec]) else rules_same w w');
  (** one word alone would be a number *)
  ipt_delete : forall t c spec w, length spec <> 1%nat -> runs program (pre ++ table_args t ++ ["-D"; c]%string ++ spec) w (fun w' o =>
    if success o then chain_becomes w w' (place t c) (remove_first (rule_of spec) (chain_rules w (place t c))) else rules_same w w');
  ipt_check : forall t c spec w, runs program (pre ++ table_args t ++ ["-C"; c]%string ++ spec) w (fun w' o =>
    rules_same w w' /\ (exit_code o = Some 0 -> rule_of spec ∈ chain_rules w (place t c)) /\
    (exit_code o = Some 1 -> rule_of spec ∉ chain_rules w (place t c)));
  ipt_delete_number : forall t c n w, 0 < Z.of_nat n <= U64_MAX ->
    runs program (pre ++ table_args t ++ ["-D"; c; of_chars (fmt_dec (Z.of_nat n))]%string) w (fun w' o =>
    if success o then chain_becomes w w' (place t c) (delete (n - 1)%nat (chain_rules w (place t c))) else rules_same w w');
  (** the listing: the chain's header, then its rules in order *)
  ipt_list : forall t c w, runs program (pre ++ table_args t ++ ["-S"; c]%string) w (fun w' o =>
    rules_same w w' /\ (success o = true ->
      exists policy, chain_header c policy /\
        lines (stdout o) = policy :: (show_rule c <$> chain_rules w (place t c)) /\
        len (chain_rules w (place t c)) <= U64_MAX)) ;
  ipt_shown : forall c r, starts_with_str (chars_of "-A ") (show_rule c r) = true }.

(** The forwarding switch of Linux: [sysctl] sets it, the kernel shows it as a
    file. *)
Definition IP_FORWARD : string := "/proc/sys/net/ipv4/ip_forward".
Definition sysctl_args (val : string) : list string := ["-w"; "net.ipv4.ip_forward=" +:+ val]%string.
Definition switch_value (v : string) : Prop := v = "0"%string \/ v = "1"%string.

(** Everything but the switch is unchanged, and the switch is [v]. *)
Record switched {OS : Os} {PF : PacketFilter} {HV : HostView} (w w' : World) (v : string) : Prop := {
  switched_to : forwarding w' = v;
  switched_rules : rules_same w w';
  switched_files : forall p, p <> IP_FORWARD -> file w' p = file w p;
  switched_exists : forall p, is_Some (file w p) -> is_Some (file w' p) }.

Class SysctlLaws {OS : Os} (PF : PacketFilter) (HV : HostView) := {
  sysctl_write : forall v w, switch_value v ->
    match exec "sysctl" (sysctl_args v) w with
    | (w', Ok o) => switched w w' (if success o then v else forwarding w)
    | (w', Err _) => host_same w w' /\ rules_same w w'
    | (_, Panic) => False
    end;
  sysctl_rules : forall v w,
    match exec "sysctl" (sysctl_args v) w with
    | (w', Ok _) | (w', Err _) => rules_same w w'
    | (_, Panic) => False
    end;
  forward_file : forall w, match read_file IP_FORWARD w with
    | Ok s => trim s = forwarding w | Err _ => True | Panic => False end;
  forward_value : forall w, switch_value (forwarding w) }.

(** ** Lemmas *)

Lemma remove_first_perm {A} `{EqDecision A} (x : A) l : x ∈ l -> x :: remove_first x l ≡ₚ l.
Proof.
  induction l as [|y l IH]; [by intros ?%not_elem_of_nil|]. cbn [remove_first]. intros Hx. case_decide as E; [by subst|].
  apply elem_of_cons in Hx as [?|Hx]; [done|]. rewrite <- (IH Hx) at 2. constructor.
Qed.

Lemma remove_first_notin {A} `{EqDecision A} (x : A) l k : x ∉ l -> remove_first x (l ++ x :: k) = l ++ k.
Proof.
  induction l as [|y l IH]; intros Hx; cbn [app remove_first]; [by rewrite decide_True|].
  apply not_elem_of_cons in Hx as [Hne Hx]. rewrite decide_False by done. by rewrite IH.
Qed.

Section Runs.
Context {OS : Os} {PF : PacketFilter} {HV : HostView}.

(** Nothing changed. *)
Definition same (w w' : World) : Prop := host_same w w' /\ rules_same w w'.
#[export] Instance same_preorder : PreOrder same.
Proof. split; [by split|]. intros w1 w2 w3 [H1 H2] [J1 J2]. split; by etrans. Qed.

(** A command with its error context. *)
Lemma output_runs what program args w Q :
  runs program args w Q ->
  match output what program args w with
  | (w', Ok o) => host_same w w' /\ Q w' o
  | (w', Err _) => same w w'
  | (_, Panic) => False
  end.
Proof. unfold runs, output. by destruct (exec program args w) as [w' [o|e|]]. Qed.

(** Rules by the place where they are. *)
Abbreviation entries := (list (Location * Rule)) (only parsing).
Definition entries_at (l : entries) (loc : Location) : list Rule := snd <$> filter (fun e => e.1 = loc) l.

Lemma entries_at_app (l k : entries) loc : entries_at (l ++ k) loc = entries_at l loc ++ entries_at k loc.
Proof. unfold entries_at. by rewrite filter_app, fmap_app. Qed.
Lemma entries_at_here loc r : entries_at [(loc, r)] loc = [r].
Proof. unfold entries_at. by rewrite filter_cons_True. Qed.
Lemma entries_at_other loc loc' r : loc' <> loc -> entries_at [(loc, r)] loc' = [].
Proof. intros H. unfold entries_at. by rewrite filter_cons_False. Qed.
Lemma entries_at_elem (l : entries) loc r : r ∈ entries_at l loc <-> (loc, r) ∈ l.
Proof.
  unfold entries_at. rewrite list_elem_of_fmap. setoid_rewrite list_elem_of_filter. split.
  - intros ([loc' r'] & -> & <- & H). done.
  - intros H. by exists (loc, r).
Qed.

(** The chains are [base] and the entries [l], in this order or in some. *)
Definition chains_are (base : Location -> list Rule) (w : World) (l : entries) : Prop :=
  forall loc, chain_rules w loc = base loc ++ entries_at l loc.
Definition chains_have (base : Location -> list Rule) (w : World) (l : entries) : Prop :=
  forall loc, chain_rules w loc ≡ₚ base loc ++ entries_at l loc.

Lemma chains_are_append base w w' l loc r :
  chains_are base w l -> chain_becomes w w' loc (chain_rules w loc ++ [r]) -> chains_are base w' (l ++ [(loc, r)]).
Proof.
  intros H [H1 H2] loc'. rewrite entries_at_app. destruct (decide (loc' = loc)) as [->|Hne].
  - by rewrite H1, H, entries_at_here, <- app_assoc.
  - by rewrite H2, H, entries_at_other, app_nil_r by done.
Qed.

Lemma chains_have_append base w w' l loc r :
  chains_have base w l -> chain_becomes w w' loc (chain_rules w loc ++ [r]) -> chains_have base w' (l ++ [(loc, r)]).
Proof.
  intros H [H1 H2] loc'. rewrite entries_at_app. destruct (decide (loc' = loc)) as [->|Hne].
  - by rewrite H1, H, entries_at_here, <- app_assoc.
  - by rewrite H2, H, entries_at_other, app_nil_r by done.
Qed.

Lemma chains_have_delete base w w' l k loc r :
  chains_have base w (l ++ (loc, r) :: k) ->
  chain_becomes w w' loc (remove_first r (chain_rules w loc)) -> chains_have base w' (l ++ k).
Proof.
  intros H [H1 H2] loc'. specialize (H loc'). change ((loc, r) :: k) with ([(loc, r)] ++ k) in H.
  rewrite !entries_at_app in *. destruct (decide (loc' = loc)) as [->|Hne].
  - rewrite H1. rewrite entries_at_here in H. apply (Permutation_cons_inv (a := r)).
    rewrite remove_first_perm; rewrite H; [solve_Permutation|set_solver].
  - by rewrite H2, H, entries_at_other by done.
Qed.

Lemma chains_have_perm base w l l' : chains_have base w l -> l ≡ₚ l' -> chains_have base w l'.
Proof. intros H E loc. rewrite H. unfold entries_at. by rewrite E. Qed.

Lemma chains_have_same base w w' l : chains_have base w l -> rules_same w w' -> chains_have base w' l.
Proof. intros H E loc. by rewrite E. Qed.
End Runs.
