(* ===== verification/RefHost.v ===== *)
(** * A host for examples

    A small machine with a packet filter, a forwarding switch and files, which
    meets the laws of [Iptables].  The examples and witnesses of [Firewall]
    and [Gateway] run on it. *)

From Stdlib Require Import Ascii.
From S2P Require Import Prelude Net Std Transport Os Iptables.
Open Scope Z_scope.

(** A rule is its list of words; a rule with the word [refuses] is refused. *)
Record host := Host {
  chains : gmap (string * string) (list (list string));
  forwards : bool;
  files : gmap string string;
  refuses : string }.

Definition set_chain (loc : Location) (l : list (list string)) (h : host) : host :=
  Host (<[loc := l]> (chains h)) (forwards h) (files h) (refuses h).
Definition set_forwards (b : bool) (h : host) : host := Host (chains h) b (files h) (refuses h).
Definition set_files (f : gmap string string) (h : host) : host := Host (chains h) (forwards h) f (refuses h).
Definition chain_at (h : host) (loc : Location) : list (list string) := default [] (chains h !! loc).

Definition exits (code : Z) (text : string) : outcome Transport.io_error Output :=
  Ok {| exit_code := Some code; status_text := "exit status"; stdout := text; stderr := "" |}.

(** [-A chain word word ...]. *)
Definition spaced (r : list string) : chars := concat ((fun s => " "%char :: chars_of s) <$> r).
Definition ref_show (c : string) (r : list string) : chars := chars_of "-A " ++ chars_of c ++ spaced r.

Definition is_printable (l : chars) : bool := forallb (fun c => (32 <=? Std.code c) && (Std.code c <=? 126)) l.

Definition listing (c : string) (rs : list (list string)) : chars :=
  concat ((fun l => l ++ [LF]) <$> ((chars_of "-P " ++ chars_of c ++ chars_of " ACCEPT") :: (ref_show c <$> rs))).

Definition ref_iptables (t : option string) (action c : string) (spec : list string) (h : host)
    : host * outcome Transport.io_error Output :=
  let loc := place t c in
  let rs := chain_at h loc in
  if bool_decide (action = "-A"%string) then
    if bool_decide (refuses h ∈ spec) then (h, exits 2 "") else (set_chain loc (rs ++ [spec]) h, exits 0 "")
  else if bool_decide (action = "-D"%string) then
    match spec with
    | [n] => match parse_uint U64_MAX (chars_of n) with
             | Some n => if (1 <=? n) && (n <=? len rs) then (set_chain loc (delete (Z.to_nat n - 1)%nat rs) h, exits 0 "")
                         else (h, exits 1 "")
             | None => (h, exits 2 "")
             end
    | _ => if bool_decide (spec ∈ rs) then (set_chain loc (remove_first spec rs) h, exits 0 "") else (h, exits 1 "")
    end
  else if bool_decide (action = "-C"%string) then
    (h, exits (if bool_decide (spec ∈ rs) then 0 else 1) "")
  else if bool_decide (action = "-S"%string) then
    if (len rs <=? U64_MAX) && is_printable (chars_of c) && forallb (fun r => is_printable (ref_show c r)) rs
    then (h, exits 0 (of_chars (listing c rs))) else (h, exits 3 "")
  else (h, exits 0 "").

Definition ref_args (args : list string) (h : host) : host * outcome Transport.io_error Output :=
  let args := match args with "--wait" :: "5" :: args => args | _ => args end%string in
  match args with
  | "-t" :: t :: action :: c :: spec => ref_iptables (Some t) action c spec h
  | action :: c :: spec => ref_iptables None action c spec h
  | _ => (h, exits 0 "")
  end%string.

Definition ref_sysctl (args : list string) (h : host) : host * outcome Transport.io_error Output :=
  if bool_decide (args = sysctl_args "0") then (set_forwards false h, exits 0 "")
  else if bool_decide (args = sysctl_args "1") then (set_forwards true h, exits 0 "")
  else (h, exits 1 "").

Definition switch_text (b : bool) : string := if b then "1" else "0".

Definition ref_os : Os := {|
  World := host;
  exec program args h := if bool_decide (program = "sysctl"%string) then ref_sysctl args h else ref_args args h;
  read_file p h := if bool_decide (p = IP_FORWARD) then Ok (switch_text (forwards h) +:+ of_chars [LF])
                   else ok_or (IoError NotFound "no such file") (files h !! p) |}.

Definition ref_filter : PacketFilter (OS := ref_os) :=
  @Build_PacketFilter ref_os (list string) _ (fun s => s) ref_show (fun (h : host) loc => chain_at h loc).
Definition ref_view : HostView (OS := ref_os) :=
  @Build_HostView ref_os (fun h : host => switch_text (forwards h)) (fun (h : host) p => files h !! p).

(** ** The laws *)

Section Laws.
#[local] Existing Instances ref_os ref_filter ref_view.

Lemma set_chain_becomes (h : host) loc l : chain_becomes (h : World) (set_chain loc l h) loc l.
Proof.
  split; cbn; unfold chain_at, set_chain; cbn; [by rewrite lookup_insert_eq|].
  intros loc' Hne. by rewrite lookup_insert_ne.
Qed.

Lemma lines_of_listing ls : Forall printable ls -> lines (of_chars (concat ((fun l => l ++ [LF]) <$> ls))) = ls.
Proof.
  induction 1 as [|l ls Hl _ IH]; [done|]. rewrite fmap_cons. cbn [concat]. rewrite <- app_assoc. cbn [app].
  rewrite lines_printable by done. by rewrite IH.
Qed.

Lemma is_printable_spec l : is_printable l = true -> printable l.
Proof. apply code_range_check. Qed.

Lemma printable_app l k : printable l -> printable k -> printable (l ++ k).
Proof. intros H1 H2. by apply Forall_app. Qed.

Lemma lines_listing c (rs : list (list string)) :
  is_printable (chars_of c) = true -> forallb (fun r => is_printable (ref_show c r)) rs = true ->
  lines (of_chars (listing c rs)) = (chars_of "-P " ++ chars_of c ++ chars_of " ACCEPT") :: (ref_show c <$> rs).
Proof.
  intros Hc Hrs. apply lines_of_listing, Forall_cons_2.
  - repeat apply printable_app; [chars_tac|by apply is_printable_spec|chars_tac].
  - apply Forall_fmap, Forall_forall. intros r Hr. apply is_printable_spec.
    rewrite forallb_forall in Hrs. apply Hrs. by apply list_elem_of_In.
Qed.

(** The arguments of one command, with or without [--wait 5]. *)
Lemma ref_args_command pre t action c spec h :
  pre = [] \/ pre = ["--wait"; "5"]%string -> action ∈ ["-A"; "-D"; "-C"; "-S"]%string ->
  ref_args (pre ++ table_args t ++ [action; c] ++ spec) h = ref_iptables t action c spec h.
Proof.
  intros Hpre Ha. rewrite list_elem_of_In in Ha.
  destruct Hpre as [-> | ->]; destruct t as [t|]; cbn [app table_args]; try done;
    by destruct Ha as [<-|[<-|[<-|[<-|[]]]]].
Qed.

Lemma ref_runs program pre t action c spec (h : host) Q :
  program <> "sysctl"%string -> pre = [] \/ pre = ["--wait"; "5"]%string -> action ∈ ["-A"; "-D"; "-C"; "-S"]%string ->
  match ref_iptables t action c spec h with
  | (h', Ok o) => host_same (h : World) h' /\ Q h' o
  | _ => False
  end ->
  runs program (pre ++ table_args t ++ [action; c] ++ spec) h Q.
Proof.
  intros Hp Hpre Ha H. unfold runs. cbn [exec ref_os]. rewrite bool_decide_false by done.
  rewrite ref_args_command by done. by destruct (ref_iptables t action c spec h) as [h' []].
Qed.

Lemma ref_laws program pre :
  program <> "sysctl"%string -> pre = [] \/ pre = ["--wait"; "5"]%string -> IptablesLaws ref_filter ref_view program pre.
Proof.
  intros Hp Hpre. split; intros t c.
  - intros spec w. apply ref_runs; [done..|set_solver|]. unfold ref_iptables. rewrite bool_decide_true by done.
    case_bool_decide; cbn; (split; [done|]); [done|apply set_chain_becomes].
  - intros spec w Hs. apply ref_runs; [done..|set_solver|]. unfold ref_iptables.
    rewrite bool_decide_false, bool_decide_true by done.
    destruct spec as [|a [|b spec]]; [|done|]; case_bool_decide; cbn; (split; [done|]); try done; apply set_chain_becomes.
  - intros spec w. apply ref_runs; [done..|set_solver|]. unfold ref_iptables.
    rewrite bool_decide_false, bool_decide_false, bool_decide_true by done.
    case_bool_decide; cbn; (split_and!; [done..|intros; congruence]).
  - intros n w Hn. apply (ref_runs program pre t "-D" c [of_chars (fmt_dec (Z.of_nat n))]); [done..|set_solver|]. unfold ref_iptables.
    rewrite bool_decide_false, bool_decide_true by done. rewrite chars_of_of, parse_uint_fmt by (unfold U64_MAX in *; lia).
    destruct (_ && _)%bool; cbn; (split; [done|]); [|done]. rewrite Nat2Z.id. apply set_chain_becomes.
  - intros w. apply (ref_runs program pre t "-S" c []); [done..|set_solver|]. unfold ref_iptables.
    rewrite !bool_decide_false, bool_decide_true by done.
    destruct (_ && _ && _)%bool eqn:E; cbn -[lines]; [|done].
    apply andb_prop in E as [[E1 E2]%andb_prop E3]. split_and!; [done..|]. intros _.
    eexists. split; [|split; [by apply lines_listing|by zbool]]. left. exists (chars_of "ACCEPT"). split; [chars_tac|done].
  - done.
Qed.

Lemma ref_sysctl_laws : SysctlLaws ref_filter ref_view.
Proof.
  split.
  - intros v w [-> | ->]; cbn; by split; cbn.
  - intros v w. cbn. unfold ref_sysctl. by repeat case_bool_decide.
  - intros w. cbn. by destruct (forwards w).
  - intros w. unfold switch_value. cbn. destruct (forwards w); auto.
Qed.
End Laws.
