(* ===== verification/Firewall.v ===== *)
(** * Exit-node firewall ([src/src/firewall.rs])

    Forwarding and NAT rules of an exit node: [setup] switches forwarding on
    and appends three rules, [cleanup] takes back what was added.  The
    forwarding switch differs by platform and is the class [ForwardSwitch];
    the theorems are proved against its laws and those of [iptables]. *)

From Stdlib Require Import Ascii.
From S2P Require Import Prelude Net Std Transport Os Iptables RefHost.
Open Scope Z_scope.

(** ** The forwarding switch *)

Class ForwardSwitch {OS : Os} := {
  read_ip_forward : M World anyhow string;
  write_ip_forward : string -> M World anyhow unit }.

Module Linux.
Section Linux.
Context {OS : Os}.
Definition linux_switch : ForwardSwitch := {|
  read_ip_forward := read_trimmed ("reading " +:+ IP_FORWARD) IP_FORWARD;
  write_ip_forward val :=
    run_status "running sysctl" "sysctl failed" "sysctl" (sysctl_args val) |}.
End Linux.
End Linux.

Module Macos.
Section Macos.
Context {OS : Os}.
Definition macos_switch : ForwardSwitch := {|
  read_ip_forward :=
    o ← output "running sysctl" "sysctl" ["-n"; "net.inet.ip.forwarding"]%string;
    if negb (success o) then bail "sysctl failed" else mret (trim (stdout o));
  write_ip_forward val :=
    run_status "running sysctl" "sysctl failed" "sysctl" ["-w"; "net.inet.ip.forwarding=" +:+ val]%string |}.
End Macos.
End Macos.

Module Other.
Section Other.
Context {OS : Os}.
Definition other_switch : ForwardSwitch := {|
  read_ip_forward := bail "ip_forward inspection not implemented on this OS";
  write_ip_forward _ := bail "ip_forward modification not implemented on this OS" |}.
End Other.
End Other.

(** ** The manager *)

Record IptablesRule := { table : option string; chain : string; spec : list string }.

Section Manager.
Context {OS : Os} {FS : ForwardSwitch}.

(** The manager and the system it changes. *)
Record FirewallManager := {
  world : World;
  tun_name : string;
  subnet : string;
  original_ip_forward : option string;
  rules : list IptablesRule }.

Definition FirewallManager_new (w : World) (tun_name subnet : string) : FirewallManager :=
  {| world := w; tun_name := tun_name; subnet := subnet; original_ip_forward := None; rules := [] |}.

Definition set_world (w : World) (m : FirewallManager) : FirewallManager :=
  {| world := w; tun_name := tun_name m; subnet := subnet m;
     original_ip_forward := original_ip_forward m; rules := rules m |}.
Definition set_original (v : option string) (m : FirewallManager) : FirewallManager :=
  {| world := world m; tun_name := tun_name m; subnet := subnet m; original_ip_forward := v; rules := rules m |}.
Definition push_rule (r : IptablesRule) (m : FirewallManager) : FirewallManager :=
  {| world := world m; tun_name := tun_name m; subnet := subnet m;
     original_ip_forward := original_ip_forward m; rules := rules m ++ [r] |}.

Definition sys {A} (f : M World anyhow A) : M FirewallManager anyhow A := fun m =>
  let '(w, r) := f (world m) in (set_world w m, r).
(** A call whose error is handled by the caller. *)
Definition try {A} (f : M World anyhow A) : M FirewallManager anyhow (option A) := fun m =>
  match f (world m) with
  | (w, Ok a) => (set_world w m, Ok (Some a))
  | (w, Err _) => (set_world w m, Ok None)
  | (w, Panic) => (set_world w m, Panic)
  end.

Definition iptables_args (table : option string) (chain action : string) (spec : list string) : list string :=
  table_args table ++ [action; chain] ++ spec.

Definition run_iptables (table : option string) (chain action : string) (spec : list string) : M World anyhow Output :=
  output ("running iptables " +:+ action +:+ " " +:+ chain) "iptables" (iptables_args table chain action spec).

Definition del_iptables_rule (rule : IptablesRule) : M World anyhow unit :=
  status ← run_iptables (table rule) (chain rule) "-D" (spec rule);
  if negb (success status) then bail "iptables -D failed" else mret tt.

Definition add_iptables_rule (r : IptablesRule) : M FirewallManager anyhow unit :=
  status ← sys (run_iptables (table r) (chain r) "-A" (spec r));
  if negb (success status) then bail "iptables -A failed" else mmodify (push_rule r).

Definition enable_ip_forward : M FirewallManager anyhow unit :=
  original ← try read_ip_forward;
  _ ← mmodify (set_original original);
  if bool_decide (original = Some "1"%string) then mret tt else sys (write_ip_forward "1").

(** The rules [setup] adds. *)
Definition masquerade_rule (tun_name subnet : string) : IptablesRule :=
  {| table := Some "nat"; chain := "POSTROUTING"; spec := ["-s"; subnet; "!"; "-o"; tun_name; "-j"; "MASQUERADE"] |}%string.
Definition accept_rule (flag tun_name : string) : IptablesRule :=
  {| table := None; chain := "FORWARD"; spec := [flag; tun_name; "-j"; "ACCEPT"] |}%string.

Definition setup : M FirewallManager anyhow unit :=
  m ← mget;
  _ ← enable_ip_forward;
  _ ← add_iptables_rule (masquerade_rule (tun_name m) (subnet m));
  _ ← add_iptables_rule (accept_rule "-i" (tun_name m));
  add_iptables_rule (accept_rule "-o" (tun_name m)).

(** The loop of [cleanup]; the result lists the rules that stayed, which the
    source logs. *)
Fixpoint cleanup_rules (rs : list IptablesRule) (w : World) : World * outcome anyhow (list IptablesRule) :=
  match rs with
  | [] => (w, Ok [])
  | r :: rs =>
      match del_iptables_rule r w with
      | (w, Panic) => (w, Panic)
      | (w, x) =>
          let '(w, rest) := cleanup_rules rs w in
          (w, (fun failed => if is_ok x then failed else r :: failed) <$> rest)
      end
  end.

(** [cleanup]; the result also tells whether forwarding is not restored. *)
Definition cleanup (m : FirewallManager) : FirewallManager * outcome anyhow (list IptablesRule * bool) :=
  match cleanup_rules (rules m) (world m) with
  | (w, Ok failed) =>
      match original_ip_forward m with
      | Some original =>
          match write_ip_forward original w with
          | (w, Panic) => (set_world w m, Panic)
          | (w, r) => (set_world w m, Ok (failed, negb (is_ok r)))
          end
      | None => (set_world w m, Ok (failed, false))
      end
  | (w, Err e) => (set_world w m, Err e)
  | (w, Panic) => (set_world w m, Panic)
  end.
End Manager.

(** [subnet_cidr]: the address with the host bits cleared. *)
Definition subnet_cidr {IN : IpNet} (addr : Ipv4Net) : string :=
  of_chars (fmt_ipv4 (network addr) ++ "/"%char :: fmt_dec (prefix_len addr)).

(** ** Laws of the switch *)

Class SwitchLaws {OS : Os} (PF : PacketFilter) (HV : HostView) (FS : ForwardSwitch) := {
  sw_read : forall w, match read_ip_forward w with
    | (w', Ok v) => forwarding w' = forwarding w /\ rules_same w w' /\ v = forwarding w
    | (w', Err _) => forwarding w' = forwarding w /\ rules_same w w'
    | (_, Panic) => False end;
  sw_write : forall v w, switch_value v -> match write_ip_forward v w with
    | (w', Ok _) => forwarding w' = v /\ rules_same w w'
    | (w', Err _) => forwarding w' = forwarding w /\ rules_same w w'
    | (_, Panic) => False end;
  sw_value : forall w, switch_value (forwarding w) }.

(** The Linux functions meet them. *)
#[export] Instance linux_switch_laws {OS : Os} {PF : PacketFilter} {HV : HostView} {YL : SysctlLaws PF HV} :
  SwitchLaws PF HV Linux.linux_switch.
Proof.
  split; [intros w; cbn|intros v w Hv; cbn|apply forward_value].
  - unfold read_trimmed, context, of_io. pose proof (forward_file w) as H.
    by destruct (read_file IP_FORWARD w) as [s|e|].
  - unfold run_status, output, mbind, M_bind, context, of_io. pose proof (sysctl_write v w Hv) as H.
    destruct (exec "sysctl" (sysctl_args v) w) as [w' [o|e|]]; cbn [map_err]; [|by destruct H as [[]]|done].
    destruct H as [H1 H2 _]. by destruct (success o).
Qed.

(** ** What the manager has added *)

Section Proofs.
Context {OS : Os} {FS : ForwardSwitch} {PF : PacketFilter} {HV : HostView}.
Context {IL : IptablesLaws PF HV "iptables" nil} {SW : SwitchLaws PF HV FS}.

Definition location (r : IptablesRule) : Location := place (table r) (chain r).
Definition entry (r : IptablesRule) : Location * Rule := (location r, rule_of (spec r)).
Definition added_at (rs : list IptablesRule) (loc : Location) : list Rule := entries_at (entry <$> rs) loc.
Definition exit_rules (tun_name subnet : string) : list IptablesRule :=
  [masquerade_rule tun_name subnet; accept_rule "-i" tun_name; accept_rule "-o" tun_name].

(** From [w], the rules [rs] were appended, in this order. *)
Definition appended (w w' : World) (rs : list IptablesRule) : Prop := chains_are (chain_rules w) w' (entry <$> rs).

Lemma appended_same w w1 w2 rs : appended w w1 rs -> rules_same w1 w2 -> appended w w2 rs.
Proof. intros H E loc. by rewrite E. Qed.

Lemma appended_snoc w w1 w2 rs r :
  appended w w1 rs -> chain_becomes w1 w2 (location r) (chain_rules w1 (location r) ++ [rule_of (spec r)]) ->
  appended w w2 (rs ++ [r]).
Proof. intros H E. unfold appended. rewrite fmap_app. by eapply chains_are_append. Qed.

(** Adding a rule appends and notes it, or changes nothing. *)
Lemma add_rule_spec w r m :
  appended w (world m) (rules m) ->
  let '(m', x) := add_iptables_rule r m in
  appended w (world m') (rules m') /\ x <> Panic /\ forwarding (world m') = forwarding (world m) /\
  original_ip_forward m' = original_ip_forward m /\
  rules m' = rules m ++ (if is_ok x then [r] else []).
Proof.
  intros Ha. unfold add_iptables_rule, sys, run_iptables, mbind, M_bind.
  pose proof (output_runs ("running iptables -A " +:+ chain r) _ _ _ _ (ipt_append (table r) (chain r) (spec r) (world m))) as H.
  cbn [app] in H. unfold iptables_args. cbn [app].
  destruct (output _ _ _ (world m)) as [w' [o|e|]]; [| |done].
  - destruct H as [[Hf _] H]. destruct (success o); cbn.
    + split_and!; [by eapply appended_snoc|done..].
    + rewrite app_nil_r. split_and!; [by eapply appended_same|done..].
  - destruct H as [[Hf _] H]. cbn. rewrite app_nil_r. split_and!; [by eapply appended_same|done..].
Qed.

Lemma enable_spec w tun sub :
  let '(m', x) := enable_ip_forward (FirewallManager_new w tun sub) in
  rules_same w (world m') /\ x <> Panic /\ rules m' = [] /\
  (forall v, original_ip_forward m' = Some v -> v = forwarding w) /\
  (is_ok x = true -> forwarding (world m') = "1"%string).
Proof.
  unfold enable_ip_forward, try, mbind, M_bind. cbn [world FirewallManager_new].
  pose proof (sw_read w) as H. destruct (read_ip_forward w) as [w1 [v|e|]]; [| |done].
  - destruct H as (H1 & H2 & Hv). cbn. case_bool_decide as E.
    + cbn. split_and!; [done..| |congruence]. by intros ? [= <-].
    + unfold sys. cbn. pose proof (sw_write "1" w1 ltac:(by right)) as Hw.
      destruct (write_ip_forward "1" w1) as [w2 [[]|e|]]; [| |done];
        destruct Hw as [Hw1 Hw2]; cbn; (split_and!; [by etrans|done..|by intros ? [= <-]|done]).
  - destruct H as (H1 & H2). cbn. rewrite bool_decide_false by done. unfold sys. cbn.
    pose proof (sw_write "1" w1 ltac:(by right)) as Hw.
    destruct (write_ip_forward "1" w1) as [w2 [[]|e'|]]; [| |done];
      destruct Hw as [Hw1 Hw2]; cbn; (split_and!; [by etrans|done..]).
Qed.

Lemma setup_spec w tun sub :
  let '(m, x) := setup (FirewallManager_new w tun sub) in
  appended w (world m) (rules m) /\ x <> Panic /\
  (forall v, original_ip_forward m = Some v -> v = forwarding w) /\
  rules m `prefix_of` exit_rules tun sub /\
  (is_ok x = true -> forwarding (world m) = "1"%string /\ rules m = exit_rules tun sub).
Proof.
  unfold setup, mget. unfold mbind, M_bind. cbn [tun_name subnet FirewallManager_new].
  pose proof (enable_spec w tun sub) as H. destruct (enable_ip_forward _) as [m1 [[]|e|]];
    destruct H as (H1 & H2 & H3 & H4 & H5); [| |done].
  2: { split_and!; [|done..|rewrite H3; apply prefix_nil|done]. intros loc. by rewrite H1, H3, app_nil_r. }
  assert (Ha : appended w (world m1) (rules m1)) by (intros loc; by rewrite H1, H3, app_nil_r).
  specialize (H5 eq_refl).
  pose proof (add_rule_spec w (masquerade_rule tun sub) m1 Ha) as G1.
  destruct (add_iptables_rule _ m1) as [m2 x1]; destruct G1 as (A1 & A2 & A3 & A4 & A5); rewrite H3 in A5.
  destruct x1 as [[]|e|]; cbn in A5; [| |done];
    [|split_and!; [done|done|by rewrite A4|rewrite A5; apply prefix_nil|done]].
  pose proof (add_rule_spec w (accept_rule "-i" tun) m2 A1) as G2.
  destruct (add_iptables_rule _ m2) as [m3 x2]; destruct G2 as (B1 & B2 & B3 & B4 & B5); rewrite A5 in B5.
  destruct x2 as [[]|e|]; cbn in B5; [| |done];
    [|split_and!; [done|done|by rewrite B4, A4|rewrite B5; by eexists|done]].
  pose proof (add_rule_spec w (accept_rule "-o" tun) m3 B1) as G3.
  destruct (add_iptables_rule _ m3) as [m4 x]; destruct G3 as (C1 & C2 & C3 & C4 & C5); rewrite B5 in C5.
  split_and!; [done|done|by rewrite C4, B4, A4|rewrite C5; destruct (is_ok x); cbn; by eexists|].
  intros Hx. rewrite Hx in C5. split; [by rewrite C3, B3, A3|done].
Qed.

(** *** Taking back *)

(** The chains of [w0] with the rules that stayed and those still to go; the
    order is known as long as nothing stayed, where [w0] had none of the
    rules [all]. *)
Record chain_with (w0 : World) (all : list IptablesRule) (w : World) (stayed rest : list IptablesRule) : Prop := {
  cw_perm : chains_have (chain_rules w0) w ((entry <$> stayed) ++ (entry <$> rest));
  cw_order : stayed = [] -> forall loc, (forall x, x ∈ added_at all loc -> x ∉ chain_rules w0 loc) ->
    chain_rules w loc = chain_rules w0 loc ++ added_at rest loc;
  cw_rest : rest ⊆ all }.

Lemma chain_with_same w0 all w w' stayed rest :
  chain_with w0 all w stayed rest -> rules_same w w' -> chain_with w0 all w' stayed rest.
Proof. intros [H1 H2 H3] E. split; [by eapply chains_have_same| |done]. intros. rewrite E. auto. Qed.

Lemma chain_with_deleted w0 all w w' stayed r rest :
  chain_with w0 all w stayed (r :: rest) ->
  chain_becomes w w' (location r) (remove_first (rule_of (spec r)) (chain_rules w (location r))) ->
  chain_with w0 all w' stayed rest.
Proof.
  intros [H1 H2 H3] E. split; [by eapply chains_have_delete| |set_solver].
  destruct E as [E1 E2]. intros Hs loc Hf. specialize (H2 Hs loc Hf). change (r :: rest) with ([r] ++ rest) in H2.
  unfold added_at in *. rewrite fmap_app, entries_at_app in H2. destruct (decide (loc = location r)) as [->|Hne].
  - rewrite E1, H2. change (entry <$> [r]) with [(location r, rule_of (spec r))]. rewrite entries_at_here.
    apply remove_first_notin, Hf, entries_at_elem, list_elem_of_fmap. exists r. split; [done|]. set_solver.
  - rewrite E2, H2 by done. change (entry <$> [r]) with [(location r, rule_of (spec r))]. by rewrite entries_at_other.
Qed.

Lemma chain_with_kept w0 all w stayed r rest :
  chain_with w0 all w stayed (r :: rest) -> chain_with w0 all w (stayed ++ [r]) rest.
Proof.
  intros [H1 H2 H3]. split; [|by destruct stayed|set_solver]. by rewrite fmap_app, <- app_assoc.
Qed.

Definition not_number (r : IptablesRule) : Prop := length (spec r) <> 1%nat.

Lemma del_rule_spec r w :
  not_number r ->
  match del_iptables_rule r w with
  | (w', Ok _) => forwarding w' = forwarding w /\
      chain_becomes w w' (location r) (remove_first (rule_of (spec r)) (chain_rules w (location r)))
  | (w', Err _) => forwarding w' = forwarding w /\ rules_same w w'
  | (_, Panic) => False
  end.
Proof.
  intros Hr. unfold del_iptables_rule, run_iptables, iptables_args, mbind, M_bind.
  pose proof (output_runs ("running iptables -D " +:+ chain r) _ _ _ _ (ipt_delete (table r) (chain r) (spec r) w Hr)) as H.
  cbn [app] in *. destruct (output _ _ _ w) as [w' [o|e|]]; [|by destruct H as [[]]|done].
  destruct H as [[Hf _] H]. by destruct (success o).
Qed.

Lemma cleanup_rules_spec w0 all rs stayed w :
  Forall not_number rs -> chain_with w0 all w stayed rs ->
  exists w' failed, cleanup_rules rs w = (w', Ok failed) /\ forwarding w' = forwarding w /\
    chain_with w0 all w' (stayed ++ failed) [].
Proof.
  intros Hn. revert stayed w. induction Hn as [|r rs Hr Hn IH]; intros stayed w H; cbn [cleanup_rules].
  { exists w, []. by rewrite app_nil_r. }
  pose proof (del_rule_spec r w Hr) as Hd. destruct (del_iptables_rule r w) as [w1 [[]|e|]]; [| |done];
    destruct Hd as [Hf Hd].
  - destruct (IH stayed w1) as (w' & failed & -> & Hf' & Hc); [by eapply chain_with_deleted|].
    exists w', failed. split_and!; [done|congruence|done].
  - destruct (IH (stayed ++ [r]) w1) as (w' & failed & -> & Hf' & Hc).
    { eapply chain_with_kept, chain_with_same; done. }
    exists w', (r :: failed). split_and!; [done|congruence|]. by rewrite <- app_assoc in Hc.
Qed.

Definition rules_ok (w0 : World) (m : FirewallManager) : Prop :=
  appended w0 (world m) (rules m) /\ Forall not_number (rules m) /\
  (forall v, original_ip_forward m = Some v -> v = forwarding w0).

Lemma prefix_not_number tun sub l : l `prefix_of` exit_rules tun sub -> Forall not_number l.
Proof.
  intros [k Hk]. assert (Hall : Forall not_number (exit_rules tun sub)) by (repeat (apply Forall_cons_2; [done|]); done).
  rewrite Hk in Hall. by apply Forall_app in Hall as [Hall _].
Qed.

(** Cleanup, on any host that has the manager's rules after its old ones. *)
Lemma cleanup_spec w m :
  rules_ok w m ->
  exists m' failed stuck, cleanup m = (m', Ok (failed, stuck)) /\
    (forall loc, chain_rules (world m') loc ≡ₚ chain_rules w loc ++ added_at failed loc) /\
    (failed = [] -> forall loc, (forall x, x ∈ added_at (rules m) loc -> x ∉ chain_rules w loc) ->
       chain_rules (world m') loc = chain_rules w loc) /\
    (stuck = false -> original_ip_forward m <> None -> forwarding (world m') = forwarding w).
Proof.
  intros (H1 & Hn & H3).
  assert (Hc : chain_with w (rules m) (world m) [] (rules m)).
  { split; [intros loc; by rewrite H1|intros _ loc _; by apply H1|done]. }
  destruct (cleanup_rules_spec _ _ _ _ _ Hn Hc) as (w1 & failed & Ec & Hf & [C1 C2 _]). cbn [app] in *.
  assert (C3 : forall loc, chain_rules w1 loc ≡ₚ chain_rules w loc ++ added_at failed loc)
    by (intros loc; by rewrite C1, fmap_nil, app_nil_r).
  assert (C4 : failed = [] -> forall loc, (forall x, x ∈ added_at (rules m) loc -> x ∉ chain_rules w loc) ->
    chain_rules w1 loc = chain_rules w loc) by (intros Hn0 loc Hx; by rewrite C2, app_nil_r).
  unfold cleanup. rewrite Ec. destruct (original_ip_forward m) as [v|] eqn:Ho; [|by eexists _, failed, false].
  specialize (H3 v eq_refl) as ->. pose proof (sw_write (forwarding w) w1 (sw_value w)) as Hw.
  destruct (write_ip_forward (forwarding w) w1) as [w2 [[]|e|]]; [| |done]; destruct Hw as [Hw1 Hw2];
    eexists (set_world w2 m), failed, _; (split; [reflexivity|]); cbn [world set_world];
    (split_and!; [intros loc; by rewrite Hw2|intros Hn0 loc Hx; rewrite Hw2; by apply C4|done]).
Qed.

(** C33: the exit-node firewall is taken back completely, whether its setup
    succeeded or stopped half-way: setup only appends its rules to the chains
    and, when it succeeds, leaves forwarding on; cleanup then never fails and
    leaves in every chain the old rules and the added ones the system refused
    to delete, in the old order where the added rules were new; forwarding is
    as before if its value could be read at the start and written back. *)
Theorem firewall_round_trip w tun sub m r :
  setup (FirewallManager_new w tun sub) = (m, r) ->
  r <> Panic /\ (forall loc, chain_rules (world m) loc = chain_rules w loc ++ added_at (rules m) loc) /\
  (r = Ok tt -> forwarding (world m) = "1"%string /\ rules m = exit_rules tun sub) /\
  exists m' failed stuck, cleanup m = (m', Ok (failed, stuck)) /\
    (forall loc, chain_rules (world m') loc ≡ₚ chain_rules w loc ++ added_at failed loc) /\
    (failed = [] -> forall loc, (forall x, x ∈ added_at (rules m) loc -> x ∉ chain_rules w loc) ->
       chain_rules (world m') loc = chain_rules w loc) /\
    (stuck = false -> original_ip_forward m <> None -> forwarding (world m') = forwarding w).
Proof.
  intros E. pose proof (setup_spec w tun sub) as H. rewrite E in H. destruct H as (H1 & H2 & H3 & Hp & H4).
  split_and!; [done..|by intros ->; apply H4|]. apply cleanup_spec. split_and!; [done|by eapply prefix_not_number|done].
Qed.
End Proofs.

(** ** Witnesses *)

#[local] Existing Instances ref_os ref_filter ref_view Linux.linux_switch.
#[local] Instance wit_ipt : IptablesLaws ref_filter ref_view "iptables" nil := ref_laws "iptables" nil ltac:(done) ltac:(by left).
#[local] Existing Instance ref_sysctl_laws.

(** A host with a rule of its own and forwarding off; with [refused] it takes
    no rule that has this word. *)
Definition wit_host (refused : string) : World :=
  set_chain ("filter", "FORWARD")%string [["-i"; "eth0"; "-j"; "ACCEPT"]%string]
    {| chains := ∅; forwards := false; files := ∅; refuses := refused |}.
Definition wit_setup (refused : string) := setup (FirewallManager_new (wit_host refused) "hw0" "10.77.0.0/24").

(** The rules in place; a setup that stops at its last rule; what cleanup
    leaves in either case. *)
Example setup_and_cleanup :
  is_ok (wit_setup "").2 = true /\
  chain_at (world (wit_setup "").1) ("filter", "FORWARD")%string =
    [["-i"; "eth0"; "-j"; "ACCEPT"]; ["-i"; "hw0"; "-j"; "ACCEPT"]; ["-o"; "hw0"; "-j"; "ACCEPT"]]%string /\
  is_ok (wit_setup "-i").2 = false /\ forwards (world (wit_setup "-i").1) = true /\
  (cleanup (wit_setup "-i").1).2 = Ok ([], false) /\
  chain_at (world (cleanup (wit_setup "-i").1).1) ("nat", "POSTROUTING")%string = [] /\
  forwards (world (cleanup (wit_setup "-i").1).1) = false.
Proof. split_and!; vm_compute; reflexivity. Qed.

Lemma firewall_round_trip_witness :
  exists m' failed stuck, cleanup (wit_setup "-i").1 = (m', Ok (failed, stuck)) /\
    forall loc, chain_rules (world m') loc ≡ₚ chain_rules (wit_host "-i") loc ++ added_at failed loc.
Proof.
  destruct (firewall_round_trip (wit_host "-i") "hw0" "10.77.0.0/24" _ _ (surjective_pairing (wit_setup "-i")))
    as (_ & _ & _ & m' & failed & stuck & H1 & H2 & _).
  exists m', failed, stuck. split; [exact H1|exact H2].
Defined.
