(* ===== verification/Gateway.v ===== *)
(** * LAN gateway ([src/src/gateway.rs])

    The Linux gateway: the plan of firewall rules computed from a
    configuration, its transactional [apply], its [remove] and its [status].
    Every rule carries a comment with the owner tag of the tunnel interface;
    deletion goes by that tag.  A state directory records the gateways of a
    network namespace and the forwarding switch's value before the first. *)

From Stdlib Require Import Ascii.
From S2P Require Import Prelude Net Std Config Transport Os Iptables RefHost.
Open Scope Z_scope.

(** ** The plan *)

Record IptablesRule := {
  table : option string;
  chain : string;
  spec : list string;
  description : string }.

Record GatewayPlan := {
  lan : string;
  tunnel : string;
  tunnel_mtu : u16;
  mss : u16;
  mss_is_explicit : bool;
  owner_tag : string;
  rules : list IptablesRule }.

Definition IPV4_MINIMUM_TCP_MSS : u16 := 536.
Definition IPV4_TCP_HEADER_BYTES : u16 := 40.

Definition dec (n : Z) : string := of_chars (fmt_dec n).

Definition comment (owner_tag : string) : list string := ["-m"; "comment"; "--comment"; owner_tag]%string.
Definition mss_rule (from to owner_tag : string) (mss : u16) : list string :=
  ["-i"; from; "-o"; to; "-p"; "tcp"; "--tcp-flags"; "SYN,RST"; "SYN"]%string ++ comment owner_tag ++
  ["-j"; "TCPMSS"; "--set-mss"; dec mss]%string.
Definition gateway_rules (lan tunnel owner_tag : string) (mss : u16) : list IptablesRule := [
  {| table := Some "mangle"; chain := "FORWARD"; spec := mss_rule lan tunnel owner_tag mss;
     description := "LAN to tunnel TCP MSS" |};
  {| table := Some "mangle"; chain := "FORWARD"; spec := mss_rule tunnel lan owner_tag mss;
     description := "tunnel to LAN TCP MSS" |};
  {| table := Some "nat"; chain := "POSTROUTING";
     spec := ["-o"; tunnel]%string ++ comment owner_tag ++ ["-j"; "MASQUERADE"]%string;
     description := "tunnel masquerade" |};
  {| table := None; chain := "FORWARD";
     spec := ["-i"; lan; "-o"; tunnel]%string ++ comment owner_tag ++ ["-j"; "ACCEPT"]%string;
     description := "LAN to tunnel forwarding" |};
  {| table := None; chain := "FORWARD";
     spec := ["-i"; tunnel; "-o"; lan; "-m"; "conntrack"; "--ctstate"; "RELATED,ESTABLISHED"]%string ++
             comment owner_tag ++ ["-j"; "ACCEPT"]%string;
     description := "established return forwarding" |}].

Section Plan.
Context {IN : IpNet}.

Definition from_config (c : Config) : outcome anyhow GatewayPlan :=
  g ← ok_or ["configuration has no [gateway] section; ordinary clients must not manage forwarding"%string] (gateway c);
  let tunnel_mtu := mtu (interface c) in
  maximum_mss ← ok_or ["tunnel MTU is too small to derive an IPv4 TCP MSS"%string]
    (if tunnel_mtu <? IPV4_TCP_HEADER_BYTES then None else Some (tunnel_mtu - IPV4_TCP_HEADER_BYTES));
  let mss := default maximum_mss (tcp_mss g) in
  if negb ((IPV4_MINIMUM_TCP_MSS <=? mss) && (mss <=? maximum_mss)) then
    Err ["TCP MSS " +:+ dec mss +:+ " is outside the safe range " +:+ dec IPV4_MINIMUM_TCP_MSS +:+ "..=" +:+
         dec maximum_mss +:+ " for tunnel MTU " +:+ dec tunnel_mtu]%string
  else
  let lan := trim (lan_interface g) in
  let tunnel := if_name (interface c) in
  let owner_tag := ("hushwire-gateway:" +:+ tunnel)%string in
  Ok {| lan := lan; tunnel := tunnel; tunnel_mtu := tunnel_mtu; mss := mss;
        mss_is_explicit := bool_decide (tcp_mss g <> None); owner_tag := owner_tag;
        rules := gateway_rules lan tunnel owner_tag mss |}.
End Plan.

(** ** Commands *)

Definition render_args (args : list string) : string := String.concat " " args.

Definition command_args (r : IptablesRule) (action : string) : list string :=
  ["--wait"; "5"]%string ++ table_args (table r) ++ [action; chain r] ++ spec r.
Definition render (r : IptablesRule) (action : string) : string :=
  "iptables " +:+ render_args (command_args r action).

(** The lines [GatewayPlan::print] writes. *)
Definition print (p : GatewayPlan) : list string :=
  ["HushWire gateway plan";
   "LAN interface: " +:+ lan p;
   "Tunnel interface: " +:+ tunnel p;
   "Tunnel MTU: " +:+ dec (tunnel_mtu p);
   "TCP MSS: " +:+ dec (mss p) +:+ " (" +:+
     (if mss_is_explicit p then "explicit" else "automatic: tunnel MTU - 40") +:+ ")";
   "Rule owner: " +:+ owner_tag p;
   "";
   "Changes when applied:";
   "  enable net.ipv4.ip_forward"]%string ++
  ((fun r => "  " +:+ render r "-A") <$> rules p) ++
  [""; "No changes made by plan."]%string.

(** [token.trim_matches] with the two quote characters. *)
Definition is_quote (c : ascii) : bool := (Std.code c =? 39) || (Std.code c =? 34).
Fixpoint skip_quotes (l : chars) : chars :=
  match l with c :: k => if is_quote c then skip_quotes k else l | [] => [] end.
Definition trim_quotes (l : chars) : chars := rev (skip_quotes (rev (skip_quotes l))).

(** [windows(2).any(..)]. *)
Fixpoint adjacent (a b : chars) (l : list chars) : bool :=
  match l with
  | x :: ((y :: _) as l') => (bool_decide (x = a) && bool_decide (y = b)) || adjacent a b l'
  | _ => false
  end.
Definition iptables_line_has_owner (line : chars) (owner_tag : string) : bool :=
  adjacent (chars_of "--comment") (chars_of owner_tag) (trim_quotes <$> split_ascii_whitespace line).

(** The number, from 1, of the first rule of a listing with the owner's tag. *)
Fixpoint owned_rule_number (owner_tag : string) (rule_number : nat) (ls : list chars) : option nat :=
  match ls with
  | [] => None
  | line :: ls =>
      if negb (starts_with_str (chars_of "-A ") line) then owned_rule_number owner_tag rule_number ls
      else if iptables_line_has_owner line owner_tag then Some (S rule_number)
      else owned_rule_number owner_tag (S rule_number) ls
  end.

Definition owned_rule_locations : list (option string * string) :=
  [(Some "mangle", "FORWARD"); (Some "nat", "POSTROUTING"); (None, "FORWARD")]%string.

(** ** Paths *)

(** [Path::join]. *)
Definition join (dir name : string) : string :=
  if starts_with_str ["/"%char] (chars_of name) then name
  else if bool_decide (dir = ""%string) then name
  else if ends_with_str ["/"%char] (chars_of dir) then dir +:+ name
  else (dir +:+ "/" +:+ name)%string.
Definition interface_path (interface : string) : string := join "/sys/class/net" interface.

(** The file operations of the gateway.  Environment variables do not change
    while it runs; [flock path i] is the answer of the [i]-th call. *)
Class GatewayOs {OS : Os} := {
  target_linux : bool;
  geteuid : Z;
  env_var : string -> option string;
  path_exists : string -> World -> bool;
  create_dir_all : string -> M World Transport.io_error unit;
  set_mode : string -> Z -> M World Transport.io_error unit;
  create_new : string -> M World Transport.io_error unit;
  write_all : string -> string -> M World Transport.io_error unit;
  fs_write : string -> string -> M World Transport.io_error unit;
  remove_file : string -> M World Transport.io_error unit;
  open_lock : string -> M World Transport.io_error unit;
  flock : string -> World -> nat -> outcome Transport.io_error unit;
  unlock : string -> World -> World;
  read_dir : string -> World -> outcome Transport.io_error (list (outcome Transport.io_error string));
  read_link : string -> World -> outcome Transport.io_error string }.

Section Operations.
Context {OS : Os} {GO : GatewayOs}.

(** A file operation with the context of its error. *)
Definition file_op {A} (what : string) (f : M World Transport.io_error A) : M World anyhow A := fun w =>
  let '(w, r) := f w in (w, context what (of_io r)).
(** [let _ = f]: the error is dropped. *)
Definition ignore {E A} (f : M World E A) (w : World) : World := (f w).1.

Definition ensure_linux : M World anyhow unit :=
  if target_linux then mret tt else bail "gateway firewall management is currently supported only on Linux".
Definition ensure_linux_root : M World anyhow unit :=
  _ ← ensure_linux;
  if geteuid =? 0 then mret tt else bail "gateway apply/remove must run as root".

Definition iptables_program (w : World) : string :=
  match env_var "HUSHWIRE_IPTABLES" with
  | Some program => program
  | None => if path_exists "/usr/sbin/iptables" w then "/usr/sbin/iptables" else "iptables"
  end.
Definition run_iptables (args : list string) : M World anyhow Output := fun w =>
  output "running iptables" (iptables_program w) args w.
Definition ensure_iptables_available : M World anyhow unit := fun w =>
  (o ← output "running iptables --version" (iptables_program w) ["--version"%string];
   if negb (success o) then bail "iptables is unavailable or failed its version check" else mret tt) w.

(** *** Rules *)

Definition failed (what : string) (o : Output) : string := (what +:+ " failed: " +:+ trim (stderr o))%string.

Definition rule_exists (r : IptablesRule) : M World anyhow bool :=
  o ← run_iptables (command_args r "-C");
  match exit_code o with
  | Some 0 => mret true
  | Some 1 => mret false
  | _ => bail (failed (render r "-C") o)
  end.

Definition add_if_missing (r : IptablesRule) : M World anyhow bool :=
  present ← rule_exists r;
  if (present : bool) then mret false else
  o ← run_iptables (command_args r "-A");
  if negb (success o) then bail (failed (render r "-A") o) else mret true.

Definition delete_once (r : IptablesRule) : M World anyhow unit :=
  o ← run_iptables (command_args r "-D");
  if negb (success o) then bail (failed (render r "-D") o) else mret tt.

Definition list_iptables_chain (table : option string) (chain : string) : M World anyhow Output :=
  o ← run_iptables (["--wait"; "5"]%string ++ table_args table ++ ["-S"%string; chain]);
  if negb (success o) then bail ("could not list iptables chain " +:+ chain +:+ ": " +:+ trim (stderr o)) else mret o.

Definition delete_iptables_rule_number (table : option string) (chain : string) (rule_number : nat) : M World anyhow unit :=
  o ← run_iptables (["--wait"; "5"]%string ++ table_args table ++ ["-D"%string; chain; dec (Z.of_nat rule_number)]);
  if negb (success o) then
    bail ("could not delete owned rule " +:+ dec (Z.of_nat rule_number) +:+ " from iptables chain " +:+ chain +:+ ": "
          +:+ trim (stderr o))
  else mret tt.

Fixpoint count_in (owner_tag : string) (locations : list (option string * string)) (count : nat) : M World anyhow nat :=
  match locations with
  | [] => mret count
  | (table, chain) :: locations =>
      o ← list_iptables_chain table chain;
      count_in owner_tag locations
        (count + length (filter (fun line => iptables_line_has_owner line owner_tag = true) (lines (stdout o))))
  end.
Definition count_owned_rules (p : GatewayPlan) : M World anyhow nat :=
  count_in (owner_tag p) owned_rule_locations 0.

(** The inner loop of [delete_owned_rules]: list, find the first owned rule,
    delete it by number; [None] when the fuel is used up. *)
Fixpoint delete_loop (fuel : nat) (owner_tag : string) (table : option string) (chain : string) (removed : nat) (w : World)
    : option (World * outcome anyhow nat) :=
  match fuel with
  | O => None
  | S fuel =>
      match list_iptables_chain table chain w with
      | (w, Ok o) =>
          match owned_rule_number owner_tag 0 (lines (stdout o)) with
          | None => Some (w, Ok removed)
          | Some rule_number =>
              match delete_iptables_rule_number table chain rule_number w with
              | (w, Ok _) =>
                  if (128 <? S removed)%nat then Some (w, Err ["refusing to remove more than 128 owned gateway rules"%string])
                  else delete_loop fuel owner_tag table chain (S removed) w
              | (w, Err e) => Some (w, Err e)
              | (w, Panic) => Some (w, Panic)
              end
          end
      | (w, Err e) => Some (w, Err e)
      | (w, Panic) => Some (w, Panic)
      end
  end.

Fixpoint delete_in (fuel : nat) (owner_tag : string) (locations : list (option string * string)) (removed : nat) (w : World)
    : option (World * outcome anyhow nat) :=
  match locations with
  | [] => Some (w, Ok removed)
  | (table, chain) :: locations =>
      r ← delete_loop fuel owner_tag table chain removed w;
      match r with
      | (w, Ok removed) => delete_in fuel owner_tag locations removed w
      | r => Some r
      end
  end.

(** At most 129 rules are deleted, so 130 rounds are enough. *)
Definition DELETE_FUEL : nat := 130.
Definition delete_owned_rules (p : GatewayPlan) : M World anyhow nat := fun w =>
  default (w, Panic) (delete_in DELETE_FUEL (owner_tag p) owned_rule_locations 0 w).

(** *** The state directory *)

Record GatewayStatePaths := {
  directory : string;
  namespace_id : string;
  marker : string;
  original_forwarding : string }.

(** A question about the system. *)
Definition asks {A} (f : World -> outcome anyhow A) : M World anyhow A := fun w => (w, f w).

Definition network_namespace_id_of (target : string) : outcome anyhow string :=
  let digits := filter (fun c => is_digit c = true) (chars_of target) in
  if bool_decide (digits = []) then Err ["could not identify current network namespace"%string] else Ok (of_chars digits).
Definition network_namespace_id : M World anyhow string :=
  target ← asks (fun w => context "reading current network namespace" (of_io (read_link "/proc/self/ns/net" w)));
  mlift (network_namespace_id_of target).

Definition paths_in (directory namespace_id : string) (p : GatewayPlan) : GatewayStatePaths := {|
  directory := directory;
  namespace_id := namespace_id;
  marker := join directory ("gateway-" +:+ namespace_id +:+ "-" +:+ tunnel p +:+ ".state");
  original_forwarding := join directory ("ip-forward-" +:+ namespace_id +:+ ".original") |}.
Definition state_directory : string := default "/run/hushwire"%string (env_var "HUSHWIRE_GATEWAY_STATE_DIR").
Definition GatewayStatePaths_new (p : GatewayPlan) : M World anyhow GatewayStatePaths :=
  namespace_id ← network_namespace_id;
  mret (paths_in state_directory namespace_id p).

Definition ensure_directory (s : GatewayStatePaths) : M World anyhow unit :=
  _ ← file_op ("creating " +:+ directory s) (create_dir_all (directory s));
  file_op ("securing " +:+ directory s) (set_mode (directory s) 448).

(** [write_new_file]: false when the file exists; a file that cannot be
    written is removed again. *)
Definition write_new_file (path contents : string) : M World anyhow bool := fun w =>
  match create_new path w with
  | (w, Ok _) =>
      match write_all path contents w with
      | (w, Ok _) => (w, Ok true)
      | (w, Err e) => (ignore (remove_file path) w, context ("writing " +:+ path) (of_io (Err e)))
      | (w, Panic) => (w, Panic)
      end
  | (w, Err e) =>
      if bool_decide (Transport.kind e = AlreadyExists) then (w, Ok false)
      else (w, context ("creating " +:+ path) (of_io (Err e)))
  | (w, Panic) => (w, Panic)
  end.

Definition LF_text : string := of_chars [LF].
Definition record_original_forwarding (s : GatewayStatePaths) (value : string) : M World anyhow bool :=
  write_new_file (original_forwarding s) (value +:+ LF_text).

Definition record_of (s : GatewayStatePaths) (p : GatewayPlan) : string :=
  ("version=1" +:+ LF_text +:+ "namespace=" +:+ namespace_id s +:+ LF_text +:+ "lan_interface=" +:+ lan p +:+ LF_text +:+
   "tunnel_interface=" +:+ tunnel p +:+ LF_text +:+ "tunnel_mtu=" +:+ dec (tunnel_mtu p) +:+ LF_text +:+
   "tcp_mss=" +:+ dec (mss p) +:+ LF_text)%string.
Definition record_gateway (s : GatewayStatePaths) (p : GatewayPlan) : M World anyhow bool :=
  created ← write_new_file (marker s) (record_of s p);
  if (created : bool) then mret true else
  _ ← file_op ("updating " +:+ marker s) (fs_write (marker s) (record_of s p));
  mret false.

(** The loop around [flock] from call [i], for at most [fuel] calls. *)
Fixpoint flock_loop (fuel : nat) (what path : string) (i : nat) (w : World) : outcome anyhow (option unit) :=
  match fuel with
  | O => Ok None
  | S fuel =>
      match flock path w i with
      | Ok _ => Ok (Some tt)
      | Err e => if bool_decide (Transport.kind e = Interrupted) then flock_loop fuel what path (S i) w
                 else context what (of_io (Err e))
      | Panic => Panic
      end
  end.
Definition lock_path (s : GatewayStatePaths) : string :=
  join (directory s) ("gateway-" +:+ namespace_id s +:+ ".lock").
Definition lock (fuel : nat) (s : GatewayStatePaths) : M World anyhow (option unit) :=
  _ ← file_op ("opening gateway state lock " +:+ lock_path s) (open_lock (lock_path s));
  asks (flock_loop fuel ("locking gateway state " +:+ lock_path s) (lock_path s) 0).

Definition is_marker (namespace_id name : string) : bool :=
  starts_with_str (chars_of ("gateway-" +:+ namespace_id +:+ "-")) (chars_of name)
  && ends_with_str (chars_of ".state") (chars_of name).
Fixpoint any_marker (namespace_id : string) (entries : list (outcome Transport.io_error string)) : outcome anyhow bool :=
  match entries with
  | [] => Ok false
  | entry :: entries =>
      name ← of_io entry;
      if is_marker namespace_id name then Ok true else any_marker namespace_id entries
  end.
Definition has_gateway_markers (s : GatewayStatePaths) : M World anyhow bool := asks (fun w =>
  if negb (path_exists (directory s) w) then Ok false else
  entries ← context ("reading " +:+ directory s) (of_io (read_dir (directory s) w));
  any_marker (namespace_id s) entries).

(** *** Forwarding and interfaces *)

Definition read_ip_forward : M World anyhow string := read_trimmed ("reading " +:+ IP_FORWARD) IP_FORWARD.
Definition write_ip_forward (value : string) : M World anyhow unit :=
  o ← output "running sysctl" "sysctl" (sysctl_args value);
  if negb (success o) then bail ("sysctl failed: " +:+ trim (stderr o)) else mret tt.

(** The message of a number that does not parse is left out. *)
Definition mtu_path (interface : string) : string := join (interface_path interface) "mtu".
Definition read_interface_mtu (interface : string) : M World anyhow u16 :=
  value ← asks (fun w => context ("reading interface MTU from " +:+ mtu_path interface) (of_io (read_file (mtu_path interface) w)));
  mlift (ok_or ["parsing interface MTU from " +:+ mtu_path interface]%string (parse_uint U16_MAX (chars_of (trim value)))).

Definition preflight_interface (interface : string) : M World anyhow unit := fun w =>
  if path_exists (interface_path interface) w then (w, Ok tt)
  else (w, Err ["network interface " +:+ interface +:+ " does not exist"]%string).
Definition preflight_interfaces (p : GatewayPlan) : M World anyhow unit :=
  _ ← preflight_interface (lan p);
  _ ← preflight_interface (tunnel p);
  actual_mtu ← read_interface_mtu (tunnel p);
  if negb (actual_mtu =? tunnel_mtu p) then
    bail ("tunnel interface " +:+ tunnel p +:+ " has MTU " +:+ dec actual_mtu +:+ ", but configuration expects "
          +:+ dec (tunnel_mtu p) +:+ "; refusing to install an unsafe MSS")
  else mret tt.

(** *** Apply *)

(** The closure of [apply]: beside the system, the rules added so far. *)
Record Progress := { system : World; added_rules : list IptablesRule }.
Definition on_system {A} (f : M World anyhow A) : M Progress anyhow A := fun s =>
  let '(w, r) := f (system s) in ({| system := w; added_rules := added_rules s |}, r).
Definition note_rule (r : IptablesRule) : M Progress anyhow unit :=
  mmodify (fun s => {| system := system s; added_rules := added_rules s ++ [r] |}).

Fixpoint all_present (rs : list IptablesRule) : M World anyhow (list bool) :=
  match rs with
  | [] => mret []
  | r :: rs => present ← rule_exists r; rest ← all_present rs; mret (present :: rest)
  end.

Fixpoint add_missing (rs : list IptablesRule) : M Progress anyhow unit :=
  match rs with
  | [] => mret tt
  | r :: rs =>
      added ← on_system (add_if_missing r);
      _ ← (if (added : bool) then note_rule r else mret tt);
      add_missing rs
  end.

Definition apply_changes (p : GatewayPlan) (forwarding_before : string) : M Progress anyhow unit :=
  present ← on_system (all_present (rules p));
  owned_rule_count ← on_system (count_owned_rules p);
  _ ← (if negb (forallb id present) || negb (owned_rule_count =? length (rules p))%nat
       then on_system (_ ← delete_owned_rules p; mret tt) else mret tt);
  _ ← add_missing (rules p);
  if bool_decide (forwarding_before = "1"%string) then mret tt else on_system (write_ip_forward "1").

(** What a rollback could not undo. *)
Inductive Leftover := LeftRule (r : IptablesRule) | LeftMarker | LeftForwarding | LeftOriginal.

(** [let _ = f] in the rollback; a failure is noted in the report. *)
Definition attempt {E A} (l : Leftover) (f : M World E A) (w : World) (report : list Leftover) : World * list Leftover :=
  let '(w, r) := f w in (w, if is_ok r then report else l :: report).

Fixpoint undo_rules (rs : list IptablesRule) (w : World) (report : list Leftover) : World * list Leftover :=
  match rs with
  | [] => (w, report)
  | r :: rs => let '(w, report) := attempt (LeftRule r) (delete_once r) w report in undo_rules rs w report
  end.

(** The rollback after a failed change. *)
Definition rollback (s : GatewayStatePaths) (added : list IptablesRule) (original_created marker_created : bool)
    (forwarding_before : string) (error : anyhow) (w : World) : World * outcome anyhow (option unit) * list Leftover :=
  let result := Err ("gateway apply rolled back after a failed system change"%string :: error) in
  let '(w, report) := undo_rules (rev added) w [] in
  let '(w, report) := if marker_created then attempt LeftMarker (remove_file (marker s)) w report else (w, report) in
  if original_created then
    match has_gateway_markers s w with
    | (w, Ok false) =>
        let '(w, report) := attempt LeftForwarding (write_ip_forward forwarding_before) w report in
        let '(w, report) := attempt LeftOriginal (remove_file (original_forwarding s)) w report in
        (w, result, report)
    | (w, Ok true) => (w, result, report)
    | (w, Err e) => (w, Err e, LeftOriginal :: LeftForwarding :: report)
    | (w, Panic) => (w, Panic, report)
    end
  else (w, result, report).

(** [apply] under the lock. *)
Definition apply_locked (s : GatewayStatePaths) (p : GatewayPlan) (w : World)
    : World * outcome anyhow (option unit) * list Leftover :=
  match (forwarding_before ← read_ip_forward;
         original_created ← record_original_forwarding s forwarding_before;
         mret (forwarding_before, original_created)) w with
  | (w, Ok (forwarding_before, original_created)) =>
      match record_gateway s p w with
      | (w, Ok marker_created) =>
          match apply_changes p forwarding_before {| system := w; added_rules := [] |} with
          | (st, Ok _) => (system st, Ok (Some tt), [])
          | (st, Err error) =>
              rollback s (added_rules st) original_created marker_created forwarding_before error (system st)
          | (st, Panic) => (system st, Panic, [])
          end
      | (w, Err error) =>
          let '(w, report) := if original_created then attempt LeftOriginal (remove_file (original_forwarding s)) w [] else (w, []) in
          (w, Err ("recording gateway ownership before system changes"%string :: error), report)
      | (w, Panic) => (w, Panic, [])
      end
  | (w, Err error) => (w, Err error, [])
  | (w, Panic) => (w, Panic, [])
  end.

(** The checks and the lock; the lock is released when the guard is dropped.
    [None]: still waiting for the lock after [fuel] calls. *)
Definition open_state (fuel : nat) (p : GatewayPlan) : M World anyhow (GatewayStatePaths * option unit) :=
  _ ← ensure_iptables_available;
  s ← GatewayStatePaths_new p;
  _ ← ensure_directory s;
  locked ← lock fuel s;
  mret (s, locked).
Definition prepare_apply (fuel : nat) (p : GatewayPlan) : M World anyhow (GatewayStatePaths * option unit) :=
  _ ← ensure_linux_root;
  _ ← preflight_interfaces p;
  open_state fuel p.

Definition apply (fuel : nat) (p : GatewayPlan) (w : World) : World * outcome anyhow (option unit) * list Leftover :=
  match prepare_apply fuel p w with
  | (w, Ok (s, Some _)) =>
      let '(w, r, report) := apply_locked s p w in (unlock (lock_path s) w, r, report)
  | (w, Ok (_, None)) => (w, Ok None, [])
  | (w, Err e) => (w, Err e, [])
  | (w, Panic) => (w, Panic, [])
  end.

(** *** Remove *)

Definition when {A} (b : World -> bool) (d : A) (m : M World anyhow A) : M World anyhow A := fun w =>
  if b w then m w else (w, Ok d).

Definition restore_forwarding (s : GatewayStatePaths) : M World anyhow (option string) :=
  original ← asks (fun w => context ("reading " +:+ original_forwarding s) (of_io (read_file (original_forwarding s) w)));
  let original := trim original in
  restored ← (if bool_decide (original = "0"%string) || bool_decide (original = "1"%string)
              then _ ← write_ip_forward original; mret (Some original) else mret None);
  _ ← file_op ("removing " +:+ original_forwarding s) (remove_file (original_forwarding s));
  mret restored.

Definition remove_locked (s : GatewayStatePaths) (p : GatewayPlan) : M World anyhow (nat * option string) :=
  removed ← delete_owned_rules p;
  _ ← when (path_exists (marker s)) tt (file_op ("removing " +:+ marker s) (remove_file (marker s)));
  restored ← when (path_exists (original_forwarding s)) None
    (others ← has_gateway_markers s;
     if (others : bool) then mret None else restore_forwarding s);
  mret (removed, restored).

Definition prepare_remove (fuel : nat) (p : GatewayPlan) : M World anyhow (GatewayStatePaths * option unit) :=
  _ ← ensure_linux_root;
  open_state fuel p.

Definition remove (fuel : nat) (p : GatewayPlan) : M World anyhow (option (nat * option string)) := fun w =>
  match prepare_remove fuel p w with
  | (w, Ok (s, Some _)) =>
      let '(w, r) := remove_locked s p w in (unlock (lock_path s) w, Some <$> r)
  | (w, Ok (_, None)) => (w, Ok None)
  | (w, Err e) => (w, Err e)
  | (w, Panic) => (w, Panic)
  end.

(** *** Status *)

Record GatewayStatus := {
  forwarding_enabled : bool;
  lan_interface_exists : bool;
  tunnel_interface_exists : bool;
  actual_mtu : option u16;
  expected_tunnel_mtu : u16;
  state_recorded : bool;
  owned_rule_count : nat;
  expected_rule_count : nat;
  rule_states : list (string * bool) }.

Definition healthy (s : GatewayStatus) : bool :=
  forwarding_enabled s && lan_interface_exists s && tunnel_interface_exists s
  && bool_decide (actual_mtu s = Some (expected_tunnel_mtu s)) && state_recorded s
  && (owned_rule_count s =? expected_rule_count s)%nat && forallb snd (rule_states s).

Fixpoint rule_status (rs : list IptablesRule) : M World anyhow (list (string * bool)) :=
  match rs with
  | [] => mret []
  | r :: rs => present ← rule_exists r; rest ← rule_status rs; mret ((description r, present) :: rest)
  end.

Definition status (p : GatewayPlan) : M World anyhow GatewayStatus :=
  _ ← ensure_linux;
  forwarding ← read_ip_forward;
  lan_exists ← asks (fun w => Ok (path_exists (interface_path (lan p)) w));
  tunnel_exists ← asks (fun w => Ok (path_exists (interface_path (tunnel p)) w));
  mtu ← (if (tunnel_exists : bool) then mtu ← read_interface_mtu (tunnel p); mret (Some mtu) else mret None);
  s ← GatewayStatePaths_new p;
  states ← rule_status (rules p);
  count ← count_owned_rules p;
  recorded ← asks (fun w => Ok (path_exists (marker s) w));
  mret {| forwarding_enabled := bool_decide (forwarding = "1"%string);
          lan_interface_exists := lan_exists;
          tunnel_interface_exists := tunnel_exists;
          actual_mtu := mtu;
          expected_tunnel_mtu := tunnel_mtu p;
          state_recorded := recorded;
          owned_rule_count := count;
          expected_rule_count := length (rules p);
          rule_states := states |}.

(** [parse_ip_frag_fails] over the remaining lines, two at a time; a line of
    the values that is missing ends the search. *)
Fixpoint frag_fails (ls : list chars) : outcome anyhow (option u64) :=
  match ls with
  | header :: values :: ls =>
      if negb (starts_with_str (chars_of "Ip:") header) || negb (starts_with_str (chars_of "Ip:") values) then frag_fails ls else
      let names := drop 1 (split_whitespace header) in
      let fields := drop 1 (split_whitespace values) in
      match list_find (fun name => name = chars_of "FragFails") names with
      | None => Ok None
      | Some (index, _) =>
          field ← ok_or ["/proc/net/snmp Ip field count mismatch"%string] (fields !! index);
          value ← ok_or ["parsing IpFragFails"%string] (parse_uint U64_MAX field);
          Ok (Some value)
      end
  | _ => Ok None
  end.
Definition parse_ip_frag_fails (contents : string) : outcome anyhow (option u64) := frag_fails (lines contents).
Definition read_ip_frag_fails : M World anyhow (option u64) :=
  if target_linux then
    contents ← asks (fun w => context "reading /proc/net/snmp" (of_io (read_file "/proc/net/snmp" w)));
    mlift (parse_ip_frag_fails contents)
  else mret None.

(** The lines [print_status] writes. *)
Definition result_word (success : bool) : string := if success then "OK" else "FAIL".
Definition print_status (p : GatewayPlan) (s : GatewayStatus) (frag_fails : outcome anyhow (option u64)) : list string :=
  ["HushWire gateway status";
   result_word (forwarding_enabled s) +:+ " IPv4 forwarding";
   result_word (lan_interface_exists s) +:+ " LAN interface " +:+ lan p;
   result_word (tunnel_interface_exists s) +:+ " tunnel interface " +:+ tunnel p;
   match actual_mtu s with
   | Some actual =>
       if (actual =? expected_tunnel_mtu s)%Z then "OK tunnel MTU " +:+ dec actual
       else "FAIL tunnel MTU " +:+ dec actual +:+ "; configuration expects " +:+ dec (expected_tunnel_mtu s)
   | None => "FAIL tunnel MTU unavailable; configuration expects " +:+ dec (expected_tunnel_mtu s)
   end]%string ++
  ((fun d => result_word d.2 +:+ " " +:+ d.1)%string <$> rule_states s) ++
  [if (owned_rule_count s =? expected_rule_count s)%nat
   then ("OK " +:+ dec (Z.of_nat (owned_rule_count s)) +:+ " owned firewall rules")%string
   else ("FAIL found " +:+ dec (Z.of_nat (owned_rule_count s)) +:+ " owned firewall rules; expected exactly "
         +:+ dec (Z.of_nat (expected_rule_count s)))%string;
   ((if state_recorded s then "OK" else "WARN") +:+ " gateway state record")%string] ++
  match frag_fails with
  | Ok (Some n) => [("INFO cumulative IPv4 fragmentation failures: " +:+ dec n)%string]
  | _ => []
  end.
End Operations.
