(* ===== verification/GatewayProofs.v ===== *)
(** * The gateway's contract

    The laws of the commands and files of [Gateway], and the theorems: the
    plan of a validated configuration; deletion by owner; what [apply],
    [remove] and [status] leave on the host. *)

From Stdlib Require Import Ascii.
From S2P Require Import Prelude Net Std Config Transport Os Iptables RefHost Gateway.
Open Scope Z_scope.

(** ** Laws of the system *)

Section Laws.
Context {OS : Os} {PF : PacketFilter} {HV : HostView}.

(** One file changed. *)
Record file_becomes (w w' : World) (p : string) (o : option string) : Prop := {
  fb_at : file w' p = o;
  fb_other : forall q, q <> p -> file w' q = file w q;
  fb_forwarding : forwarding w' = forwarding w;
  fb_rules : rules_same w w' }.
(** Nothing but files changed, and no file that was there. *)
Record files_grow (w w' : World) : Prop := {
  fg_files : forall p c, file w p = Some c -> file w' p = Some c;
  fg_forwarding : forwarding w' = forwarding w;
  fg_rules : rules_same w w' }.

(** Forwarding and the rules are as they were. *)
Definition quiet (w w' : World) : Prop := forwarding w' = forwarding w /\ rules_same w w'.
#[export] Instance quiet_preorder : PreOrder quiet.
Proof. split; [by split|]. intros w1 w2 w3 [H1 H2] [J1 J2]. split; [congruence|by etrans]. Qed.

(** A tag the listing shows as one word. *)
Definition plain_char (c : ascii) : bool := (33 <=? Std.code c) && (Std.code c <=? 126) && negb (is_quote c).
Definition plain (s : string) : Prop := forallb plain_char (chars_of s) = true /\ chars_of s <> [].
(** The name of a directory entry. *)
Definition entry_name (s : string) : Prop := "/"%char ∉ chars_of s.
End Laws.

(** Directories are entries of [file] as well. *)
Class GatewayLaws {OS : Os} {GO : GatewayOs} (PF : PacketFilter) (HV : HostView) := {
  gl_iptables : forall w, IptablesLaws PF HV (iptables_program w) ["--wait"; "5"]%string;
  gl_version : forall w, runs (iptables_program w) ["--version"%string] w (fun w' _ => rules_same w w');
  gl_comment : forall c s1 tag s2, plain tag ->
    iptables_line_has_owner (show_rule c (rule_of (s1 ++ comment tag ++ s2))) tag = true;
  gl_interfaces : forall a b s a' b' s',
    rule_of ("-i" :: a :: "-o" :: b :: s)%string = rule_of ("-i" :: a' :: "-o" :: b' :: s')%string -> a = a' /\ b = b';
  gl_sysctl :: SysctlLaws PF HV;
  gl_exists : forall p w, path_exists p w = bool_decide (is_Some (file w p));
  gl_read : forall p w, p <> IP_FORWARD ->
    match read_file p w with Ok c => file w p = Some c | Err _ => True | Panic => False end;
  gl_create_dir : forall d w, match create_dir_all d w with
    | (w', Ok _) | (w', Err _) => files_grow w w' /\
        forall p, starts_with_str (chars_of p) (chars_of d) = false -> file w' p = file w p
    | (_, Panic) => False end;
  gl_set_mode : forall d m w, same w (set_mode d m w).1 /\ (set_mode d m w).2 <> Panic;
  gl_create_new : forall p w, match create_new p w with
    | (w', Ok _) => file w p = None /\ file_becomes w w' p (Some "")%string
    | (w', Err e) => same w w' /\ (Transport.kind e = AlreadyExists -> is_Some (file w p))
    | (_, Panic) => False end;
  gl_write_all : forall p c w, is_Some (file w p) -> match write_all p c w with
    | (w', Ok _) => file_becomes w w' p (Some c)
    | (w', Err _) => exists c', file_becomes w w' p (Some c')
    | (_, Panic) => False end;
  gl_fs_write : forall p c w, match fs_write p c w with
    | (w', Ok _) => file_becomes w w' p (Some c)
    | (w', Err _) => exists o, file_becomes w w' p o
    | (_, Panic) => False end;
  gl_remove : forall p w, match remove_file p w with
    | (w', Ok _) => file_becomes w w' p None
    | (w', Err _) => same w w'
    | (_, Panic) => False end;
  gl_open_lock : forall p w, match open_lock p w with
    | (w', Ok _) | (w', Err _) => files_grow w w' /\ forall q, q <> p -> file w' q = file w q
    | (_, Panic) => False end;
  gl_flock : forall p w i, flock p w i <> Panic;
  gl_unlock : forall p w, same w (unlock p w);
  gl_read_dir : forall d w, match read_dir d w with
    | Ok entries => (Panic ∉ entries) /\
        forall name, Ok name ∈ entries -> entry_name name /\ is_Some (file w (join d name))
    | Err _ => True
    | Panic => False end;
  (** the process stays in its network namespace *)
  gl_namespace : forall w w', read_link "/proc/self/ns/net" w = read_link "/proc/self/ns/net" w';
  gl_link : forall p w, read_link p w <> Panic }.

(** ** Runs that keep a relation *)

Section Keeps.
Context {S : Type} (R : S -> S -> Prop) {Rpre : PreOrder R}.

Definition keeps {A} (m : M S anyhow A) : Prop := forall s, R s (m s).1 /\ (m s).2 <> Panic.

Lemma keeps_ret {A} (a : A) : keeps (mret a).
Proof. intros s. split; [cbn; reflexivity|done]. Qed.
Lemma keeps_bail {A} c : keeps (A := A) (bail c).
Proof. intros s. split; [cbn; reflexivity|done]. Qed.
Lemma keeps_bind {A B} (m : M S anyhow A) (f : A -> M S anyhow B) :
  keeps m -> (forall a, keeps (f a)) -> keeps (a ← m; f a).
Proof.
  intros Hm Hf s. unfold mbind, M_bind. destruct (Hm s) as [H1 H2]. destruct (m s) as [s1 [a|e|]]; [|done|done]. cbn in H1.
  destruct (Hf a s1) as [J1 J2]. split; [by etrans|done].
Qed.
Lemma keeps_ext {A} (m m' : M S anyhow A) : (forall s, m s = m' s) -> keeps m -> keeps m'.
Proof. intros E H s. rewrite <- E. apply H. Qed.
End Keeps.
Ltac keeps_tac := repeat lazymatch goal with
  | |- keeps _ (mbind _ _) => apply keeps_bind; [typeclasses eauto| |intros ?]
  | |- keeps _ (mret _) => apply keeps_ret; typeclasses eauto
  end.

Section WorldKeeps.
Context {OS : Os} (R : World -> World -> Prop) {Rpre : PreOrder R}.

Lemma keeps_when {A} b (d : A) (m : M World anyhow A) : keeps R m -> keeps R (when b d m).
Proof. intros H w. unfold when. destruct (b w); [apply H|]. split; [cbn; reflexivity|done]. Qed.
End WorldKeeps.

Lemma filter_none {A} (P : A -> Prop) `{forall x, Decision (P x)} (l : list A) :
  (forall x, x ∈ l -> ~ P x) -> filter P l = [].
Proof.
  induction l as [|x l IH]; intros Hn; [done|]. rewrite filter_cons_False by (apply Hn; by left).
  apply IH. intros y Hy. apply Hn. by right.
Qed.
Lemma filter_all {A} (P : A -> Prop) `{forall x, Decision (P x)} (l : list A) :
  (forall x, x ∈ l -> P x) -> filter P l = l.
Proof.
  induction l as [|x l IH]; intros Hp; [done|]. rewrite filter_cons_True by (apply Hp; by left).
  f_equal. apply IH. intros y Hy. apply Hp. by right.
Qed.

(** ** The commands *)

Section Commands.
Context {OS : Os} {GO : GatewayOs} {PF : PacketFilter} {HV : HostView} {GL : GatewayLaws PF HV}.

Definition location (r : IptablesRule) : Location := place (table r) (chain r).
Definition entry (r : IptablesRule) : Location * Rule := (location r, rule_of (spec r)).
Definition not_number (r : IptablesRule) : Prop := length (spec r) <> 1%nat.

Definition owned (tag c : string) (r : Rule) : bool := iptables_line_has_owner (show_rule c r) tag.
Definition owned_at (tag : string) (w : World) (loc : Location) : list Rule :=
  filter (fun r => owned tag loc.2 r = true) (chain_rules w loc).
Definition foreign_at (tag : string) (w : World) (loc : Location) : list Rule :=
  filter (fun r => owned tag loc.2 r = false) (chain_rules w loc).

Lemma run_spec args w Q :
  runs (iptables_program w) args w Q ->
  match run_iptables args w with
  | (w', Ok o) => host_same w w' /\ Q w' o
  | (w', Err _) => same w w'
  | (_, Panic) => False
  end.
Proof. apply output_runs. Qed.

Lemma rule_exists_spec r w :
  match rule_exists r w with
  | (w', Ok b) => same w w' /\ b = bool_decide (rule_of (spec r) ∈ chain_rules w (location r))
  | (w', Err _) => same w w'
  | (_, Panic) => False
  end.
Proof.
  unfold rule_exists, mbind, M_bind. pose proof (run_spec _ _ _ (ipt_check (IptablesLaws := gl_iptables w) (table r) (chain r) (spec r) w)) as H.
  unfold command_args.
  destruct (run_iptables _ w) as [w' [o|e|]]; [|done|done]. destruct H as [Hh (Hr & H0 & H1)].
  destruct (exit_code o) as [[|[]|]|]; try (by split); cbn; (split; [by split|]).
  - symmetry. by apply bool_decide_eq_true_2, H0.
  - symmetry. by apply bool_decide_eq_false_2, H1.
Qed.

Lemma add_if_missing_spec r w :
  match add_if_missing r w with
  | (w', Ok true) => host_same w w' /\ (rule_of (spec r) ∉ chain_rules w (location r)) /\
      chain_becomes w w' (location r) (chain_rules w (location r) ++ [rule_of (spec r)])
  | (w', Ok false) => same w w' /\ rule_of (spec r) ∈ chain_rules w (location r)
  | (w', Err _) => same w w'
  | (_, Panic) => False
  end.
Proof.
  unfold add_if_missing, mbind, M_bind. pose proof (rule_exists_spec r w) as H.
  destruct (rule_exists r w) as [w1 [b|e|]]; [|done|done]. destruct H as [[H1 H2] ->].
  case_bool_decide as Hin; [split; [by split|done]|].
  pose proof (run_spec _ _ _ (ipt_append (IptablesLaws := gl_iptables w1) (table r) (chain r) (spec r) w1)) as H.
  unfold command_args. destruct (run_iptables _ w1) as [w2 [o|e|]]; [| |done].
  - destruct H as [Hh H]. destruct (success o); cbn.
    + destruct H as [E1 E2]. split_and!; [by etrans|done|]. rewrite H2 in E1. split; [done|].
      intros loc' Hne. by rewrite E2, H2.
    + split; by etrans.
  - destruct H as [J1 J2]. split; by etrans.
Qed.

Lemma delete_once_spec r w :
  not_number r ->
  match delete_once r w with
  | (w', Ok _) => host_same w w' /\
      chain_becomes w w' (location r) (remove_first (rule_of (spec r)) (chain_rules w (location r)))
  | (w', Err _) => same w w'
  | (_, Panic) => False
  end.
Proof.
  intros Hr. unfold delete_once, mbind, M_bind.
  pose proof (run_spec _ _ _ (ipt_delete (IptablesLaws := gl_iptables w) (table r) (chain r) (spec r) w Hr)) as H.
  unfold command_args. destruct (run_iptables _ w) as [w' [o|e|]]; [|done|done].
  destruct H as [Hh H]. by destruct (success o).
Qed.

Lemma list_spec t c w :
  match list_iptables_chain t c w with
  | (w', Ok o) => same w w' /\ exists policy, chain_header c policy /\
      lines (stdout o) = policy :: (show_rule c <$> chain_rules w (place t c)) /\ len (chain_rules w (place t c)) <= U64_MAX
  | (w', Err _) => same w w'
  | (_, Panic) => False
  end.
Proof.
  unfold list_iptables_chain, mbind, M_bind. pose proof (run_spec _ _ _ (ipt_list (IptablesLaws := gl_iptables w) t c w)) as H.
  destruct (run_iptables _ w) as [w' [o|e|]]; [|done|done]. destruct H as [Hh [Hr H]].
  destruct (success o); cbn; [|by split]. split; [by split|]. by apply H.
Qed.

Lemma delete_number_spec t c n w :
  0 < Z.of_nat n <= U64_MAX ->
  match delete_iptables_rule_number t c n w with
  | (w', Ok _) => host_same w w' /\ chain_becomes w w' (place t c) (delete (n - 1)%nat (chain_rules w (place t c)))
  | (w', Err _) => same w w'
  | (_, Panic) => False
  end.
Proof.
  intros Hn. unfold delete_iptables_rule_number, mbind, M_bind.
  pose proof (run_spec _ _ _ (ipt_delete_number (IptablesLaws := gl_iptables w) t c n w Hn)) as H.
  unfold dec. destruct (run_iptables _ w) as [w' [o|e|]]; [|done|done].
  destruct H as [Hh H]. by destruct (success o).
Qed.

(** *** Deletion by owner *)

Lemma header_no_rule c line : chain_header c line -> starts_with_str (chars_of "-A ") line = false.
Proof. intros [(target & _ & ->)| ->]; done. Qed.

Lemma owned_rule_number_spec (w : World) tag c (rs : list Rule) n :
  match owned_rule_number tag n (show_rule c <$> rs) with
  | None => forall r, r ∈ rs -> owned tag c r = false
  | Some k => exists before r after, rs = before ++ r :: after /\ k = S (n + length before) /\ owned tag c r = true
  end.
Proof.
  revert n. induction rs as [|r rs IH]; intros n; [by intros r ?%not_elem_of_nil|].
  cbn [owned_rule_number fmap list_fmap]. rewrite (ipt_shown (IptablesLaws := gl_iptables w)). cbn [negb].
  change (iptables_line_has_owner (show_rule c r) tag) with (owned tag c r). destruct (owned tag c r) eqn:E.
  - exists [], r, rs. cbn. split_and!; [done|lia|done].
  - specialize (IH (S n)). destruct (owned_rule_number tag (S n) (show_rule c <$> rs)) as [k|].
    + destruct IH as (b & r' & a & -> & -> & Ho). exists (r :: b), r', a. cbn. split_and!; [done|lia|done].
    + by intros r' [->|Hr]%elem_of_cons; [|apply IH].
Qed.

(** What a deletion of [n] owned rules in chain [c] of [t] does: only owned
    rules go, and other chains are untouched. *)
Record deletes_owned (tag : string) (loc : Location) (w w' : World) (n : nat) : Prop := {
  do_host : host_same w w';
  do_other : forall loc', loc' <> loc -> chain_rules w' loc' = chain_rules w loc';
  do_foreign : foreign_at tag w' loc = foreign_at tag w loc;
  do_sub : chain_rules w' loc `sublist_of` chain_rules w loc;
  do_count : (n + length (owned_at tag w' loc) = length (owned_at tag w loc))%nat }.

Lemma deletes_owned_same tag loc w w' : same w w' -> deletes_owned tag loc w w' 0.
Proof. intros [H1 H2]. unfold foreign_at, owned_at. split; intros; unfold foreign_at, owned_at; by rewrite ?H2. Qed.

Lemma deletes_owned_trans tag loc w w1 w2 n m :
  deletes_owned tag loc w w1 n -> deletes_owned tag loc w1 w2 m -> deletes_owned tag loc w w2 (n + m).
Proof.
  intros [H1 H2 H3 H4 H5] [J1 J2 J3 J4 J5]. split; [by etrans|intros; by rewrite J2, H2|congruence|by etrans|lia].
Qed.

Lemma delete_number_owned tag t c w w' before r after :
  chain_rules w (place t c) = before ++ r :: after -> owned tag c r = true -> host_same w w' ->
  chain_becomes w w' (place t c) (delete (length before) (chain_rules w (place t c))) ->
  deletes_owned tag (place t c) w w' 1.
Proof.
  intros E Ho Hh [H1 H2]. rewrite E, delete_middle in H1. split; [done|done|..].
  - unfold foreign_at. rewrite H1, E, !filter_app. by rewrite filter_cons_False by (cbn; by rewrite Ho).
  - rewrite H1, E. apply sublist_app; [done|]. by constructor.
  - unfold owned_at. rewrite H1, E, !filter_app, filter_cons_True by done. rewrite !length_app. cbn [length]. lia.
Qed.

Lemma delete_loop_spec fuel tag t c removed w w' x :
  delete_loop fuel tag t c removed w = Some (w', x) ->
  x <> Panic /\ exists n, deletes_owned tag (place t c) w w' n /\
  (forall m, x = Ok m -> m = (removed + n)%nat /\ owned_at tag w' (place t c) = []).
Proof.
  revert removed w. induction fuel as [|fuel IH]; intros removed w E; cbn [delete_loop] in E; [done|].
  pose proof (list_spec t c w) as H. destruct (list_iptables_chain t c w) as [w1 [o|e|]]; [| |done].
  2: { injection E as <- <-. split; [done|]. exists 0%nat. by split; [apply deletes_owned_same|]. }
  destruct H as (Hs & policy & Hp%header_no_rule & Hl & Hlen). rewrite Hl in E. cbn [owned_rule_number] in E. rewrite Hp in E. cbn [negb] in E.
  pose proof (owned_rule_number_spec w tag c (chain_rules w (place t c)) 0) as Hn.
  pose proof (deletes_owned_same tag (place t c) _ _ Hs) as Hd.
  destruct (owned_rule_number tag 0 _) as [k|].
  - destruct Hn as (before & r & after & Er & -> & Ho). cbn [Nat.add] in E. rewrite <- (proj2 Hs (place t c)) in Er, Hlen.
    assert (Hk : 0 < Z.of_nat (S (length before)) <= U64_MAX).
    { rewrite Er in Hlen. unfold len in Hlen. rewrite length_app in Hlen. cbn [length] in Hlen. lia. }
    pose proof (delete_number_spec t c (S (length before)) w1 Hk) as H.
    destruct (delete_iptables_rule_number _ _ _ w1) as [w2 [[]|e|]]; [| |done].
    + destruct H as [Hh Hb]. replace (S (length before) - 1)%nat with (length before) in Hb by lia.
      pose proof (deletes_owned_trans _ _ _ _ _ _ _ Hd (delete_number_owned _ _ _ _ _ _ _ _ Er Ho Hh Hb)) as Hd2.
      destruct (128 <? S removed)%nat.
      * injection E as <- <-. split; [done|]. by exists (0 + 1)%nat.
      * apply IH in E as (Hx & n & Hd3 & Hm). split; [done|]. exists (0 + 1 + n)%nat.
        split; [by eapply deletes_owned_trans|]. intros m Em. destruct (Hm m Em) as [-> Hnil]. split; [lia|done].
    + injection E as <- <-. split; [done|]. exists (0 + 0)%nat.
      split; [|done]. eapply deletes_owned_trans; [done|by apply deletes_owned_same].
  - injection E as <- <-. split; [done|]. exists 0%nat. split; [done|]. intros m [= <-]. split; [lia|].
    unfold owned_at. rewrite (proj2 Hs). apply filter_none. intros r Hr. cbn. by rewrite Hn.
Qed.

(** All the chains where the gateway has rules. *)
Definition places (locations : list (option string * string)) : list Location :=
  (fun l => place l.1 l.2) <$> locations.
Definition owned_total (tag : string) (w : World) (ls : list Location) : nat :=
  sum_list_with (fun loc => length (owned_at tag w loc)) ls.

(** The effect on all chains: only owned rules went. *)
Record owned_gone (tag : string) (w w' : World) : Prop := {
  og_host : host_same w w';
  og_foreign : forall loc, foreign_at tag w' loc = foreign_at tag w loc;
  og_sub : forall loc, chain_rules w' loc `sublist_of` chain_rules w loc }.

#[export] Instance owned_gone_preorder tag : PreOrder (owned_gone tag).
Proof.
  split; [intros w; by split; [apply host_same_preorder|..]|]. intros w1 w2 w3 [H1 H2 H3] [J1 J2 J3].
  split; [by etrans|intros; by rewrite J2|intros loc; by transitivity (chain_rules w2 loc)].
Qed.

Lemma deletes_owned_gone tag loc w w' n : deletes_owned tag loc w w' n -> owned_gone tag w w'.
Proof.
  intros [H1 H2 H3 H4 _]. split; [done|intros loc'|intros loc'];
    (destruct (decide (loc' = loc)) as [->|Hne]; [done|]); unfold foreign_at; by rewrite H2.
Qed.

Lemma owned_total_same tag w w' ls :
  (forall loc, loc ∈ ls -> chain_rules w' loc = chain_rules w loc) -> owned_total tag w' ls = owned_total tag w ls.
Proof.
  induction ls as [|l ls IH]; intros H; [done|]. cbn. unfold owned_at at 1 3. rewrite H by (by left).
  f_equal. apply IH. intros. apply H. by right.
Qed.

Lemma delete_in_spec fuel tag locations removed w w' x :
  NoDup (places locations) ->
  delete_in fuel tag locations removed w = Some (w', x) ->
  x <> Panic /\ owned_gone tag w w' /\ (forall loc, loc ∉ places locations -> chain_rules w' loc = chain_rules w loc) /\
  (forall m, x = Ok m -> m = (removed + owned_total tag w (places locations))%nat /\
     forall loc, loc ∈ places locations -> owned_at tag w' loc = []).
Proof.
  revert removed w. induction locations as [|[t c] locations IH]; intros removed w Hnd E; cbn [delete_in] in E.
  { injection E as <- <-. split_and!; [done..|]. intros m [= <-]. split; [cbn; lia|]. by intros loc ?%not_elem_of_nil. }
  cbn [places fmap list_fmap fst snd] in *. apply NoDup_cons in Hnd as [Hnot Hnd].
  destruct (delete_loop fuel tag t c removed w) as [[w1 r]|] eqn:El; [|done]. cbn in E.
  apply delete_loop_spec in El as (Hr & n & Hd & Hm). pose proof (deletes_owned_gone _ _ _ _ _ Hd) as Hg.
  destruct Hd as [_ Ho _ _ Hc].
  assert (Hstop : (w1, r) = (w', x) -> (forall m, r <> Ok m) -> x <> Panic /\ owned_gone tag w w' /\
    (forall loc, loc ∉ place t c :: places locations -> chain_rules w' loc = chain_rules w loc) /\
    (forall m, x = Ok m -> m = (removed + owned_total tag w (place t c :: places locations))%nat /\
      forall loc, loc ∈ place t c :: places locations -> owned_at tag w' loc = [])).
  { intros [= -> ->] Hne. split_and!; [done..| |by intros m ->; by destruct (Hne m)].
    intros loc [Hl _]%not_elem_of_cons. by apply Ho. }
  destruct r as [m|e|]; [|by injection E as E; apply Hstop; congruence|done].
  destruct (Hm m eq_refl) as [-> Hnil]. apply IH in E as (Hx & Hg2 & Hother & Hok); [|done].
  split_and!; [done|by etrans| |].
  - intros loc [Hl Hl']%not_elem_of_cons. by rewrite Hother, Ho.
  - intros m Em. destruct (Hok m Em) as [-> Hnone]. cbn [owned_total sum_list_with]. split.
    + rewrite (owned_total_same tag w w1) by (intros loc Hl; apply Ho; by intros ->).
      rewrite Hnil in Hc. cbn [length] in Hc. unfold owned_total in *. cbn [sum_list_with]. rewrite <- Hc. fold (places locations). lia.
    + intros loc [->|Hl]%elem_of_cons; [|by apply Hnone]. unfold owned_at in *. by rewrite Hother.
Qed.
End Commands.

(** ** Termination *)

Section Termination.
Context {OS : Os} {GO : GatewayOs}.

(** Each round deletes one rule or ends, and the 129th deletion ends it. *)
Lemma delete_loop_fuel fuel tag t c removed w :
  (removed <= 128)%nat -> (129 - removed <= fuel)%nat ->
  exists r, (forall k, delete_loop (fuel + k) tag t c removed w = Some r) /\
    forall m, r.2 = Ok m -> (m <= 128)%nat.
Proof.
  revert removed w. induction fuel as [|fuel IH]; intros removed w Hr Hf; [lia|]. cbn [Nat.add delete_loop].
  destruct (list_iptables_chain t c w) as [w1 [o|e|]]; [|by eexists|by eexists].
  destruct (owned_rule_number tag 0 (lines (stdout o))) as [n|].
  - destruct (delete_iptables_rule_number t c n w1) as [w2 [[]|e|]]; [|by eexists|by eexists].
    destruct (Nat.ltb_spec 128 (S removed)); [by eexists|]. apply IH; lia.
  - eexists. split; [done|]. by intros m [= <-].
Qed.

Lemma delete_in_fuel fuel tag locations removed w :
  (removed <= 128)%nat -> (129 <= fuel)%nat ->
  exists r, (forall k, delete_in (fuel + k) tag locations removed w = Some r) /\
    forall m, r.2 = Ok m -> (m <= 128)%nat.
Proof.
  intros Hr Hf. revert removed w Hr. induction locations as [|[t c] locations IH]; intros removed w Hr; cbn [delete_in].
  { eexists. split; [done|]. by intros m [= <-]. }
  destruct (delete_loop_fuel fuel tag t c removed w) as ([w1 [m|e|]] & E & Hm); [lia|lia|..].
  - destruct (IH m w1 (Hm m eq_refl)) as (r & E2 & Hr2). exists r. split; [|done]. intros k. rewrite E. apply E2.
  - exists (w1, Err e). split; [|done]. intros k. by rewrite E.
  - exists (w1, Panic). split; [|done]. intros k. by rewrite E.
Qed.

(** C38: deleting the owned rules terminates, whatever [iptables] answers and
    however many rules it keeps listing: the loop over the listings ends
    within 129 rounds per chain, more fuel changes nothing, and it removes at
    most 128 rules when it succeeds. *)
Theorem delete_owned_terminates (p : GatewayPlan) w fuel :
  (129 <= fuel)%nat ->
  delete_in fuel (owner_tag p) owned_rule_locations 0 w = Some (delete_owned_rules p w) /\
  forall w' n, delete_owned_rules p w = (w', Ok n) -> (n <= 128)%nat.
Proof.
  intros Hf. destruct (delete_in_fuel 129 (owner_tag p) owned_rule_locations 0 w) as (r & E & Hm); [lia..|].
  assert (E1 : delete_owned_rules p w = r).
  { unfold delete_owned_rules. pose proof (E 1%nat) as E1. change (129 + 1)%nat with DELETE_FUEL in E1. by rewrite E1. }
  rewrite E1. replace fuel with (129 + (fuel - 129))%nat by lia. rewrite E. split; [done|]. intros w' n ->. by apply (Hm n).
Qed.
End Termination.

(** ** The plan of a configuration *)

(** The shape all theorems about a plan rest on. *)
Record plan_ok (p : GatewayPlan) : Prop := {
  po_tag : owner_tag p = ("hushwire-gateway:" +:+ tunnel p)%string;
  po_lan : is_valid_linux_interface_name (lan p) = true;
  po_tunnel : is_valid_linux_interface_name (tunnel p) = true;
  po_ne : lan p <> tunnel p;
  po_rules : rules p = gateway_rules (lan p) (tunnel p) (owner_tag p) (mss p) }.

Section Plans.
Context {IN : IpNet} {B64 : Base64}.

Lemma from_config_cases c :
  config_ok c ->
  match gateway c with
  | None => from_config c = Err ["configuration has no [gateway] section; ordinary clients must not manage forwarding"%string]
  | Some g => exists p, from_config c = Ok p /\ plan_ok p /\
      lan p = trim (lan_interface g) /\ tunnel p = if_name (interface c) /\ tunnel_mtu p = mtu (interface c) /\
      mss p = default (mtu (interface c) - 40) (tcp_mss g) /\
      (mss_is_explicit p = true <-> is_Some (tcp_mss g))
  end.
Proof.
  intros Hc. unfold from_config. destruct (gateway c) as [g|] eqn:Eg; [|done]. cbn [ok_or mbind outcome_bind].
  destruct (c_gateway c Hc g Eg) as [H1 H2 H3 H4]. pose proof (c_mtu c Hc) as Hm.
  unfold IPV4_TCP_HEADER_BYTES, IPV4_MINIMUM_TCP_MSS. destruct (Z.ltb_spec (mtu (interface c)) 40); [lia|]. cbn [ok_or mbind outcome_bind].
  assert (Hb : 536 <= default (mtu (interface c) - 40) (tcp_mss g) <= mtu (interface c) - 40).
  { destruct (tcp_mss g) as [m|]; cbn; [by apply H4|lia]. }
  destruct (Z.leb_spec 536 (default (mtu (interface c) - 40) (tcp_mss g))); [|lia].
  destruct (Z.leb_spec (default (mtu (interface c) - 40) (tcp_mss g)) (mtu (interface c) - 40)); [|lia]. cbn [andb negb].
  eexists. split; [reflexivity|]. cbn. split_and!; [by split|done..|]. rewrite bool_decide_eq_true.
  destruct (tcp_mss g); split; intros H'; [by eexists|done|by destruct H'|by destruct H'].
Qed.

(** C39: every accepted configuration with a gateway section has a gateway
    plan, and one without has none: no value that [validate] lets through
    makes the plan fail.  The MSS is the configured one or the MTU less 40
    bytes of headers, always between 536 and that bound; the plan has exactly
    five rules, all in the chains [owned_rule_locations] names, and each
    carries the comment with the owner tag of the tunnel interface. *)
Theorem gateway_plan_total c :
  validate c = Ok tt ->
  match gateway c with
  | None => exists e, from_config c = Err e
  | Some g => exists p, from_config c = Ok p /\
      mss p = default (mtu (interface c) - 40) (tcp_mss g) /\ 536 <= mss p <= tunnel_mtu p - 40 /\
      lan p <> tunnel p /\ length (rules p) = 5%nat /\
      forall r, r ∈ rules p -> (table r, chain r) ∈ owned_rule_locations /\
        exists s1 s2, spec r = s1 ++ comment ("hushwire-gateway:" +:+ if_name (interface c))%string ++ s2
  end.
Proof.
  intros Hv. apply validate_spec in Hv. pose proof (from_config_cases c Hv) as H.
  destruct (gateway c) as [g|] eqn:Eg; [|by eexists]. destruct H as (p & Hp & [H1 H2 H3 H4 H5] & E1 & E2 & E3 & E4 & _).
  exists p. rewrite E3, E4. split_and!; [done|done| | |done|by rewrite H5|].
  - destruct (tcp_mss g) as [m|] eqn:Em; cbn; [|pose proof (c_mtu c Hv); lia].
    by destruct (gw_mss _ _ (c_gateway c Hv g Eg) m Em).
  - destruct (tcp_mss g) as [m|] eqn:Em; cbn; [|lia]. by destruct (gw_mss _ _ (c_gateway c Hv g Eg) m Em).
  - intros r Hr. rewrite H5, H1, E2 in Hr. unfold gateway_rules, mss_rule in Hr.
    repeat (apply elem_of_cons in Hr as [->|Hr]; [cbn [table chain spec]; split; [unfold owned_rule_locations; set_solver|by eexists _, _]|]).
    by apply not_elem_of_nil in Hr.
Qed.
End Plans.

Lemma valid_name_plain s : is_valid_linux_interface_name s = true -> plain s.
Proof.
  unfold is_valid_linux_interface_name, plain. intros [[Hne _]%andb_prop H]%andb_prop.
  split; [|by destruct (chars_of s)]. rewrite forallb_forall in *. intros c Hc. specialize (H c Hc). unfold plain_char, is_quote.
  assert (Hn : Std.code c = 95 \/ Std.code c = 45 \/ Std.code c = 46 \/ 48 <= Std.code c <= 57 \/ 65 <= Std.code c <= 90 \/ 97 <= Std.code c <= 122).
  { rewrite !orb_true_iff in H. destruct H as [[[H|H]|H]|H]; try apply bool_decide_eq_true in H; subst; auto.
    unfold is_ascii_alphanumeric, is_digit in H. rewrite !orb_true_iff in H. destruct H as [[H|H]|H]; zbool; lia. }
  destruct Hn as [->|[->|[->|Hn]]]; lia.
Qed.

Lemma chars_of_app a b : chars_of (a +:+ b) = chars_of a ++ chars_of b.
Proof. induction a as [|c a IH]; [done|]. exact (f_equal (cons c) IH). Qed.

Lemma plain_app a b : plain a -> plain b -> plain (a +:+ b).
Proof.
  unfold plain. intros [Ha Hn] [Hb _]. rewrite chars_of_app, forallb_app, Ha, Hb. split; [done|]. by destruct (chars_of a).
Qed.

Section PlanRules.
Context {OS : Os} {GO : GatewayOs} {PF : PacketFilter} {HV : HostView} {GL : GatewayLaws PF HV}.
Context (p : GatewayPlan) (Hp : plan_ok p).

Lemma tag_plain : plain (owner_tag p).
Proof. rewrite (po_tag p Hp). apply plain_app; [done|]. apply valid_name_plain, po_tunnel, Hp. Qed.

Lemma rules_shape r : r ∈ rules p ->
  owned (owner_tag p) (chain r) (rule_of (spec r)) = true /\ not_number r /\ location r ∈ places owned_rule_locations.
Proof.
  rewrite (po_rules p Hp). unfold gateway_rules, mss_rule, owned, location, not_number. intros Hr. pose proof tag_plain as Ht.
  repeat (apply elem_of_cons in Hr as [->|Hr]; [cbn [table chain spec]; split_and!; [by apply gl_comment|done|unfold places, owned_rule_locations; set_solver]|]).
  by apply not_elem_of_nil in Hr.
Qed.

Lemma nodup_two_each {A B} (l1 l2 l3 : A) (x1 x2 y z1 z2 : B) :
  l1 <> l2 -> l1 <> l3 -> l2 <> l3 -> x1 <> x2 -> z1 <> z2 ->
  NoDup [(l1, x1); (l1, x2); (l2, y); (l3, z1); (l3, z2)].
Proof.
  intros. repeat (apply NoDup_cons; split; [set_solver|]). apply NoDup_nil_2.
Qed.

Lemma entries_nodup : NoDup (entry <$> rules p).
Proof.
  rewrite (po_rules p Hp). pose proof (po_ne p Hp) as Hne.
  apply (nodup_two_each (place (Some "mangle") "FORWARD") (place (Some "nat") "POSTROUTING") (place None "FORWARD")); [done..| |];
    cbn [spec]; intros [E _]%gl_interfaces; congruence.
Qed.

Lemma places_nodup : NoDup (places owned_rule_locations).
Proof. apply (bool_decide_unpack _). by vm_compute. Qed.
End PlanRules.

(** ** Foreign rules *)

Section Foreign.
Context {OS : Os} {GO : GatewayOs} {PF : PacketFilter} {HV : HostView} {GL : GatewayLaws PF HV}.
Context (p : GatewayPlan) (Hp : plan_ok p).

Definition foreign_same (w w' : World) : Prop := forall loc, foreign_at (owner_tag p) w' loc = foreign_at (owner_tag p) w loc.
#[local] Instance foreign_same_preorder : PreOrder foreign_same.
Proof. split; [done|]. intros w1 w2 w3 H J loc. by rewrite J. Qed.

Lemma rules_foreign w w' : rules_same w w' -> foreign_same w w'.
Proof. intros H loc. unfold foreign_at. by rewrite H. Qed.
Lemma becomes_foreign w w' loc l :
  chain_becomes w w' loc l ->
  filter (fun r => owned (owner_tag p) loc.2 r = false) l = foreign_at (owner_tag p) w loc -> foreign_same w w'.
Proof.
  intros [H1 H2] E loc'. unfold foreign_at at 1. destruct (decide (loc' = loc)) as [->|Hne]; [by rewrite H1|].
  unfold foreign_at. by rewrite H2.
Qed.

Abbreviation kept := (keeps foreign_same).

(** A step that is known to leave the rules. *)
Lemma kept_rules {A} (m : M World anyhow A) :
  (forall w, match m w with (w', Ok _) | (w', Err _) => rules_same w w' | (_, Panic) => False end) -> kept m.
Proof. intros H w. specialize (H w). destruct (m w) as [w' [a|e|]]; cbn; (split; [by apply rules_foreign|done]) || done. Qed.

Lemma kept_exists r : kept (rule_exists r).
Proof.
  apply kept_rules. intros w. pose proof (rule_exists_spec r w) as H.
  destruct (rule_exists r w) as [w' [b|e|]]; [by destruct H as [[]]|by destruct H|done].
Qed.

Lemma kept_list t c : kept (list_iptables_chain t c).
Proof.
  apply kept_rules. intros w. pose proof (list_spec t c w) as H.
  destruct (list_iptables_chain t c w) as [w' [b|e|]]; [by destruct H as [[]]|by destruct H|done].
Qed.

Lemma kept_delete : kept (delete_owned_rules p).
Proof.
  intros w. unfold delete_owned_rules.
  destruct (delete_in_fuel 129 (owner_tag p) owned_rule_locations 0 w) as ([w' x] & E & _); [lia..|].
  pose proof (E 1%nat) as E1. change (129 + 1)%nat with DELETE_FUEL in E1. rewrite E1. cbn [default fst snd].
  apply delete_in_spec in E1 as (Hx & [_ Hf _] & _); [by split|apply places_nodup].
Qed.

Lemma kept_add r : r ∈ rules p -> kept (add_if_missing r).
Proof.
  intros Hr w. destruct (rules_shape p Hp r Hr) as (Ho & _). pose proof (add_if_missing_spec r w) as H.
  destruct (add_if_missing r w) as [w' [[]|e|]]; [| | |done]; cbn; (split; [|done]).
  - destruct H as (_ & _ & H). eapply becomes_foreign; [done|]. unfold foreign_at.
    rewrite filter_app, filter_cons_False by (cbn; by rewrite Ho). by rewrite app_nil_r.
  - destruct H as [[_ H] _]. by apply rules_foreign.
  - destruct H as [_ H]. by apply rules_foreign.
Qed.

Lemma remove_owned_foreign r l c :
  owned (owner_tag p) c r = true ->
  filter (fun r => owned (owner_tag p) c r = false) (remove_first r l) = filter (fun r => owned (owner_tag p) c r = false) l.
Proof.
  intros Ho. induction l as [|x l IH]; [done|]. cbn [remove_first]. case_decide as E.
  - subst. by rewrite filter_cons_False by (by rewrite Ho).
  - rewrite !filter_cons. by rewrite IH.
Qed.

Lemma kept_delete_once r : r ∈ rules p -> kept (delete_once r).
Proof.
  intros Hr w. destruct (rules_shape p Hp r Hr) as (Ho & Hn & _). pose proof (delete_once_spec r w Hn) as H.
  destruct (delete_once r w) as [w' [[]|e|]]; [| |done]; cbn; (split; [|done]).
  - destruct H as [_ H]. eapply becomes_foreign; [done|]. by apply remove_owned_foreign.
  - destruct H as [_ H]. by apply rules_foreign.
Qed.

(** Files, the lock and the switch. *)
Lemma kept_sysctl v : kept (write_ip_forward v).
Proof.
  apply kept_rules. intros w. unfold write_ip_forward, output, mbind, M_bind, context, of_io.
  pose proof (sysctl_rules v w) as H. destruct (exec "sysctl" (sysctl_args v) w) as [w' [o|e|]]; cbn [map_err]; [|done|done].
  by destruct (success o).
Qed.
End Foreign.

(** ** Outcomes of a run

    [yields m w Q X]: from [w], [m] ends in a state and value of [Q] or fails
    in a state of [X]; it does not panic. *)

Section Yields.
Context {S : Type}.

Definition yields {A} (m : M S anyhow A) (s : S) (Q : S -> A -> Prop) (X : S -> Prop) : Prop :=
  match m s with (s', Ok a) => Q s' a | (s', Err _) => X s' | (_, Panic) => False end.

Lemma yields_bind {A B} (m : M S anyhow A) (f : A -> M S anyhow B) s Q Q' X :
  yields m s Q' X -> (forall s' a, Q' s' a -> yields (f a) s' Q X) -> yields (a ← m; f a) s Q X.
Proof. unfold yields, mbind, M_bind. intros H Hf. destruct (m s) as [s' [a|e|]]; [by apply Hf|done|done]. Qed.
Lemma yields_mono {A} (m : M S anyhow A) s Q Q' (X X' : S -> Prop) :
  yields m s Q' X' -> (forall s' a, Q' s' a -> Q s' a) -> (forall s', X' s' -> X s') -> yields m s Q X.
Proof. unfold yields. intros H HQ HX. destruct (m s) as [s' [a|e|]]; auto. Qed.
Lemma yields_ret {A} (a : A) s (Q : S -> A -> Prop) X : Q s a -> yields (mret a) s Q X.
Proof. done. Qed.
Lemma yields_result {A} (m : M S anyhow A) s s' a Q X : yields m s Q X -> m s = (s', Ok a) -> Q s' a.
Proof. unfold yields. by intros H E; rewrite E in H. Qed.
End Yields.

Section WorldYields.
Context {OS : Os}.
Lemma yields_asks {A} (f : World -> outcome anyhow A) w (Q : World -> A -> Prop) (X : World -> Prop) :
  match f w with Ok a => Q w a | Err _ => X w | Panic => False end -> yields (asks f) w Q X.
Proof. unfold yields, asks. by destruct (f w). Qed.
Lemma yields_file_op {A} what (f : M World Transport.io_error A) w (Q : World -> A -> Prop) (X : World -> Prop) :
  match f w with (w', Ok a) => Q w' a | (w', Err _) => X w' | (_, Panic) => False end -> yields (file_op what f) w Q X.
Proof. unfold yields, file_op. by destruct (f w) as [w' []]. Qed.
End WorldYields.

(** ** Paths *)

Lemma last_app_ne {A} (l k : list A) : k <> [] -> last (l ++ k) = last k.
Proof.
  intros Hk. induction l as [|x l IH]; [done|]. cbn [app]. rewrite last_cons, IH.
  destruct (last k) eqn:E; [done|]. by apply last_None in E.
Qed.

Lemma last_app_some {A} (l k : list A) x : last k = Some x -> last (l ++ k) = Some x.
Proof. intros H. rewrite last_app_ne; [done|]. by intros ->. Qed.

(** A joined path is a prefix and the name. *)
Lemma join_spec dir :
  exists pre, (forall n, starts_with_str ["/"%char] (chars_of n) = false -> chars_of (join dir n) = pre ++ chars_of n) /\
    (length (chars_of dir) <= length pre)%nat.
Proof.
  destruct (decide (dir = ""%string)) as [->|Hd].
  - exists []. split; [|done]. intros n Hn. unfold join. rewrite Hn. done.
  - destruct (ends_with_str ["/"%char] (chars_of dir)) eqn:E.
    + exists (chars_of dir). split; [|done]. intros n Hn. unfold join. rewrite Hn, E, bool_decide_false by done.
      apply chars_of_app.
    + exists (chars_of dir ++ ["/"%char]). split; [|rewrite length_app; lia]. intros n Hn. unfold join.
      rewrite Hn, E, bool_decide_false by done. rewrite !chars_of_app. by rewrite <- app_assoc.
Qed.

Lemma chars_of_inj a b : chars_of a = chars_of b -> a = b.
Proof. intros H. by rewrite <- (of_chars_of a), H, of_chars_of. Qed.

Lemma join_inj dir a b :
  starts_with_str ["/"%char] (chars_of a) = false -> starts_with_str ["/"%char] (chars_of b) = false ->
  join dir a = join dir b -> a = b.
Proof.
  intros Ha Hb E. destruct (join_spec dir) as (pre & Hp & _). apply chars_of_inj.
  apply (app_inv_head pre). rewrite <- (Hp a Ha), <- (Hp b Hb). by rewrite E.
Qed.

Lemma join_last dir n :
  starts_with_str ["/"%char] (chars_of n) = false -> chars_of n <> [] -> last (chars_of (join dir n)) = last (chars_of n).
Proof. intros Hn Hne. destruct (join_spec dir) as (pre & Hp & _). by rewrite (Hp n Hn), last_app_ne. Qed.

Lemma starts_with_length p l : starts_with_str p l = true -> (length p <= length l)%nat.
Proof.
  revert l. induction p as [|c p IH]; intros [|d l] H; cbn in *; try lia; try done.
  apply andb_prop in H as [_ H]. apply IH in H. lia.
Qed.

(** A file in a directory is no ancestor of it. *)
Lemma join_below dir n :
  starts_with_str ["/"%char] (chars_of n) = false -> chars_of n <> [] ->
  starts_with_str (chars_of (join dir n)) (chars_of dir) = false.
Proof.
  intros Hn Hne. destruct (join_spec dir) as (pre & Hp & Hl).
  apply not_true_iff_false. intros E. apply starts_with_length in E. rewrite (Hp n Hn), length_app in E.
  destruct (chars_of n); [done|]. cbn in E. lia.
Qed.

(** ** The stages of [apply] and [remove] *)

Section Stages.
Context {OS : Os} {GO : GatewayOs} {PF : PacketFilter} {HV : HostView} {GL : GatewayLaws PF HV}.

#[export] Instance files_grow_preorder : PreOrder files_grow.
Proof.
  split; [by split|]. intros w1 w2 w3 [H1 H2 H3] [J1 J2 J3]. split; [auto|congruence|].
  intros loc. by rewrite J3, H3.
Qed.
Lemma same_grow w w' : same w w' -> files_grow w w'.
Proof. intros [[H1 H2] H3]. split; [intros p c; by rewrite H2|done..]. Qed.

(** The namespace the process is in. *)
Definition here (ns : string) : Prop :=
  forall w, exists target, read_link "/proc/self/ns/net" w = Ok target /\ network_namespace_id_of target = Ok ns.
Definition state_of (p : GatewayPlan) (s : GatewayStatePaths) : Prop :=
  exists ns, here ns /\ s = paths_in state_directory ns p.

Lemma here_unique a b (w : World) : here a -> here b -> a = b.
Proof. intros Ha Hb. destruct (Ha w) as (t & E1 & E2), (Hb w) as (t' & E1' & E2'). congruence. Qed.

Lemma state_of_unique p s s' (w : World) : state_of p s -> state_of p s' -> s = s'.
Proof. intros (ns & H & ->) (ns' & H' & ->). by rewrite (here_unique _ _ w H H'). Qed.

Lemma root_yields w : yields ensure_linux_root w (fun w' _ => w' = w) (fun w' => w' = w).
Proof. unfold ensure_linux_root, ensure_linux, yields, mbind, M_bind. destruct target_linux; [|done]. cbn. by destruct (geteuid =? 0). Qed.

Lemma mtu_path_last interface : last (chars_of (mtu_path interface)) = Some "u"%char.
Proof. unfold mtu_path. by rewrite join_last. Qed.

Definition mtu_recorded (p : GatewayPlan) (w : World) : Prop :=
  exists c, file w (mtu_path (tunnel p)) = Some c /\ parse_uint U16_MAX (chars_of (trim c)) = Some (tunnel_mtu p).
Definition interfaces_ready (p : GatewayPlan) (w : World) : Prop :=
  is_Some (file w (interface_path (lan p))) /\ is_Some (file w (interface_path (tunnel p))) /\ mtu_recorded p w.

Lemma read_mtu_yields interface w :
  yields (read_interface_mtu interface) w
    (fun w' m => w' = w /\ exists c, file w (mtu_path interface) = Some c /\ parse_uint U16_MAX (chars_of (trim c)) = Some m)
    (fun w' => w' = w).
Proof.
  assert (Hne : mtu_path interface <> IP_FORWARD).
  { intros E. pose proof (mtu_path_last interface) as H. rewrite E in H. discriminate H. }
  pose proof (gl_read (mtu_path interface) w Hne) as H. unfold read_interface_mtu, yields, mbind, M_bind, asks, mlift.
  destruct (read_file (mtu_path interface) w) as [c|e|]; [|done|done]. cbn.
  destruct (parse_uint U16_MAX (chars_of (trim c))) as [m|] eqn:E; cbn; [|done]. eauto.
Qed.

Lemma preflight_yields p w :
  yields (preflight_interfaces p) w (fun w' _ => w' = w /\ interfaces_ready p w) (fun w' => w' = w).
Proof.
  assert (H1 : forall i, yields (preflight_interface i) w (fun w' _ => w' = w /\ is_Some (file w (interface_path i))) (fun w' => w' = w)).
  { intros i. unfold preflight_interface, yields. rewrite gl_exists. by case_bool_decide. }
  unfold preflight_interfaces. eapply yields_bind; [apply H1|]. intros ? _ [-> Hl].
  eapply yields_bind; [apply H1|]. intros ? _ [-> Ht].
  eapply yields_bind; [apply read_mtu_yields|]. intros ? m [-> (c & Hc & Hm)].
  destruct (Z.eqb_spec m (tunnel_mtu p)) as [->|Hne]; [|done]. cbn. split; [done|]. split_and!; [done..|by exists c].
Qed.

Lemma iptables_yields w : yields ensure_iptables_available w (fun w' _ => same w w') (same w).
Proof.
  unfold ensure_iptables_available, yields, mbind, M_bind.
  pose proof (output_runs "running iptables --version" _ _ _ _ (gl_version w)) as H.
  destruct (output _ _ _ w) as [w' [o|e|]]; [|done|done]. by destruct (success o).
Qed.

Lemma paths_yields p w :
  yields (GatewayStatePaths_new p) w (fun w' s => w' = w /\ state_of p s) (fun w' => w' = w).
Proof.
  unfold GatewayStatePaths_new, network_namespace_id. eapply yields_bind with (Q' := fun w' ns => w' = w /\ here ns).
  - eapply yields_bind with (Q' := fun w' t => w' = w /\ read_link "/proc/self/ns/net" w = Ok t).
    + apply yields_asks. pose proof (gl_link "/proc/self/ns/net" w). by destruct (read_link "/proc/self/ns/net" w).
    + intros ? t [-> Ht]. unfold yields, mlift. destruct (network_namespace_id_of t) as [ns|e|] eqn:E; [|done|].
      * split; [done|]. intros w'. exists t. by rewrite (gl_namespace w' w).
      * unfold network_namespace_id_of in E. by case_bool_decide.
  - intros ? ns [-> Hns]. apply yields_ret. split; [done|]. by exists ns.
Qed.

(** The lock's file and the state directory may be new. *)
Record prepared (s : GatewayStatePaths) (w w' : World) : Prop := {
  pr_grow : files_grow w w';
  pr_other : forall q, q <> lock_path s -> starts_with_str (chars_of q) (chars_of (directory s)) = false ->
    file w' q = file w q }.

#[export] Instance prepared_preorder s : PreOrder (prepared s).
Proof.
  split; [by split|]. intros w1 w2 w3 [H1 H2] [J1 J2]. split; [by etrans|]. intros q Hq Hd. by rewrite J2, H2.
Qed.
Lemma same_prepared s w w' : same w w' -> prepared s w w'.
Proof. intros H. split; [by apply same_grow|]. intros. by destruct H as [[_ ->] _]. Qed.

Lemma directory_yields s w : yields (ensure_directory s) w (fun w' _ => prepared s w w') (prepared s w).
Proof.
  unfold ensure_directory. eapply yields_bind with (Q' := fun w' _ => prepared s w w').
  - apply yields_file_op. pose proof (gl_create_dir (directory s) w) as H.
    destruct (create_dir_all (directory s) w) as [w' [[]|e|]]; [| |done]; destruct H as [H1 H2]; (split; [done|]); auto.
  - intros w1 _ H1. apply yields_file_op. destruct (gl_set_mode (directory s) 448 w1) as [H2 H3].
    destruct (set_mode (directory s) 448 w1) as [w2 [[]|e|]]; [| |done]; cbn in H2; (etrans; [done|by apply same_prepared]).
Qed.

Lemma lock_yields fuel s w : yields (lock fuel s) w (fun w' _ => prepared s w w') (prepared s w).
Proof.
  unfold lock. eapply yields_bind with (Q' := fun w' _ => prepared s w w').
  - apply yields_file_op. pose proof (gl_open_lock (lock_path s) w) as H.
    destruct (open_lock (lock_path s) w) as [w' [[]|e|]]; [| |done]; destruct H as [H1 H2]; (split; [done|]); auto.
  - intros w1 _ H1. apply yields_asks. generalize 0%nat. induction fuel as [|fuel IH]; intros i; cbn [flock_loop]; [done|].
    pose proof (gl_flock (lock_path s) w1 i). destruct (flock (lock_path s) w1 i) as [[]|e|]; [done| |done].
    case_bool_decide; [apply IH|done].
Qed.

Lemma open_state_yields fuel p w :
  yields (open_state fuel p) w (fun w' r => state_of p r.1 /\ prepared r.1 w w') (files_grow w).
Proof.
  unfold open_state.
  eapply yields_bind; [eapply yields_mono; [apply iptables_yields|intros ? ? H; exact H|intros; by apply same_grow]|]. intros w1 u1 H1. cbn beta in H1.
  eapply yields_bind; [eapply yields_mono; [apply paths_yields|intros ? ? H; exact H|intros w2 E; rewrite E; by apply same_grow]|].
  intros w1' s [E Hs]. rewrite E. clear w1' E. pose proof (same_prepared s _ _ H1) as P1.
  eapply yields_bind; [eapply yields_mono; [apply directory_yields|intros ? ? H; exact H|]|].
  { intros w' H. etrans; [apply P1|apply H]. }
  intros w2 u2 P2. cbn beta in P2. eapply yields_bind; [eapply yields_mono; [apply lock_yields|intros ? ? H; exact H|]|].
  { intros w' H. etrans; [etrans; [apply P1|apply P2]|apply H]. }
  intros w3 l P3. apply yields_ret. cbn. split; [done|]. etrans; [exact P1|]. by etrans.
Qed.

Lemma prepare_remove_yields fuel p w :
  yields (prepare_remove fuel p) w (fun w' r => state_of p r.1 /\ prepared r.1 w w') (files_grow w).
Proof.
  unfold prepare_remove.
  eapply yields_bind; [eapply yields_mono; [apply root_yields|intros ? ? H; exact H|by intros ? ->]|].
  intros w1 u1 E. cbn beta in E. rewrite E. clear w1 u1 E. apply open_state_yields.
Qed.

Lemma prepare_apply_yields fuel p w :
  yields (prepare_apply fuel p) w (fun w' r => state_of p r.1 /\ prepared r.1 w w' /\ interfaces_ready p w) (files_grow w).
Proof.
  unfold prepare_apply.
  eapply yields_bind; [eapply yields_mono; [apply root_yields|intros ? ? H; exact H|by intros ? ->]|]. intros w1 u1 E. cbn beta in E. rewrite E. clear w1 u1 E.
  eapply yields_bind; [eapply yields_mono; [apply preflight_yields|intros ? ? H; exact H|by intros ? ->]|]. intros w1 u1 [E Hi]. rewrite E. clear w1 u1 E.
  eapply yields_mono; [apply open_state_yields| |done]. intros w' r [H1 H2]. done.
Qed.
End Stages.
