(* ===== verification/GatewayContract.v ===== *)
(** * What the gateway leaves on the host

    The theorems about [apply], [remove] and [status] of [Gateway]: foreign
    rules are never touched, an applied gateway is healthy, removing it
    restores the host, and a failed apply is rolled back. *)

From Stdlib Require Import Ascii.
From S2P Require Import Prelude Net Std Config Transport Os Iptables RefHost Gateway GatewayProofs.
Open Scope Z_scope.

Section Steps.
Context {OS : Os} {GO : GatewayOs} {PF : PacketFilter} {HV : HostView} {GL : GatewayLaws PF HV}.

(** ** Files *)

Lemma becomes_quiet w w' p o : file_becomes w w' p o -> quiet w w'.
Proof. by intros []. Qed.
Lemma same_quiet w w' : same w w' -> quiet w w'.
Proof. by intros [[] ?]. Qed.
Lemma grow_quiet w w' : files_grow w w' -> quiet w w'.
Proof. by intros []. Qed.

Lemma write_new_yields path contents w :
  yields (write_new_file path contents) w
    (fun w' b => if b then file w path = None /\ file_becomes w w' path (Some contents)
                 else same w w' /\ is_Some (file w path))
    (quiet w).
Proof.
  unfold yields, write_new_file. pose proof (gl_create_new path w) as H.
  destruct (create_new path w) as [w1 [[]|e|]]; [| |done].
  - destruct H as [Hn [F1 F2 F3 F4]]. pose proof (gl_write_all path contents w1 ltac:(by eexists)) as H.
    destruct (write_all path contents w1) as [w2 [[]|e|]]; [| |done].
    + destruct H as [G1 G2 G3 G4]. split; [done|]. split; [done| |congruence|by etrans]. intros q Hq. by rewrite G2, F2.
    + destruct H as (c' & G). cbn. unfold ignore. pose proof (gl_remove path w2) as H.
      destruct (remove_file path w2) as [w3 [[]|e'|]]; cbn; [| |done];
        (etrans; [split; [exact F3|exact F4]|]); (etrans; [by eapply becomes_quiet|]); [by eapply becomes_quiet|by apply same_quiet].
  - destruct H as [Hs He]. case_bool_decide as E; [split; [done|by apply He]|by apply same_quiet].
Qed.

Lemma record_gateway_yields s p w :
  yields (record_gateway s p) w (fun w' _ => file_becomes w w' (marker s) (Some (record_of s p))) (quiet w).
Proof.
  unfold record_gateway. eapply yields_bind; [apply write_new_yields|]. intros w1 [] H1.
  - apply yields_ret. apply H1.
  - destruct H1 as [[[H1 H2] H3] _].
    eapply yields_bind with (Q' := fun w' _ => file_becomes w1 w' (marker s) (Some (record_of s p))).
    + apply yields_file_op. pose proof (gl_fs_write (marker s) (record_of s p) w1) as H.
      destruct (fs_write (marker s) (record_of s p) w1) as [w2 [[]|e|]]; [done| |done].
      destruct H as (o & H). etrans; [split; [exact H1|exact H3]|by eapply becomes_quiet].
    + intros w2 u [G1 G2 G3 G4]. apply yields_ret. split; [done| |congruence|by etrans].
      intros q Hq. by rewrite G2.
Qed.

Lemma read_forward_yields w :
  yields read_ip_forward w (fun w' v => w' = w /\ v = forwarding w) (fun w' => w' = w).
Proof.
  unfold yields, read_ip_forward, read_trimmed, context, of_io. pose proof (forward_file w) as H.
  by destruct (read_file IP_FORWARD w) as [c|e|].
Qed.

Lemma write_forward_yields v w :
  switch_value v -> yields (write_ip_forward v) w (fun w' _ => switched w w' v) (quiet w).
Proof.
  intros Hv. unfold yields, write_ip_forward, output, mbind, M_bind, context, of_io. pose proof (sysctl_write v w Hv) as H.
  destruct (exec "sysctl" (sysctl_args v) w) as [w' [o|e|]]; cbn [map_err]; [|by apply same_quiet|done].
  destruct (success o); [done|]. by destruct H.
Qed.

Lemma remove_file_yields what path w :
  yields (file_op what (remove_file path)) w (fun w' _ => file_becomes w w' path None) (quiet w).
Proof.
  apply yields_file_op. pose proof (gl_remove path w) as H.
  destruct (remove_file path w) as [w' [[]|e|]]; [done|by apply same_quiet|done].
Qed.

(** A marker the search finds is a file of the directory. *)
Lemma any_marker_spec ns entries :
  match any_marker ns entries with
  | Ok true => exists name, Ok name ∈ entries /\ is_marker ns name = true
  | Panic => Panic ∈ entries
  | _ => True
  end.
Proof.
  induction entries as [|[name|e|] entries IH]; cbn; [done| |done|by left].
  destruct (is_marker ns name) eqn:E; [exists name; split; [by left|done]|].
  destruct (any_marker ns entries) as [[]|e|]; [|done|done|by right].
  destruct IH as (n & H & Hn). exists n. split; [by right|done].
Qed.

Definition other_marker (s : GatewayStatePaths) (w : World) : Prop :=
  exists name, entry_name name /\ is_marker (namespace_id s) name = true /\ is_Some (file w (join (directory s) name)).

Lemma markers_yields s w :
  yields (has_gateway_markers s) w (fun w' b => w' = w /\ (b = true -> other_marker s w)) (fun w' => w' = w).
Proof.
  unfold has_gateway_markers. apply yields_asks. destruct (path_exists (directory s) w); cbn [negb]; [|done].
  pose proof (gl_read_dir (directory s) w) as H. destruct (read_dir (directory s) w) as [entries|e|]; [|done|done].
  cbn [of_io map_err context mbind outcome_bind]. pose proof (any_marker_spec (namespace_id s) entries) as Hm.
  destruct H as [Hnp H].
  destruct (any_marker (namespace_id s) entries) as [[]|e|]; [|done|done|done].
  split; [done|]. intros _. destruct Hm as (name & Hin & Hname). destruct (H name Hin). by exists name.
Qed.
End Steps.

(** ** Rules *)

Lemma header_no_owner c line tag :
  no_ws (chars_of c) -> chars_of c <> [] -> trim_quotes (chars_of c) <> chars_of "--comment" ->
  chain_header c line -> iptables_line_has_owner line tag = false.
Proof.
  intros Hc Hne Hq H. unfold iptables_line_has_owner.
  assert (Htwo : forall a : chars, a = chars_of "-P" \/ a = chars_of "-N" -> no_ws a /\ a <> [] /\ trim_quotes a <> chars_of "--comment").
  { intros a [-> | ->]; split_and!; try done; chars_tac. }
  assert (Hpair : forall a tail, (a = chars_of "-P" \/ a = chars_of "-N") -> (tail = [] \/ exists t, tail = [t]) ->
    adjacent (chars_of "--comment") (chars_of tag) (trim_quotes <$> (a :: chars_of c :: tail)) = false).
  { intros a tail Ha Ht. destruct (Htwo a Ha) as (_ & _ & Ha'). cbn [fmap list_fmap].
    destruct Ht as [->|[t ->]]; cbn [fmap list_fmap adjacent]; rewrite !(bool_decide_false (trim_quotes _ = chars_of "--comment")) by done; done. }
  destruct H as [(target & Ht & ->)| ->].
  - change (chars_of "-P " ++ chars_of c ++ " "%char :: target) with (chars_of "-P" ++ " "%char :: (chars_of c ++ " "%char :: target)).
    rewrite !split_ascii_cons, split_ascii_word by (done || apply Htwo; auto).
    apply Hpair; [by left|]. destruct target; [by left|right; by eexists].
  - change (chars_of "-N " ++ chars_of c) with (chars_of "-N" ++ " "%char :: chars_of c).
    rewrite split_ascii_cons, split_ascii_word by (done || apply Htwo; auto).
    assert (E : flush_word (chars_of c) [] = [chars_of c]) by (by destruct (chars_of c)). rewrite E. apply (Hpair _ []); [by right|by left].
Qed.

Section Rules.
Context {OS : Os} {GO : GatewayOs} {PF : PacketFilter} {HV : HostView} {GL : GatewayLaws PF HV}.

Definition present (w : World) (r : IptablesRule) : bool := bool_decide (rule_of (spec r) ∈ chain_rules w (location r)).

Lemma present_same w w' r : rules_same w w' -> present w' r = present w r.
Proof. intros H. unfold present. by rewrite H. Qed.

Lemma exists_yields r w : yields (rule_exists r) w (fun w' b => same w w' /\ b = present w r) (same w).
Proof. exact (rule_exists_spec r w). Qed.

Lemma all_present_yields rs w :
  yields (all_present rs) w (fun w' l => same w w' /\ l = present w <$> rs) (same w).
Proof.
  revert w. induction rs as [|r rs IH]; intros w; cbn [all_present]; [by apply yields_ret|].
  eapply yields_bind; [apply exists_yields|]. intros w1 b [H1 ->].
  eapply yields_bind; [eapply yields_mono; [apply IH|intros ? ? H; exact H|]|]; [intros w' H; by etrans|].
  intros w2 l [H2 ->]. apply yields_ret. split; [by etrans|]. cbn. f_equal.
  apply list_fmap_ext. intros i x _. by rewrite (present_same w w1) by apply H1.
Qed.

Lemma rule_status_yields rs w :
  yields (rule_status rs) w (fun w' l => same w w' /\ l = (fun r => (description r, present w r)) <$> rs) (same w).
Proof.
  revert w. induction rs as [|r rs IH]; intros w; cbn [rule_status]; [by apply yields_ret|].
  eapply yields_bind; [apply exists_yields|]. intros w1 b [H1 ->].
  eapply yields_bind; [eapply yields_mono; [apply IH|intros ? ? H; exact H|]|]; [intros w' H; by etrans|].
  intros w2 l [H2 ->]. apply yields_ret. split; [by etrans|]. cbn. f_equal.
  apply list_fmap_ext. intros i x _. by rewrite (present_same w w1) by apply H1.
Qed.

(** The chains of the gateway have plain names. *)
Definition chain_name (c : string) : Prop :=
  no_ws (chars_of c) /\ chars_of c <> [] /\ trim_quotes (chars_of c) <> chars_of "--comment".
Lemma owned_chain_names : Forall (fun l => chain_name l.2) owned_rule_locations.
Proof. repeat (apply Forall_cons_2; [split_and!; [chars_tac|done|done]|]). apply Forall_nil_2. Qed.

Lemma owned_lines tag c (l : list Rule) :
  length (filter (fun line => iptables_line_has_owner line tag = true) (show_rule c <$> l))
  = length (filter (fun r => owned tag c r = true) l).
Proof.
  induction l as [|r l IH]; [done|]. cbn [fmap list_fmap]. unfold owned in *.
  destruct (iptables_line_has_owner (show_rule c r) tag) eqn:E.
  - rewrite !filter_cons_True by done. cbn [length]. by f_equal.
  - by rewrite !filter_cons_False by congruence.
Qed.

Lemma count_in_yields tag locations n w :
  Forall (fun l => chain_name l.2) locations ->
  yields (count_in tag locations n) w
    (fun w' m => same w w' /\ m = (n + owned_total tag w (places locations))%nat) (same w).
Proof.
  intros Hf. revert n w. induction Hf as [|[t c] locations (Hc1 & Hc2 & Hc3) _ IH]; intros n w; cbn [count_in].
  { apply yields_ret. split; [done|]. cbn. lia. }
  eapply yields_bind; [exact (list_spec t c w)|]. intros w1 o (H1 & policy & Hp & Hl & _).
  eapply yields_mono; [apply IH| |intros w' H; by etrans]. intros w2 m [H2 ->]. split; [by etrans|].
  rewrite Hl, filter_cons_False by (by rewrite (header_no_owner c policy tag Hc1 Hc2 Hc3 Hp)).
  cbn [places fmap list_fmap owned_total sum_list_with fst snd]. rewrite (owned_total_same tag w w1) by (intros; apply H1).
  change (sum_list_with (fun loc => length (owned_at tag w loc)) ((fun l => place l.1 l.2) <$> locations)) with (owned_total tag w (places locations)).
  rewrite owned_lines. unfold owned_at at 1. cbn [place snd]. lia.
Qed.

Lemma count_yields p w :
  yields (count_owned_rules p) w
    (fun w' m => same w w' /\ m = owned_total (owner_tag p) w (places owned_rule_locations)) (same w).
Proof. apply count_in_yields, owned_chain_names. Qed.

(** Deletion, as [delete_in_spec] states it. *)
Record deleted (p : GatewayPlan) (w w' : World) : Prop := {
  de_gone : owned_gone (owner_tag p) w w';
  de_other : forall loc, loc ∉ places owned_rule_locations -> chain_rules w' loc = chain_rules w loc;
  de_none : forall loc, loc ∈ places owned_rule_locations -> owned_at (owner_tag p) w' loc = [] }.

Lemma delete_yields p w :
  yields (delete_owned_rules p) w
    (fun w' n => deleted p w w' /\ n = owned_total (owner_tag p) w (places owned_rule_locations))
    (owned_gone (owner_tag p) w).
Proof.
  destruct (delete_in_fuel 129 (owner_tag p) owned_rule_locations 0 w) as ([w' x] & E & _); [lia..|].
  pose proof (E 1%nat) as E1. change (129 + 1)%nat with DELETE_FUEL in E1.
  unfold yields, delete_owned_rules. rewrite E1. cbn [default id].
  apply delete_in_spec in E1 as (Hx & Hg & Ho & Hm); [|apply places_nodup].
  destruct x as [m|e|]; [|done|done]. destruct (Hm m eq_refl) as [-> Hn]. by split.
Qed.
End Rules.

(** ** The changes of [apply] *)

Section Changes.
Context {OS : Os} {GO : GatewayOs} {PF : PacketFilter} {HV : HostView} {GL : GatewayLaws PF HV}.

Lemma on_system_yields {A} (f : M World anyhow A) st Q X :
  yields f (system st) Q X ->
  yields (on_system f) st (fun st' a => Q (system st') a /\ added_rules st' = added_rules st)
    (fun st' => X (system st') /\ added_rules st' = added_rules st).
Proof. unfold yields, on_system. by destruct (f (system st)) as [w [a|e|]]. Qed.

(** Since [st], the rules [k] were appended, none of which was there. *)
Record appended (st st' : Progress) (k : list IptablesRule) : Prop := {
  ap_host : host_same (system st) (system st');
  ap_chains : chains_are (chain_rules (system st)) (system st') (entry <$> k);
  ap_noted : added_rules st' = added_rules st ++ k;
  ap_new : forall r, r ∈ k -> present (system st) r = false }.

Lemma appended_nil st st' : same (system st) (system st') -> added_rules st' = added_rules st -> appended st st' [].
Proof.
  intros [H1 H2] H3. split; [done|intros loc; by rewrite H2, app_nil_r|by rewrite app_nil_r|by intros r ?%not_elem_of_nil].
Qed.

Lemma present_grows base w l r : chains_are base w l -> rule_of (spec r) ∈ base (location r) -> present w r = true.
Proof. intros H Hr. apply bool_decide_eq_true. rewrite H. apply elem_of_app. by left. Qed.

Lemma appended_trans st st1 st2 k1 k2 : appended st st1 k1 -> appended st1 st2 k2 -> appended st st2 (k1 ++ k2).
Proof.
  intros [H1 H2 H3 H4] [J1 J2 J3 J4]. split; [by etrans| |by rewrite J3, H3, app_assoc|].
  - intros loc. by rewrite J2, H2, fmap_app, entries_at_app, app_assoc.
  - intros r [Hr|Hr]%elem_of_app; [auto|]. destruct (present (system st) r) eqn:E; [|done].
    apply bool_decide_eq_true in E. by rewrite <- (J4 r Hr), (present_grows _ _ _ r H2 E).
Qed.

Lemma appended_one st st' r :
  host_same (system st) (system st') -> rule_of (spec r) ∉ chain_rules (system st) (location r) ->
  chain_becomes (system st) (system st') (location r) (chain_rules (system st) (location r) ++ [rule_of (spec r)]) ->
  added_rules st' = added_rules st ++ [r] -> appended st st' [r].
Proof.
  intros H1 H2 H3 H4. split; [done| |done|].
  - apply (chains_are_append _ _ _ [] _ _ (fun loc => eq_sym (app_nil_r _)) H3).
  - intros r' ->%list_elem_of_singleton. by apply bool_decide_eq_false.
Qed.

Lemma add_missing_yields rs st :
  yields (add_missing rs) st
    (fun st' _ => exists k, appended st st' k /\ k `sublist_of` rs /\ forall r, r ∈ rs -> present (system st') r = true)
    (fun st' => exists k, appended st st' k /\ k `sublist_of` rs).
Proof.
  revert st. induction rs as [|r rs IH]; intros st; cbn [add_missing].
  { apply yields_ret. exists []. split_and!; [by apply appended_nil|done|by intros r ?%not_elem_of_nil]. }
  pose (step := added ← on_system (add_if_missing r); if (added : bool) then note_rule r else mret tt).
  assert (Hstep : yields step st
    (fun st' _ => exists k, appended st st' k /\ k `sublist_of` [r] /\ present (system st') r = true)
    (fun st' => appended st st' [])).
  { eapply yields_bind with (Q' := fun st' (b : bool) => added_rules st' = added_rules st /\
        if b then host_same (system st) (system st') /\ (rule_of (spec r) ∉ chain_rules (system st) (location r)) /\
          chain_becomes (system st) (system st') (location r) (chain_rules (system st) (location r) ++ [rule_of (spec r)])
        else same (system st) (system st') /\ rule_of (spec r) ∈ chain_rules (system st) (location r)).
    - pose proof (add_if_missing_spec r (system st)) as H. unfold yields, on_system.
      destruct (add_if_missing r (system st)) as [w [[]|e|]]; cbn; [done|done|by apply appended_nil|done].
    - intros st1 [] [Ha H].
      + unfold yields, note_rule, mmodify. destruct H as (H1 & H2 & H3).
        exists [r]. split_and!; [apply appended_one; cbn; rewrite ?Ha; done|done|].
        apply bool_decide_eq_true. cbn. rewrite (becomes_at _ _ _ _ H3). apply elem_of_app. right. by left.
      + apply yields_ret. destruct H as [H1 H2]. exists []. split_and!; [by apply appended_nil|apply sublist_nil_l|].
        apply bool_decide_eq_true. by rewrite (proj2 H1). }
  assert (E : forall s, (added ← on_system (add_if_missing r); _ ← (if (added : bool) then note_rule r else mret tt); add_missing rs) s
    = (_ ← step; add_missing rs) s).
  { intros s. unfold step, mbind, M_bind. destruct (on_system (add_if_missing r) s) as [s1 [b|e|]]; done. }
  unfold yields. rewrite E. change (yields (_ ← step; add_missing rs) st
    (fun st' _ => exists k, appended st st' k /\ k `sublist_of` r :: rs /\ forall r0, r0 ∈ r :: rs -> present (system st') r0 = true)
    (fun st' => exists k, appended st st' k /\ k `sublist_of` r :: rs)).
  eapply yields_bind; [eapply yields_mono; [exact Hstep|intros ? ? H; exact H|]|].
  { intros st' H. exists []. split; [done|apply sublist_nil_l]. }
  intros st1 u (k1 & A1 & S1 & P1). eapply yields_mono; [apply IH|..].
  - intros st2 v (k2 & A2 & S2 & P2). exists (k1 ++ k2). split_and!; [by eapply appended_trans|by apply (sublist_app k1 [r] k2 rs)|].
    intros r' [->|Hr]%elem_of_cons; [|by apply P2]. apply (present_grows _ _ _ r (ap_chains _ _ _ A2)). by apply bool_decide_eq_true in P1.
  - intros st2 (k2 & A2 & S2). exists (k1 ++ k2). split; [by eapply appended_trans|by apply (sublist_app k1 [r] k2 rs)].
Qed.

(** Files but the switch's are as they were. *)
Record files_kept (w w' : World) : Prop := {
  fk_same : forall q, q <> IP_FORWARD -> file w' q = file w q;
  fk_exists : forall q, is_Some (file w q) -> is_Some (file w' q) }.
#[export] Instance files_kept_preorder : PreOrder files_kept.
Proof. split; [by split|]. intros w1 w2 w3 [H1 H2] [J1 J2]. split; [|auto]. intros q Hq. by rewrite J1, H1. Qed.
Lemma host_kept w w' : host_same w w' -> files_kept w w'.
Proof. intros [_ H]. split; [done|]. intros q. by rewrite H. Qed.

Context (p : GatewayPlan) (Hp : plan_ok p).
Abbreviation tag := (owner_tag p).

(** The gateway is in force: its five rules are the owned rules. *)
Record applied (w w' : World) : Prop := {
  ad_files : files_kept w w';
  ad_forwarding : forwarding w' = "1"%string;
  ad_present : forall r, r ∈ rules p -> present w' r = true;
  ad_owned : forall loc, loc ∈ places owned_rule_locations -> owned_at tag w' loc ≡ₚ entries_at (entry <$> rules p) loc;
  ad_other : forall loc, loc ∉ places owned_rule_locations -> chain_rules w' loc = chain_rules w loc }.

(** The changes stopped: old rules, and the ones noted as added. *)
Record stopped (w : World) (st : Progress) : Prop := {
  st_forwarding : forwarding (system st) = forwarding w;
  st_rules : added_rules st ⊆ rules p;
  st_chains : exists base, (forall loc, base loc `sublist_of` chain_rules w loc) /\
    chains_have base (system st) (entry <$> added_rules st) }.

Lemma entries_owned k loc : k ⊆ rules p -> Forall (fun x => owned tag loc.2 x = true) (entries_at (entry <$> k) loc).
Proof.
  intros Hk. apply Forall_forall. intros x Hx%entries_at_elem. apply list_elem_of_fmap in Hx as (r & E & Hr).
  injection E as -> ->. by destruct (rules_shape p Hp r (Hk r Hr)) as (Ho & _).
Qed.

Lemma present_entry w r : r ∈ rules p -> present w r = true <-> rule_of (spec r) ∈ owned_at tag w (location r).
Proof.
  intros Hr. unfold present, owned_at. rewrite bool_decide_eq_true, list_elem_of_filter.
  split; [|by intros []]. intros H. split; [|done]. by destruct (rules_shape p Hp r Hr).
Qed.

(** All present and five in all: exactly the plan's. *)
Lemma owned_by_count w :
  (forall r, r ∈ rules p -> present w r = true) ->
  owned_total tag w (places owned_rule_locations) = length (rules p) ->
  forall loc, loc ∈ places owned_rule_locations -> owned_at tag w loc ≡ₚ entries_at (entry <$> rules p) loc.
Proof.
  intros Hpr Hsum.
  assert (Hsub : forall loc, entries_at (entry <$> rules p) loc ⊆+ owned_at tag w loc).
  { intros loc. apply NoDup_submseteq.
    - unfold entries_at. apply NoDup_fmap_2_strong; [|by apply NoDup_filter, entries_nodup].
      intros [l1 x] [l2 y] H1 H2 E. apply list_elem_of_filter in H1 as [H1 _], H2 as [H2 _]. cbn in *. congruence.
    - intros x Hx%entries_at_elem. apply list_elem_of_fmap in Hx as (r & E & Hr). injection E as -> ->.
      by apply present_entry, Hpr. }
  assert (Hlen : forall loc, (length (entries_at (entry <$> rules p) loc) <= length (owned_at tag w loc))%nat)
    by (intros; by apply submseteq_length).
  assert (Hfive : owned_total tag w (places owned_rule_locations) =
    sum_list_with (fun loc => length (entries_at (entry <$> rules p) loc)) (places owned_rule_locations)).
  { rewrite Hsum, (po_rules p Hp). reflexivity. }
  intros loc Hloc. symmetry. apply submseteq_length_Permutation; [apply Hsub|].
  pose proof (Hlen (place (Some "mangle") "FORWARD")%string). pose proof (Hlen (place (Some "nat") "POSTROUTING")%string).
  pose proof (Hlen (place None "FORWARD")%string).
  unfold owned_total in Hfive. cbn [places owned_rule_locations fmap list_fmap sum_list_with fst snd] in *.
  repeat (apply elem_of_cons in Hloc as [->|Hloc]; [lia|]). by apply not_elem_of_nil in Hloc.
Qed.

(** All owned rules gone, then the missing ones added: the plan's. *)
Lemma owned_by_adding w st st' k :
  deleted p w (system st) -> appended st st' k -> k `sublist_of` rules p ->
  (forall r, r ∈ rules p -> present (system st') r = true) ->
  forall loc, loc ∈ places owned_rule_locations -> owned_at tag (system st') loc ≡ₚ entries_at (entry <$> rules p) loc.
Proof.
  intros [_ _ Hnone] [_ Hc _ _] Hk Hpr.
  assert (Hsub : k ⊆ rules p) by (by apply sublist_subseteq).
  assert (Hat : forall loc, loc ∈ places owned_rule_locations -> owned_at tag (system st') loc = entries_at (entry <$> k) loc).
  { intros loc Hloc. unfold owned_at. rewrite Hc, filter_app. change (filter _ (chain_rules (system st) loc)) with (owned_at tag (system st) loc).
    rewrite (Hnone loc Hloc). apply filter_all, Forall_forall, entries_owned, Hsub. }
  assert (Hperm : entry <$> rules p ≡ₚ entry <$> k).
  { apply submseteq_length_Permutation.
    - apply NoDup_submseteq; [by apply entries_nodup|]. intros e (r & -> & Hr)%list_elem_of_fmap.
      apply (entries_at_elem _ (location r) (rule_of (spec r))). destruct (rules_shape p Hp r Hr) as (_ & _ & Hl).
      rewrite <- Hat by done. apply present_entry; [done|]. by apply Hpr.
    - rewrite !length_fmap. by apply sublist_length. }
  intros loc Hloc. rewrite Hat by done. unfold entries_at. by rewrite Hperm.
Qed.

Lemma stopped_same w w' : same w w' -> stopped w {| system := w'; added_rules := [] |}.
Proof.
  intros [[H1 _] H2]. split; cbn; [done|set_solver|]. exists (chain_rules w). split; [done|].
  intros loc. by rewrite H2, app_nil_r.
Qed.

Lemma stopped_gone w w' : owned_gone tag w w' -> stopped w {| system := w'; added_rules := [] |}.
Proof.
  intros [[H1 _] _ H2]. split; cbn; [done|set_solver|]. exists (chain_rules w'). split; [done|].
  intros loc. by rewrite app_nil_r.
Qed.

(** Before the rules are added: nothing to do, or all owned rules deleted. *)
Definition cleared (w w' : World) : Prop :=
  (same w w' /\ (forall r, r ∈ rules p -> present w r = true) /\
   owned_total tag w (places owned_rule_locations) = length (rules p)) \/ deleted p w w'.

Lemma same_gone w w' : same w w' -> owned_gone tag w w'.
Proof. intros [H1 H2]. split; [done|..]; intros loc; unfold foreign_at; by rewrite H2. Qed.
Lemma cleared_gone w w' : cleared w w' -> owned_gone tag w w'.
Proof. intros [(H & _)|H]; [by apply same_gone|by apply H]. Qed.

Lemma stopped_after w st st' k :
  cleared w (system st) -> added_rules st = [] -> appended st st' k -> k `sublist_of` rules p -> stopped w st'.
Proof.
  intros Hc Ha [[H1 _] H2 H3 _] Hk. destruct (cleared_gone _ _ Hc) as [[G1 _] _ G2]. split.
  - congruence.
  - rewrite H3, Ha. by apply sublist_subseteq.
  - exists (chain_rules (system st)). split; [exact G2|]. rewrite H3, Ha. intros loc. by rewrite H2.
Qed.

Lemma applied_after w st st' k :
  cleared w (system st) -> appended st st' k -> k `sublist_of` rules p ->
  (forall r, r ∈ rules p -> present (system st') r = true) ->
  (forall w', quiet (system st') w' \/ switched (system st') w' "1" -> forwarding w' = "1"%string ->
     files_kept (system st') w' -> applied w w').
Proof.
  intros Hc Ha Hk Hpr w' Hw Hf Hfk.
  assert (Hr : rules_same (system st') w') by (destruct Hw as [[_ Hw]|[_ Hw _ _]]; done).
  assert (Hpr' : forall r, r ∈ rules p -> present w' r = true) by (intros r Hin; by rewrite (present_same _ _ _ Hr), Hpr).
  pose proof (sublist_subseteq _ _ Hk) as Hsub.
  split; [|done|done|..].
  - etrans; [apply host_kept, (cleared_gone _ _ Hc)|]. etrans; [apply host_kept, Ha|done].
  - intros loc Hloc. unfold owned_at. rewrite Hr. change (filter _ (chain_rules (system st') loc)) with (owned_at tag (system st') loc).
    destruct Hc as [([_ Hs] & Hall & Hn)|Hd].
    + apply owned_by_count; [done| |done].
      assert (k = []) as ->.
      { destruct k as [|r k]; [done|]. exfalso. pose proof (ap_new _ _ _ Ha r ltac:(by left)) as E.
        rewrite (present_same _ _ _ Hs) in E. rewrite Hall in E; [done|]. apply Hsub. by left. }
      rewrite <- Hn. apply owned_total_same. intros l _. by rewrite (ap_chains _ _ _ Ha), Hs, app_nil_r.
    + by apply (owned_by_adding w st st' k).
  - intros loc Hloc. rewrite Hr, (ap_chains _ _ _ Ha).
    assert (entries_at (entry <$> k) loc = []) as ->.
    { destruct (entries_at (entry <$> k) loc) as [|x l] eqn:El; [done|]. exfalso.
      assert (Hx : x ∈ entries_at (entry <$> k) loc) by (rewrite El; by left).
      apply entries_at_elem, list_elem_of_fmap in Hx as (r & E & Hin). injection E as -> ->.
      apply Hloc. by apply (rules_shape p Hp r), Hsub. }
    rewrite app_nil_r. destruct Hc as [([_ Hs] & _)|[_ Ho _]]; [apply Hs|by apply Ho].
Qed.

Lemma deleted_after w w1 w' : same w w1 -> deleted p w1 w' -> deleted p w w'.
Proof.
  intros [H1 H2] [[G1 G2 G3] Ho Hn]. split; [|intros loc Hl; by rewrite Ho, H2|done]. split.
  - by etrans.
  - intros loc. rewrite G2. unfold foreign_at. by rewrite H2.
  - intros loc. by rewrite <- H2.
Qed.

Lemma clear_yields w w1 :
  same w w1 ->
  yields (on_system (_ ← delete_owned_rules p; mret tt)) {| system := w1; added_rules := [] |}
    (fun st _ => cleared w (system st) /\ added_rules st = []) (stopped w).
Proof.
  intros H1.
  assert (H : yields (_ ← delete_owned_rules p; mret tt) w1 (fun w' (_ : unit) => deleted p w w') (owned_gone tag w)).
  { eapply yields_bind; [eapply yields_mono; [apply delete_yields|intros ? ? H; exact H|]|].
    - intros w' H. etrans; [by apply same_gone|exact H].
    - intros w' n [H _]. apply yields_ret. by eapply deleted_after. }
  eapply yields_mono; [apply on_system_yields, H|..]; cbn.
  - intros st u [Hd Ha]. split; [by right|done].
  - intros [w' a] [Hg Ha]. cbn in *. subst a. by apply stopped_gone.
Qed.

Lemma changes_yields w :
  yields (apply_changes p (forwarding w)) {| system := w; added_rules := [] |} (fun st' _ => applied w (system st')) (stopped w).
Proof.
  unfold apply_changes.
  eapply yields_bind; [eapply yields_mono; [apply on_system_yields, (all_present_yields (rules p) w)|intros ? ? H; exact H|]|].
  { intros [w' a] [H1 H2]. cbn in *. subst a. by apply stopped_same. }
  intros [w1 a1] l [[H1 ->] Ha1]. cbn in H1, Ha1. subst a1.
  eapply yields_bind; [eapply yields_mono; [apply on_system_yields, (count_yields p w1)|intros ? ? H; exact H|]|].
  { intros [w' a] [H2 H3]. cbn in *. subst a. apply stopped_same. by etrans. }
  intros [w2 a2] n [[H2 ->] Ha2]. cbn in H2, Ha2. subst a2. pose proof (transitivity H1 H2 : same w w2) as H12.
  assert (Hn : owned_total tag w1 (places owned_rule_locations) = owned_total tag w (places owned_rule_locations))
    by (apply owned_total_same; intros; apply H1). rewrite Hn.
  eapply yields_bind with (Q' := fun st _ => cleared w (system st) /\ added_rules st = []).
  { destruct (forallb id (present w <$> rules p)) eqn:E1; [destruct (Nat.eqb_spec (owned_total tag w (places owned_rule_locations)) (length (rules p)))|];
      cbn [negb orb]; [|by apply clear_yields..].
    apply yields_ret. split; [|done]. left. split_and!; [done| |done]. intros r Hr. rewrite forallb_forall in E1.
    apply (E1 (present w r)), list_elem_of_In. by apply list_elem_of_fmap_2. }
  intros st2 u [Hc Ha].
  eapply yields_bind; [eapply yields_mono; [apply add_missing_yields|intros ? ? H; exact H|]|].
  { intros st' (k & Hk & Hs). by eapply stopped_after. }
  intros st3 u3 (k & Hk & Hs & Hpr). pose proof (applied_after w st2 st3 k Hc Hk Hs Hpr) as Happ.
  assert (Hf : forwarding (system st3) = forwarding w).
  { destruct (cleared_gone _ _ Hc) as [[G _] _ _]. destruct Hk as [[K _] _ _ _]. congruence. }
  case_bool_decide as E.
  - apply yields_ret. apply Happ; [by left|congruence|done].
  - eapply yields_mono; [apply on_system_yields, write_forward_yields; by right|..].
    + intros st4 u4 [Hw _]. apply Happ; [by right|apply Hw|]. destruct Hw as [_ _ W1 W2]. by split.
    + intros st4 [[Q1 Q2] Q3]. destruct (stopped_after _ _ _ _ Hc Ha Hk Hs) as [S1 S2 (base & S3 & S4)]. split.
      * congruence.
      * by rewrite Q3.
      * exists base. split; [done|]. rewrite Q3. by eapply chains_have_same.
Qed.
End Changes.

(** ** Rollback *)

Definition left_rules (report : list Leftover) : list IptablesRule :=
  omap (fun l => match l with LeftRule r => Some r | _ => None end) report.

Section Rollback.
Context {OS : Os} {GO : GatewayOs} {PF : PacketFilter} {HV : HostView} {GL : GatewayLaws PF HV}.
Context (p : GatewayPlan) (Hp : plan_ok p).

Lemma undo_rules_spec base rs w report :
  rs ⊆ rules p -> chains_have base w ((entry <$> left_rules report) ++ (entry <$> rs)) ->
  let '(w', report') := undo_rules rs w report in
  forwarding w' = forwarding w /\ chains_have base w' (entry <$> left_rules report').
Proof.
  revert w report. induction rs as [|r rs IH]; intros w report Hr Hc; cbn [undo_rules].
  { by rewrite app_nil_r in Hc. }
  destruct (rules_shape p Hp r (Hr r ltac:(by left))) as (_ & Hn & _).
  pose proof (delete_once_spec r w Hn) as Hd. unfold attempt.
  assert (Hr' : rs ⊆ rules p) by set_solver.
  destruct (delete_once r w) as [w1 [[]|e|]]; cbn [is_ok]; [| |done].
  - destruct Hd as [[Hf _] Hd]. pose proof (IH w1 report Hr' (chains_have_delete _ _ _ _ _ _ _ Hc Hd)) as H.
    destruct (undo_rules rs w1 report) as [w' report']. destruct H as [H1 H2]. split; [congruence|done].
  - destruct Hd as [[Hf _] Hs]. pose proof (chains_have_same _ _ _ _ Hc Hs) as Hc1.
    assert (Hc2 : chains_have base w1 ((entry <$> left_rules (LeftRule r :: report)) ++ (entry <$> rs))).
    { eapply chains_have_perm; [exact Hc1|]. cbn. solve_Permutation. }
    pose proof (IH w1 _ Hr' Hc2) as H. destruct (undo_rules rs w1 (LeftRule r :: report)) as [w' report'].
    destruct H as [H1 H2]. split; [congruence|done].
Qed.

(** An attempt at a file or the switch. *)
Lemma attempt_spec {E A} l (f : M World E A) base w report :
  (forall r, l <> LeftRule r) ->
  quiet w (f w).1 -> chains_have base w (entry <$> left_rules report) ->
  forwarding (attempt l f w report).1 = forwarding w /\
  chains_have base (attempt l f w report).1 (entry <$> left_rules (attempt l f w report).2).
Proof.
  intros Hl [H1 H2] Hc. unfold attempt. destruct (f w) as [w' r]; cbn in *. split; [done|].
  pose proof (chains_have_same _ _ _ _ Hc H2) as Hc'. destruct (is_ok r); [done|]. by destruct l; [destruct (Hl r0)|..].
Qed.

Lemma remove_quiet path w : quiet w (remove_file path w).1.
Proof.
  pose proof (gl_remove path w) as H. destruct (remove_file path w) as [w' [[]|e|]]; cbn; [by eapply becomes_quiet|by apply same_quiet|done].
Qed.

(** Writing the value it has leaves the switch. *)
Lemma rewrite_quiet w w0 : forwarding w = forwarding w0 -> quiet w (write_ip_forward (forwarding w0) w).1.
Proof.
  intros E. pose proof (write_forward_yields (forwarding w0) w (forward_value w0)) as H. unfold yields in H.
  destruct (write_ip_forward (forwarding w0) w) as [w' [[]|e|]]; cbn; [|done|done].
  destruct H as [H1 H2 _ _]. split; [congruence|done].
Qed.

Lemma rollback_spec s added oc mc before error base w w0 :
  before = forwarding w0 -> forwarding w = forwarding w0 ->
  added ⊆ rules p -> chains_have base w (entry <$> added) ->
  let '(w', r, report) := rollback s added oc mc before error w in
  (exists e, r = Err e) /\ forwarding w' = forwarding w0 /\ chains_have base w' (entry <$> left_rules report).
Proof.
  intros -> Hf Ha Hc. unfold rollback.
  assert (Hc0 : chains_have base w ((entry <$> left_rules []) ++ (entry <$> rev added))).
  { eapply chains_have_perm; [exact Hc|]. cbn. by rewrite <- Permutation_rev. }
  pose proof (undo_rules_spec base (rev added) w [] ltac:(intros r; rewrite <- Permutation_rev; apply Ha) Hc0) as H.
  destruct (undo_rules (rev added) w []) as [w1 report1]. destruct H as [F1 C1].
  assert (H : exists w2 report2, (if mc then attempt LeftMarker (remove_file (marker s)) w1 report1 else (w1, report1)) = (w2, report2) /\
    forwarding w2 = forwarding w1 /\ chains_have base w2 (entry <$> left_rules report2)).
  { destruct mc; [|by eexists _, _].
    destruct (attempt_spec LeftMarker (remove_file (marker s)) base w1 report1 ltac:(done) (remove_quiet _ _) C1).
    by destruct (attempt _ _ _ _) as [w2 report2]; eexists _, _. }
  destruct H as (w2 & report2 & -> & F2 & C2).
  assert (F2' : forwarding w2 = forwarding w0) by congruence.
  destruct oc; [|split_and!; [by eexists|done..]].
  pose proof (markers_yields s w2) as Hm. unfold yields in Hm.
  destruct (has_gateway_markers s w2) as [w3 [[]|e|]]; [| | |done].
  - destruct Hm as [-> _]. split_and!; [by eexists|done..].
  - destruct Hm as [-> _].
    destruct (attempt_spec LeftForwarding (write_ip_forward (forwarding w0)) base w2 report2 ltac:(done) (rewrite_quiet _ _ F2') C2) as [F3 C3].
    destruct (attempt LeftForwarding _ w2 report2) as [w4 report4]. cbn in F3, C3.
    destruct (attempt_spec LeftOriginal (remove_file (original_forwarding s)) base w4 report4 ltac:(done) (remove_quiet _ _) C3) as [F4 C4].
    destruct (attempt LeftOriginal _ w4 report4) as [w5 report5]. cbn in F4, C4.
    split_and!; [by eexists|congruence|done].
  - subst w3. split_and!; [by eexists|done..].
Qed.
End Rollback.

(** ** [apply] *)

Section Apply.
Context {OS : Os} {GO : GatewayOs} {PF : PacketFilter} {HV : HostView} {GL : GatewayLaws PF HV}.
Context (p : GatewayPlan) (Hp : plan_ok p).

Lemma marker_last s : state_of p s -> last (chars_of (marker s)) = Some "e"%char.
Proof.
  intros (ns & _ & ->). unfold paths_in. cbn [marker]. rewrite join_last by done.
  rewrite !chars_of_app. by repeat apply last_app_some.
Qed.
Lemma original_last s : state_of p s -> last (chars_of (original_forwarding s)) = Some "l"%char.
Proof.
  intros (ns & _ & ->). unfold paths_in. cbn [original_forwarding]. rewrite join_last by done.
  rewrite !chars_of_app. by repeat apply last_app_some.
Qed.
Lemma lock_last s : state_of p s -> last (chars_of (lock_path s)) = Some "k"%char.
Proof.
  intros (ns & _ & ->). unfold lock_path, paths_in. cbn [directory namespace_id]. rewrite join_last by done.
  rewrite !chars_of_app. by repeat apply last_app_some.
Qed.

(** What the locked part of [apply] leaves when it succeeds. *)
Record in_force (s : GatewayStatePaths) (w w' : World) : Prop := {
  if_forwarding : forwarding w' = "1"%string;
  if_present : forall r, r ∈ rules p -> present w' r = true;
  if_owned : forall loc, loc ∈ places owned_rule_locations -> owned_at (owner_tag p) w' loc ≡ₚ entries_at (entry <$> rules p) loc;
  if_marker : file w' (marker s) = Some (record_of s p);
  if_original : file w (original_forwarding s) = None -> file w' (original_forwarding s) = Some (forwarding w +:+ LF_text);
  if_files : forall q, q <> marker s -> q <> original_forwarding s -> q <> IP_FORWARD -> file w' q = file w q;
  if_exists : forall q, is_Some (file w q) -> is_Some (file w' q) }.

(** What it leaves when it fails. *)
Definition rolled_back (w w' : World) (report : list Leftover) : Prop :=
  forwarding w' = forwarding w /\ exists base, (forall loc, base loc `sublist_of` chain_rules w loc) /\
    chains_have base w' (entry <$> left_rules report).

Lemma quiet_rolled_back w w' : quiet w w' -> rolled_back w w' [].
Proof.
  intros [H1 H2]. split; [done|]. exists (chain_rules w). split; [done|]. intros loc. by rewrite H2, app_nil_r.
Qed.

Lemma apply_locked_spec s w :
  state_of p s ->
  let '(w', r, report) := apply_locked s p w in
  match r with
  | Ok (Some _) => in_force s w w'
  | Ok None | Panic => False
  | Err _ => rolled_back w w' report
  end.
Proof.
  intros Hs. unfold apply_locked.
  assert (Hme : marker s <> original_forwarding s) by (intros E; pose proof (marker_last s Hs); rewrite E, original_last in *; done).
  assert (Hmf : marker s <> IP_FORWARD) by (intros E; pose proof (marker_last s Hs) as H; rewrite E in H; discriminate H).
  assert (Hof : original_forwarding s <> IP_FORWARD) by (intros E; pose proof (original_last s Hs) as H; rewrite E in H; discriminate H).
  assert (H1 : yields (forwarding_before ← read_ip_forward;
         original_created ← record_original_forwarding s forwarding_before;
         mret (forwarding_before, original_created)) w (fun w' x => x.1 = forwarding w /\ quiet w w' /\
         (file w (original_forwarding s) = None -> file w' (original_forwarding s) = Some (forwarding w +:+ LF_text)) /\
         (forall q, q <> original_forwarding s -> file w' q = file w q) /\ (forall q, is_Some (file w q) -> is_Some (file w' q))) (quiet w)).
  { eapply yields_bind; [eapply yields_mono; [apply read_forward_yields|intros ? ? H; exact H|by intros w' ->]|]. intros w1 v [-> ->].
    eapply yields_bind; [apply write_new_yields|]. intros w2 b Hb. apply yields_ret. cbn. split; [done|]. destruct b.
    - destruct Hb as [Hn Hb]. split_and!; [by eapply becomes_quiet|intros _; apply Hb|apply Hb|].
      intros q Hq. destruct (decide (q = original_forwarding s)) as [->|Hne]; [by rewrite (fb_at _ _ _ _ Hb)|by rewrite (fb_other _ _ _ _ Hb)].
    - destruct Hb as [Hb Hex]. split_and!; [by apply same_quiet|intros Hn; rewrite Hn in Hex; by destruct Hex|..];
        intros q Hq; by destruct Hb as [[_ ->] _]. }
  unfold yields in H1. destruct ((_ ← read_ip_forward; _) w) as [w1 [[before oc]|e|]]; [|by apply quiet_rolled_back|done].
  cbn in H1. destruct H1 as (-> & Q1 & O1 & F1 & E1).
  pose proof (record_gateway_yields s p w1) as H2. unfold yields in H2.
  destruct (record_gateway s p w1) as [w2 [mc|e|]]; [| |done].
  2: { pose proof (quiet_rolled_back _ _ (transitivity Q1 H2)) as [R1 (base & R2 & R3)]. destruct oc; [|by split; [|by exists base]].
    destruct (attempt_spec LeftOriginal (remove_file (original_forwarding s)) base w2 [] ltac:(done) (remove_quiet _ _) R3) as [G1 G2].
    destruct (attempt _ _ _ _) as [w3 report3]. cbn in G1, G2. split; [congruence|by exists base]. }
  pose proof (transitivity Q1 (becomes_quiet _ _ _ _ H2)) as Q2.
  pose proof (changes_yields p Hp w2) as H3. rewrite (proj1 Q2) in H3. unfold yields in H3.
  destruct (apply_changes p (forwarding w) _) as [st [[]|e|]]; [| |done].
  - destruct H3 as [[K1 K2] A2 A3 A4 _]. split; [done|done|exact A4|..].
    + rewrite K1 by done. apply H2.
    + intros Hn. rewrite K1, (fb_other _ _ _ _ H2) by done. by apply O1.
    + intros q Hq1 Hq2 Hq3. by rewrite K1, (fb_other _ _ _ _ H2), F1 by done.
    + intros q Hq. apply K2. destruct (decide (q = marker s)) as [->|Hne]; [by rewrite (fb_at _ _ _ _ H2)|].
      rewrite (fb_other _ _ _ _ H2) by done. by apply E1.
  - destruct H3 as [S1 S2 (base & S3 & S4)].
    pose proof (rollback_spec p Hp s (added_rules st) oc mc (forwarding w) e base (system st) w eq_refl ltac:(rewrite S1; apply Q2) S2 S4) as H.
    destruct (rollback _ _ _ _ _ _ _) as [[w' r] report]. destruct H as ((e' & ->) & R1 & R2). split; [done|]. exists base.
    split; [|done]. intros loc. rewrite <- (proj2 Q2 loc). apply S3.
Qed.

(** [apply] as a whole; [None] is a call that still waits for the lock. *)
Lemma apply_spec fuel w :
  let '(w', r, report) := apply fuel p w in
  match r with
  | Ok (Some _) => exists s w1, state_of p s /\ prepared s w w1 /\ interfaces_ready p w /\
      exists w2, in_force s w1 w2 /\ same w2 w'
  | Ok None => quiet w w' /\ report = []
  | Err _ => rolled_back w w' report
  | Panic => False
  end.
Proof.
  unfold apply. pose proof (prepare_apply_yields fuel p w) as H. unfold yields in H.
  destruct (prepare_apply fuel p w) as [w1 [[s [[]|]]|e|]]; [| |by apply quiet_rolled_back, grow_quiet|done].
  - destruct H as (Hs & Hpr & Hi). cbn in Hs, Hpr. pose proof (apply_locked_spec s w1 Hs) as H.
    destruct (apply_locked s p w1) as [[w2 r] report]. pose proof (gl_unlock (lock_path s) w2) as Hu.
    destruct r as [[u|]|e|]; [|done| |done].
    + exists s, w1. split_and!; [done..|]. by exists w2.
    + destruct H as (H1 & base & H2 & H3). pose proof (grow_quiet _ _ (pr_grow _ _ _ Hpr)) as [G1 G2]. split.
      * destruct Hu as [[-> _] _]. congruence.
      * exists base. split; [intros loc; by rewrite <- G2|]. eapply chains_have_same; [done|apply Hu].
  - destruct H as (_ & H & _). by split; [apply grow_quiet, H|].
Qed.
End Apply.

(** ** Foreign rules *)

Section ForeignRules.
Context {OS : Os} {GO : GatewayOs} {PF : PacketFilter} {HV : HostView} {GL : GatewayLaws PF HV}.
Context (p : GatewayPlan) (Hp : plan_ok p).
#[local] Existing Instance foreign_same_preorder.
Abbreviation kept := (keeps (foreign_same p)).

Definition progress_same (st st' : Progress) : Prop :=
  foreign_same p (system st) (system st') /\ (added_rules st ⊆ rules p -> added_rules st' ⊆ rules p).
#[local] Instance progress_same_preorder : PreOrder progress_same.
Proof. split; [by intros st|]. intros s1 s2 s3 [H1 H2] [J1 J2]. split; [by etrans|auto]. Qed.

Lemma on_system_kept {A} (f : M World anyhow A) : kept f -> keeps progress_same (on_system f).
Proof. intros H st. destruct (H (system st)) as [H1 H2]. unfold on_system. by destruct (f (system st)) as [w []]. Qed.

Lemma kept_all_present rs : kept (all_present rs).
Proof. induction rs; cbn [all_present]; keeps_tac; first [apply kept_exists|done]. Qed.
Lemma kept_rule_status rs : kept (rule_status rs).
Proof. induction rs; cbn [rule_status]; keeps_tac; first [apply kept_exists|done]. Qed.
Lemma kept_count_in tag ls n : kept (count_in tag ls n).
Proof. revert n. induction ls as [|[t c] ls IH]; intros n; cbn [count_in]; keeps_tac; first [apply kept_list|done|apply IH]. Qed.

Lemma add_missing_foreign rs : rs ⊆ rules p -> keeps progress_same (add_missing rs).
Proof.
  induction rs as [|r rs IH]; intros Hr; cbn [add_missing]; keeps_tac.
  - apply on_system_kept, kept_add; [done|set_solver].
  - destruct a; keeps_tac. intros st. split; [|done]. split; [done|]. cbn. set_solver.
  - apply IH. set_solver.
Qed.

Lemma apply_changes_foreign before : keeps progress_same (apply_changes p before).
Proof.
  unfold apply_changes. keeps_tac.
  - apply on_system_kept, kept_all_present.
  - apply on_system_kept, kept_count_in.
  - destruct (_ || _)%bool; keeps_tac. apply on_system_kept. keeps_tac. by apply kept_delete.
  - by apply add_missing_foreign.
  - case_bool_decide; keeps_tac. apply on_system_kept, kept_sysctl.
Qed.

Lemma attempt_foreign {A} l (f : M World anyhow A) w report :
  foreign_same p w (f w).1 -> foreign_same p w (attempt l f w report).1.
Proof. unfold attempt. by destruct (f w). Qed.
Lemma attempt_file {A} l (f : M World Transport.io_error A) w report :
  rules_same w (f w).1 -> foreign_same p w (attempt l f w report).1.
Proof. unfold attempt. destruct (f w). apply rules_foreign. Qed.

Lemma undo_foreign rs w report : rs ⊆ rules p -> foreign_same p w (undo_rules rs w report).1.
Proof.
  revert w report. induction rs as [|r rs IH]; intros w report Hr; cbn [undo_rules]; [done|].
  pose proof (attempt_foreign (LeftRule r) (delete_once r) w report (proj1 (kept_delete_once p Hp r ltac:(set_solver) w))) as H.
  destruct (attempt _ _ _ _) as [w1 report1]. cbn in H. etrans; [exact H|]. apply IH. set_solver.
Qed.

(** Steps on files and questions keep every rule. *)
Lemma kept_asks {A} (f : World -> outcome anyhow A) : (forall w, f w <> Panic) -> kept (asks f).
Proof. intros H w. split; [done|apply H]. Qed.
Lemma yields_kept {A} (m : M World anyhow A) Q X :
  (forall w, yields m w (Q w) (X w)) -> (forall w w' a, Q w w' a -> rules_same w w') -> (forall w w', X w w' -> rules_same w w') ->
  kept m.
Proof.
  intros H HQ HX. apply kept_rules. intros w. specialize (H w). unfold yields in H.
  destruct (m w) as [w' [a|e|]]; [by eapply HQ|by eapply HX|done].
Qed.

Lemma rollback_foreign s added oc mc before error w :
  added ⊆ rules p -> foreign_same p w (rollback s added oc mc before error w).1.1.
Proof.
  intros Ha. unfold rollback.
  pose proof (undo_foreign (rev added) w [] ltac:(intros r; rewrite <- Permutation_rev; apply Ha)) as F1.
  destruct (undo_rules (rev added) w []) as [w1 report1]. cbn in F1.
  assert (F2 : foreign_same p w (if mc then attempt LeftMarker (remove_file (marker s)) w1 report1 else (w1, report1)).1).
  { destruct mc; [|done]. etrans; [exact F1|]. apply attempt_file, (remove_quiet (marker s) w1). }
  destruct (if mc then _ else _) as [w2 report2]. cbn in F2. destruct oc; [|done].
  pose proof (markers_yields s w2) as Hm. unfold yields in Hm.
  destruct (has_gateway_markers s w2) as [w3 [[]|e|]]; [by destruct Hm as [-> _]| |by subst|done]. destruct Hm as [-> _].
  pose proof (attempt_foreign LeftForwarding (write_ip_forward before) w2 report2 (proj1 (kept_sysctl p before w2))) as F3.
  destruct (attempt LeftForwarding _ _ _) as [w4 report4]. cbn in F3.
  pose proof (attempt_file LeftOriginal (remove_file (original_forwarding s)) w4 report4 (proj2 (remove_quiet _ w4))) as F4.
  destruct (attempt LeftOriginal _ _ _) as [w5 report5]. cbn in *. etrans; [exact F2|]. by etrans.
Qed.

Lemma apply_locked_foreign s w : foreign_same p w (apply_locked s p w).1.1.
Proof.
  unfold apply_locked.
  assert (K : kept (forwarding_before ← read_ip_forward;
         original_created ← record_original_forwarding s forwarding_before;
         mret (forwarding_before, original_created))).
  { keeps_tac; [eapply yields_kept; [apply read_forward_yields|by intros ??? [-> _]|by intros ?? ->]|].
    eapply yields_kept; [apply write_new_yields| |by intros ?? []].
    intros w1 w2 []; [by intros [_ []]|by intros [[] _]]. }
  destruct (K w) as [K1 _]. destruct ((_ ← read_ip_forward; _) w) as [w1 [[before oc]|e|]]; [|exact K1|exact K1]. cbn in K1.
  assert (K2 : kept (record_gateway s p)) by (eapply yields_kept; [apply record_gateway_yields|by intros ??? []|by intros ?? []]).
  destruct (K2 w1) as [K3 _]. destruct (record_gateway s p w1) as [w2 [mc|e|]]; cbn in K3.
  - destruct (apply_changes_foreign before {| system := w2; added_rules := [] |}) as [[K4 K5] _]. cbn in K4, K5.
    destruct (apply_changes p before _) as [st [u|e|]]; cbn in *; try (etrans; [exact K1|]; by etrans).
    etrans; [exact K1|]. etrans; [exact K3|]. etrans; [exact K4|]. apply rollback_foreign, K5. set_solver.
  - destruct oc; [|cbn; by etrans].
    pose proof (attempt_file LeftOriginal (remove_file (original_forwarding s)) w2 [] (proj2 (remove_quiet _ w2))) as F.
    destruct (attempt _ _ _ _) as [w3 report3]. cbn in *. etrans; [exact K1|]. by etrans.
  - cbn. by etrans.
Qed.

Lemma kept_remove_file what path : kept (file_op what (remove_file path)).
Proof. eapply yields_kept; [apply remove_file_yields|by intros ??? []|by intros ?? []]. Qed.
Lemma kept_markers s : kept (has_gateway_markers s).
Proof. eapply yields_kept; [apply markers_yields|by intros ??? [-> _]|by intros ?? ->]. Qed.

Lemma kept_restore s : state_of p s -> kept (restore_forwarding s).
Proof.
  intros Hs. assert (Hof : original_forwarding s <> IP_FORWARD).
  { intros E. pose proof (original_last p s Hs) as H. rewrite E in H. discriminate H. }
  unfold restore_forwarding. keeps_tac.
  - apply kept_asks. intros w. pose proof (gl_read (original_forwarding s) w Hof). by destruct (read_file (original_forwarding s) w).
  - destruct (_ || _)%bool; keeps_tac. apply kept_sysctl.
  - apply kept_remove_file.
Qed.

Lemma kept_remove_locked s : state_of p s -> kept (remove_locked s p).
Proof.
  intros Hs. unfold remove_locked. keeps_tac; [by apply kept_delete|..];
    (apply keeps_when; [apply _|]); [apply kept_remove_file|]. keeps_tac; [apply kept_markers|].
  match goal with |- context [if ?b then _ else _] => destruct b end; keeps_tac. by apply kept_restore.
Qed.

Lemma remove_foreign fuel w : foreign_same p w (remove fuel p w).1 /\ (remove fuel p w).2 <> Panic.
Proof.
  unfold remove. pose proof (prepare_remove_yields fuel p w) as H. unfold yields in H.
  destruct (prepare_remove fuel p w) as [w1 [[s [[]|]]|e|]]; [| |by split; [apply rules_foreign, H|]|done].
  - destruct H as [Hs [H _]]. cbn in Hs, H. destruct (kept_remove_locked s Hs w1) as [K1 K2].
    destruct (remove_locked s p w1) as [w2 r]. cbn in *. split; [|by destruct r].
    etrans; [apply rules_foreign, H|]. etrans; [exact K1|]. apply rules_foreign, gl_unlock.
  - destruct H as [_ [H _]]. by split; [apply rules_foreign, H|].
Qed.

Lemma apply_foreign fuel w : foreign_same p w (apply fuel p w).1.1.
Proof.
  unfold apply. pose proof (prepare_apply_yields fuel p w) as H. unfold yields in H.
  destruct (prepare_apply fuel p w) as [w1 [[s [[]|]]|e|]]; [| |apply rules_foreign, H|done].
  - destruct H as (_ & [H _] & _). pose proof (apply_locked_foreign s w1) as K.
    destruct (apply_locked s p w1) as [[w2 r] report]. cbn in *.
    etrans; [apply rules_foreign, H|]. etrans; [exact K|]. apply rules_foreign, gl_unlock.
  - destruct H as (_ & [H _] & _). apply rules_foreign, H.
Qed.
End ForeignRules.

(** ** [remove] after [apply] *)

Lemma ends_with_last k x l : last k = Some x -> ends_with_str k l = true -> last l = Some x.
Proof.
  unfold ends_with_str. intros Hk. destruct (last_Some k x) as [Hl _]. destruct (Hl Hk) as [k' ->].
  rewrite rev_app_distr. cbn [rev app]. destruct (rev l) as [|y r] eqn:E; [done|]. intros [Hy _]%andb_prop.
  apply bool_decide_eq_true in Hy as ->. rewrite <- (rev_involutive l), E. cbn [rev]. by rewrite last_snoc.
Qed.

Lemma marker_name_spec ns name :
  is_marker ns name = true -> starts_with_str ["/"%char] (chars_of name) = false /\ last (chars_of name) = Some "e"%char /\ chars_of name <> [].
Proof.
  unfold is_marker. generalize (chars_of name). intros l [H1 H2]%andb_prop. rewrite chars_of_app in H1.
  destruct l as [|c l]; [done|].
  split_and!; [|by apply (ends_with_last (chars_of ".state"))|done].
  apply andb_prop in H1 as [H1 _]. apply bool_decide_eq_true in H1. by rewrite <- H1.
Qed.

Section Remove.
Context {OS : Os} {GO : GatewayOs} {PF : PacketFilter} {HV : HostView} {GL : GatewayLaws PF HV}.
Context (p : GatewayPlan) (Hp : plan_ok p).

Lemma trim_switch v : switch_value v -> trim (v +:+ LF_text) = v.
Proof. by intros [-> | ->]. Qed.

(** The removal when the record of the first gateway is there and no other
    gateway is. *)
Record removed_clean (s : GatewayStatePaths) (v : string) (w w' : World) : Prop := {
  rc_forwarding : forwarding w' = v;
  rc_none : forall loc, loc ∈ places owned_rule_locations -> owned_at (owner_tag p) w' loc = [];
  rc_other : forall loc, loc ∉ places owned_rule_locations -> chain_rules w' loc = chain_rules w loc;
  rc_marker : file w' (marker s) = None;
  rc_original : file w' (original_forwarding s) = None }.

Lemma remove_locked_clean s v w :
  state_of p s -> switch_value v -> file w (original_forwarding s) = Some (v +:+ LF_text) ->
  (forall name, entry_name name -> is_marker (namespace_id s) name = true -> join (directory s) name <> marker s ->
     file w (join (directory s) name) = None) ->
  yields (remove_locked s p) w
    (fun w' x => x = (owned_total (owner_tag p) w (places owned_rule_locations), Some v) /\ removed_clean s v w w') (fun _ => True).
Proof.
  intros Hs Hv Ho Hn.
  assert (Hme : marker s <> original_forwarding s) by (intros E; pose proof (marker_last p s Hs) as H; rewrite E, (original_last p s Hs) in H; done).
  assert (Hof : original_forwarding s <> IP_FORWARD) by (intros E; pose proof (original_last p s Hs) as H; rewrite E in H; discriminate H).
  assert (Hmf : marker s <> IP_FORWARD) by (intros E; pose proof (marker_last p s Hs) as H; rewrite E in H; discriminate H).
  unfold remove_locked. eapply yields_bind; [eapply yields_mono; [apply delete_yields|intros ? ? H; exact H|done]|].
  intros w1 n [[[[D1 D2] _ _] D3 D4] ->].
  eapply yields_bind with (Q' := fun w2 (_ : unit) => file w2 (marker s) = None /\
    (forall q, q <> marker s -> file w2 q = file w1 q) /\ rules_same w1 w2).
  { unfold yields, when. rewrite gl_exists. case_bool_decide as Hx.
    - pose proof (remove_file_yields ("removing " +:+ marker s) (marker s) w1) as H. unfold yields in H.
      destruct (file_op _ _ w1) as [w2 [[]|e|]]; [|done|done]. by destruct H.
    - split_and!; [|done..]. destruct (file w1 (marker s)) as [c|]; [|done]. by destruct Hx. }
  intros w2 u (M1 & M2 & M3).
  assert (Ho2 : file w2 (original_forwarding s) = Some (v +:+ LF_text)) by (by rewrite M2, D2).
  eapply yields_bind with (Q' := fun w3 r => r = Some v /\ forwarding w3 = v /\ rules_same w2 w3 /\
    file w3 (original_forwarding s) = None /\ file w3 (marker s) = None).
  2: { intros w3 r (-> & F & R & O & M). apply yields_ret. split; [done|]. split; [done| |intros loc Hl|done|done].
    - intros loc Hl. unfold owned_at. rewrite R, M3. by apply D4.
    - rewrite R, M3. by apply D3. }
  assert (E : path_exists (original_forwarding s) w2 = true) by (rewrite gl_exists, Ho2; by apply bool_decide_eq_true_2).
  unfold yields, when. rewrite E.
  change (yields (others ← has_gateway_markers s; if (others : bool) then mret None else restore_forwarding s) w2
    (fun w3 r => r = Some v /\ forwarding w3 = v /\ rules_same w2 w3 /\
    file w3 (original_forwarding s) = None /\ file w3 (marker s) = None) (fun _ => True)).
  eapply yields_bind; [eapply yields_mono; [apply markers_yields|intros ? ? H; exact H|done]|]. intros w2' b [-> Hb].
  destruct b.
  { exfalso. destruct (Hb eq_refl) as (name & He & Hm & [c Hc]).
    destruct (decide (join (directory s) name = marker s)) as [Ej|Ej]; [by rewrite Ej, M1 in Hc|].
    rewrite M2, D2, Hn in Hc; done. }
  unfold restore_forwarding. eapply yields_bind with (Q' := fun w' c => w' = w2 /\ c = (v +:+ LF_text)%string).
  { apply yields_asks. pose proof (gl_read (original_forwarding s) w2 Hof) as H.
    destruct (read_file (original_forwarding s) w2) as [c|e|]; [|done|done]. cbn. split; [done|]. rewrite Ho2 in H. by injection H as <-. }
  intros w2' c [-> ->]. rewrite (trim_switch v Hv).
  assert (Eb : bool_decide (v = "0"%string) || bool_decide (v = "1"%string) = true) by (by destruct Hv as [-> | ->]). rewrite Eb.
  eapply yields_bind with (Q' := fun w3 r => r = Some v /\ switched w2 w3 v).
  { eapply yields_bind; [eapply yields_mono; [by apply write_forward_yields|intros ? ? H; exact H|done]|].
    intros w3 u3 Hw. by apply yields_ret. }
  intros w3 r [-> [W1 W2 W3 _]].
  eapply yields_bind; [eapply yields_mono; [apply remove_file_yields|intros ? ? H; exact H|done]|].
  intros w4 u4 [G1 G2 G3 G4]. apply yields_ret. split_and!; [done|congruence|by etrans|done|].
  by rewrite G2, W3.
Qed.
End Remove.

Lemma applied_total {OS : Os} {PF : PacketFilter} p w :
  plan_ok p ->
  (forall loc, loc ∈ places owned_rule_locations -> owned_at (owner_tag p) w loc ≡ₚ entries_at (entry <$> rules p) loc) ->
  owned_total (owner_tag p) w (places owned_rule_locations) = length (rules p).
Proof.
  intros Hp H.
  assert (E : owned_total (owner_tag p) w (places owned_rule_locations) =
    sum_list_with (fun loc => length (entries_at (entry <$> rules p) loc)) (places owned_rule_locations)).
  { unfold owned_total. revert H. generalize (places owned_rule_locations). intros ls.
    induction ls as [|l ls IH]; intros H; [done|]. cbn. rewrite H by (by left). f_equal. apply IH. intros. apply H. by right. }
  rewrite E, (po_rules p Hp). reflexivity.
Qed.

(** ** Properties *)

Section Properties.
Context {IN : IpNet} {B64 : Base64}.
Context {OS : Os} {GO : GatewayOs} {PF : PacketFilter} {HV : HostView} {GL : GatewayLaws PF HV}.

Lemma plan_of c p : validate c = Ok tt -> from_config c = Ok p -> plan_ok p.
Proof.
  intros Hv E. apply validate_spec in Hv. pose proof (from_config_cases c Hv) as H.
  destruct (gateway c) as [g|]; [|congruence]. destruct H as (p' & E' & H & _). congruence.
Qed.

(** C35: no command of the gateway ever touches a rule of another owner: for
    the plan of an accepted configuration, whatever fails on the way, every
    chain has after [apply] and after [remove] the same rules without the
    owner's tag, in the same order, as before; and neither panics. *)
Theorem foreign_rules_kept c p fuel w loc :
  validate c = Ok tt -> from_config c = Ok p ->
  foreign_at (owner_tag p) (apply fuel p w).1.1 loc = foreign_at (owner_tag p) w loc /\
  foreign_at (owner_tag p) (remove fuel p w).1 loc = foreign_at (owner_tag p) w loc /\
  (apply fuel p w).1.2 <> Panic /\ (remove fuel p w).2 <> Panic.
Proof.
  intros Hv E. pose proof (plan_of c p Hv E) as Hp. pose proof (apply_spec p Hp fuel w) as Ha.
  split_and!; [by apply apply_foreign|by apply remove_foreign| |by apply remove_foreign].
  by destruct (apply fuel p w) as [[w' [[]| |]] report].
Qed.

(** C34: a gateway that was applied is healthy: when [apply] succeeds, the
    rules with the owner's tag are exactly the plan's five, each once, and
    whenever [status] then gives an answer it reports a healthy gateway - the
    interfaces, the MTU, forwarding, the state record and every rule. *)
Theorem applied_gateway_healthy c p fuel w w1 report :
  validate c = Ok tt -> from_config c = Ok p ->
  apply fuel p w = (w1, Ok (Some tt), report) ->
  (forall loc, loc ∈ places owned_rule_locations -> owned_at (owner_tag p) w1 loc ≡ₚ entries_at (entry <$> rules p) loc) /\
  forall w2 st, status p w1 = (w2, Ok st) -> healthy st = true.
Proof.
  intros Hv Ec E. pose proof (plan_of c p Hv Ec) as Hp. pose proof (apply_spec p Hp fuel w) as H. rewrite E in H.
  destruct H as (s & wa & Hs & [Hgrow _] & (Hl & Ht & cm & Hcm & Hmtu) & wb & [F1 F2 F3 F4 _ F5 F6] & [[U1 U2] U3]).
  assert (Hown : forall loc, loc ∈ places owned_rule_locations -> owned_at (owner_tag p) w1 loc ≡ₚ entries_at (entry <$> rules p) loc)
    by (intros loc Hloc; unfold owned_at; rewrite U3; by apply F3).
  split; [exact Hown|]. intros w2 st Est.
  assert (Hex : forall q, is_Some (file w q) -> path_exists q w1 = true).
  { intros q [x Hq]. rewrite gl_exists. apply bool_decide_eq_true_2. rewrite U2. apply F6. exists x. by apply (fg_files _ _ Hgrow). }
  assert (Hm : file w1 (mtu_path (tunnel p)) = Some cm).
  { pose proof (mtu_path_last (tunnel p)) as Hlast. rewrite U2, F5; [by apply (fg_files _ _ Hgrow)|..]; intros Eq; rewrite Eq in Hlast.
    - by rewrite (marker_last p s Hs) in Hlast.
    - by rewrite (original_last p s Hs) in Hlast.
    - discriminate Hlast. }
  assert (Hy : yields (status p) w1 (fun _ st => healthy st = true) (fun _ => True)); [|by apply (yields_result _ _ _ _ _ _ Hy Est)].
  unfold status. eapply yields_bind with (Q' := fun w' (_ : unit) => w' = w1).
  { unfold ensure_linux. by destruct target_linux. }
  intros ? u ->. eapply yields_bind; [eapply yields_mono; [apply read_forward_yields|intros ? ? H; exact H|done]|]. intros ? v [-> ->].
  eapply yields_bind with (Q' := fun w' b => w' = w1 /\ b = true); [apply yields_asks; split; [done|by apply Hex]|]. intros ? b1 [-> ->].
  eapply yields_bind with (Q' := fun w' b => w' = w1 /\ b = true); [apply yields_asks; split; [done|by apply Hex]|]. intros ? b2 [-> ->].
  eapply yields_bind with (Q' := fun w' m => w' = w1 /\ m = Some (tunnel_mtu p)).
  { eapply yields_bind; [eapply yields_mono; [apply read_mtu_yields|intros ? ? H; exact H|done]|].
    intros ? m [-> (cm' & Hcm' & Hm')]. apply yields_ret. split; [done|]. rewrite Hm in Hcm'. injection Hcm' as <-. congruence. }
  intros ? m [-> ->]. eapply yields_bind; [eapply yields_mono; [apply paths_yields|intros ? ? H; exact H|done]|].
  intros ? s' [-> Hs']. rewrite (state_of_unique p s' s w1 Hs' Hs). clear s' Hs'.
  eapply yields_bind; [eapply yields_mono; [apply rule_status_yields|intros ? ? H; exact H|done]|]. intros w2' l [H2 ->].
  eapply yields_bind; [eapply yields_mono; [apply count_yields|intros ? ? H; exact H|done]|]. intros w3 n [H3 ->].
  eapply yields_bind with (Q' := fun _ b => b = true).
  { apply yields_asks. rewrite gl_exists. apply bool_decide_eq_true_2. destruct H2 as [[_ H2] _], H3 as [[_ H3] _].
    rewrite H3, H2, U2, F4. by eexists. }
  intros w4 b3 ->. apply yields_ret. unfold healthy.
  cbn [forwarding_enabled lan_interface_exists tunnel_interface_exists actual_mtu expected_tunnel_mtu state_recorded
    owned_rule_count expected_rule_count rule_states]. rewrite U1, F1.
  rewrite bool_decide_eq_true_2 by done.
  rewrite (bool_decide_eq_true_2 (Some _ = Some _)) by done. cbn [andb]. apply andb_true_intro. split.
  - apply Nat.eqb_eq. rewrite (owned_total_same _ w1 w2') by (intros; apply H2). by apply applied_total.
  - rewrite forallb_forall. intros x Hx. apply list_elem_of_In, list_elem_of_fmap in Hx as (r & -> & Hr). cbn.
    rewrite (present_same wb w1) by done. by apply F2.
Qed.

(** C36: applying the first gateway of a network namespace and removing it
    again restores the host: forwarding has its old value, no rule with the
    owner's tag remains, every other chain is unchanged, and the state
    directory has no record of the gateway. *)
Theorem apply_remove_round_trip c p ns fuel fuel' w w1 w2 report n restored :
  let s := paths_in state_directory ns p in
  validate c = Ok tt -> from_config c = Ok p -> here ns ->
  file w (original_forwarding s) = None ->
  (forall name, entry_name name -> is_marker ns name = true -> file w (join state_directory name) = None) ->
  apply fuel p w = (w1, Ok (Some tt), report) ->
  remove fuel' p w1 = (w2, Ok (Some (n, restored))) ->
  n = 5%nat /\ restored = Some (forwarding w) /\ forwarding w2 = forwarding w /\
  (forall loc, loc ∈ places owned_rule_locations -> owned_at (owner_tag p) w2 loc = []) /\
  (forall loc, foreign_at (owner_tag p) w2 loc = foreign_at (owner_tag p) w loc) /\
  file w2 (marker s) = None /\ file w2 (original_forwarding s) = None.
Proof.
  intros s Hv Ec Hns Ho Hn Ea Er. pose proof (plan_of c p Hv Ec) as Hp.
  pose proof (apply_spec p Hp fuel w) as H. rewrite Ea in H.
  destruct H as (s' & wa & Hs & [Hgrow Hpo] & _ & wb & [F1 F2 F3 F4 F5 F6 F7] & [[U1 U2] U3]).
  assert (s' = s) as -> by (apply (state_of_unique p _ _ w Hs); by exists ns).
  pose proof (apply_foreign p Hp fuel w) as Fa. rewrite Ea in Fa.
  destruct (remove_foreign p fuel' w1) as [Fr _]. rewrite Er in Fr. cbn [fst] in Fa, Fr.
  assert (Hlo : original_forwarding s <> lock_path s) by (intros E; pose proof (original_last p s Hs) as H; rewrite E, (lock_last p s Hs) in H; done).
  assert (Hoa : file wa (original_forwarding s) = None).
  { rewrite Hpo; [done|done|]. apply join_below; [done|]. rewrite !chars_of_app. done. }
  unfold remove in Er. pose proof (prepare_remove_yields fuel' p w1) as H. unfold yields in H.
  destruct (prepare_remove fuel' p w1) as [wc [[s' [[]|]]|e|]]; [|done..].
  destruct H as [Hs' [Hgrow' Hpo']]. cbn in Hs', Hgrow', Hpo'. rewrite (state_of_unique p s' s w Hs' Hs) in *. clear s' Hs'.
  assert (Hoc : file wc (original_forwarding s) = Some (forwarding w +:+ LF_text)).
  { apply (fg_files _ _ Hgrow'). rewrite U2, F5 by done. by rewrite (fg_forwarding _ _ Hgrow). }
  assert (Hnc : forall name, entry_name name -> is_marker ns name = true -> join state_directory name <> marker s ->
    file wc (join state_directory name) = None).
  { intros name He Hm Hne. destruct (marker_name_spec _ _ Hm) as (Hslash & Hlast & Hnil).
    pose proof (join_last state_directory name Hslash Hnil) as Hj. rewrite Hlast in Hj.
    assert (Hlk : join state_directory name <> lock_path s) by (intros E; by rewrite E, (lock_last p s Hs) in Hj).
    assert (Hor : join state_directory name <> original_forwarding s) by (intros E; by rewrite E, (original_last p s Hs) in Hj).
    assert (Hif : join state_directory name <> IP_FORWARD) by (intros E; rewrite E in Hj; discriminate Hj).
    pose proof (join_below state_directory name Hslash Hnil) as Hb.
    rewrite Hpo', U2, F6, Hpo by done. by apply Hn. }
  pose proof (remove_locked_clean p s (forwarding w) wc Hs (forward_value w) Hoc Hnc) as H. unfold yields in H.
  destruct (remove_locked s p wc) as [wd [x|e|]]; [|done..]. destruct H as [-> [R1 R2 R3 R4 R5]].
  assert (Hfive : owned_total (owner_tag p) wc (places owned_rule_locations) = 5%nat).
  { rewrite (owned_total_same _ wb wc) by (intros loc _; by rewrite (fg_rules _ _ Hgrow'), U3).
    by rewrite (applied_total p wb Hp F3), (po_rules p Hp). }
  rewrite Hfive in Er. injection Er as <- <- <-. pose proof (gl_unlock (lock_path s) wd) as [[L1 L2] L3].
  split_and!; [done|done|congruence| | |by rewrite L2|by rewrite L2].
  - intros loc Hloc. unfold owned_at. rewrite L3. by apply R2.
  - intros loc. by rewrite (Fr loc), (Fa loc).
Qed.

(** C37: a failed apply is rolled back: forwarding keeps its value and every
    chain holds only rules it had before, apart from rules whose deletion the
    rollback reports as failed; a call that waits for the lock changes
    neither. *)
Theorem failed_apply_rolled_back c p fuel w w1 r report :
  validate c = Ok tt -> from_config c = Ok p -> apply fuel p w = (w1, r, report) -> r <> Ok (Some tt) ->
  forwarding w1 = forwarding w /\
  forall loc, chain_rules w1 loc ⊆+ chain_rules w loc ++ entries_at (entry <$> left_rules report) loc.
Proof.
  intros Hv Ec E Hr. pose proof (apply_spec p (plan_of c p Hv Ec) fuel w) as H. rewrite E in H.
  assert (Hq : rolled_back w w1 report).
  { destruct r as [[[]|]|e|]; [done| |done|done]. destruct H as [H ->]. by apply quiet_rolled_back. }
  destruct Hq as (H1 & base & H2 & H3). split; [done|]. intros loc. rewrite H3.
  apply submseteq_app; [apply sublist_submseteq, H2|done].
Qed.
End Properties.

(** ** A gateway on the example host *)

Definition ref_names (d : string) (h : host) : list (outcome Transport.io_error string) :=
  Ok <$> filter (fun n => ("/"%char ∉ chars_of n) /\ is_Some (files h !! join d n))
           ((fun k => of_chars (drop (S (length (chars_of d))) (chars_of k.1))) <$> map_to_list (files h)).

Definition ref_create (p : string) (h : host) : host :=
  match files h !! p with None => set_files (<[p := ""%string]> (files h)) h | Some _ => h end.

Definition ref_gateway : GatewayOs (OS := ref_os) := @Build_GatewayOs ref_os true 0 (fun _ => None)
  (fun p (h : host) => bool_decide (is_Some (files h !! p)))
  (fun d h => (ref_create d h, Ok tt))
  (fun _ _ h => (h, Ok tt))
  (fun p (h : host) => match files h !! p with
     | None => (set_files (<[p := ""%string]> (files h)) h, Ok tt)
     | Some _ => (h, Err (IoError AlreadyExists "exists")) end)
  (fun p c (h : host) => (set_files (<[p := c]> (files h)) h, Ok tt))
  (fun p c (h : host) => (set_files (<[p := c]> (files h)) h, Ok tt))
  (fun p (h : host) => match files h !! p with
     | None => (h, Err (IoError NotFound "no such file"))
     | Some _ => (set_files (delete p (files h)) h, Ok tt) end)
  (fun p h => (ref_create p h, Ok tt))
  (fun _ _ _ => Ok tt)
  (fun _ h => h)
  (fun d h => Ok (ref_names d h))
  (fun _ _ => Ok "net:[4026531840]"%string).

Section RefGateway.
#[local] Existing Instances ref_os ref_filter ref_view ref_gateway ref_sysctl_laws.

Lemma set_files_becomes (h : host) p c : file_becomes (h : World) (set_files (<[p := c]> (files h)) h) p (Some c).
Proof. split; cbn; [by rewrite lookup_insert_eq|intros q Hq; by rewrite lookup_insert_ne|done|done]. Qed.

Lemma ref_create_grows p (h : host) :
  files_grow (h : World) (ref_create p h) /\ forall q, q <> p -> file (ref_create p h : World) q = file (h : World) q.
Proof.
  unfold ref_create. destruct (files h !! p) as [c|] eqn:E; [done|]. split; [split; [|done..]|]; cbn.
  - intros q c Hq. by rewrite lookup_insert_ne by congruence.
  - intros q Hq. by rewrite lookup_insert_ne.
Qed.

Lemma starts_with_refl l : starts_with_str l l = true.
Proof. induction l as [|c l IH]; [done|]. cbn. by rewrite bool_decide_eq_true_2. Qed.

Lemma spaced_app l k : spaced (l ++ k) = spaced l ++ spaced k.
Proof. unfold spaced. by rewrite fmap_app, concat_app. Qed.

Lemma plain_no_ws tag : plain tag -> no_ws (chars_of tag).
Proof.
  unfold plain, plain_char. rewrite forallb_forall. intros [H _]. apply Forall_forall. intros c Hc%list_elem_of_In.
  specialize (H c Hc). zbool. lia.
Qed.

Lemma skip_quotes_plain l : forallb plain_char l = true -> skip_quotes l = l.
Proof. destruct l as [|c l]; [done|]. intros [[_ H]%andb_prop _]%andb_prop. cbn. by rewrite (proj1 (negb_true_iff _) H). Qed.

Lemma trim_quotes_plain l : forallb plain_char l = true -> trim_quotes l = l.
Proof.
  intros H. unfold trim_quotes. rewrite (skip_quotes_plain l H), skip_quotes_plain; [apply rev_involutive|].
  rewrite forallb_forall in *. intros c Hc. apply H. by apply in_rev.
Qed.

Lemma adjacent_cons a b x y l :
  adjacent a b (x :: y :: l) = (bool_decide (x = a) && bool_decide (y = b)) || adjacent a b (y :: l).
Proof. done. Qed.

Lemma adjacent_middle a b l k : adjacent a b (l ++ a :: b :: k) = true.
Proof.
  induction l as [|x l IH]; [cbn [app]; by rewrite adjacent_cons, !bool_decide_eq_true_2|].
  destruct l as [|y l]; cbn [app] in *; rewrite adjacent_cons, IH; apply orb_true_r.
Qed.

Lemma ref_comment c s1 tag s2 : plain tag ->
  iptables_line_has_owner (ref_show c (s1 ++ comment tag ++ s2)) tag = true.
Proof.
  intros Ht. unfold iptables_line_has_owner.
  assert (E : ref_show c (s1 ++ comment tag ++ s2) =
    (chars_of "-A " ++ chars_of c ++ spaced s1 ++ chars_of " -m comment") ++ " "%char :: chars_of "--comment" ++ " "%char :: chars_of tag ++ spaced s2).
  { unfold ref_show. rewrite !spaced_app. unfold comment. cbn [spaced fmap list_fmap concat]. rewrite <- !app_assoc. done. }
  rewrite E, split_ascii_app, split_ascii_cons by (done || chars_tac). rewrite fmap_app. cbn [fmap list_fmap].
  assert (E2 : exists k, split_ascii_whitespace (chars_of tag ++ spaced s2) = chars_of tag :: k).
  { pose proof (proj2 Ht) as Hne. pose proof (plain_no_ws tag Ht) as Hw. destruct s2 as [|x s2].
    - exists []. cbn. rewrite app_nil_r, split_ascii_word by done. by destruct (chars_of tag).
    - eexists. cbn [spaced fmap list_fmap concat app]. by rewrite split_ascii_cons. }
  destruct E2 as [k ->]. cbn [fmap list_fmap]. rewrite (trim_quotes_plain (chars_of tag)) by apply Ht.
  change (trim_quotes (chars_of "--comment")) with (chars_of "--comment"). apply adjacent_middle.
Qed.

Lemma ref_gateway_laws : GatewayLaws ref_filter ref_view.
Proof.
  split.
  - intros w. apply ref_laws; [|by right]. unfold iptables_program. cbn. by case_bool_decide.
  - intros w. unfold runs. cbn. unfold iptables_program. cbn. by case_bool_decide.
  - intros c s1 tag s2 Ht. by apply ref_comment.
  - intros a b s a' b' s' [= -> -> _]. done.
  - exact ref_sysctl_laws.
  - done.
  - intros p w Hp. cbn. rewrite bool_decide_false by done. by destruct (files w !! p).
  - intros d w. cbn. destruct (ref_create_grows d w) as [H1 H2]. split; [done|]. intros q Hq. apply H2.
    intros ->. by rewrite starts_with_refl in Hq.
  - done.
  - intros p w. cbn. destruct (files w !! p) as [c|] eqn:E; cbn; [by split|]. split; [done|]. apply set_files_becomes.
  - intros p c w _. apply set_files_becomes.
  - intros p c w. apply set_files_becomes.
  - intros p w. cbn. destruct (files w !! p) as [c|] eqn:E; [|done].
    split; cbn; [by rewrite lookup_delete_eq|intros q Hq; by rewrite lookup_delete_ne|done|done].
  - intros p w. apply ref_create_grows.
  - done.
  - done.
  - intros d w. cbn. unfold ref_names. split.
    + intros (n & E & _)%list_elem_of_fmap. done.
    + intros n (m & [= ->] & [Hm _]%list_elem_of_filter)%list_elem_of_fmap. exact Hm.
  - done.
  - done.
Qed.
End RefGateway.

(** ** Witnesses *)

#[local] Existing Instances ref_os ref_filter ref_view ref_gateway ref_gateway_laws ref_ipnet.
#[local] Instance wit_base64 : Base64 := {| b64_decode _ := Some (replicate 32 0) |}.

Definition wit_config (tcp_mss : option u16) : Config := {|
  interface := @Build_InterfaceConfig ref_ipnet "utun10" (167772161, 24) (SA4 0 0) Udp 1280 "k";
  gateway := Some {| lan_interface := " eth0 "; tcp_mss := tcp_mss |};
  peer := [] |}.
Definition wit_plan : GatewayPlan := {|
  lan := "eth0"; tunnel := "utun10"; tunnel_mtu := 1280; mss := 1240; mss_is_explicit := false;
  owner_tag := "hushwire-gateway:utun10"; rules := gateway_rules "eth0" "utun10" "hushwire-gateway:utun10" 1240 |}.

(** A host with both interfaces, a rule of its own in [FORWARD] and a stale
    rule of the gateway. *)
Definition stale_rule : list string :=
  ["-o"; "utun10"; "-m"; "comment"; "--comment"; "hushwire-gateway:utun10"; "-j"; "DROP"]%string.
Definition wit_world (refused : string) : World :=
  set_chain ("filter", "FORWARD")%string [stale_rule; ["-i"; "docker0"; "-j"; "ACCEPT"]%string]
    {| chains := ∅; forwards := false; refuses := refused;
       files := <["/sys/class/net/eth0" := ""]> (<["/sys/class/net/utun10" := ""]>
                  (<["/sys/class/net/utun10/mtu" := "1280" +:+ of_chars [LF]]> ∅)) |}%string.

Definition wit_apply (refused : string) := apply 1 wit_plan (wit_world refused).
Definition wit_applied : World := (wit_apply "").1.1.
Definition wit_remove := remove 1 wit_plan wit_applied.

Lemma wit_valid m : m = None \/ m = Some 1240 -> validate (wit_config m) = Ok tt.
Proof. intros [-> | ->]; vm_compute; reflexivity. Qed.
Lemma wit_from_config : from_config (wit_config None) = Ok wit_plan.
Proof. vm_compute. reflexivity. Qed.

(** Applied: the stale rule is gone and the plan's two are behind the host's
    own; removed: as before, without the stale rule. *)
Example gateway_applied_and_removed :
  length (chain_at wit_applied ("filter", "FORWARD")%string) = 3%nat /\
  head (chain_at wit_applied ("filter", "FORWARD")%string) = Some ["-i"; "docker0"; "-j"; "ACCEPT"]%string /\
  forwards wit_applied = true /\
  wit_remove.2 = Ok (Some (5%nat, Some "0"%string)) /\
  chain_at wit_remove.1 ("filter", "FORWARD")%string = [["-i"; "docker0"; "-j"; "ACCEPT"]%string] /\
  forwards wit_remove.1 = false.
Proof. split_and!; vm_compute; reflexivity. Qed.

(** A host that refuses conntrack rules: the four rules added before are
    deleted again, and the stale rule is gone all the same. *)
Example failed_apply_drops_old_rules :
  is_ok (wit_apply "conntrack").1.2 = false /\ (wit_apply "conntrack").2 = [] /\
  chain_at (wit_world "conntrack") ("filter", "FORWARD")%string = [stale_rule; ["-i"; "docker0"; "-j"; "ACCEPT"]%string] /\
  chain_at (wit_apply "conntrack").1.1 ("filter", "FORWARD")%string = [["-i"; "docker0"; "-j"; "ACCEPT"]%string].
Proof. split_and!; vm_compute; reflexivity. Qed.

Lemma wit_apply_ok : apply 1 wit_plan (wit_world "") = (wit_applied, Ok (Some tt), []).
Proof. vm_compute. reflexivity. Qed.

Lemma gateway_plan_total_witness :
  exists p, from_config (wit_config (Some 1240)) = Ok p /\ mss p = 1240.
Proof.
  destruct (gateway_plan_total (wit_config (Some 1240)) (wit_valid _ ltac:(by right))) as (p & H1 & H2 & _).
  exists p. split; [exact H1|exact H2].
Defined.

Lemma delete_owned_terminates_witness :
  delete_in 200 "hushwire-gateway:utun10" owned_rule_locations 0 (wit_world "") = Some (delete_owned_rules wit_plan (wit_world "")).
Proof. apply (delete_owned_terminates wit_plan (wit_world "") 200). lia. Defined.

Lemma foreign_rules_kept_witness :
  foreign_at "hushwire-gateway:utun10" (apply 1 wit_plan (wit_world "conntrack")).1.1 ("filter", "FORWARD")%string
  = [["-i"; "docker0"; "-j"; "ACCEPT"]%string].
Proof.
  destruct (foreign_rules_kept (wit_config None) wit_plan 1 (wit_world "conntrack") ("filter", "FORWARD")%string
    (wit_valid _ ltac:(by left)) wit_from_config) as (H & _).
  etrans; [exact H|]. vm_compute. reflexivity.
Defined.

Definition wit_status : GatewayStatus :=
  match (status wit_plan wit_applied).2 with Ok s => s | _ => Build_GatewayStatus false false false None 0 false 0 0 [] end.
Lemma applied_gateway_healthy_witness : healthy wit_status = true.
Proof.
  destruct (applied_gateway_healthy (wit_config None) wit_plan 1 (wit_world "") wit_applied []
    (wit_valid _ ltac:(by left)) wit_from_config wit_apply_ok) as (_ & H).
  apply (H (status wit_plan wit_applied).1). vm_compute. reflexivity.
Defined.

Definition wit_namespace : string := "4026531840".
Lemma wit_here : here wit_namespace.
Proof. intros w. exists "net:[4026531840]"%string. split; [reflexivity|]. vm_compute. reflexivity. Qed.

Lemma wit_no_marker name :
  entry_name name -> is_marker wit_namespace name = true -> file (wit_world "") (join state_directory name) = None.
Proof.
  intros _ Hm. destruct (marker_name_spec _ _ Hm) as (Hs & _ & _).
  destruct (join_spec state_directory) as (pre & Hp & _).
  assert (Hpre : chars_of (join state_directory name) = chars_of "/run/hushwire/" ++ chars_of name).
  { rewrite (Hp name Hs). f_equal. apply (app_inv_tail (chars_of "x")). rewrite <- (Hp "x"%string) by done. reflexivity. }
  assert (Hne : forall q, starts_with_str (chars_of "/run") (chars_of q) = false -> join state_directory name <> q).
  { intros q Hq <-. rewrite Hpre in Hq. discriminate Hq. }
  cbn [file ref_view]. unfold wit_world. cbn [files set_chain].
  rewrite !lookup_insert_ne by (apply not_eq_sym, Hne; reflexivity). apply lookup_empty.
Qed.

Lemma apply_remove_round_trip_witness :
  forwarding wit_remove.1 = forwarding (wit_world "").
Proof.
  destruct (apply_remove_round_trip (wit_config None) wit_plan wit_namespace 1 1 (wit_world "") wit_applied wit_remove.1 [] 5 (Some "0"%string)
    (wit_valid _ ltac:(by left)) wit_from_config wit_here eq_refl wit_no_marker wit_apply_ok ltac:(vm_compute; reflexivity)) as (_ & _ & H & _).
  exact H.
Defined.

Lemma failed_apply_rolled_back_witness :
  forwarding (wit_apply "conntrack").1.1 = forwarding (wit_world "conntrack").
Proof.
  destruct (failed_apply_rolled_back (wit_config None) wit_plan 1 (wit_world "conntrack") (wit_apply "conntrack").1.1
    (wit_apply "conntrack").1.2 [] (wit_valid _ ltac:(by left)) wit_from_config) as (H & _).
  - vm_compute. reflexivity.
  - vm_compute. discriminate.
  - exact H.
Defined.
