(* ===== verification/TransportLaws.v ===== *)
(** * What a transport promises the tunnel

    The tunnel is written against the trait [PacketTransport]; the class
    [TransportLaws] states what it relies on: no call panics, a received
    packet fits the buffer it was read into and consists of bytes.  The UDP
    and the TCP transport are instances, under the documented behaviour of
    the operating system's sockets. *)

From S2P Require Import Prelude Net Std Config Transport TcpTransport.

(** [tr_ok] is the transport's own invariant. *)
Class TransportLaws (T : Type) {PT : PacketTransport T} := {
  tr_ok : T -> Prop;
  send_to_ok : forall f a t, tr_ok t -> tr_ok (send_to f a t).1 /\ no_panic (send_to f a t).2;
  recv_from_ok : forall fuel n t, 0 <= n -> tr_ok t ->
    tr_ok (recv_from fuel n t).1 /\
    match (recv_from fuel n t).2 with
    | Ok (Some (p, d)) => rp_bytes p = len d /\ len d <= n /\ bytes_ok d
    | Ok None | Err _ => True
    | Panic => False
    end;
  rebind_ok : forall t, tr_ok t -> tr_ok (rebind_to_ephemeral t).1 /\ no_panic (rebind_to_ephemeral t).2 }.

(** ** UDP *)

(** The socket calls of the standard library return, and a datagram is cut
    to the buffer. *)
Class UdpOsLaws (OS : UdpOs) := {
  udp_bind_np : forall a, no_panic (udp_bind a);
  set_read_timeout_np : forall s d, no_panic (set_read_timeout s d);
  udp_local_addr_np : forall s, no_panic (udp_local_addr s);
  udp_send_np : forall s f a, no_panic (udp_send s f a);
  udp_recv_np : forall s i n, no_panic (udp_recv s i n);
  udp_recv_fits : forall s i n d a, udp_recv s i n = Ok (d, a) -> 0 <= n -> len d <= n /\ bytes_ok d }.

Section Udp.
Context {OS : UdpOs} {OL : UdpOsLaws OS}.

Lemma active_socket_np t : no_panic (active_socket t).
Proof. unfold active_socket. by destruct (poisoned t). Qed.

Lemma bind_np {E A B} (m : outcome E A) (f : A -> outcome E B) :
  no_panic m -> (forall a, no_panic (f a)) -> no_panic (m ≫= f).
Proof. intros Hm Hf. destruct m; [apply Hf|done..]. Qed.

Lemma bind_udp_socket_np a : no_panic (bind_udp_socket a).
Proof. apply bind_np; [apply udp_bind_np|]. intros s. apply bind_np; [apply set_read_timeout_np|done]. Qed.

Lemma udp_recv_loop_ok cell n fuel i :
  0 <= n ->
  match udp_recv_loop cell n fuel i with
  | Ok (Some (p, d)) => rp_bytes p = len d /\ len d <= n /\ bytes_ok d
  | Ok None | Err _ => True
  | Panic => False
  end.
Proof.
  intros Hn. revert i. induction fuel as [|fuel IH]; intros i; cbn [udp_recv_loop]; [done|].
  pose proof (active_socket_np (cell i)) as Hs. destruct (active_socket (cell i)) as [s|e|]; cbn; [|done..].
  destruct (udp_recv s i n) as [[d a]|e|] eqn:E.
  - split; [done|]. by eapply udp_recv_fits.
  - destruct (transient (kind e)); [apply IH|done].
  - by apply (udp_recv_np s i n).
Qed.

#[export] Program Instance UdpTransport_laws : TransportLaws UdpTransport := {| tr_ok _ := True |}.
Next Obligation. intros f a t _. split; [done|]. apply bind_np; [apply active_socket_np|]. intros; apply udp_send_np. Qed.
Next Obligation. intros fuel n t Hn _. split; [done|]. by apply udp_recv_loop_ok. Qed.
Next Obligation.
  intros t _. split; [done|]. cbn. unfold udp_rebind_to_ephemeral, udp_local, mlift, mget, mput, mfail, mbind, M_bind.
  destruct (active_socket t) as [s|e|] eqn:E; cbn; [|done|by apply active_socket_np in E].
  destruct (udp_local_addr s) as [a|e|] eqn:Ea; cbn; [|done|by apply udp_local_addr_np in Ea].
  destruct (bind_udp_socket (set_port a 0)) as [r|e|] eqn:Er; cbn; [|done|by apply bind_udp_socket_np in Er].
  destruct (udp_local_addr r) as [c|e|] eqn:Ec; cbn; [|done|by apply udp_local_addr_np in Ec].
  by destruct (poisoned t).
Qed.
End Udp.

(** ** TCP *)

(** A connection the kernel opens answers within the contract of [Read] and
    [Write]. *)
Definition stream_ok (s : TcpStream) : Prop :=
  Forall write_ok (writes s) /\ Forall read_ok (reads s) /\ bytes_ok (incoming (reads s)).

Class TcpOsLaws (OS : TcpOs) := {
  connect_timeout_np : forall a d, no_panic (connect_timeout a d);
  connect_timeout_ok : forall a d s, connect_timeout a d = Ok s -> stream_ok s }.

Section Tcp.
Context {OS : TcpOs} {OL : TcpOsLaws OS}.

Lemma fresh_conn_ok s : stream_ok s -> mutex_ok {| data := ConnState_new s; conn_poisoned := false |}.
Proof. intros (H1 & H2 & H3). by split_and!. Qed.

Lemma insert_conn_ok a c t :
  mutex_ok {| data := c; conn_poisoned := false |} -> transport_ok t -> transport_ok (insert_conn a c t).
Proof.
  intros Hc [H1 H2 H3]. split; cbn.
  - apply Forall_app. split; [done|]. by constructor.
  - intros b i [[<- <-]|[_ Hi]]%lookup_insert_Some; apply lookup_lt_is_Some; rewrite length_app; cbn; [lia|].
    apply H2, lookup_lt_is_Some in Hi. lia.
  - assert (Hlt : forall b, connections t !! b <> Some (length (conns t))).
    { intros b Hb. apply H2, lookup_lt_is_Some in Hb. lia. }
    intros b b' i [[<- <-]|[_ Hb]]%lookup_insert_Some [[<- E]|[_ Hb']]%lookup_insert_Some; simplify_eq; try done.
    + by apply Hlt in Hb'.
    + by apply Hlt in Hb.
    + by eapply H3.
Qed.

(** The accept thread keeps the transport healthy. *)
Lemma accept_round_ok answer t :
  (forall s a, answer = Ok (s, a) -> stream_ok s) -> transport_ok t -> transport_ok (accept_round answer t).
Proof.
  intros Ha Ht. destruct answer as [[s a]|e|]; [|done..]. apply insert_conn_ok; [|done]. eapply fresh_conn_ok, Ha; done.
Qed.

Lemma conn_enqueue_ok f c :
  conn_ok c -> conn_ok (conn_enqueue f c).1 /\ unread (conn_enqueue f c).1 = unread c /\
  reads (stream (conn_enqueue f c).1) = reads (stream c) /\ no_panic (conn_enqueue f c).2.
Proof.
  intros Hc. pose proof Hc as [H1 H2]. unfold conn_enqueue, enqueue_frame.
  destruct (len f >? U16_MAX); [by destruct c|].
  destruct (saturating_add _ _ >? limit (pending_writes c)); [by destruct c|].
  destruct (compact_waiting _ H1) as (Hc1 & _). cbn. split_and!; try done.
  split; [|done]. unfold pw_ok. cbn. rewrite Hc1. split; [done|apply len_nonneg].
Qed.

(** Queueing a frame on a connection reads nothing. *)
Lemma queue_frame_mutex f m :
  mutex_ok m -> mutex_ok {| data := (queue_frame f (data m)).1; conn_poisoned := false |} /\
  no_panic (queue_frame f (data m)).2.
Proof.
  intros (Hc & Hu & Hr). unfold queue_frame, mbind, M_bind, mutex_ok.
  destruct (conn_flush (data m)) as [c1 r1] eqn:E1. destruct (conn_flush_spec _ _ _ E1 Hc) as (N1 & R1 & B1 & _ & K1 & _).
  assert (U1 : unread c1 = unread (data m)) by (unfold unread; congruence).
  destruct r1 as [[]|e|]; [|cbn; by rewrite R1, U1|done].
  destruct (conn_enqueue_ok f c1 K1) as (K2 & U2 & R2 & N2). destruct (conn_enqueue f c1) as [c2 r2]. cbn in K2, U2, R2, N2.
  destruct r2 as [[]|e|]; [|cbn; by rewrite R2, R1, U2, U1|done].
  destruct (conn_flush c2) as [c3 r3] eqn:E3. destruct (conn_flush_spec _ _ _ E3 K2) as (N3 & R3 & B3 & _ & K3 & _).
  assert (U3 : unread c3 = unread c2) by (unfold unread; congruence).
  cbn. by rewrite R3, R2, R1, U3, U2, U1.
Qed.

Lemma dial_ok endpoint addrs e t :
  transport_ok t ->
  transport_ok (dial endpoint addrs e t).1 /\ no_panic (dial endpoint addrs e t).2 /\
  forall i, (dial endpoint addrs e t).2 = Ok i -> is_Some (conns (dial endpoint addrs e t).1 !! i).
Proof.
  intros Ht. revert e. induction addrs as [|a addrs IH]; intros e; cbn [dial]; [done|].
  destruct (connect_timeout a (from_secs 2)) as [s|e'|] eqn:E; [|apply IH|by apply connect_timeout_np in E].
  cbn. split_and!; [apply insert_conn_ok; [|done]; by eapply fresh_conn_ok, connect_timeout_ok|done|].
  intros i [= <-]. change (is_Some (conns (insert_conn endpoint (ConnState_new s) t) !! length (conns t))). apply lookup_lt_is_Some. unfold insert_conn. cbn [conns]. rewrite length_app. cbn. lia.
Qed.

Lemma get_or_dial_ok a t :
  transport_ok t ->
  transport_ok (get_or_dial a t).1 /\ no_panic (get_or_dial a t).2 /\
  forall i, (get_or_dial a t).2 = Ok i -> is_Some (conns (get_or_dial a t).1 !! i).
Proof.
  intros Ht. unfold get_or_dial, mget, mbind, M_bind. destruct (connections t !! a) as [i|] eqn:E; [|by apply dial_ok].
  split_and!; [done..|]. intros j [= <-]. by eapply t_index.
Qed.

Lemma tcp_send_ok f a t : transport_ok t -> transport_ok (tcp_send_to f a t).1 /\ no_panic (tcp_send_to f a t).2.
Proof.
  intros Ht. unfold tcp_send_to, mbind, M_bind. destruct (get_or_dial_ok a t Ht) as (H1 & H2 & H3).
  destruct (get_or_dial a t) as [t1 [i|e|]]; cbn in H1, H2, H3; [|done..].
  destruct (H3 i eq_refl) as [m Hm]. unfold send_on. rewrite Hm. destruct (conn_poisoned m); [done|].
  pose proof (t_conns _ H1) as Hall. rewrite Forall_lookup in Hall.
  destruct (queue_frame_mutex f m (Hall i m Hm)) as [Hq Hn]. destruct (queue_frame f (data m)) as [c r].
  cbn in Hq, Hn |- *. destruct r as [[]|e|]; [..|done]; by split; [eapply (set_conn_ok t1 i m)|].
Qed.

Lemma delivered_fits buffer t t' p d :
  0 <= buffer -> transport_ok t -> delivered buffer t t' p d -> rp_bytes p = len d /\ len d <= buffer /\ bytes_ok d.
Proof.
  intros Hn Ht (i & m & f & m' & _ & Hm & _ & Hu & _ & Hb & -> & _).
  assert (Hl : len (take (Z.to_nat (rp_bytes p)) f) = rp_bytes p).
  { rewrite Hb. unfold len. rewrite length_take. pose proof (len_nonneg f). unfold len in *. lia. }
  rewrite Hl. split_and!; [done|rewrite Hb; lia|]. apply Forall_take.
  pose proof (t_conns _ Ht) as Hall. rewrite Forall_lookup in Hall. destruct (Hall i m Hm) as (_ & Hbytes & _).
  rewrite Hu in Hbytes. unfold encode_frame in Hbytes. rewrite !Forall_app in Hbytes. apply Hbytes.
Qed.

#[export] Program Instance TcpTransport_laws : TransportLaws TcpTransport := {| tr_ok := transport_ok |}.
Next Obligation. intros f a t Ht. by apply tcp_send_ok. Qed.
Next Obligation.
  intros fuel n t Hn Ht. cbn. destruct (tcp_recv_spec map_to_list fuel n t ltac:(done) Ht) as (t' & res & E & H1 & H2).
  rewrite E. split; [done|]. destruct res as [[p d]|]; [|done]. exact (delivered_fits _ _ _ _ _ Hn Ht H2).
Qed.
Next Obligation. by intros t Ht. Qed.
End Tcp.
