(* ===== verification/Tunnel.v ===== *)
(** * The tunnel's threads ([src/src/tunnel.rs])

    Three threads share the packet engine and the transport: one reads the
    TUN device and sends, one receives and writes to the device, one runs the
    maintenance tick every second.  [Tunnel] is what they share and, per
    thread, the actions of its current iteration that are still to do; a
    [turn] lets one thread do its next step, so a list of turns is an
    interleaving.  A step is one blocking call with the engine call it leads
    to, or one action; an engine method runs in one step (what another thread
    can do between two critical sections of a method is the subject of
    [SessionInv.reachable]). *)

From S2P Require Import Prelude Net Packet Auth PeerState Noise Sessions Std Config Router Engine Scheduler Transport.

Definition MAX_PACKET_SIZE : usize := 65535.
Definition PACKET_INFO_SIZE : nat := 4.
(** [libc::AF_INET]. *)
Definition AF_INET : u32 := 2.

(** ** Packet information *)

(** [frame.get(PACKET_INFO_SIZE..)] when the device adds a header. *)
Definition strip_packet_information (frame : bytes) (packet_information : bool) : option bytes :=
  if packet_information then
    if (length frame <? PACKET_INFO_SIZE)%nat then None else Some (drop PACKET_INFO_SIZE frame)
  else Some frame.

(** [output[a..a + n].copy_from_slice(data)] with [n = data.len()]: the slice
    panics beyond the end of the buffer. *)
Definition copy_into (a : nat) (data output : bytes) : outcome Empty_set bytes :=
  if (length output <? a + length data)%nat then Panic
  else Ok (take a output ++ data ++ drop (a + length data) output).

(** The slice returned and the buffer afterwards. *)
Definition add_packet_information (frame : bytes) (packet_information : bool) (output : bytes)
    : outcome Empty_set (bytes * bytes) :=
  if negb packet_information then Ok (frame, output) else
  let header := to_be_bytes 4 AF_INET in
  output ← copy_into 0 header output;
  output ← copy_into PACKET_INFO_SIZE frame output;
  Ok (take (PACKET_INFO_SIZE + length frame) output, output).

(** [peer_stats] in the log: how long ago the peer was heard. *)
Definition last_seen_secs (wall : Instant) (stats : PeerStats) : option u64 :=
  (fun t => saturating_duration_since wall t / from_secs 1) <$> last_seen stats.

(** ** The device

    [tun_read n] is the answer of a read into a buffer of [n] bytes. *)

Class TunDevice := {
  Tun : Type;
  tun_read : usize -> M Tun io_error bytes;
  tun_write_all : bytes -> M Tun io_error unit }.

(** ** The shared state *)

Section Tunnel.
Context {IN : IpNet} {B64 : Base64} {RS : Resolver} {SN : Snow} {TD : TunDevice}.
Context {T : Type} {PT : PacketTransport T}.

(** What the threads did, oldest first; no step reads it.  [Received] holds
    the sessions at that moment. *)
Inductive event :=
| Received (sessions : SessionState) (frame : bytes) (source : SocketAddr) (now : Instant)
| Wrote (peer_name : string) (source : SocketAddr) (packet output : bytes).

Record Tunnel := {
  engine_state : EngineState;
  engine_scheduler : EngineScheduler;
  tun_transport : T;
  device : Tun;
  tun_frame : bytes;                            (* the receiver's write buffer *)
  sending : list (Packet.Ipv4Packet * EngineAction);
  receiving : list EngineAction;
  maintaining : list EngineAction;
  trace : list event }.

Definition Tunnel_new (s : EngineScheduler) (tr : T) (d : Tun) (r : Rng) : Tunnel :=
  {| engine_state := EngineState_new r; engine_scheduler := s; tun_transport := tr; device := d;
     tun_frame := replicate (Z.to_nat MAX_PACKET_SIZE + PACKET_INFO_SIZE) 0;
     sending := []; receiving := []; maintaining := []; trace := [] |}.

Definition set_engine (st : EngineState) (t : Tunnel) : Tunnel :=
  {| engine_state := st; engine_scheduler := engine_scheduler t; tun_transport := tun_transport t;
     device := device t; tun_frame := tun_frame t; sending := sending t; receiving := receiving t;
     maintaining := maintaining t; trace := trace t |}.
Definition set_transport (tr : T) (t : Tunnel) : Tunnel :=
  {| engine_state := engine_state t; engine_scheduler := engine_scheduler t; tun_transport := tr;
     device := device t; tun_frame := tun_frame t; sending := sending t; receiving := receiving t;
     maintaining := maintaining t; trace := trace t |}.
Definition set_device (d : Tun) (t : Tunnel) : Tunnel :=
  {| engine_state := engine_state t; engine_scheduler := engine_scheduler t; tun_transport := tun_transport t;
     device := d; tun_frame := tun_frame t; sending := sending t; receiving := receiving t;
     maintaining := maintaining t; trace := trace t |}.
Definition set_tun_frame (b : bytes) (t : Tunnel) : Tunnel :=
  {| engine_state := engine_state t; engine_scheduler := engine_scheduler t; tun_transport := tun_transport t;
     device := device t; tun_frame := b; sending := sending t; receiving := receiving t;
     maintaining := maintaining t; trace := trace t |}.
Definition set_sending (l : list (Packet.Ipv4Packet * EngineAction)) (t : Tunnel) : Tunnel :=
  {| engine_state := engine_state t; engine_scheduler := engine_scheduler t; tun_transport := tun_transport t;
     device := device t; tun_frame := tun_frame t; sending := l; receiving := receiving t;
     maintaining := maintaining t; trace := trace t |}.
Definition set_receiving (l : list EngineAction) (t : Tunnel) : Tunnel :=
  {| engine_state := engine_state t; engine_scheduler := engine_scheduler t; tun_transport := tun_transport t;
     device := device t; tun_frame := tun_frame t; sending := sending t; receiving := l;
     maintaining := maintaining t; trace := trace t |}.
Definition set_maintaining (s : EngineScheduler) (l : list EngineAction) (t : Tunnel) : Tunnel :=
  {| engine_state := engine_state t; engine_scheduler := s; tun_transport := tun_transport t;
     device := device t; tun_frame := tun_frame t; sending := sending t; receiving := receiving t;
     maintaining := l; trace := trace t |}.
Definition note (ev : event) (t : Tunnel) : Tunnel :=
  {| engine_state := engine_state t; engine_scheduler := engine_scheduler t; tun_transport := tun_transport t;
     device := device t; tun_frame := tun_frame t; sending := sending t; receiving := receiving t;
     maintaining := maintaining t; trace := trace t ++ [ev] |}.

(** A step of a thread: its errors are logged and end the iteration, so only
    a panic leaves it. *)
Definition step (A : Type) : Type := M Tunnel Empty_set A.

(** An error becomes [None]: the thread logs it and goes on. *)
Definition caught {E A} (r : outcome E A) : outcome Empty_set (option A) :=
  match r with Ok a => Ok (Some a) | Err _ => Ok None | Panic => Panic end.
(** [expect] on a [Result]. *)
Definition expect_ok {E A} (r : outcome E A) : outcome Empty_set A :=
  match r with Ok a => Ok a | _ => Panic end.

Definition on_engine {A} (m : M EngineState EngineError A) : step (option A) := fun t =>
  let '(st, r) := m (engine_state t) in (set_engine st t, caught r).
Definition on_transport {A} (m : M T io_error A) : step (option A) := fun t =>
  let '(tr, r) := m (tun_transport t) in (set_transport tr t, caught r).
Definition on_device {A} (m : M Tun io_error A) : step (option A) := fun t =>
  let '(d, r) := m (device t) in (set_device d t, caught r).

(** [let Some(x) = m else { continue }]. *)
Definition or_continue {A} (m : step (option A)) (k : A -> step unit) : step unit :=
  r ← m; match r with Some a => k a | None => mret tt end.

(** ** Sending *)

(** Whether the frame was sent; only then it counts as transmitted. *)
Definition send_engine_frame (peer_name : string) (endpoint : SocketAddr) (frame : bytes) : step bool :=
  r ← on_transport (send_to frame endpoint);
  match r with
  | Some _ =>
      t ← mget;
      _ ← mput (set_engine (record_transport_sent peer_name (len frame) (engine_state t)) t);
      mret true
  | None => mret false
  end.

(** One action of [send_engine_transport_output]. *)
Definition send_engine_transport_output (a : EngineAction) : step unit :=
  match a with
  | SendTransport peer_name endpoint frame => _ ← send_engine_frame peer_name endpoint frame; mret tt
  | WriteIpPacket _ _ _ => mret tt
  end.

(** The addresses and the protocol in a debug message. *)
Definition log_ipv4 (ipv4 : Packet.Ipv4Packet) : step unit :=
  _ ← mlift (caught (Packet.source ipv4));
  _ ← mlift (caught (Packet.destination ipv4));
  _ ← mlift (caught (Packet.protocol ipv4));
  mret tt.

(** ** The thread from the TUN device to the transport *)

Section Threads.
Context (e : Engine) (packet_information : bool).

(** [&packet[..size]]: the bytes read into the buffer. *)
Definition buffer_slice (data : bytes) (size : usize) : outcome Empty_set bytes :=
  if size >? MAX_PACKET_SIZE then Panic else Ok (take (Z.to_nat size) data).

Definition read_tun (now : Instant) : step unit :=
  or_continue (on_device (tun_read MAX_PACKET_SIZE)) (fun data =>
  packet ← mlift (buffer_slice data (len data));
  or_continue (mret (strip_packet_information packet packet_information)) (fun frame =>
  or_continue (mlift (caught (Packet.parse frame))) (fun ipv4 =>
  or_continue (on_engine (process_outbound_ip e frame now)) (fun output =>
  mmodify (set_sending (pair ipv4 <$> actions output)))))).

Definition forward (ipv4 : Packet.Ipv4Packet) (a : EngineAction) : step unit :=
  match a with
  | SendTransport peer_name endpoint encoded =>
      sent ← send_engine_frame peer_name endpoint encoded;
      if sent : bool then log_ipv4 ipv4 else mret tt
  | WriteIpPacket _ _ _ => mret tt
  end.

(** ** The thread from the transport to the TUN device *)

(** [fuel] bounds the rounds in which [recv_from] waits: with no packet so
    far the thread is still in the call. *)
Definition receive (fuel : nat) (now : Instant) (clock : nat -> Instant) : step unit :=
  or_continue (on_transport (recv_from fuel MAX_PACKET_SIZE)) (fun received =>
  match received with
  | None => mret tt
  | Some (p, data) =>
      let source := rp_source p in
      frame ← mlift (buffer_slice data (rp_bytes p));
      or_continue (mret (decode_packet frame)) (fun _ =>
      t ← mget;
      _ ← mmodify (note (Received (manager (engine_state t)) frame source now));
      or_continue (on_engine (process_inbound_transport e frame source now clock)) (fun output =>
      mmodify (set_receiving (actions output))))
  end).

Definition deliver (a : EngineAction) : step unit :=
  match a with
  | SendTransport peer_name endpoint frame => _ ← send_engine_frame peer_name endpoint frame; mret tt
  | WriteIpPacket peer_name source packet =>
      ipv4 ← mlift (expect_ok (Packet.parse packet));
      _ ← log_ipv4 ipv4;
      t ← mget;
      '(output, buffer) ← mlift (add_packet_information packet packet_information (tun_frame t));
      _ ← mmodify (set_tun_frame buffer);
      _ ← mmodify (note (Wrote peer_name source packet output));
      _ ← on_device (tun_write_all output);
      mret tt
  end.

(** ** The maintenance thread *)

Definition rebound_udp (ev : SchedulerEvent) : bool :=
  match ev with Recovery _ _ rebind_udp _ _ => rebind_udp end.

(** The closure given to [tick] calls [rebind_to_ephemeral], at most once and
    exactly when the tick reports a recovery by rebinding: its answer is
    computed up front and its effect applied if it was called. *)
Definition maintain (now : Instant) (clock2 clock3 : nat -> Instant) : step unit := fun t =>
  let '(tr, r) := rebind_to_ephemeral (tun_transport t) in
  let rebind := fun _ _ => match r with Ok (Some _) => true | _ => false end in
  (tick ← mlift (Ok (tick e now rebind clock2 clock3 (engine_scheduler t)));
   let '(st, res) := tick (engine_state t) in
   _ ← mmodify (set_engine st);
   '(s, tk) ← mlift (expect_ok res);
   _ ← (if existsb rebound_udp (t_events tk)
        then _ ← mlift (caught r); mmodify (set_transport tr) else mret tt);
   mmodify (set_maintaining s (concat ((fun o => actions (so_output o)) <$> t_outputs tk)))) t.

(** ** Interleaving *)

(** Whose turn it is, with what the thread finds when it starts an iteration:
    the clock, how long a receive waits.  [Background] is what the
    transport's own threads do (the accept loop of the TCP transport). *)
Inductive turn :=
| Sender (now : Instant)
| Receiver (fuel : nat) (now : Instant) (clock : nat -> Instant)
| Keeper (now : Instant) (clock2 clock3 : nat -> Instant)
| Background (g : T -> T).

Definition take_turn (x : turn) : step unit :=
  t ← mget;
  match x with
  | Sender now =>
      match sending t with
      | [] => read_tun now
      | (ipv4, a) :: rest => _ ← mmodify (set_sending rest); forward ipv4 a
      end
  | Receiver fuel now clock =>
      match receiving t with
      | [] => receive fuel now clock
      | a :: rest => _ ← mmodify (set_receiving rest); deliver a
      end
  | Keeper now clock2 clock3 =>
      match maintaining t with
      | [] => maintain now clock2 clock3
      | a :: rest => _ ← mmodify (set_maintaining (engine_scheduler t) rest); send_engine_transport_output a
      end
  | Background g => mput (set_transport (g (tun_transport t)) t)
  end.

Fixpoint run_turns (turns : list turn) : step unit :=
  match turns with
  | [] => mret tt
  | x :: turns => _ ← take_turn x; run_turns turns
  end.
End Threads.
End Tunnel.
