(* ===== verification/TunnelProofs.v ===== *)
(** * What the tunnel's threads guarantee

    A Hoare logic for the steps of a thread, the invariant of the shared
    state, and the theorems over every interleaving. *)

From S2P Require Import Prelude Net Packet Auth PeerState Noise Sessions SessionInv Std Config Router Engine Scheduler.
From S2P Require Import Transport TcpTransport TransportLaws Tunnel.

(** ** Packet information *)

Definition framed (packet_information : bool) (packet : bytes) : bytes :=
  if packet_information then to_be_bytes 4 AF_INET ++ packet else packet.

Lemma copy_into_ok a data output :
  (a + length data <= length output)%nat ->
  copy_into a data output = Ok (take a output ++ data ++ drop (a + length data) output).
Proof. intros H. unfold copy_into. destruct (Nat.ltb_spec (length output) (a + length data)); [lia|done]. Qed.

Lemma copy_into_length a data output output' : copy_into a data output = Ok output' -> length output' = length output.
Proof.
  unfold copy_into. destruct (Nat.ltb_spec (length output) (a + length data)) as [|H]; [done|]. intros [= <-].
  rewrite !length_app, length_take, length_drop. lia.
Qed.

(** The buffer is large enough for every packet the device can take, and
    keeps its size. *)
Lemma add_packet_information_spec packet pi output :
  (PACKET_INFO_SIZE + length packet <= length output)%nat ->
  exists output', add_packet_information packet pi output = Ok (framed pi packet, output') /\
    length output' = length output.
Proof.
  intros H. unfold add_packet_information, framed. destruct pi; cbn [negb]; [|by exists output].
  change PACKET_INFO_SIZE with 4%nat in *.
  assert (Hl : length (to_be_bytes 4 AF_INET) = 4%nat) by done.
  set (o1 := to_be_bytes 4 AF_INET ++ drop 4 output).
  assert (E1 : copy_into 0 (to_be_bytes 4 AF_INET) output = Ok o1) by (rewrite copy_into_ok by (rewrite Hl; lia); done).
  rewrite E1. cbn [mbind outcome_bind].
  assert (Ho1 : length o1 = length output) by (unfold o1; rewrite length_app, Hl, length_drop; lia).
  pose proof (copy_into_ok 4 packet o1 ltac:(lia)) as E2. rewrite E2. cbn [mbind outcome_bind]. eexists. split.
  - assert (take 4 o1 = to_be_bytes 4 AF_INET) as -> by (by apply take_app_length').
    do 2 f_equal. rewrite app_assoc. apply take_app_length'. by rewrite length_app, Hl.
  - apply copy_into_length in E2. exact (eq_trans E2 Ho1).
Qed.

(** What is added on the way out is stripped on the way in. *)
Lemma packet_information_round_trip packet pi : strip_packet_information (framed pi packet) pi = Some packet.
Proof. destruct pi; [|done]. unfold strip_packet_information, framed. by rewrite length_app. Qed.

Lemma strip_bytes frame pi packet :
  strip_packet_information frame pi = Some packet -> bytes_ok frame -> bytes_ok packet.
Proof.
  unfold strip_packet_information. destruct pi; [|by intros [= ->]].
  destruct (length frame <? PACKET_INFO_SIZE)%nat; [done|]. intros [= <-]. apply Forall_drop.
Qed.

(** The accessors of a parsed packet. *)
Lemma accessors_np b ip :
  Packet.parse b = Ok ip ->
  no_panic (Packet.source ip) /\ no_panic (Packet.destination ip) /\ no_panic (Packet.protocol ip).
Proof.
  intros Hp. pose proof (parse_ok_length _ _ Hp) as Hl. pose proof (parse_bytes _ _ Hp) as E.
  assert (Ha : forall i, (i <= 16)%nat -> no_panic (Packet.addr_at b i)).
  { intros i Hi. unfold Packet.addr_at.
    repeat match goal with |- context [Packet.byte_at b ?j] =>
      let x := fresh in let E := fresh in destruct (byte_at_ok b j) as (x & E & _); [lia|]; rewrite E; clear E; cbn [mbind outcome_bind]
    end. done. }
  unfold Packet.source, Packet.destination, Packet.protocol. rewrite E. split_and!; [apply Ha; lia..|].
  destruct (byte_at_ok b 9) as (x & -> & _); [lia|done].
Qed.

(** ** What the engine hands to the receiver *)

Section Inbound.
Context {IN : IpNet} {B64 : Base64} {RS : Resolver} {SN : Snow} {SL : SnowLaws SN}.

(** An inbound frame leads to at most one action. *)
Lemma inbound_one_action e frame src now clock st st' out :
  process_inbound_transport e frame src now clock st = (st', Ok out) -> (length (actions out) <= 1)%nat.
Proof.
  intros E. unfold process_inbound_transport in E.
  destruct (decode_packet frame) as [[[] hid msg|sid n ct]|]; try (injection E as <- <-; cbn; lia).
  - unfold process_init in E. apply bind_ok in E as (st1 & [[q rh]|] & _ & E); [|injection E as <- <-; cbn; lia].
    cbv zeta in E. apply bind_ok in E as (st2 & [] & _ & E); cbn [negb] in E; [|injection E as <- <-; cbn; lia].
    apply bind_ok in E as (st3 & [resp|] & _ & E); [injection E as <- <-; cbn; lia|].
    apply bind_ok in E as (st4 & [] & _ & E); injection E as <- <-; cbn; lia.
  - unfold process_response in E. apply bind_ok in E as (st1 & [[q f]|] & _ & E); [|injection E as <- <-; cbn; lia].
    apply bind_ok in E as (st2 & _ & _ & E). injection E as <- <-. cbn; lia.
  - unfold process_transport in E. apply bind_ok in E as (st1 & [d|] & _ & E); [|injection E as <- <-; cbn; lia].
    cbv zeta in E. destruct (dt_msg_type d).
    + apply bind_ok in E as (st2 & _ & _ & E). apply bind_ok in E as (st3 & ip & _ & E).
      injection E as <- <-. cbn; lia.
    + apply bind_ok in E as (st2 & _ & _ & E). case_bool_decide.
      * apply bind_ok in E as (st3 & [f|] & _ & E); injection E as <- <-; cbn; lia.
      * injection E as <- <-. cbn; lia.
Qed.

(** An authenticated payload is shorter than the frame that carried it. *)
Lemma authenticated_length frame st sid n ct now k p m payload :
  bytes_ok frame -> decode_packet frame = Some (Auth.Transport sid n ct) ->
  authenticated st sid n ct now k p m payload -> (length payload <= length frame)%nat.
Proof.
  intros Hb Hd (s & pt & _ & _ & _ & _ & Hr & Hp).
  pose proof (ts_read_length _ _ _ _ _ Hr) as Hl. destruct pt as [|x pt]; [done|].
  assert (pt = payload) as ->.
  { cbn in Hp. destruct (MsgType.from_u8 x); cbn in Hp; [by injection Hp|done]. }
  destruct (decode_packet_inv _ _ Hb Hd) as [_ He]. rewrite <- He. cbn [encode]. unfold encode_transport.
  autorewrite with hushwire in *. unfold len in Hl. cbn. rewrite ?length_app. lia.
Qed.
End Inbound.

(** ** A program logic for steps

    [{{ P }} m {{ Q }}]: from a state with [P] the step returns - it does not
    panic - and its result and state satisfy [Q]. *)

(** The documented behaviour of the device: reads fit the buffer. *)
Class TunLaws (TD : TunDevice) := {
  tun_read_ok : forall n d, 0 <= n ->
    match (tun_read n d).2 with Ok data => len data <= n /\ bytes_ok data | Err _ => True | Panic => False end;
  tun_write_np : forall b d, no_panic (tun_write_all b d).2 }.

Section Logic.
Context {IN : IpNet} {B64 : Base64} {RS : Resolver} {SN : Snow} {SL : SnowLaws SN}.
Context {TD : TunDevice} {TDL : TunLaws TD} {T : Type} {PT : PacketTransport T} {TL : TransportLaws T}.

Abbreviation TunnelT := (Tunnel (T := T)).
Abbreviation Step := (step (T := T)).

Definition triple {A} (P : TunnelT -> Prop) (m : Step A) (Q : A -> TunnelT -> Prop) : Prop :=
  forall t, P t -> exists t' a, m t = (t', Ok a) /\ Q a t'.

Lemma triple_ret {A} (a : A) (P : TunnelT -> Prop) (Q : A -> TunnelT -> Prop) :
  (forall t, P t -> Q a t) -> triple P (mret a) Q.
Proof. intros H t Ht. eexists _, _. split; [done|auto]. Qed.

Lemma triple_bind {A B} P Q R (m : Step A) (f : A -> Step B) :
  triple P m Q -> (forall a, triple (Q a) (f a) R) -> triple P (m ≫= f) R.
Proof.
  intros Hm Hf t Ht. destruct (Hm t Ht) as (t1 & a & E1 & H1). destruct (Hf a t1 H1) as (t2 & b & E2 & H2).
  exists t2, b. split; [|done]. unfold mbind, M_bind. by rewrite E1.
Qed.

Lemma triple_pre {A} (P P' : TunnelT -> Prop) (m : Step A) Q :
  (forall t, P t -> P' t) -> triple P' m Q -> triple P m Q.
Proof. intros H Hm t Ht. auto. Qed.

Lemma triple_post {A} P (m : Step A) (Q Q' : A -> TunnelT -> Prop) :
  triple P m Q' -> (forall a t, Q' a t -> Q a t) -> triple P m Q.
Proof. intros Hm H t Ht. destruct (Hm t Ht) as (t' & a & E & Ha). eauto. Qed.

(** A fact that the pre-condition implies. *)
Lemma triple_fact {A} (F : Prop) P (m : Step A) (Q : A -> TunnelT -> Prop) :
  (forall t, P t -> F) -> (F -> triple P m Q) -> triple P m Q.
Proof. intros HF Hm t Ht. exact (Hm (HF t Ht) t Ht). Qed.

(** [mget]: the continuation knows the state it read. *)
Lemma triple_get {B} P R (f : TunnelT -> Step B) :
  (forall t0, triple (fun t => t = t0 /\ P t) (f t0) R) -> triple P (mget ≫= f) R.
Proof. intros Hf t Ht. exact (Hf t t (conj eq_refl Ht)). Qed.

Lemma triple_modify (g : TunnelT -> TunnelT) (P : TunnelT -> Prop) (Q : unit -> TunnelT -> Prop) :
  (forall t, P t -> Q tt (g t)) -> triple P (mmodify g) Q.
Proof. intros H t Ht. eexists _, _. split; [done|auto]. Qed.

Lemma triple_lift {A} (o : outcome Empty_set A) (P : TunnelT -> Prop) (Q : A -> TunnelT -> Prop) :
  no_panic o -> (forall a t, o = Ok a -> P t -> Q a t) -> triple P (mlift o) Q.
Proof. intros Hn H t Ht. destruct o as [a|[]|]; [|done]. eexists _, _. split; [done|auto]. Qed.

Lemma caught_np {E A} (r : outcome E A) : no_panic r -> no_panic (caught r).
Proof. by destruct r. Qed.

(** [let Some(a) = m else { continue }], with what is known of [a]. *)
Lemma triple_or_continue {A} (F : A -> Prop) P R (m : Step (option A)) (k : A -> Step unit) :
  triple P m (fun r t => (forall a, r = Some a -> F a) /\ P t) ->
  (forall a, F a -> triple P (k a) R) -> (forall t, P t -> R tt t) ->
  triple P (or_continue m k) R.
Proof.
  intros Hm Hk HN. eapply triple_bind; [done|]. intros [a|]; [|apply triple_ret; intros t []; auto].
  intros t [HF Ht]. exact (Hk a (HF a eq_refl) t Ht).
Qed.

Lemma triple_lift_ok {A B} (o : outcome Empty_set A) (a : A) P R (f : A -> Step B) :
  o = Ok a -> triple P (f a) R -> triple P (mlift o ≫= f) R.
Proof. intros -> H t Ht. exact (H t Ht). Qed.

(** A call on a part of the state, from the facts of that part. *)
Lemma triple_engine {A} P (m : M EngineState EngineError A) (Q : option A -> TunnelT -> Prop) :
  (forall t, P t -> no_panic (m (engine_state t)).2 /\
     forall r, caught (m (engine_state t)).2 = Ok r -> Q r (set_engine (m (engine_state t)).1 t)) ->
  triple P (on_engine m) Q.
Proof.
  intros H t Ht. destruct (H t Ht) as [Hn HQ]. unfold on_engine.
  destruct (m (engine_state t)) as [st [a|e|]]; [..|done]; eexists _, _; (split; [done|]); by apply HQ.
Qed.

Lemma triple_transport {A} P (m : M T io_error A) (Q : option A -> TunnelT -> Prop) :
  (forall t, P t -> no_panic (m (tun_transport t)).2 /\
     forall r, caught (m (tun_transport t)).2 = Ok r -> Q r (set_transport (m (tun_transport t)).1 t)) ->
  triple P (on_transport m) Q.
Proof.
  intros H t Ht. destruct (H t Ht) as [Hn HQ]. unfold on_transport.
  destruct (m (tun_transport t)) as [st [a|e|]]; [..|done]; eexists _, _; (split; [done|]); by apply HQ.
Qed.

Lemma triple_device {A} P (m : M Tun io_error A) (Q : option A -> TunnelT -> Prop) :
  (forall t, P t -> no_panic (m (device t)).2 /\
     forall r, caught (m (device t)).2 = Ok r -> Q r (set_device (m (device t)).1 t)) ->
  triple P (on_device m) Q.
Proof.
  intros H t Ht. destruct (H t Ht) as [Hn HQ]. unfold on_device.
  destruct (m (device t)) as [st [a|e|]]; [..|done]; eexists _, _; (split; [done|]); by apply HQ.
Qed.

(** ** The invariant *)

Definition reception : Type := SessionState * bytes * SocketAddr * Instant.
Definition delivery : Type := string * SocketAddr * bytes * bytes.

Definition received_of (tr : list event) : list reception :=
  omap (fun ev => match ev with Received m f s n => Some (m, f, s, n) | _ => None end) tr.
Definition wrote_of (tr : list event) : list delivery :=
  omap (fun ev => match ev with Wrote p s pk o => Some (p, s, pk, o) | _ => None end) tr.

(** The packets a list of actions still has to write. *)
Definition owed (pi : bool) (l : list EngineAction) : list delivery :=
  omap (fun a => match a with WriteIpPacket p s pk => Some (p, s, pk, framed pi pk) | _ => None end) l.

(** The reception [r] justifies the write [w]: the packet was carried by that
    frame, which a live session of the peer authenticated as a data message,
    from the address recorded; what is written is the packet in the device's
    framing. *)
Definition vouches (pi : bool) (r : reception) (w : delivery) : Prop :=
  let '(m, frame, source, now) := r in
  let '(p, s, packet, output) := w in
  s = source /\ output = framed pi packet /\ (exists ip, Packet.parse packet = Ok ip) /\
  len packet <= MAX_PACKET_SIZE /\
  exists sid n ct k, decode_packet frame = Some (Auth.Transport sid n ct) /\
    authenticated m sid n ct now k p MsgType.Data packet.

(** Every write so far, and every write that is still owed - by the actions
    [front] in hand or queued - has a reception of its own, in order. *)
Definition accounted (pi : bool) (front : list EngineAction) (t : TunnelT) : Prop :=
  exists rs, rs `sublist_of` received_of (trace t) /\
    Forall2 (vouches pi) rs (wrote_of (trace t) ++ owed pi (front ++ receiving t)).

Record tunnel_inv (pi : bool) (front : list EngineAction) (t : TunnelT) : Prop := {
  inv_sessions : sm_wf (manager (engine_state t));
  inv_transport : tr_ok (tun_transport t);
  inv_buffer : length (tun_frame t) = (Z.to_nat MAX_PACKET_SIZE + PACKET_INFO_SIZE)%nat;
  inv_sending : Forall (fun job => exists b, Packet.parse b = Ok job.1) (sending t);
  inv_accounted : accounted pi front t }.

(** ** Sending *)

Lemma owed_app pi l k : owed pi (l ++ k) = owed pi l ++ owed pi k.
Proof. apply omap_app. Qed.

Lemma inv_set_engine pi l st t :
  tunnel_inv pi l t -> sm_wf (manager st) -> tunnel_inv pi l (set_engine st t).
Proof. intros [] H. by split. Qed.

Lemma inv_set_transport pi l tr t : tunnel_inv pi l t -> tr_ok tr -> tunnel_inv pi l (set_transport tr t).
Proof. intros [] H. by split. Qed.

Lemma inv_set_device pi l d t : tunnel_inv pi l t -> tunnel_inv pi l (set_device d t).
Proof. intros []. by split. Qed.

Lemma send_engine_frame_inv pi l p a f :
  triple (tunnel_inv pi l) (send_engine_frame p a f) (fun _ => tunnel_inv pi l).
Proof.
  eapply triple_bind with (Q := fun _ => tunnel_inv pi l).
  { apply triple_transport. intros t Ht. destruct (send_to_ok f a _ (inv_transport _ _ _ Ht)) as [H1 H2].
    split; [done|]. intros r _. by apply inv_set_transport. }
  intros [n|]; [|by apply triple_ret]. apply triple_get. intros t0.
  intros t [-> Ht]. eexists _, _. split; [done|]. apply inv_set_engine; [done|]. apply Ht.
Qed.

Lemma log_ipv4_inv b ip (P : TunnelT -> Prop) :
  Packet.parse b = Ok ip -> triple P (log_ipv4 ip) (fun _ => P).
Proof.
  intros Hp. destruct (accessors_np _ _ Hp) as (H1 & H2 & H3). unfold log_ipv4.
  repeat (eapply triple_bind with (Q := fun _ => P); [by apply triple_lift; [by apply caught_np|]|intros _]).
  by apply triple_ret.
Qed.

(** ** The thread from the device *)

Lemma inv_set_sending pi l jobs t :
  tunnel_inv pi l t -> Forall (fun job => exists b, Packet.parse b = Ok job.1) jobs -> tunnel_inv pi l (set_sending jobs t).
Proof. intros [] H. by split. Qed.

Lemma buffer_slice_ok data n : len data = n -> n <= MAX_PACKET_SIZE -> buffer_slice data n = Ok data.
Proof.
  intros <- H. unfold buffer_slice. rewrite Z.gtb_ltb. destruct (Z.ltb_spec MAX_PACKET_SIZE (len data)); [lia|].
  unfold len. by rewrite Nat2Z.id, firstn_all.
Qed.

Lemma read_tun_inv e pi now : triple (tunnel_inv pi []) (read_tun e pi now) (fun _ => tunnel_inv pi []).
Proof.
  unfold read_tun. eapply triple_or_continue with (F := fun data => len data <= MAX_PACKET_SIZE /\ bytes_ok data); [| |done].
  { apply triple_device. intros t Ht. pose proof (tun_read_ok MAX_PACKET_SIZE (device t) ltac:(done)) as Hr.
    destruct (tun_read MAX_PACKET_SIZE (device t)) as [d [data|err|]]; cbn in *; [..|done]; (split; [done|]);
      intros r [= <-]; (split; [|by apply inv_set_device]); [by intros ? [= <-]|done]. }
  intros data [Hl Hb]. eapply triple_lift_ok; [by apply buffer_slice_ok|].
  eapply triple_or_continue with (F := fun frame => bytes_ok frame); [| |done].
  { apply triple_ret. intros t Ht. split; [|done]. intros frame Hs. by eapply strip_bytes. }
  intros frame Hf. eapply triple_or_continue with (F := fun ip => Packet.parse frame = Ok ip); [| |done].
  { apply triple_lift; [apply caught_np, parse_no_panic|]. intros r t E Ht. split; [|done].
    intros ip ->. destruct (Packet.parse frame); cbn in E; by simplify_eq. }
  intros ip Hp. eapply triple_or_continue with (F := fun _ => True); [| |done].
  - apply triple_engine. intros t Ht.
    destruct (process_outbound_ip_safe e frame now Hf (engine_state t) (inv_sessions _ _ _ Ht)) as (H1 & H2 & _).
    split; [done|]. intros r _. split; [done|]. by apply inv_set_engine.
  - intros out _. apply triple_modify. intros t Ht. apply inv_set_sending; [done|].
    apply Forall_fmap, Forall_forall. intros a _. by exists frame.
Qed.

Lemma forward_inv pi ip a :
  (exists b, Packet.parse b = Ok ip) -> triple (tunnel_inv pi []) (forward ip a) (fun _ => tunnel_inv pi []).
Proof.
  intros [b Hb]. destruct a as [p ep f|]; [|by apply triple_ret]. unfold forward.
  eapply triple_bind; [apply send_engine_frame_inv|]. intros []; [by eapply log_ipv4_inv|by apply triple_ret].
Qed.

(** ** The thread to the device *)

Lemma owed_vouched pi e m frame src now clock st st' out :
  sm_wf (manager st) -> m = manager st -> bytes_ok frame -> len frame <= MAX_PACKET_SIZE ->
  process_inbound_transport e frame src now clock st = (st', Ok out) ->
  Forall (vouches pi (m, frame, src, now)) (owed pi (actions out)).
Proof.
  intros Hwf -> Hb Hl E. apply Forall_forall. intros w Hw. unfold owed in Hw. apply list_elem_of_omap in Hw as (a & Ha & Ew).
  destruct a as [|p s pk]; [done|]. injection Ew as <-.
  destruct (delivered_spec _ _ _ _ _ _ _ _ _ _ _ Hwf Hb E Ha) as (-> & (sid & n & ct & k & Hd & Hauth) & Hip).
  cbn. split_and!; try done; [|by exists sid, n, ct, k].
  pose proof (authenticated_length _ _ _ _ _ _ _ _ _ _ Hb Hd Hauth). unfold len in *. lia.
Qed.

(** A reception pays for the writes it leads to: at most one. *)
Lemma accounted_receive pi t r acts :
  accounted pi [] t -> receiving t = [] -> (length acts <= 1)%nat -> Forall (vouches pi r) (owed pi acts) ->
  exists rs, rs `sublist_of` received_of (trace t) ++ [r] /\
    Forall2 (vouches pi) rs (wrote_of (trace t) ++ owed pi acts).
Proof.
  intros (rs & Hs & Hf) Hn Hl Hv. rewrite Hn in Hf.
  change (owed pi ([] ++ [])) with (@nil delivery) in Hf. rewrite app_nil_r in Hf.
  destruct acts as [|a [|]]; [|destruct (owed pi [a]) as [|w []] eqn:Eo|cbn in Hl; lia].
  - exists rs. rewrite app_nil_r. split; [by apply sublist_inserts_r|done].
  - exists rs. rewrite app_nil_r. split; [by apply sublist_inserts_r|done].
  - exists (rs ++ [r]). split; [by apply sublist_app|]. apply Forall2_app; [done|]. by apply Forall2_cons; inversion Hv.
  - destruct a; done.
Qed.

(** The engine's part of a reception. *)
Lemma process_received pi e data src now clock (t : TunnelT) :
  tunnel_inv pi [] t -> receiving t = [] -> bytes_ok data -> len data <= MAX_PACKET_SIZE ->
  let t1 := note (Received (manager (engine_state t)) data src now) t in
  exists t', or_continue (on_engine (process_inbound_transport e data src now clock))
               (fun output => mmodify (set_receiving (actions output))) t1 = (t', Ok tt) /\ tunnel_inv pi [] t'.
Proof.
  intros Ht Hq Hb Hl t1. unfold or_continue, on_engine, mbind, M_bind. change (engine_state t1) with (engine_state t).
  pose proof (process_inbound_transport_safe e data src now clock Hb _ (inv_sessions _ _ _ Ht)) as (Hw & Hnp & _).
  destruct (process_inbound_transport e data src now clock (engine_state t)) as [st r] eqn:E. cbn [fst snd] in Hw, Hnp.
  assert (Hacc : forall acts, (length acts <= 1)%nat ->
    Forall (vouches pi (manager (engine_state t), data, src, now)) (owed pi acts) ->
    tunnel_inv pi [] (set_receiving acts (set_engine st t1))).
  { intros acts H1 H2. pose proof Ht as [_ J2 J3 J4 J5]. split; try done. unfold accounted.
    unfold t1, received_of, wrote_of. cbn [trace note set_engine set_receiving receiving]. rewrite !omap_app. cbn [omap list_omap].
    rewrite app_nil_r. by eapply accounted_receive. }
  destruct r as [out|err|]; cbn [caught]; [| |done].
  - eexists. split; [reflexivity|]. apply Hacc; [by eapply inbound_one_action|].
    exact (owed_vouched pi e _ data _ _ _ _ _ _ (inv_sessions _ _ _ Ht) eq_refl Hb Hl E).
  - eexists. split; [reflexivity|]. specialize (Hacc [] ltac:(cbn; lia) ltac:(apply Forall_nil_2)).
    assert (set_receiving [] (set_engine st t1) = set_engine st t1) as <-; [|done].
    unfold set_receiving, set_engine, t1, note. cbn. by rewrite Hq.
Qed.

Lemma receive_inv e pi fuel now clock :
  triple (fun t => tunnel_inv pi [] t /\ receiving t = []) (receive e fuel now clock) (fun _ => tunnel_inv pi []).
Proof.
  unfold receive. eapply triple_or_continue with (F := fun r => match r with
    | Some (p, data) => rp_bytes p = len data /\ len data <= MAX_PACKET_SIZE /\ bytes_ok data | None => True end);
    [| |by intros t []].
  { apply triple_transport. intros t [Ht Hq].
    destruct (recv_from_ok fuel MAX_PACKET_SIZE _ ltac:(done) (inv_transport _ _ _ Ht)) as [Htr Hr].
    destruct (recv_from fuel MAX_PACKET_SIZE (tun_transport t)) as [tr [r|err|]]; cbn [fst snd caught] in *; [..|done].
    all: pose proof (inv_set_transport _ _ _ _ Ht Htr); split; [done|]; intros r' [= <-]; split; [by intros ? [= <-]|done]. }
  intros [[p data]|] HF; [|apply triple_ret; by intros t []]. destruct HF as (Hs & Hl & Hb). cbv zeta.
  eapply triple_lift_ok; [apply buffer_slice_ok; [done|lia]|].
  eapply triple_or_continue with (F := fun _ => True); [by apply triple_ret| |by intros t []].
  intros _ _. apply triple_get. intros t0 t [-> [Ht Hq]].
  destruct (process_received pi e data (rp_source p) now clock t0 Ht Hq Hb Hl) as (t' & E & Ht').
  exists t', tt. split; [exact E|exact Ht'].
Qed.

Lemma deliver_inv pi a : triple (tunnel_inv pi [a]) (deliver pi a) (fun _ => tunnel_inv pi []).
Proof.
  destruct a as [p ep f|p s packet]; cbn [deliver].
  { eapply triple_bind; [apply send_engine_frame_inv|]. intros b. apply triple_ret. intros t []. by split. }
  eapply triple_fact with (F := exists r, vouches pi r (p, s, packet, framed pi packet)).
  { intros t Ht. destruct (inv_accounted _ _ _ Ht) as (rs & _ & Hf). apply Forall2_app_inv_r in Hf as (r1 & r2 & _ & Hf & _).
    inversion Hf; subst; eauto. }
  intros ([[[m frame] src] now] & _ & _ & [ip Hip] & Hl & _).
  eapply triple_lift_ok; [by rewrite Hip|]. eapply triple_bind; [by eapply log_ipv4_inv|]. intros u.
  apply triple_get. intros t0 t [-> Ht]. pose proof (inv_buffer _ _ _ Ht) as Hbuf.
  destruct (add_packet_information_spec packet pi (tun_frame t0)) as (buf & Ea & Hbuf').
  { rewrite Hbuf. unfold len, MAX_PACKET_SIZE in *. lia. }
  unfold mlift. unfold mbind at 1, M_bind at 1. rewrite Ea.
  unfold on_device, mmodify, mbind, M_bind, mret, M_ret.
  pose proof (tun_write_np (framed pi packet) (device (note (Wrote p s packet (framed pi packet)) (set_tun_frame buf t0)))) as Hw.
  destruct (tun_write_all _ _) as [d r]. cbn in Hw.
  assert (H : tunnel_inv pi [] (set_device d (note (Wrote p s packet (framed pi packet)) (set_tun_frame buf t0)))).
  { destruct Ht as [H1 H2 H3 H4 (rs & Hs & Hf)]. split; try done; [by cbn; rewrite Hbuf'|]. exists rs.
    unfold received_of, wrote_of in *. cbn [trace note set_device set_tun_frame receiving]. rewrite !omap_app.
    cbn [omap list_omap]. rewrite app_nil_r. split; [done|]. rewrite <- app_assoc. exact Hf. }
  destruct r; [by eauto..|done].
Qed.

(** ** The maintenance thread *)

Lemma inv_set_maintaining pi l s q t : tunnel_inv pi l t -> tunnel_inv pi l (set_maintaining s q t).
Proof. intros []. by split. Qed.

Lemma maintain_inv e pi now c2 c3 : triple (tunnel_inv pi []) (maintain e now c2 c3) (fun _ => tunnel_inv pi []).
Proof.
  intros t Ht. unfold maintain. destruct (rebind_ok _ (inv_transport _ _ _ Ht)) as [Htr Hr].
  destruct (rebind_to_ephemeral (tun_transport t)) as [tr r]. cbn [fst snd] in Htr, Hr. set (rebind := fun _ _ => _).
  destruct (tick_spec e now rebind c2 c3 (engine_scheduler t) _ (inv_sessions _ _ _ Ht)) as (st & s & tk & E & Hw & _).
  unfold mlift. unfold mbind at 1, M_bind at 1. rewrite E. unfold mmodify, mbind, M_bind, mret, M_ret, expect_ok.
  pose proof (inv_set_engine _ _ st _ Ht Hw) as Ht1. destruct (existsb rebound_udp (t_events tk)).
  - destruct r as [a|err|]; cbn [caught]; [..|done]; (eexists _, _; split; [reflexivity|]);
      by apply inv_set_maintaining, inv_set_transport.
  - eexists _, _; split; [reflexivity|]. by apply inv_set_maintaining.
Qed.

(** ** Every interleaving *)

(** The transport's own threads keep its invariant. *)
Definition turn_ok (x : turn (T := T)) : Prop :=
  match x with Background g => forall tr, tr_ok tr -> tr_ok (g tr) | _ => True end.

Lemma take_turn_inv e pi x :
  turn_ok x -> triple (tunnel_inv pi []) (take_turn e pi x) (fun _ => tunnel_inv pi []).
Proof.
  intros Hx. unfold take_turn. apply triple_get. intros t0 t [-> Ht]. destruct x as [now|fuel now clock|now c2 c3|g].
  - pose proof (inv_sending _ _ _ Ht) as Hs. destruct (sending t0) as [|[ip a] rest]; [by apply read_tun_inv|].
    inversion Hs as [|?? Hip Hrest]; subst. apply (forward_inv pi ip a Hip). by apply inv_set_sending.
  - destruct (receiving t0) as [|a rest] eqn:Eq; [by apply receive_inv|]. apply (deliver_inv pi a).
    destruct Ht as [H1 H2 H3 H4 (rs & Hs & Hf)]. split; try done. exists rs. split; [done|]. by rewrite Eq in Hf.
  - destruct (maintaining t0) as [|a rest]; [by apply maintain_inv|].
    destruct a as [p ep f|]; [|eexists _, _; split; [reflexivity|]; by apply inv_set_maintaining].
    cbn [send_engine_transport_output]. eapply (triple_bind (tunnel_inv pi []) (fun _ => tunnel_inv pi []));
      [apply triple_modify; intros t Ht'; by apply inv_set_maintaining|intros u|done].
    eapply triple_bind; [apply send_engine_frame_inv|]. intros b. by apply triple_ret.
  - eexists _, _. split; [reflexivity|]. apply inv_set_transport; [done|]. apply Hx, Ht.
Qed.

Lemma run_turns_inv e pi turns :
  Forall turn_ok turns -> triple (tunnel_inv pi []) (run_turns e pi turns) (fun _ => tunnel_inv pi []).
Proof.
  induction 1 as [|x turns Hx _ IH]; cbn [run_turns]; [by apply triple_ret|].
  eapply triple_bind; [by apply take_turn_inv|]. intros u. exact IH.
Qed.

Lemma Tunnel_new_inv pi s tr d r : tr_ok tr -> tunnel_inv pi [] (Tunnel_new s tr d r).
Proof.
  intros Htr. split; [exact default_wf|exact Htr|apply length_replicate|apply Forall_nil_2|by exists []].
Qed.

(** C5: the threads of a running tunnel are safe under every interleaving:
    none ever panics (the [expect] on a packet the engine emits and the slices
    of the buffers included), the sessions stay well formed, and the packets
    written to the device are accounted for: each one was the payload of a
    frame received before, authenticated as a data message of a live session
    of its peer, in the device's framing; no frame yields two writes and the
    order of reception is kept. *)
Theorem tunnel_safe e pi s tr d r turns :
  tr_ok tr -> Forall turn_ok turns ->
  exists t', run_turns e pi turns (Tunnel_new s tr d r) = (t', Ok tt) /\
    sm_wf (manager (engine_state t')) /\
    exists rs, rs `sublist_of` received_of (trace t') /\ Forall2 (vouches pi) rs (wrote_of (trace t')).
Proof.
  intros Htr Hturns. destruct (run_turns_inv e pi turns Hturns _ (Tunnel_new_inv pi s tr d r Htr)) as (t' & [] & E & Ht).
  exists t'. split; [done|]. split; [apply Ht|]. destruct (inv_accounted _ _ _ Ht) as (rs & Hs & Hf).
  apply Forall2_app_inv_r in Hf as (r1 & r2 & Hf & _ & ->). exists r1. split; [|done].
  etrans; [by apply sublist_inserts_r|done].
Qed.
End Logic.

(** ** The rebinding of a tick

    [maintain] computes the answer of the closure it gives to [tick] before
    the tick: the answer matters only if a recovery by rebinding is reported. *)

Section Rebind.
Context {IN : IpNet} {B64 : Base64} {RS : Resolver} {SN : Snow} {SL : SnowLaws SN}.

Definition reports_rebind (r : outcome EngineError (EngineScheduler * SchedulerTick * bool)) : Prop :=
  exists s t ok, r = Ok (s, t, ok) /\ existsb rebound_udp (t_events t) = true.

Lemma recovery_loop_rebind e now f g clock snap i peers t s st :
  sm_wf (manager st) ->
  recovery_loop e now f clock snap i peers t s st = recovery_loop e now g clock snap i peers t s st \/
  reports_rebind (recovery_loop e now f clock snap i peers t s st).2.
Proof.
  intros Hst. revert i. induction peers as [|p peers IH]; intros i; cbn [recovery_loop]; [by left|].
  destruct (sp_recovery p) as [policy|]; [|apply IH].
  destruct (bool_decide _ || negb _); [apply IH|]. destruct (snap !! sp_name p ≫= last_seen) as [seen|]; [|apply IH].
  cbv zeta. destruct (negb (recovery_due _ _ _ _)); [apply IH|].
  destruct (rebind_udp policy) eqn:Er; [right|by left].
  destruct (invalidate_total (sp_name p) st Hst) as (st1 & stale & E1 & Hw1 & _).
  destruct (engine_push_total t (sp_name p) SessionRecovery (initiate_handshake e (sp_name p) now)
              (initiate_handshake_safe e (sp_name p) now) st1 Hw1) as (st2 & t2 & E2 & _ & _).
  unfold mbind, M_bind. rewrite E1, E2. eexists _, _, _. split; [reflexivity|].
  cbn. rewrite existsb_app. cbn. by rewrite orb_true_r.
Qed.

(** Two closures lead to the same tick unless it reports a rebinding. *)
Lemma tick_rebind e now f g c2 c3 s st st' s' t' :
  sm_wf (manager st) -> tick e now f c2 c3 s st = (st', Ok (s', t')) ->
  existsb rebound_udp (t_events t') = false -> tick e now g c2 c3 s st = (st', Ok (s', t')).
Proof.
  intros Hst E Hno. rewrite <- E. unfold tick in *.
  destruct (retry_loop_total e now (sched_peers s) tick_default st Hst) as (st1 & t1 & E1 & Hw1 & _).
  unfold mbind at 1 in E. unfold M_bind at 1 in E. rewrite E1 in E.
  unfold mbind at 1, M_bind at 1. symmetry. unfold mbind at 1, M_bind at 1. rewrite E1.
  unfold mget in *. unfold mbind at 1 in E. unfold M_bind at 1 in E. unfold mbind at 1, M_bind at 1.
  symmetry. unfold mbind at 1, M_bind at 1. symmetry. cbv zeta in *.
  destruct (recovery_loop_rebind e now f g c2 (peer_stats_of st1) 0 (sched_peers s) t1 s st1 Hw1) as [Heq|Hr].
  - unfold mbind, M_bind. by rewrite Heq.
  - exfalso. destruct Hr as (s2 & t2 & ok & Er & Hev). unfold mbind in E. unfold M_bind at 1 in E.
    destruct (recovery_loop_total e now f c2 (peer_stats_of st1) 0 (sched_peers s) t1 s st1 Hw1) as (st2 & r2 & E2 & Hw2 & _).
    rewrite E2 in Er, E. cbn in Er. injection Er as ->.
    destruct (keepalive_loop_total e now c3 ok 0 (sched_peers s2) t2 s2 st2 Hw2) as (st3 & [s3 t3] & E3 & _ & Hev3 & _).
    cbn beta iota in E.
    rewrite E3 in E. injection E as <- <- <-. rewrite Hev3 in Hno. congruence.
Qed.
End Rebind.

(** ** Witnesses

    A transport and a device that follow a script. *)

Record Script := { inbox : list (bytes * SocketAddr); outbox : list (bytes * SocketAddr) }.

#[export] Instance script_transport : PacketTransport Script := {|
  send_to f a s := ({| inbox := inbox s; outbox := outbox s ++ [(f, a)] |}, Ok (len f));
  recv_from _ n s :=
    match inbox s with
    | [] => (s, Ok None)
    | (d, a) :: rest =>
        let d := take (Z.to_nat n) d in
        ({| inbox := rest; outbox := outbox s |}, Ok (Some ({| rp_bytes := len d; rp_source := a |}, d)))
    end;
  local_addr := mret (SA4 0 0); label := "script"; rebind_to_ephemeral := rebind_default |}.

#[export] Program Instance script_laws : TransportLaws Script := {|
  tr_ok s := Forall (fun m => bytes_ok m.1) (inbox s) |}.
Next Obligation. done. Qed.
Next Obligation.
  intros fuel n s Hn Hs. change (Forall (fun m => bytes_ok m.1) (inbox s)) in Hs. cbn. destruct (inbox s) as [|[d a] rest] eqn:E; cbn; rewrite ?E; [done|].
  inversion Hs; subst. split; [done|]. split; [done|]. unfold len. rewrite length_take. split; [lia|by apply Forall_take].
Qed.
Next Obligation. done. Qed.

Record ScriptTun := { to_read : list bytes; written : list bytes }.

#[export] Instance script_tun : TunDevice := {|
  Tun := ScriptTun;
  tun_read n s :=
    match to_read s with
    | [] => (s, Err (IoError WouldBlock "nothing to read"))
    | d :: rest => ({| to_read := rest; written := written s |}, Ok ((fun b => Z.land b 255) <$> take (Z.to_nat n) d))
    end;
  tun_write_all b s := ({| to_read := to_read s; written := written s ++ [b] |}, Ok tt) |}.

#[export] Program Instance script_tun_laws : TunLaws script_tun.
Next Obligation.
  intros n s Hn. cbn. destruct (to_read s) as [|d rest]; [done|]. cbn. split.
  - unfold len. rewrite length_fmap, length_take. lia.
  - apply Forall_fmap, Forall_forall. intros b _. apply land_255_byte.
Qed.
Next Obligation. done. Qed.

(** Peer [b] receives the three frames with which [a] opens a session and
    sends a packet. *)
Definition wit_script : Script :=
  {| inbox := [(sent wit_a1.2, wit_a_addr); (sent wit_a2.2, wit_a_addr); (sent wit_a4.2, wit_a_addr)]; outbox := [] |}.
Definition wit_turns : list (turn (T := Script)) := replicate 6 (Receiver 1 0 wit_clock).
Definition wit_tunnel : Tunnel (SN := ref_snow) (TD := script_tun) (T := Script) :=
  Tunnel_new (SN := ref_snow) (TD := script_tun) wit_scheduler wit_script {| to_read := []; written := [] |} 200.
Definition wit_run := run_turns (IN := ref_ipnet) (RS := ref_resolver) (SN := ref_snow) wit_eb true wit_turns wit_tunnel.

Lemma wit_run_wrote : wrote_of (trace wit_run.1) = [("a"%string, wit_a_addr, wit_packet, framed true wit_packet)].
Proof. reflexivity. Qed.

Lemma wit_script_ok : tr_ok wit_script.
Proof.
  change (Forall (fun m => bytes_ok m.1) (inbox wit_script)).
  repeat (apply Forall_cons_2; [cbn [fst]; bytes_tac|]). apply Forall_nil_2.
Qed.

Lemma wit_turns_ok : Forall turn_ok wit_turns.
Proof. by repeat (apply Forall_cons_2; [done|]). Qed.

Lemma tunnel_safe_witness :
  exists (t' : Tunnel (SN := ref_snow) (TD := script_tun) (T := Script)) rs, wit_run = (t', Ok tt) /\ length rs = 1%nat /\
    Forall2 (vouches (SN := ref_snow) true) rs [("a"%string, wit_a_addr, wit_packet, framed true wit_packet)].
Proof.
  destruct (tunnel_safe (RS := ref_resolver) (TD := script_tun) (SL := ref_snow_laws) wit_eb true wit_scheduler wit_script
    {| to_read := []; written := [] |} 200 wit_turns wit_script_ok wit_turns_ok) as (t' & E & _ & rs & _ & Hf).
  exists t', rs. split; [exact E|]. pose proof wit_run_wrote as Hw. unfold wit_run, wit_tunnel in Hw. rewrite E in Hw.
  cbn [fst] in Hw. rewrite Hw in Hf. split; [exact (Forall2_length _ _ _ Hf)|exact Hf].
Defined.
