(* ===== verification/TunnelStats.v ===== *)
(** * Transmitted bytes are counted exactly once

    The statistics a tunnel reports of the bytes it sent to a peer, against
    the frames the transport accepted.  The transport is wrapped so that it
    keeps a record of them ([recording]); [er_run_turns] shows that the record
    changes nothing, [run_turns_count] relates it to the counters. *)

From S2P Require Import Prelude Net Packet Auth PeerState Noise Sessions Std Config Router Engine Scheduler.
From S2P Require Import Transport Tunnel SessionInv TunnelProofs.

Section Engine.
Context {IN : IpNet} {B64 : Base64} {RS : Resolver} {SN : Snow}.

Definition tx_of (p : string) (st : EngineState) : u64 := default 0 (tx_bytes <$> peer_stats st !! p).

(** The engine's own methods count nothing as sent. *)
Definition keeps_tx {A} (m : M EngineState EngineError A) : Prop := forall st p, tx_of p (m st).1 = tx_of p st.

Lemma keeps_tx_stats {A} (m : M EngineState EngineError A) :
  (forall st, peer_stats (m st).1 = peer_stats st) -> keeps_tx m.
Proof. intros H st p. unfold tx_of. by rewrite H. Qed.

Lemma keeps_tx_bind {A B} (m : M EngineState EngineError A) (f : A -> M EngineState EngineError B) :
  keeps_tx m -> (forall a, keeps_tx (f a)) -> keeps_tx (m ≫= f).
Proof.
  intros Hm Hf st p. unfold mbind, M_bind. pose proof (Hm st p) as H.
  destruct (m st) as [st1 [a| |]]; cbn [fst] in *; [|done..]. by rewrite Hf.
Qed.

Lemma keeps_tx_ret {A} (a : A) : keeps_tx (mret a).
Proof. done. Qed.
Lemma keeps_tx_fail {A} err : keeps_tx (mfail (A := A) err).
Proof. done. Qed.
Lemma keeps_tx_get : keeps_tx mget.
Proof. done. Qed.
Lemma keeps_tx_lift {A} (o : outcome EngineError A) : keeps_tx (mlift o).
Proof. done. Qed.

Lemma keeps_tx_call {A} (m : M SessionState NoiseError A) : keeps_tx (call m).
Proof. apply keeps_tx_stats. intros st. unfold call. by destruct (m (manager st)). Qed.
Lemma keeps_tx_call_ok {A} (m : SessionState -> SessionState * A) : keeps_tx (call_ok m).
Proof. apply keeps_tx_stats. intros st. unfold call_ok. by destruct (m (manager st)). Qed.

(** A change of the statistics that keeps the counter of every peer. *)
Lemma keeps_tx_modify (f : gmap string PeerStats -> gmap string PeerStats) :
  (forall m p, default 0 (tx_bytes <$> f m !! p) = default 0 (tx_bytes <$> m !! p)) -> keeps_tx (mmodify (set_stats f)).
Proof. intros H st p. apply H. Qed.

Lemma insert_tx (m : gmap string PeerStats) q s p :
  tx_bytes s = tx_bytes (entry_or_default m q) ->
  default 0 (tx_bytes <$> <[q := s]> m !! p) = default 0 (tx_bytes <$> m !! p).
Proof.
  intros H. destruct (decide (q = p)) as [->|Hne]; [|by rewrite lookup_insert_ne].
  rewrite lookup_insert_eq. cbn. rewrite H. unfold entry_or_default. by destruct (m !! p).
Qed.

Lemma record_keepalive_tx m q src wall p :
  default 0 (tx_bytes <$> record_keepalive m q src wall !! p) = default 0 (tx_bytes <$> m !! p).
Proof. by apply insert_tx. Qed.
Lemma record_rx_tx m q src n wall p :
  default 0 (tx_bytes <$> record_rx m q src n wall !! p) = default 0 (tx_bytes <$> m !! p).
Proof. by apply insert_tx. Qed.
Lemma clear_endpoint_tx m q p :
  default 0 (tx_bytes <$> clear_endpoint m q !! p) = default 0 (tx_bytes <$> m !! p).
Proof.
  unfold clear_endpoint. destruct (m !! q) as [s|] eqn:E; [|done]. apply insert_tx. unfold entry_or_default. by rewrite E.
Qed.

Lemma initiate_peer_tx e q now : keeps_tx (initiate_peer e q now).
Proof. apply keeps_tx_stats. intros st. apply (initiate_peer_effects e q now st). Qed.

Ltac tx_step :=
  first [ apply keeps_tx_ret | apply keeps_tx_fail | apply keeps_tx_get | apply keeps_tx_lift | apply keeps_tx_call
        | apply keeps_tx_call_ok | apply initiate_peer_tx
        | apply keeps_tx_modify; intros; first [ apply record_keepalive_tx | apply record_rx_tx | apply clear_endpoint_tx ]
        | apply keeps_tx_bind; [|intros ?] | case_match ].
Ltac tx_tac := repeat tx_step.

Lemma send_or_initiate_tx e p m payload now : keeps_tx (send_or_initiate e p m payload now).
Proof.
  intros st q. unfold send_or_initiate. destruct (encrypt_for_peer _ _ _ _ _) as [s r].
  change (tx_of q st) with (tx_of q (set_manager s st)). generalize (set_manager s st) as st1. intros st1. revert st1 q.
  destruct r as [[frame|]|err|]; [| | |done]; match goal with |- forall st q, tx_of q (?m st).1 = _ => change (keeps_tx m) end; tx_tac.
Qed.

Lemma process_outbound_ip_tx e packet now : keeps_tx (process_outbound_ip e packet now).
Proof. unfold process_outbound_ip. tx_tac. apply send_or_initiate_tx. Qed.

Lemma decode_handshake_init_tx e hid msg wall : keeps_tx (decode_handshake_init e hid msg wall).
Proof.
  apply keeps_tx_stats. intros st. unfold decode_handshake_init. by destruct (try_respond _ _ _ _ _ _ _).
Qed.

Lemma process_inbound_transport_tx e frame src now clock : keeps_tx (process_inbound_transport e frame src now clock).
Proof.
  unfold process_inbound_transport, process_init, process_response, process_transport.
  tx_tac; try apply decode_handshake_init_tx; tx_tac.
Qed.

Lemma initiate_handshake_tx e p now : keeps_tx (initiate_handshake e p now).
Proof. unfold initiate_handshake. tx_tac. Qed.

Lemma create_keepalive_tx e p payload now : keeps_tx (create_keepalive e p payload now).
Proof. unfold create_keepalive. tx_tac. apply send_or_initiate_tx. Qed.

(** ** A maintenance tick *)

Lemma engine_push_tx t p op m : keeps_tx m -> keeps_tx (engine_push t p op m).
Proof. intros H st q. unfold engine_push. pose proof (H st q) as Hq. by destruct (m st). Qed.

Lemma retry_loop_tx e now peers t : keeps_tx (retry_loop e now peers t).
Proof.
  revert t. induction peers as [|p peers IH]; intros t; cbn [retry_loop]; [done|].
  apply keeps_tx_bind; [done|]. intros st. destruct (negb _); [apply IH|].
  apply keeps_tx_bind; [apply engine_push_tx, initiate_handshake_tx|]. intros t'. apply IH.
Qed.

Lemma recovery_loop_tx e now rebind clock snap i peers t s : keeps_tx (recovery_loop e now rebind clock snap i peers t s).
Proof.
  revert i t s. induction peers as [|p peers IH]; intros i t s st q; cbn [recovery_loop]; [done|].
  destruct (sp_recovery p) as [policy|]; [|apply IH].
  destruct (bool_decide _ || negb _); [apply IH|]. destruct (snap !! sp_name p ≫= last_seen) as [seen|]; [|apply IH].
  cbv zeta. destruct (negb (recovery_due _ _ _ _)); [apply IH|].
  destruct (if rebind_udp policy then _ else _) as [s1 ok]. revert st q.
  match goal with |- forall st q, tx_of q (?m st).1 = _ => change (keeps_tx m) end.
  apply keeps_tx_bind; [apply keeps_tx_call_ok|]. intros stale.
  apply keeps_tx_bind; [apply engine_push_tx, initiate_handshake_tx|done].
Qed.

Lemma keepalive_loop_tx e now clock rebound i peers t s : keeps_tx (keepalive_loop e now clock rebound i peers t s).
Proof.
  revert i t s. induction peers as [|p peers IH]; intros i t s st q; cbn [keepalive_loop]; [done|].
  cbv zeta. destruct (negb (keepalive_should_send _ _ _ _ _)); [apply IH|]. generalize (engine_has_active_session (sp_name p) (clock i) st).
  intros had. revert st q. match goal with |- forall st q, tx_of q (?m st).1 = _ => change (keeps_tx m) end.
  apply keeps_tx_bind; [apply engine_push_tx, create_keepalive_tx|]. intros t'. apply IH.
Qed.

Lemma tick_tx e now rebind c2 c3 s : keeps_tx (tick e now rebind c2 c3 s).
Proof.
  unfold tick. apply keeps_tx_bind; [apply retry_loop_tx|]. intros t. apply keeps_tx_bind; [done|]. intros st. cbv zeta.
  apply keeps_tx_bind; [apply recovery_loop_tx|]. intros [[s1 t1] rebound]. apply keepalive_loop_tx.
Qed.
End Engine.

(** ** A transport that keeps a record

    The same transport, with a list of the frames it accepted, oldest first:
    where each went and its bytes.  The record is the transport's own: it is
    written by [send_to], whoever calls it. *)

Section Recorder.
Context {T : Type} {PT : PacketTransport T}.

Definition record : Type := list (SocketAddr * bytes).
Definition aside {A} (m : M T io_error A) : M (T * record) io_error A := fun '(t, l) =>
  let '(t, r) := m t in ((t, l), r).
Definition recorded_send (frame : bytes) (endpoint : SocketAddr) : M (T * record) io_error usize := fun '(t, l) =>
  let '(t, r) := send_to frame endpoint t in ((t, if is_ok r then l ++ [(endpoint, frame)] else l), r).
#[export] Instance recording : PacketTransport (T * record) := {|
  send_to := recorded_send; recv_from fuel n := aside (recv_from fuel n); local_addr := aside local_addr;
  label := label; rebind_to_ephemeral := aside rebind_to_ephemeral |}.

Definition recorded_turn (x : turn (T := T)) : turn (T := T * record) :=
  match x with
  | Sender now => Sender now
  | Receiver fuel now clock => Receiver fuel now clock
  | Keeper now c2 c3 => Keeper now c2 c3
  | Background g => Background (fun '(t, l) => (g t, l))
  end.
End Recorder.

(** ** The record changes nothing *)

Section Erasure.
Context {IN : IpNet} {B64 : Base64} {RS : Resolver} {SN : Snow} {TD : TunDevice} {T : Type} {PT : PacketTransport T}.
Abbreviation TunnelT := (Tunnel (T := T)).
Abbreviation Recorded := (Tunnel (T := T * record)).
Abbreviation Step := (step (T := T)).
Abbreviation RStep := (step (T := T * record)).

Definition erase (t : Recorded) : TunnelT :=
  {| engine_state := engine_state t; engine_scheduler := engine_scheduler t; tun_transport := (tun_transport t).1;
     device := device t; tun_frame := tun_frame t; sending := sending t; receiving := receiving t;
     maintaining := maintaining t; trace := trace t |}.

(** The step with the record does what the step does. *)
Definition erases {A} (m' : RStep A) (m : Step A) : Prop := forall t, m (erase t) = (erase (m' t).1, (m' t).2).

Lemma er_ret {A} (a : A) : erases (mret a) (mret a).
Proof. done. Qed.
Lemma er_lift {A} (o : outcome Empty_set A) : erases (mlift o) (mlift o).
Proof. done. Qed.
Lemma er_bind {A B} (m' : RStep A) (m : Step A) (f' : A -> RStep B) (f : A -> Step B) :
  erases m' m -> (forall a, erases (f' a) (f a)) -> erases (m' ≫= f') (m ≫= f).
Proof. intros Hm Hf t. unfold mbind, M_bind. rewrite Hm. destruct (m' t) as [t1 [a| |]]; [apply Hf|done..]. Qed.
Lemma er_get {B} (f' : Recorded -> RStep B) (f : TunnelT -> Step B) :
  (forall t, f (erase t) (erase t) = (erase (f' t t).1, (f' t t).2)) -> erases (mget ≫= f') (mget ≫= f).
Proof. intros H t. exact (H t). Qed.
Lemma er_modify (g' : Recorded -> Recorded) (g : TunnelT -> TunnelT) :
  (forall t, g (erase t) = erase (g' t)) -> erases (mmodify g') (mmodify g).
Proof. intros H t. unfold mmodify. by rewrite H. Qed.
Lemma er_engine {A} (m : M EngineState EngineError A) : erases (on_engine m) (on_engine m).
Proof. intros t. unfold on_engine. cbn [engine_state erase]. by destruct (m (engine_state t)). Qed.
Lemma er_device {A} (m : M Tun io_error A) : erases (on_device m) (on_device m).
Proof. intros t. unfold on_device. cbn [device erase]. by destruct (m (device t)). Qed.
Lemma er_aside {A} (m : M T io_error A) : erases (on_transport (aside m)) (on_transport m).
Proof.
  intros t. unfold on_transport, aside. cbn [tun_transport erase]. destruct (tun_transport t) as [tr l]. cbn [fst]. by destruct (m tr).
Qed.
Lemma er_send f a : erases (on_transport (send_to f a)) (on_transport (send_to f a)).
Proof.
  intros t. unfold on_transport. cbn [tun_transport erase send_to recording recorded_send].
  destruct (tun_transport t) as [tr l]. unfold recorded_send. cbn [fst]. by destruct (send_to f a tr).
Qed.
Lemma er_or_continue {A} (m' : RStep (option A)) (m : Step (option A)) (k' : A -> RStep unit) (k : A -> Step unit) :
  erases m' m -> (forall a, erases (k' a) (k a)) -> erases (or_continue m' k') (or_continue m k).
Proof. intros Hm Hk. apply er_bind; [done|]. intros [a|]; [apply Hk|apply er_ret]. Qed.

Lemma er_send_frame p a f : erases (send_engine_frame p a f) (send_engine_frame p a f).
Proof. apply er_bind; [apply er_send|]. intros [n|]; [|apply er_ret]. by apply er_get. Qed.

Ltac er_step :=
  lazymatch goal with
  | |- erases (or_continue _ _) _ => apply er_or_continue; [|intros ?]
  | |- erases (_ ≫= _) _ => apply er_bind; [|intros ?]
  | |- erases (let _ := _ in _) _ => cbv zeta
  | |- _ => first [ apply er_ret | apply er_lift | apply er_aside | apply er_device | apply er_engine
                  | apply er_send_frame | apply er_modify; by intros | case_match ]
  end.
Ltac er_tac := repeat er_step.

Lemma er_log ip : erases (log_ipv4 ip) (log_ipv4 ip).
Proof. unfold log_ipv4. er_tac. Qed.
Lemma er_read e pi now : erases (read_tun e pi now) (read_tun e pi now).
Proof. unfold read_tun. er_tac. Qed.
Lemma er_forward ip a : erases (forward ip a) (forward ip a).
Proof. unfold forward. er_tac; apply er_log. Qed.

Lemma er_receive e fuel now clock : erases (receive e fuel now clock) (receive e fuel now clock).
Proof.
  unfold receive. apply er_or_continue; [apply er_aside|]. intros [[p d]|]; [|apply er_ret]. cbv zeta.
  apply er_bind; [apply er_lift|]. intros frame. apply er_or_continue; [apply er_ret|]. intros _.
  apply er_get. intros t. unfold mmodify, mbind, M_bind.
  change (note (Received (manager (engine_state (erase t))) frame (rp_source p) now) (erase t))
    with (erase (note (Received (manager (engine_state t)) frame (rp_source p) now) t)).
  revert t. assert (H : erases (or_continue (on_engine (process_inbound_transport e frame (rp_source p) now clock))
      (fun output => mmodify (set_receiving (actions output))))
    (or_continue (on_engine (process_inbound_transport e frame (rp_source p) now clock))
      (fun output => mmodify (set_receiving (actions output))))) by er_tac.
  intros t. apply H.
Qed.

Lemma er_deliver pi a : erases (deliver pi a) (deliver pi a).
Proof.
  unfold deliver. destruct a as [p a f|p a f]; [er_tac|]. apply er_bind; [apply er_lift|]. intros ip.
  apply er_bind; [apply er_log|]. intros _. apply er_get. intros t. cbn [tun_frame erase].
  generalize (tun_frame t) as b. intros b. revert t.
  match goal with |- forall t, ?m (erase t) = (erase (?m' t).1, _) => change (erases m' m) end. er_tac.
Qed.

Lemma er_maintain e now c2 c3 : erases (maintain e now c2 c3) (maintain e now c2 c3).
Proof.
  intros t. unfold maintain. cbn [tun_transport erase rebind_to_ephemeral recording]. unfold aside.
  destruct (tun_transport t) as [tr l] eqn:Etr. cbn [fst]. destruct (rebind_to_ephemeral tr) as [tr1 r].
  set (rebind := fun _ _ => _). unfold mlift, mmodify, mbind, M_bind, mret, M_ret. cbn [engine_scheduler engine_state erase].
  destruct (tick e now rebind c2 c3 (engine_scheduler t) (engine_state t)) as [st res].
  destruct res as [[s tk]| |]; cbn [expect_ok]; [|unfold erase; cbn; by rewrite Etr..].
  destruct (existsb rebound_udp (t_events tk)); [|unfold erase; cbn; by rewrite Etr].
  destruct (caught r); unfold erase; cbn; by rewrite ?Etr.
Qed.

Lemma er_take_turn e pi x : erases (take_turn e pi (recorded_turn x)) (take_turn e pi x).
Proof.
  apply er_get. intros t. destruct x as [now|fuel now clock|now c2 c3|g]; cbn [recorded_turn sending receiving maintaining erase].
  - destruct (sending t) as [|[ip a] rest]; [apply er_read|].
    apply (er_bind (mmodify (set_sending rest)) (mmodify (set_sending rest)) (fun _ => forward ip a) (fun _ => forward ip a));
      [by apply er_modify|intros; apply er_forward].
  - destruct (receiving t) as [|a rest]; [apply er_receive|].
    apply (er_bind (mmodify (set_receiving rest)) (mmodify (set_receiving rest)) (fun _ => deliver pi a) (fun _ => deliver pi a));
      [by apply er_modify|intros; apply er_deliver].
  - destruct (maintaining t) as [|a rest]; [apply er_maintain|]. cbn [engine_scheduler erase].
    apply (er_bind (mmodify (set_maintaining (engine_scheduler t) rest)) (mmodify (set_maintaining (engine_scheduler t) rest))
      (fun _ => send_engine_transport_output a) (fun _ => send_engine_transport_output a)); [by apply er_modify|].
    intros _. destruct a; cbn [send_engine_transport_output]; er_tac.
  - unfold mput, erase. cbn. by destruct (tun_transport t).
Qed.

Lemma er_run_turns e pi turns : erases (run_turns e pi (recorded_turn <$> turns)) (run_turns e pi turns).
Proof.
  induction turns as [|x turns IH]; [apply er_ret|]. cbn [fmap list_fmap run_turns].
  apply er_bind; [apply er_take_turn|intros _; apply IH].
Qed.
End Erasure.

(** ** The threads *)

Section Threads.
Context {IN : IpNet} {B64 : Base64} {RS : Resolver} {SN : Snow} {TD : TunDevice} {T : Type} {PT : PacketTransport T}.
Abbreviation Recorded := (Tunnel (T := T * record)).
Abbreviation RStep := (step (T := T * record)).

(** A frame that was sent: for whom, where to, and its bytes. *)
Definition shipment : Type := string * SocketAddr * bytes.
Definition on_wire (l : list shipment) : record := (fun '(_, endpoint, frame) => (endpoint, frame)) <$> l.

(** The bytes of the frames that were sent to a peer. *)
Definition sent_to (p : string) (l : list shipment) : Z :=
  foldr Z.add 0 ((fun '(q, _, frame) => if bool_decide (q = p) then len frame else 0) <$> l).

Lemma sent_to_snoc p l q a f : sent_to p (l ++ [(q, a, f)]) = sent_to p l + (if bool_decide (q = p) then len f else 0).
Proof. unfold sent_to. induction l as [|[[q' a'] f'] l IH]; cbn in *; [lia|]. rewrite IH. lia. Qed.

(** What waits to be sent by a thread. *)
Definition queued {U} (t : Tunnel (T := U)) : list EngineAction := (sending t).*2 ++ receiving t ++ maintaining t.

Section Counting.
Context (issued : string -> SocketAddr -> bytes -> Prop).

(** The record and the counters tell the same: each recorded frame was
    issued for some peer and counts for it, and nothing else counts. *)
Definition counted (t : Recorded) : Prop :=
  exists l, on_wire l = (tun_transport t).2 /\ Forall (fun '(p, a, f) => issued p a f) l /\
    forall p, tx_of p (engine_state t) = wrap 64 (sent_to p l).

(** A step keeps the count, whatever it returns. *)
Definition keeps_count {A} (m : RStep A) : Prop := forall t, counted t -> counted (m t).1.

Lemma kc_ret {A} (a : A) : keeps_count (mret a).
Proof. intros t Ht. exact Ht. Qed.
Lemma kc_lift {A} (o : outcome Empty_set A) : keeps_count (mlift o).
Proof. intros t Ht. exact Ht. Qed.
Lemma kc_mget : keeps_count mget.
Proof. intros t Ht. exact Ht. Qed.
Lemma kc_bind {A B} (m : RStep A) (f : A -> RStep B) :
  keeps_count m -> (forall a, keeps_count (f a)) -> keeps_count (m ≫= f).
Proof.
  intros Hm Hf t Ht. specialize (Hm t Ht). unfold mbind, M_bind.
  destruct (m t) as [t1 [a| |]]; cbn [fst] in *; [by apply Hf|done..].
Qed.

(** A change of the other fields. *)
Lemma kc_modify (g : Recorded -> Recorded) :
  (forall t, engine_state (g t) = engine_state t /\ (tun_transport (g t)).2 = (tun_transport t).2) -> keeps_count (mmodify g).
Proof. intros H t (l & H1 & H2 & H3). exists l. cbn. destruct (H t) as [-> ->]. done. Qed.

Lemma kc_engine {A} (m : M EngineState EngineError A) : keeps_tx m -> keeps_count (on_engine m).
Proof.
  intros H t (l & H1 & H2 & H3). exists l. unfold on_engine. pose proof (fun p => H (engine_state t) p) as Hp.
  destruct (m (engine_state t)) as [st r]. cbn [fst] in *. cbn. split_and!; [done..|]. intros p. by rewrite Hp.
Qed.
Lemma kc_aside {A} (m : M T io_error A) : keeps_count (on_transport (aside m)).
Proof.
  intros t (l & H1 & H2 & H3). exists l. unfold on_transport, aside.
  destruct (tun_transport t) as [tr k]. by destruct (m tr).
Qed.
Lemma kc_device {A} (m : M Tun io_error A) : keeps_count (on_device m).
Proof. intros t Ht. unfold on_device. by destruct (m (device t)). Qed.
Lemma kc_or_continue {A} (m : RStep (option A)) (k : A -> RStep unit) :
  keeps_count m -> (forall a, keeps_count (k a)) -> keeps_count (or_continue m k).
Proof. intros Hm Hk. apply kc_bind; [done|]. intros [a|]; [apply Hk|apply kc_ret]. Qed.

Lemma record_transport_sent_tx q p n st :
  tx_of q (record_transport_sent p n st) = if bool_decide (p = q) then wrap 64 (tx_of q st + n) else tx_of q st.
Proof.
  unfold tx_of, record_transport_sent, set_stats, record_tx. cbn [peer_stats]. case_bool_decide as E.
  - subst q. rewrite lookup_insert_eq. cbn. unfold add_u64, entry_or_default. by destruct (peer_stats st !! p).
  - by rewrite lookup_insert_ne.
Qed.

(** The record grows by the frame exactly if the counter does by its length. *)
Lemma send_engine_frame_count p a f : issued p a f -> keeps_count (send_engine_frame p a f).
Proof.
  intros Hi t (l & H1 & H2 & H3). unfold send_engine_frame, on_transport, mbind, M_bind.
  cbn [send_to recording]. unfold recorded_send. destruct (tun_transport t) as [tr k] eqn:Etr. cbn [snd] in H1.
  destruct (send_to f a tr) as [tr' [n|x|]]; cbn [caught is_ok]; [|by exists l..].
  exists (l ++ [(p, a, f)]). cbn. split_and!.
  - unfold on_wire in *. by rewrite fmap_app, H1.
  - apply Forall_app. split; [done|]. by constructor.
  - intros q. rewrite record_transport_sent_tx, sent_to_snoc, H3. unfold wrap.
    case_bool_decide; [by rewrite Z.add_mod_idemp_l by lia|by rewrite Z.add_0_r].
Qed.

Lemma log_ipv4_count ip : keeps_count (log_ipv4 ip).
Proof. unfold log_ipv4. repeat (apply kc_bind; [apply kc_lift|intros ?]). apply kc_ret. Qed.

(** Walk through the text of a step. *)
Ltac kc_step :=
  lazymatch goal with
  | |- keeps_count (or_continue _ _) => apply kc_or_continue; [|intros ?]
  | |- keeps_count (_ ≫= _) => apply kc_bind; [|intros ?]
  | |- keeps_count (on_engine _) => apply kc_engine; first [ apply process_outbound_ip_tx | apply process_inbound_transport_tx ]
  | |- keeps_count (let _ := _ in _) => cbv zeta
  | |- _ => first [ apply kc_ret | apply kc_lift | apply kc_mget | apply kc_aside | apply kc_device
                  | apply send_engine_frame_count; by eauto | apply log_ipv4_count | apply kc_modify; by intros | case_match ]
  end.
Ltac kc_tac := repeat kc_step.

Lemma read_tun_count e pi now : keeps_count (read_tun e pi now).
Proof. unfold read_tun. kc_tac. Qed.

Lemma receive_count e fuel now clock : keeps_count (receive e fuel now clock).
Proof. unfold receive. kc_tac. Qed.

(** An action that waits was issued. *)
Definition action_issued (a : EngineAction) : Prop :=
  match a with SendTransport p a f => issued p a f | WriteIpPacket _ _ _ => True end.

Lemma forward_count ip a : action_issued a -> keeps_count (forward ip a).
Proof. intros Ha. unfold forward. destruct a; kc_tac. Qed.

Lemma deliver_count pi a : action_issued a -> keeps_count (deliver pi a).
Proof. intros Ha. unfold deliver. destruct a; kc_tac. Qed.

Lemma maintain_count e now c2 c3 : keeps_count (maintain e now c2 c3).
Proof.
  intros t (l & H1 & H2 & H3). unfold maintain. cbn [rebind_to_ephemeral recording]. unfold aside.
  destruct (tun_transport t) as [tr k] eqn:Etr. destruct (rebind_to_ephemeral tr) as [tr1 r]. set (rebind := fun _ _ => _).
  unfold mlift, mmodify, mbind, M_bind, mret, M_ret.
  pose proof (tick_tx e now rebind c2 c3 (engine_scheduler t) (engine_state t)) as Htx.
  destruct (tick e now rebind c2 c3 (engine_scheduler t) (engine_state t)) as [st res]. cbn [fst] in Htx.
  assert (H : forall p, tx_of p st = wrap 64 (sent_to p l)) by (intros p; by rewrite Htx).
  destruct res as [[s tk]| |]; cbn [expect_ok]; [|exists l; cbn; by rewrite Etr..].
  destruct (existsb rebound_udp (t_events tk)); [|exists l; cbn; by rewrite Etr].
  destruct (caught r); exists l; cbn; by rewrite ?Etr.
Qed.

Lemma take_turn_count e pi x t :
  Forall action_issued (queued t) -> counted t -> counted (take_turn e pi (recorded_turn x) t).1.
Proof.
  unfold queued. rewrite !Forall_app. intros (Hs & Hr & Hm) Ht.
  unfold take_turn, mget. unfold mbind at 1, M_bind at 1. destruct x as [now|fuel now clock|now c2 c3|g]; cbn [recorded_turn].
  - destruct (sending t) as [|[ip a] rest]; [by apply read_tun_count|]. apply Forall_cons in Hs as [Ha _].
    revert t Hr Hm Ht. intros t _ _. apply kc_bind; [by apply kc_modify|intros; by apply forward_count].
  - destruct (receiving t) as [|a rest]; [by apply receive_count|]. apply Forall_cons in Hr as [Ha _].
    revert Ht. apply kc_bind; [by apply kc_modify|intros; by apply deliver_count].
  - destruct (maintaining t) as [|a rest]; [by apply maintain_count|]. apply Forall_cons in Hm as [Ha _].
    revert Ht. generalize (engine_scheduler t) as s. intros s. apply kc_bind; [by apply kc_modify|].
    intros _. destruct a; cbn [send_engine_transport_output]; kc_tac.
  - destruct Ht as (l & H1 & H2 & H3). exists l. unfold mput. cbn. by destruct (tun_transport t).
Qed.
End Counting.

Lemma run_turns_snoc {U} {PU : PacketTransport U} e pi turns x (t : Tunnel (T := U)) :
  (run_turns e pi (turns ++ [x]) t).1 = (run_turns e pi turns t).1 \/
  (run_turns e pi (turns ++ [x]) t).1 = (take_turn e pi x (run_turns e pi turns t).1).1.
Proof.
  revert t. induction turns as [|y turns IH]; intros t; cbn [app run_turns]; unfold mbind, M_bind.
  - right. unfold mret, M_ret. cbn [fst]. by destruct (take_turn e pi x t) as [t' [a| |]].
  - destruct (take_turn e pi y t) as [t' [a| |]]; [apply IH|by left..].
Qed.

(** A frame was issued if, after some of the turns, a thread had the engine's
    order to send it to that peer at that address. *)
Definition issued_in e pi (turns : list turn) (t : Tunnel (T := T)) (p : string) (a : SocketAddr) (f : bytes) : Prop :=
  exists k, SendTransport p a f ∈ queued (run_turns e pi (take k turns) t).1.

Lemma erased_run e pi turns (t : Recorded) :
  (run_turns e pi turns (erase t)).1 = erase (run_turns e pi (recorded_turn <$> turns) t).1.
Proof. by rewrite (er_run_turns e pi turns t). Qed.

Lemma run_turns_count e pi turns (t : Recorded) :
  (tun_transport t).2 = [] -> (forall p, tx_of p (engine_state t) = 0) ->
  forall k, counted (issued_in e pi turns (erase t)) (run_turns e pi (recorded_turn <$> take k turns) t).1.
Proof.
  intros Hl Htx k. induction k as [|k IH].
  { rewrite take_0. exists []. cbn. by rewrite Hl. }
  destruct (turns !! k) as [x|] eqn:Ex.
  2:{ apply lookup_ge_None in Ex. rewrite !take_ge in * by lia. exact IH. }
  rewrite (take_S_r _ _ _ Ex), fmap_app. change (recorded_turn <$> [x]) with [recorded_turn x].
  destruct (run_turns_snoc e pi (recorded_turn <$> take k turns) (recorded_turn x) t) as [->| ->]; [done|].
  apply take_turn_count; [|done]. apply Forall_forall. intros [p a f|p a f] Hin; [|done].
  exists k. by rewrite erased_run.
Qed.

(** C40: the statistics tell the truth about what was sent.  Run the threads
    over the transport itself and over the same transport keeping its own
    record of the frames it accepted: the record changes nothing, and every
    recorded frame can be assigned to a peer - one for which a thread had the
    engine's order to send just that frame to just that address - so that
    under every interleaving of the threads the transmitted bytes of each
    peer are the sum (in 64 bits) of the lengths of its frames.  So every frame
    the transport accepts is counted once, whichever thread sends it - data,
    handshake or keepalive - and failed sends are not counted. *)
Theorem tx_counts_frames e pi s tr d r turns :
  let t := (run_turns e pi turns (Tunnel_new s tr d r)).1 in
  let t' := (run_turns e pi (recorded_turn <$> turns) (Tunnel_new s (tr, []) d r)).1 in
  t = erase t' /\
  exists l, on_wire l = (tun_transport t').2 /\
    Forall (fun '(p, a, f) => issued_in e pi turns (Tunnel_new s tr d r) p a f) l /\
    forall p, tx_of p (engine_state t) = wrap 64 (sent_to p l).
Proof.
  cbv zeta. split; [exact (erased_run e pi turns (Tunnel_new s (tr, []) d r))|].
  destruct (run_turns_count e pi turns (Tunnel_new s (tr, []) d r) eq_refl ltac:(done) (length turns)) as (l & H1 & H2 & H3).
  rewrite take_ge in H1, H3 by done. exists l. split_and!; [done..|]. intros p.
  rewrite <- H3. pose proof (erased_run e pi turns (Tunnel_new s (tr, []) d r)) as E.
  exact (f_equal (fun t => tx_of p (engine_state t)) E).
Qed.
End Threads.

(** ** An example: the scripted run, in which peer [b] answers the handshake. *)

Definition wit_recorded : Tunnel (SN := ref_snow) (TD := script_tun) (T := Script * record) :=
  (run_turns (IN := ref_ipnet) (RS := ref_resolver) (SN := ref_snow) wit_eb true (recorded_turn <$> wit_turns)
     (Tunnel_new (SN := ref_snow) (TD := script_tun) wit_scheduler (wit_script, []) {| to_read := []; written := [] |} 200)).1.

Example scripted_run_counts :
  length (tun_transport wit_recorded).2 = 2%nat /\
  0 < tx_of "a" (engine_state wit_recorded) /\
  tx_of "a" (engine_state wit_recorded) = foldr Z.add 0 ((fun m => len m.2) <$> (tun_transport wit_recorded).2).
Proof. repeat split; reflexivity. Qed.
