(* ===== verification/Lifecycle.v ===== *)
(** * Starting and stopping the tunnel ([src/src/tunnel.rs])

    What [run] does before its threads start and after they end: the TUN
    device, the transport, the routes, the exit-node firewall, the signal
    handlers, and [Cleanup], which takes routes and firewall back.  [Routing]
    and [Firewall] act on one host; that neither disturbs the other is the
    documented behaviour of the programs they run ([HostFrame]). *)

From Stdlib Require Import Ascii.
From S2P Require Import Prelude Net Std Config Router Noise Engine Scheduler Transport TcpTransport Os Iptables RefHost.
From S2P Require Import Routing.
From S2P Require Import Firewall.
Open Scope Z_scope.

(** ** The device *)

(** [ipnet]'s netmask. *)
Class NetMask {IN : IpNet} := { netmask : Ipv4Net -> u32 }.

(** The builder's settings; [tun::create] takes them. *)
Record TunConfiguration := {
  tc_name : string; tc_address : u32; tc_netmask : u32; tc_mtu : Z; tc_up : bool;
  tc_packet_information : option bool }.

Class TunCrate {OS : Os} := {
  Device : Type;
  tun_create : TunConfiguration -> World -> World * outcome Transport.io_error Device;
  has_packet_information : Device -> bool }.

(** ** Signals

    The process's signal state: [libc] returns whether a call succeeded,
    [last_os_error] is read after a failure. *)

Definition SIGHUP : Z := 1.
Definition SIGINT : Z := 2.
Definition SIGTERM : Z := 15.

Class Signals := {
  Process : Type;
  sigemptyset : option (list Z);
  sigaddset : Z -> list Z -> option (list Z);
  signal_default : Z -> Process -> Process * bool;
  unblock : list Z -> Process -> Process * Z;
  last_os_error : Process -> Transport.io_error;
  from_raw_os_error : Z -> Transport.io_error;
  register_handlers : list Z -> Process -> Process * outcome Transport.io_error unit }.

Section Normalize.
Context {SG : Signals}.

(** The loop over the signals, with the set built so far. *)
Fixpoint reset_signals (sigs : list Z) (set : list Z) : M Process Transport.io_error (list Z) := fun p =>
  match sigs with
  | [] => (p, Ok set)
  | s :: sigs =>
      let '(p, ok) := signal_default s p in
      if negb ok then (p, Err (last_os_error p)) else
      match sigaddset s set with
      | None => (p, Err (last_os_error p))
      | Some set => reset_signals sigs set p
      end
  end.

Definition shutdown_signals : list Z := [SIGHUP; SIGINT; SIGTERM].

Definition unblock_signals (set : list Z) : M Process Transport.io_error unit := fun p =>
  let '(p, result) := unblock set p in
  if negb (result =? 0) then (p, Err (from_raw_os_error result)) else (p, Ok tt).

Definition normalize_shutdown_signal_state : M Process Transport.io_error unit := fun p =>
  match sigemptyset with
  | None => (p, Err (last_os_error p))
  | Some set => (set ← reset_signals shutdown_signals set; unblock_signals set) p
  end.
End Normalize.

(** ** Cleanup *)

Section Cleanup.
Context {IN : IpNet} {ND : NetDisplay} {OS : Os} {RP : RoutePlatform} {FS : ForwardSwitch}.

(** The two cells behind their mutexes, shared with the signal thread. *)
Record Cleanup := { c_routes : list InstalledRoute; c_firewall : option FirewallManager }.
Definition Cleanup_empty : Cleanup := {| c_routes := []; c_firewall := None |}.

(** What could not be taken back: routes, rules, the forwarding switch. *)
Definition Leftover : Type := list InstalledRoute * list IptablesRule * bool.

(** [Cleanup::run]: take the routes, delete them, take the firewall, clean it
    up. *)
Definition cleanup_run (c : Cleanup) (w : World) : Cleanup * World * outcome anyhow Leftover :=
  let routes := c_routes c in
  let c := {| c_routes := []; c_firewall := c_firewall c |} in
  match cleanup_routes routes w with
  | (w, Ok failed) =>
      let firewall := c_firewall c in
      let c := {| c_routes := c_routes c; c_firewall := None |} in
      match firewall with
      | None => (c, w, Ok (failed, [], false))
      | Some f => let '(f, r) := Firewall.cleanup (Firewall.set_world w f) in
                  (c, Firewall.world f, (fun x => (failed, x.1, x.2)) <$> r)
      end
  | (w, Err e) => (c, w, Err e)
  | (w, Panic) => (c, w, Panic)
  end.
End Cleanup.

(** ** Startup *)

(** [TcpListener::try_clone]. *)
Class ListenerClone := { listener_try_clone : SocketAddr -> outcome Transport.io_error unit }.

Section Startup.
Context {IN : IpNet} {B64 : Base64} {RS : Resolver} {SN : Snow} {ND : NetDisplay} {NM : NetMask}.
Context {UO : UdpOs} {TO : TcpOs} {LC : ListenerClone} {OS : Os} {TC : TunCrate} {SG : Signals}.
Context {RP : RoutePlatform} {FS : ForwardSwitch}.

Inductive StartError :=
| StartRouter (e : RouterError)
| StartEngine (e : EngineError)
| StartIo (e : Transport.io_error)
| StartSystem (e : list string).

(** The host and this process. *)
Record Machine := { host : World; process : Process }.
Definition set_host (w : World) (m : Machine) : Machine := {| host := w; process := process m |}.
Definition on_host {A} (f : World -> World * outcome (list string) A) : M Machine StartError A := fun m =>
  let '(w, r) := f (host m) in (set_host w m, map_err StartSystem r).
Definition on_process {A} (f : M Process Transport.io_error A) : M Machine StartError A := fun m =>
  let '(p, r) := f (process m) in ({| host := host m; process := p |}, map_err StartIo r).

(** [create_tun] on Linux, which asks for no packet information. *)
Definition tun_configuration (config : Config) : TunConfiguration :=
  {| tc_name := if_name (interface config); tc_address := net_addr (address (interface config));
     tc_netmask := netmask (address (interface config)); tc_mtu := mtu (interface config); tc_up := true;
     tc_packet_information := Some false |}.

Definition create_tun (config : Config) : M Machine StartError (Device * bool) := fun m =>
  let '(w, r) := tun_create (tun_configuration config) (host m) in
  (set_host w m,
   device ← map_err StartSystem
     (context ("failed to create TUN interface " +:+ if_name (interface config)) (of_io r));
   Ok (device, has_packet_information device)).

(** A fresh manager's [setup]; on an error the manager is dropped. *)
Definition setup_routes (config : Config) (router : Router) : M Machine StartError (list InstalledRoute) :=
  on_host (fun w =>
    let '(m, r, _) := Routing.setup router (RouteManager_new w (if_name (interface config))) in
    (Routing.world m, (fun _ => installed m) <$> r)).

Definition setup_firewall (config : Config) (exit_node : bool) : M Machine StartError (option FirewallManager) :=
  if exit_node then
    on_host (fun w =>
      let subnet := subnet_cidr (address (interface config)) in
      let '(m, r) := Firewall.setup (FirewallManager_new w (if_name (interface config)) subnet) in
      (Firewall.world m, (fun _ => Some m) <$> r))
  else mret None.

Definition AnyTransport : Type := UdpTransport + TcpTransport.
Definition any_local_addr (t : AnyTransport) : outcome Transport.io_error SocketAddr :=
  match t with inl t => (udp_local t).2 | inr t => Ok (listener t) end.
Definition try_clone_box (t : AnyTransport) : outcome Transport.io_error AnyTransport :=
  match t with
  | inl t => Ok (inl t)
  | inr t => _ ← listener_try_clone (listener t); Ok (inr t)
  end.

(** What the threads get; the two clones of a transport share its state. *)
Record Running := {
  r_engine : Engine;
  r_scheduler : EngineScheduler;
  r_device : Device;
  r_packet_information : bool;
  r_transport : AnyTransport;
  r_cleanup : Cleanup }.

(** [run] until the threads are spawned. *)
Definition startup (config : Config) (exit_node : bool) : M Machine StartError Running :=
  router ← mlift (map_err StartRouter (Router_new config));
  engine ← mlift (map_err StartEngine (with_router config router));
  let engine_scheduler := EngineScheduler_new config in
  '(device, packet_information) ← create_tun config;
  transport ← mlift (map_err StartIo (bind config));
  installed_routes ← setup_routes config router;
  firewall ← setup_firewall config exit_node;
  let cleanup := {| c_routes := installed_routes; c_firewall := firewall |} in
  _ ← on_process normalize_shutdown_signal_state;
  _ ← on_process (register_handlers [SIGINT; SIGTERM; SIGHUP]);
  _ ← mlift (map_err StartIo (any_local_addr transport));
  _ ← mlift (map_err StartIo (try_clone_box transport));
  _ ← mlift (map_err StartIo (try_clone_box transport));
  mret {| r_engine := engine; r_scheduler := engine_scheduler; r_device := device;
          r_packet_information := packet_information; r_transport := transport; r_cleanup := cleanup |}.
End Startup.

(** What the signal thread does after the cleanup: the exit status. *)
Definition exit_status (sig : Z) : Z := if sig =? SIGHUP then 1 else 0.

(** ** Neither half disturbs the other *)

Section Quiet.
Context {OS : Os} (R : World -> World -> Prop) {RPre : PreOrder R}.

(** A computation that moves the host only along [R]. *)
Definition quiet {A} (m : M World (list string) A) : Prop := forall w, R w (m w).1.

Lemma quiet_ret {A} (a : A) : quiet (mret a).
Proof. by intros w. Qed.
Lemma quiet_fail {A} e : quiet (mfail (A := A) e).
Proof. by intros w. Qed.
Lemma quiet_lift {A} (o : outcome (list string) A) : quiet (mlift o).
Proof. by intros w. Qed.

Lemma quiet_bind {A B} (m : M World (list string) A) (f : A -> M World (list string) B) :
  quiet m -> (forall a, quiet (f a)) -> quiet (m ≫= f).
Proof.
  intros Hm Hf w. unfold mbind, M_bind. specialize (Hm w). destruct (m w) as [w1 [a| |]]; cbn [fst] in *; [|done..].
  etrans; [done|]. apply Hf.
Qed.

Lemma quiet_context {A} c (m : M World (list string) A) : quiet m -> quiet (mcontext c m).
Proof. intros H w. unfold mcontext. specialize (H w). by destruct (m w). Qed.

Lemma quiet_output what program args : (forall w, R w (exec program args w).1) -> quiet (output what program args).
Proof. intros H w. unfold output. specialize (H w). by destruct (exec program args w). Qed.

Lemma quiet_run_status what failed program args :
  (forall w, R w (exec program args w).1) -> quiet (run_status what failed program args).
Proof.
  intros H. apply quiet_bind; [by apply quiet_output|]. intros o. destruct (negb (success o)); [apply quiet_fail|apply quiet_ret].
Qed.

(** *** The route manager *)

Class PlatformQuiet (RP : RoutePlatform) := {
  q_add_dev : forall p d, quiet (add_route_to_dev p d);
  q_add_host_via : forall h g d, quiet (add_host_route_via h g d);
  q_add_host_dev : forall h d, quiet (add_host_route_dev h d);
  q_add_prefix_via : forall p g d, quiet (add_prefix_route_via p g d);
  q_add_prefix_dev : forall p d, quiet (add_prefix_route_dev p d);
  q_del_tun : forall p d, quiet (del_tun_route p d);
  q_del_prefix : forall p d, quiet (del_prefix_exception p d);
  q_del_host : forall h, quiet (del_host_route h);
  q_get : forall dst, quiet (get_route_info dst) }.

Lemma linux_platform_quiet : (forall args w, R w (exec "ip" ("route"%string :: args) w).1) -> PlatformQuiet Routing.Linux.linux_routes.
Proof.
  intros H.
  assert (Hdel : forall args p dev, quiet (Routing.Linux.delete_linux_route ("route"%string :: args) p dev)).
  { intros args p dev. unfold Routing.Linux.delete_linux_route. generalize (@None Output) (@None (list string)).
    induction Routing.Linux.ATTEMPTS as [|n IH]; intros lf le; cbn [Routing.Linux.delete_attempts].
    - unfold Routing.Linux.delete_failed. destruct lf as [o|]; [destruct le; apply quiet_fail|apply quiet_lift].
    - apply quiet_bind; [by apply quiet_output|]. intros o. destruct (success o); [apply quiet_ret|]. intros w.
      assert (Hex : R w (Routing.Linux.linux_route_exists p dev w).1).
      { apply quiet_bind; [by apply quiet_output|]. intros o'. destruct (negb _); [apply quiet_fail|apply quiet_ret]. }
      destruct (Routing.Linux.linux_route_exists p dev w) as [w1 [[]|e|]]; cbn [fst] in *; try done; (etrans; [done|]; apply IH). }
  split; intros; cbn; try (by apply quiet_run_status); try (apply Hdel).
  apply quiet_bind; [by apply quiet_output|]. intros o. apply quiet_bind; [apply quiet_lift|]. intros line.
  destruct (Routing.Linux.scan_route _ _ _) as [g d]. apply quiet_bind; [apply quiet_lift|]. intros d'. apply quiet_ret.
Qed.

Section Routes.
Context {IN : IpNet} {ND : NetDisplay} {RS : Resolver} {RP : RoutePlatform} {PQ : PlatformQuiet RP}.

Definition rquiet {A} (f : M RouteManager (list string) A) : Prop := forall m, R (Routing.world m) (Routing.world (f m).1).

Lemma rquiet_ret {A} (a : A) : rquiet (mret a).
Proof. by intros m. Qed.
Lemma rquiet_get : rquiet mget.
Proof. by intros m. Qed.
Lemma rquiet_bind {A B} (f : M RouteManager (list string) A) (g : A -> M RouteManager (list string) B) :
  rquiet f -> (forall a, rquiet (g a)) -> rquiet (f ≫= g).
Proof.
  intros Hf Hg m. unfold mbind, M_bind. specialize (Hf m). destruct (f m) as [m1 [a| |]]; cbn [fst] in *; [|done..].
  etrans; [done|]. apply Hg.
Qed.
Lemma rquiet_sys {A} (f : M World (list string) A) : quiet f -> rquiet (Routing.sys f).
Proof. intros H m. unfold Routing.sys. specialize (H (Routing.world m)). by destruct (f (Routing.world m)). Qed.
Lemma rquiet_push k s t : rquiet (push k s t).
Proof. by intros m. Qed.

Ltac rq_step :=
  lazymatch goal with
  | |- rquiet (_ ≫= _) => apply rquiet_bind; [|intros ?]
  | |- rquiet (Routing.sys _) => apply rquiet_sys
  | |- quiet (mcontext _ _) => apply quiet_context
  | |- rquiet (let _ := _ in _) => cbv zeta
  | |- _ => first [ apply rquiet_ret | apply rquiet_get | apply rquiet_push | apply q_add_dev | apply q_add_host_via
                  | apply q_add_host_dev | apply q_add_prefix_via | apply q_add_prefix_dev | apply q_get | case_match ]
  end.

Lemma setup_inner_quiet router : rquiet (setup_inner router).
Proof.
  assert (Ht : forall p, rquiet (add_tun_route p)) by (intros; unfold add_tun_route; repeat rq_step).
  assert (He : forall ip, rquiet (add_endpoint_exception ip)) by (intros; unfold add_endpoint_exception; repeat rq_step).
  assert (Hp : forall p, rquiet (add_prefix_exception p)) by (intros; unfold add_prefix_exception; repeat rq_step).
  unfold setup_inner. apply rquiet_bind; [|intros _; apply rquiet_bind; [|intros _]].
  - generalize (@nil Ipv4Net). induction (excluded_routes router) as [|x xs IH]; intros seen; cbn [install_exclusions]; [apply rquiet_ret|].
    destruct (bool_decide _); [apply IH|]. apply rquiet_bind; [apply Hp|intros _; apply IH].
  - induction (endpoint_exception_peers router) as [|p ps IH]; cbn [install_exceptions]; [apply rquiet_ret|].
    apply rquiet_bind; [apply He|intros _; apply IH].
  - induction (routes router) as [|r rs IH]; cbn [install_routes]; [apply rquiet_ret|].
    apply rquiet_bind; [|intros _; apply IH]. unfold install_route.
    repeat case_match; [apply rquiet_bind; [apply Ht|intros _; apply Ht]|apply Ht..].
Qed.

Lemma cleanup_routes_quiet rs : quiet (cleanup_routes rs).
Proof.
  unfold cleanup_routes. induction (rev rs) as [|r l IH]; intros w; cbn [cleanup_loop]; [done|].
  assert (Hd : R w (delete_entry r w).1).
  { unfold delete_entry. destruct (kind r); [apply q_del_tun|apply q_del_host|apply q_del_prefix]. }
  destruct (delete_entry r w) as [w1 x]. cbn [fst] in Hd. specialize (IH w1).
  destruct (cleanup_loop l w1) as [w2 rest]. cbn [fst] in IH. destruct x; cbn; [by etrans..|done].
Qed.
End Routes.

(** *** The firewall manager *)

Section Rules.
Context {FS : ForwardSwitch}.
Context (Hipt : forall args w, R w (exec "iptables" args w).1).
Context (Hread : quiet read_ip_forward) (Hwrite : forall v, quiet (write_ip_forward v)).

Definition fquiet {A} (f : M FirewallManager (list string) A) : Prop := forall m, R (Firewall.world m) (Firewall.world (f m).1).

Lemma fquiet_bind {A B} (f : M FirewallManager (list string) A) (g : A -> M FirewallManager (list string) B) :
  fquiet f -> (forall a, fquiet (g a)) -> fquiet (f ≫= g).
Proof.
  intros Hf Hg m. unfold mbind, M_bind. specialize (Hf m). destruct (f m) as [m1 [a| |]]; cbn [fst] in *; [|done..].
  etrans; [done|]. apply Hg.
Qed.
Lemma fquiet_sys {A} (f : M World (list string) A) : quiet f -> fquiet (Firewall.sys f).
Proof. intros H m. unfold Firewall.sys. specialize (H (Firewall.world m)). by destruct (f (Firewall.world m)). Qed.
Lemma fquiet_try {A} (f : M World (list string) A) : quiet f -> fquiet (Firewall.try f).
Proof. intros H m. unfold Firewall.try. specialize (H (Firewall.world m)). by destruct (f (Firewall.world m)) as [w []]. Qed.

Lemma add_rule_quiet r : fquiet (add_iptables_rule r).
Proof.
  unfold add_iptables_rule. apply fquiet_bind; [apply fquiet_sys; unfold run_iptables; by apply quiet_output|]. intros o m. by destruct (negb _).
Qed.

Lemma firewall_setup_quiet : fquiet Firewall.setup.
Proof.
  unfold Firewall.setup. apply fquiet_bind; [by intros m|]. intros m0. cbv zeta. apply fquiet_bind.
  - unfold enable_ip_forward. apply fquiet_bind; [by apply fquiet_try|]. intros original.
    apply fquiet_bind; [by intros m|]. intros _. destruct (bool_decide _); [by intros m|]. by apply fquiet_sys.
  - intros _. do 2 (apply fquiet_bind; [apply add_rule_quiet|intros _]). apply add_rule_quiet.
Qed.

Lemma firewall_cleanup_quiet (f : FirewallManager) : R (Firewall.world f) (Firewall.world (Firewall.cleanup f).1).
Proof.
  assert (Hr : forall rs, quiet (cleanup_rules rs)).
  { induction rs as [|r rs IH]; intros w; cbn [cleanup_rules]; [done|].
    assert (Hd : R w (del_iptables_rule r w).1).
    { apply quiet_bind; [unfold run_iptables; by apply quiet_output|]. intros o. destruct (negb _); [apply quiet_fail|apply quiet_ret]. }
    destruct (del_iptables_rule r w) as [w1 x]. cbn [fst] in Hd. specialize (IH w1).
    destruct (cleanup_rules rs w1) as [w2 rest]. cbn [fst] in IH. destruct x; cbn; [by etrans..|done]. }
  unfold Firewall.cleanup. specialize (Hr (rules f) (Firewall.world f)).
  destruct (cleanup_rules (rules f) (Firewall.world f)) as [w1 [failed|e|]]; cbn [fst] in Hr; [|done..].
  destruct (original_ip_forward f) as [v|]; [|done]. specialize (Hwrite v w1).
  destruct (write_ip_forward v w1) as [w2 [[]|e|]]; cbn [fst] in *; cbn; by etrans.
Qed.
End Rules.
End Quiet.

(** ** Start, then stop *)

Section Views.
Context {OS : Os} {RT : RouteTable} {PF : PacketFilter} {HV : HostView}.

Definition table_same (w w' : World) : Prop := Routing.table w' = Routing.table w.
Definition filter_same (w w' : World) : Prop := rules_same w w' /\ forwarding w' = forwarding w.

#[export] Instance table_same_preorder : PreOrder table_same.
Proof. split; [done|]. intros w1 w2 w3. unfold table_same. congruence. Qed.
#[export] Instance filter_same_preorder : PreOrder filter_same.
Proof. split; [done|]. intros w1 w2 w3 [H1 H2] [J1 J2]. split; [by etrans|congruence]. Qed.

(** The two halves of the host are independent. *)
Class HostFrame (RP : RoutePlatform) (FS : ForwardSwitch) := {
  frame_routes :: PlatformQuiet filter_same RP;
  frame_iptables : forall args w, table_same w (exec "iptables" args w).1;
  frame_read : quiet table_same read_ip_forward;
  frame_write : forall v, quiet table_same (write_ip_forward v) }.

(** On Linux: [ip route] does not touch the packet filter or the forwarding
    switch; [iptables] and [sysctl] do not touch the routing table. *)
Class LinuxFrame := {
  lf_ip : forall args w, filter_same w (exec "ip" ("route"%string :: args) w).1;
  lf_iptables : forall args w, table_same w (exec "iptables" args w).1;
  lf_sysctl : forall args w, table_same w (exec "sysctl" args w).1 }.

#[export] Instance linux_frame {LF : LinuxFrame} : HostFrame Routing.Linux.linux_routes Firewall.Linux.linux_switch.
Proof.
  split.
  - apply linux_platform_quiet; [apply filter_same_preorder|apply lf_ip].
  - apply lf_iptables.
  - by intros w.
  - intros v. apply quiet_run_status; [apply table_same_preorder|apply lf_sysctl].
Qed.
End Views.

Section Properties.
Context {IN : IpNet} {B64 : Base64} {RS : Resolver} {SN : Snow} {ND : NetDisplay} {NM : NetMask}.
Context {UO : UdpOs} {TO : TcpOs} {LC : ListenerClone} {OS : Os} {TC : TunCrate} {SG : Signals}.
Context {RP : RoutePlatform} {FS : ForwardSwitch} {RT : RouteTable} {PF : PacketFilter} {HV : HostView}.
Context {RL : RouteLaws RP RT} {IL : IptablesLaws PF HV "iptables" nil} {SW : SwitchLaws PF HV FS} {HF : HostFrame RP FS}.

(** What a tunnel has put on the host, from its state [w0] before. *)
Record taken (w0 w : World) (c : Cleanup) : Prop := {
  taken_routes : added (Routing.table w0) (Routing.table w) (c_routes c);
  taken_filter : match c_firewall c with
                 | None => filter_same w0 w
                 | Some f => rules_ok w0 (Firewall.set_world w f)
                 end }.

(** [cleanup_run] gives everything back but what the system refuses. *)
Lemma cleanup_run_spec w0 w c :
  taken w0 w c ->
  exists w' routes rules stuck, cleanup_run c w = (Cleanup_empty, w', Ok (routes, rules, stuck)) /\
    (forall k, k ∉ rkey <$> routes -> Routing.table w' !! k = Routing.table w0 !! k) /\
    (forall k e, Routing.table w0 !! k = Some e -> Routing.table w' !! k = Some e) /\
    (forall loc, chain_rules w' loc ≡ₚ chain_rules w0 loc ++ added_at rules loc) /\
    (rules = [] -> forall loc,
       (forall x, x ∈ added_at (from_option Firewall.rules [] (c_firewall c)) loc -> x ∉ chain_rules w0 loc) ->
       chain_rules w' loc = chain_rules w0 loc) /\
    (stuck = false -> (forall f, c_firewall c = Some f -> original_ip_forward f <> None) ->
       forwarding w' = forwarding w0).
Proof.
  intros [Hr Hf]. destruct (cleanup_restores _ _ _ Hr) as (w1 & failed & Ec & _ & Hk & Hold).
  pose proof (cleanup_routes_quiet filter_same (c_routes c) w) as Hq. unfold cleanup_run. rewrite Ec in *.
  cbn [fst] in Hq. cbn [c_routes c_firewall].
  destruct (c_firewall c) as [f|].
  - assert (Hf1 : rules_ok w0 (Firewall.set_world w1 f)).
    { destruct Hf as (H1 & H2 & H3). split_and!; [|done..]. eapply appended_same; [done|]. apply Hq. }
    destruct (cleanup_spec _ _ Hf1) as (f' & rules & stuck & E & J1 & J2 & J3).
    pose proof (firewall_cleanup_quiet table_same frame_iptables frame_write (Firewall.set_world w1 f)) as Ht.
    rewrite E in *. cbn [fst snd Firewall.world Firewall.set_world] in Ht. unfold table_same in Ht.
    exists (Firewall.world f'), failed, rules, stuck. split; [done|]. rewrite Ht. split_and!; try done.
    intros Hs Ho. apply J3; [done|]. exact (Ho f eq_refl).
  - destruct Hf as [Hf1 Hf2]. destruct Hq as [Hq1 Hq2]. exists w1, failed, [], false. split_and!; try done.
    + intros loc. by rewrite Hq1, Hf1, app_nil_r.
    + intros _ loc _. by rewrite Hq1, Hf1.
    + intros _ _. congruence.
Qed.

Lemma setup_routes_taken config router m m' l :
  setup_routes config router m = (m', Ok l) ->
  taken (host m) (host m') {| c_routes := l; c_firewall := None |} /\ shape <$> l = planned router.
Proof.
  unfold setup_routes, on_host, Routing.setup. set (m0 := RouteManager_new (host m) _).
  pose proof (setup_inner_spec router (host m) (if_name (interface config))) as H. fold m0 in H.
  pose proof (setup_inner_quiet filter_same router m0) as Hq.
  destruct (setup_inner router m0) as [m1 [[]|e|]]; cbn [fst] in Hq; [|by destruct (cleanup_routes _ _) as [? []]|done].
  destruct H as (H1 & _ & H2). intros [= <- <-]. cbn. split; [split; [done|exact Hq]|by apply H2].
Qed.

Lemma setup_firewall_taken config exit_node w0 m m' l fw :
  taken w0 (host m) {| c_routes := l; c_firewall := None |} -> setup_firewall config exit_node m = (m', Ok fw) ->
  taken w0 (host m') {| c_routes := l; c_firewall := fw |} /\
  (exit_node = false -> fw = None /\ host m' = host m) /\
  (exit_node = true -> forwarding (host m') = "1"%string /\
     exists f, fw = Some f /\
       Firewall.rules f = exit_rules (if_name (interface config)) (subnet_cidr (address (interface config)))).
Proof.
  intros [H1 [H2 H3]]. unfold setup_firewall. destruct exit_node; [|intros [= <- <-]; by split_and!].
  unfold on_host. set (fm0 := FirewallManager_new _ _ _).
  pose proof (setup_spec (host m) (if_name (interface config)) (subnet_cidr (address (interface config)))) as H. fold fm0 in H.
  pose proof (firewall_setup_quiet table_same frame_iptables frame_read frame_write fm0) as Ht.
  destruct (Firewall.setup fm0) as [fm x]. cbn [fst] in Ht. destruct H as (J1 & _ & J3 & J4 & J5).
  destruct x as [[]|e|]; [|done..]. intros [= <- <-]. destruct (J5 eq_refl) as [J6 J7].
  cbn [host set_host c_routes c_firewall]. split_and!; [split|done|by eauto].
  - cbn [c_routes]. unfold table_same in Ht. by rewrite Ht.
  - cbn [c_firewall]. split_and!.
    + intros loc. cbn. rewrite J1. by rewrite H2.
    + by eapply prefix_not_number.
    + intros v Hv. rewrite (J3 v Hv). exact H3.
Qed.

(** What a successful start has done. *)
Lemma startup_taken config exit_node m m' run :
  startup config exit_node m = (m', Ok run) ->
  exists router md dev, Router_new config = Ok router /\ create_tun config m = (md, Ok dev) /\
    taken (host md) (host m') (r_cleanup run) /\ shape <$> c_routes (r_cleanup run) = planned router /\
    (exit_node = false -> c_firewall (r_cleanup run) = None) /\
    (exit_node = true -> forwarding (host m') = "1"%string /\
       exists f, c_firewall (r_cleanup run) = Some f /\
         Firewall.rules f = exit_rules (if_name (interface config)) (subnet_cidr (address (interface config)))).
Proof.
  unfold startup. intros (m1 & router & Er & E)%bind_ok. apply bind_ok in E as (m2 & engine & Ee & E). cbv zeta in E.
  apply bind_ok in E as (md & [device pi] & Ed & E). apply bind_ok in E as (m4 & transport & Et & E).
  apply bind_ok in E as (m5 & l & El & E). apply bind_ok in E as (m6 & fw & Ef & E).
  apply bind_ok in E as (m7 & u1 & En & E). apply bind_ok in E as (m8 & u2 & Eh & E).
  apply bind_ok in E as (m9 & u3 & E3 & E). apply bind_ok in E as (m10 & u4 & E4 & E).
  apply bind_ok in E as (m11 & u5 & E5 & E). injection E as <- <-.
  assert (Hlift : forall A (o : outcome StartError A) (s s' : Machine) a, mlift o s = (s', Ok a) -> s' = s /\ o = Ok a)
    by (intros A o s s' a; unfold mlift; intros [= -> ->]; done).
  assert (Hproc : forall A (f : M Process Transport.io_error A) s s' r, on_process f s = (s', r) -> host s' = host s).
  { intros A f s s' r. unfold on_process. destruct (f (process s)). by intros [= <- _]. }
  apply Hlift in Er as [-> Er], Ee as [-> _], Et as [-> _], E3 as [-> _], E4 as [-> _], E5 as [-> _].
  apply Hproc in En, Eh. destruct (setup_routes_taken _ _ _ _ _ El) as [H1 Hp].
  destruct (setup_firewall_taken _ _ _ _ _ _ _ H1 Ef) as (H2 & H3 & H4). rewrite <- En, <- Eh in *.
  exists router, md, (device, pi). cbn [r_cleanup c_routes c_firewall].
  assert (Hrouter : Router_new config = Ok router) by (by destruct (Router_new config); simplify_eq/=).
  split_and!; try done. intros Hx. by apply H3.
Qed.

(** C15: a tunnel that stops leaves the host as it was when its device had
    been created: after a successful start the planned routes are installed
    and, for an exit node, its rules are in place with forwarding on;
    [Cleanup::run] - by the signal thread or at the end of [run], whichever
    comes first - never fails and restores every route, every chain and the
    forwarding switch up to what the system refuses to take back; routes that
    were there before are never lost, and a second run does nothing. *)
Theorem start_stop_round_trip config exit_node m m' run :
  startup config exit_node m = (m', Ok run) ->
  exists md dev, create_tun config m = (md, Ok dev) /\
    (exists router, Router_new config = Ok router /\ shape <$> c_routes (r_cleanup run) = planned router) /\
    (exit_node = true -> forwarding (host m') = "1"%string) /\
    exists w routes rules stuck, cleanup_run (r_cleanup run) (host m') = (Cleanup_empty, w, Ok (routes, rules, stuck)) /\
      (forall k, k ∉ rkey <$> routes -> Routing.table w !! k = Routing.table (host md) !! k) /\
      (forall k e, Routing.table (host md) !! k = Some e -> Routing.table w !! k = Some e) /\
      (forall loc, chain_rules w loc ≡ₚ chain_rules (host md) loc ++ added_at rules loc) /\
      (exit_node = false -> forall loc, chain_rules w loc = chain_rules (host md) loc) /\
      (stuck = false -> (forall f, c_firewall (r_cleanup run) = Some f -> original_ip_forward f <> None) ->
         forwarding w = forwarding (host md)) /\
      cleanup_run Cleanup_empty w = (Cleanup_empty, w, Ok ([], [], false)).
Proof.
  intros (router & md & dev & Hr & Hd & Ht & Hp & Hno & Hyes)%startup_taken. exists md, dev. split; [done|].
  split; [by eauto|]. split; [intros Hx; by apply Hyes|].
  destruct (cleanup_run_spec _ _ _ Ht) as (w & routes & rules & stuck & E & H1 & H2 & H3 & H4 & H5).
  exists w, routes, rules, stuck. split_and!; try done. intros Hx. specialize (Hno Hx). unfold cleanup_run in E. rewrite Hno in *.
  destruct (cleanup_routes _ _) as [w1 [failed| |]]; [|done..]. injection E as _ _ <- _. intros loc.
  apply H4; [done|]. by intros x ?%not_elem_of_nil.
Qed.

(** A start that fails at the firewall keeps the tunnel's routes: nothing is
    cleaned up on that path. *)
Lemma failed_firewall_leaves_routes config m m1 m2 router dev t l e :
  Router_new config = Ok router -> is_ok (with_router config router) = true -> create_tun config m = (m1, Ok dev) ->
  bind config = Ok t -> setup_routes config router m1 = (m2, Ok l) -> (setup_firewall config true m2).2 = Err e ->
  exists m3, startup config true m = (m3, Err e) /\ Routing.table (host m3) = Routing.table (host m2) /\
    added (Routing.table (host m1)) (Routing.table (host m3)) l.
Proof.
  intros Hr He Hd Hb Hl Hf. destruct (setup_routes_taken _ _ _ _ _ Hl) as [[Hadd _] _]. cbn in Hadd.
  assert (Hkeep : Routing.table (host (setup_firewall config true m2).1) = Routing.table (host m2)).
  { unfold setup_firewall, on_host. set (fm0 := FirewallManager_new _ _ _).
    pose proof (firewall_setup_quiet table_same frame_iptables frame_read frame_write fm0) as Ht.
    destruct (Firewall.setup fm0) as [fm x]. exact Ht. }
  destruct (setup_firewall config true m2) as [m3 r] eqn:Ef. cbn [fst snd] in *. subst r. exists m3.
  split; [|by rewrite Hkeep]. unfold startup, mlift, mbind, M_bind. rewrite Hr. cbn [map_err].
  destruct (with_router config router); [|done..]. cbn [map_err]. rewrite Hd. destruct dev as [device pi].
  rewrite Hb. cbn [map_err]. by rewrite Hl, Ef.
Qed.
End Properties.

(** ** The shutdown signals

    After a successful [normalize_shutdown_signal_state] no launcher can have
    left them ignored or blocked. *)

Class SignalLaws (SG : Signals) := {
  is_default : Process -> Z -> bool;
  is_blocked : Process -> Z -> bool;
  law_empty : forall set, sigemptyset = Some set -> set = [];
  law_add : forall s set set', sigaddset s set = Some set' -> forall x, x ∈ set' <-> x = s \/ x ∈ set;
  law_default : forall s p p', signal_default s p = (p', true) ->
    is_default p' s = true /\ (forall s', s' <> s -> is_default p' s' = is_default p s') /\
    forall s', is_blocked p' s' = is_blocked p s';
  law_unblock : forall set p p', unblock set p = (p', 0) ->
    (forall s, is_default p' s = is_default p s) /\
    forall s, is_blocked p' s = if bool_decide (s ∈ set) then false else is_blocked p s }.

Section SignalProofs.
Context {SG : Signals} {SGL : SignalLaws SG}.

Lemma reset_signals_spec sigs set p p' set' :
  reset_signals sigs set p = (p', Ok set') ->
  (forall s, is_default p' s = if bool_decide (s ∈ sigs) then true else is_default p s) /\
  (forall s, is_blocked p' s = is_blocked p s) /\ (forall s, s ∈ set' <-> s ∈ sigs \/ s ∈ set).
Proof.
  revert set p. induction sigs as [|s sigs IH]; intros set p; cbn [reset_signals].
  { intros [= <- <-]. split_and!; [done..|]. intros s. split; [by right|]. by intros [?%not_elem_of_nil|]. }
  destruct (signal_default s p) as [p1 [|]] eqn:E1; cbn [negb]; [|done]. destruct (sigaddset s set) as [set1|] eqn:E2; [|done].
  intros E. destruct (law_default _ _ _ E1) as (D1 & D2 & D3). destruct (IH _ _ E) as (H1 & H2 & H3). split_and!.
  - intros x. rewrite H1. destruct (decide (x ∈ sigs)) as [Hx|Hx].
    + rewrite !bool_decide_eq_true_2; [done|by right|done].
    + rewrite (bool_decide_eq_false_2 (x ∈ sigs)) by done. destruct (decide (x = s)) as [->|Hne].
      * rewrite bool_decide_eq_true_2; [done|by left].
      * rewrite bool_decide_eq_false_2; [by apply D2|]. by intros [?|?]%elem_of_cons.
  - intros x. by rewrite H2.
  - intros x. rewrite H3, (law_add _ _ _ E2), elem_of_cons. tauto.
Qed.

Lemma normalize_spec p p' :
  normalize_shutdown_signal_state p = (p', Ok tt) -> forall s,
  (s ∈ shutdown_signals -> is_default p' s = true /\ is_blocked p' s = false) /\
  (s ∉ shutdown_signals -> is_default p' s = is_default p s /\ is_blocked p' s = is_blocked p s).
Proof.
  unfold normalize_shutdown_signal_state. destruct sigemptyset as [set|] eqn:E0; [|done].
  intros (p1 & set1 & E1 & E2)%bind_ok. apply law_empty in E0 as ->.
  destruct (reset_signals_spec _ _ _ _ _ E1) as (H1 & H2 & H3). unfold unblock_signals in E2.
  destruct (unblock set1 p1) as [p2 n] eqn:Eu. destruct (Z.eqb_spec n 0) as [->|]; cbn [negb] in E2; [|done].
  injection E2 as <-. destruct (law_unblock _ _ _ Eu) as [U1 U2]. intros s. rewrite U1, U2, H1, H2.
  assert (Hs : s ∈ set1 <-> s ∈ shutdown_signals) by (rewrite H3; split; [by intros [?|?%not_elem_of_nil]|by left]).
  rewrite (bool_decide_ext _ _ Hs). split; intros Hin; [by rewrite bool_decide_eq_true_2|by rewrite bool_decide_eq_false_2].
Qed.
End SignalProofs.

(** ** Witnesses

    A machine with the routing table of [Routing]'s examples and the packet
    filter of [RefHost], whose [ip] and other programs are apart. *)

Definition both_os : Os := {|
  World := World (Os := ref_ip) * World (Os := ref_os);
  exec program args w :=
    if bool_decide (program = "ip"%string) then
      let '(r, o) := exec (Os := ref_ip) program args w.1 in ((r, w.2), o)
    else let '(h, o) := exec (Os := ref_os) program args w.2 in ((w.1, h), o);
  read_file p w := read_file (Os := ref_os) p w.2 |}.

#[local] Existing Instance both_os.
Definition both_table : RouteTable (OS := both_os) :=
  @Build_RouteTable both_os string _ _ (fun s => s) (fun w => Routing.table (RouteTable := ref_table) w.1).
Definition both_filter : PacketFilter (OS := both_os) :=
  @Build_PacketFilter both_os (list string) _ (fun s => s) ref_show (fun w loc => chain_at w.2 loc).
Definition both_view : HostView (OS := both_os) :=
  @Build_HostView both_os (fun w => switch_text (forwards w.2)) (fun w p => files w.2 !! p).
#[local] Existing Instances both_table both_filter both_view.

Lemma both_ip args (w : World (Os := both_os)) Q :
  ip_effect (OS := ref_ip) (RT := ref_table) args w.1 Q -> ip_effect (OS := both_os) args w Q.
Proof.
  unfold ip_effect. intros H. cbn [exec both_os ref_ip] in *. rewrite bool_decide_true by done.
  destruct (ref_exec "ip" args w.1) as [r [o|e|]]; exact H.
Qed.

#[local] Instance both_ip_laws : IpLaws both_table.
Proof.
  pose proof ref_ip_laws as H. split; intros; apply both_ip.
  - apply (ip_add_via (IpLaws := H) p g d w.1).
  - apply (ip_add_dev (IpLaws := H) p d w.1).
  - apply (ip_del_dev (IpLaws := H) p d w.1).
  - apply (ip_del (IpLaws := H) p w.1).
  - apply (ip_show (IpLaws := H) p w.1).
  - apply (ip_get (IpLaws := H) a w.1).
Qed.

(** A law of the packet filter carries over. *)
Lemma both_runs program args (w : World (Os := both_os)) (Q : RefHost.host -> Output -> Prop) (Q' : World (Os := both_os) -> Output -> Prop) :
  program <> "ip"%string -> runs (OS := ref_os) (PF := ref_filter) (HV := ref_view) program args w.2 Q ->
  (forall h o, Q h o -> Q' (w.1, h) o) -> runs (OS := both_os) program args w Q'.
Proof.
  intros Hp H HQ. unfold runs in *. cbn [exec both_os]. rewrite bool_decide_false by done.
  destruct (exec program args w.2) as [h [o|e|]]; [|..|done].
  - destruct H as [[H1 H2] H]. split; [by split|by apply HQ].
  - destruct H as [[H1 H2] H3]. split; [by split|done].
Qed.

Lemma both_becomes (w : World (Os := both_os)) h loc l :
  chain_becomes (OS := ref_os) (PF := ref_filter) w.2 h loc l -> chain_becomes (OS := both_os) w (w.1, h) loc l.
Proof. intros [H1 H2]. by split. Qed.

#[local] Instance both_iptables_laws : IptablesLaws both_filter both_view "iptables" nil.
Proof.
  pose proof (ref_laws "iptables" nil ltac:(done) ltac:(by left)) as H. split; intros t c.
  - intros spec w. eapply both_runs; [done|apply (ipt_append (IptablesLaws := H))|]. intros h o. cbn beta.
    destruct (success o); [apply both_becomes|done].
  - intros spec w Hs. eapply both_runs; [done|by apply (ipt_delete (IptablesLaws := H))|]. intros h o. cbn beta.
    destruct (success o); [apply both_becomes|done].
  - intros spec w. eapply both_runs; [done|apply (ipt_check (IptablesLaws := H))|]. done.
  - intros n w Hn. eapply both_runs; [done|by apply (ipt_delete_number (IptablesLaws := H))|]. intros h o. cbn beta.
    destruct (success o); [apply both_becomes|done].
  - intros w. eapply both_runs; [done|apply (ipt_list (IptablesLaws := H))|]. done.
  - apply (ipt_shown (IptablesLaws := H)).
Qed.

#[local] Instance both_sysctl_laws : SysctlLaws both_filter both_view.
Proof.
  split.
  - intros v w Hv. cbn [exec both_os]. rewrite bool_decide_false by done. destruct Hv as [-> | ->]; cbn; by split; cbn.
  - intros v w. cbn [exec both_os ref_os]. rewrite bool_decide_false, bool_decide_true by done. unfold ref_sysctl.
    by repeat case_bool_decide.
  - intros w. exact (forward_file (SysctlLaws := ref_sysctl_laws) w.2).
  - intros w. exact (forward_value (SysctlLaws := ref_sysctl_laws) w.2).
Qed.

#[local] Instance both_frame : LinuxFrame (OS := both_os).
Proof.
  split; intros args w; cbn [exec both_os].
  - rewrite bool_decide_true by done. by destruct (exec _ _ _).
  - rewrite bool_decide_false by done. by destruct (exec _ _ _).
  - rewrite bool_decide_false by done. by destruct (exec _ _ _).
Qed.

#[local] Existing Instances ref_ipnet ref_net_display ref_resolver ref_base64 ref_snow ref_udp ref_tcp
  Routing.Linux.linux_routes Firewall.Linux.linux_switch.
#[local] Instance both_netmask : NetMask := {| netmask n := U32_MAX / 2 ^ (32 - prefix_len n) * 2 ^ (32 - prefix_len n) |}.
#[local] Instance both_clone : ListenerClone := {| listener_try_clone _ := Ok tt |}.
#[local] Instance both_tun : TunCrate := {|
  Device := TunConfiguration; tun_create c w := (w, Ok c);
  has_packet_information c := default false (tc_packet_information c) |}.
(** The signals that are ignored and those that are blocked. *)
#[local] Instance both_signals : Signals := {|
  Process := list Z * list Z;
  sigemptyset := Some [];
  sigaddset s set := Some (s :: set);
  signal_default s p := ((filter (fun x => x <> s) p.1, p.2), true);
  unblock set p := ((p.1, filter (fun x => x ∉ set) p.2), 0);
  last_os_error _ := IoError OtherKind "errno"; from_raw_os_error _ := IoError OtherKind "errno";
  register_handlers _ p := (p, Ok tt) |}.

(** A machine whose firewall refuses rules with the word [refused]; the
    launcher left SIGHUP ignored and SIGTERM blocked. *)
Definition wit_machine (refused : string) : Machine :=
  {| host := (no_routes, wit_host refused); process := ([SIGHUP], [SIGTERM]) |}.
Definition wit_start (refused : string) := startup wit_config true (wit_machine refused).

Example start_runs : is_ok (wit_start "").2 = true /\ process (wit_start "").1 = ([], []) /\
  is_ok (wit_start "-i").2 = false /\ size (host (wit_start "-i").1).1 = 7%nat.
Proof. split_and!; vm_compute; reflexivity. Qed.

Lemma start_stop_round_trip_witness :
  exists m run w routes rules stuck, wit_start "" = (m, Ok run) /\
    cleanup_run (r_cleanup run) (host m) = (Cleanup_empty, w, Ok (routes, rules, stuck)) /\
    forall loc, chain_rules w loc ≡ₚ chain_rules (host (wit_machine "")) loc ++ added_at rules loc.
Proof.
  assert (Hok : is_ok (wit_start "").2 = true) by apply start_runs.
  destruct (wit_start "") as [m r] eqn:E. destruct r as [run|e|]; [|discriminate Hok..].
  destruct (start_stop_round_trip wit_config true (wit_machine "") m run E)
    as (md & dev & Hd & _ & _ & w & routes & rules & stuck & H1 & _ & _ & H2 & _).
  injection Hd as <- _. exists m, run, w, routes, rules, stuck. split; [done|]. split; [exact H1|exact H2].
Defined.
