(* ===== verification/Doctor.v ===== *)
(** * Diagnosis ([src/src/doctor.rs])

    What [doctor] prints and the errors it ends with: a computation over the
    host and the lines printed so far.  It only asks the host
    ([doctor_reads]). *)

From Stdlib Require Import Ascii.
From S2P Require Import Prelude Net Std Config Router Transport Os Iptables RefHost.
From S2P Require Import Gateway.
From S2P Require Import Routing.
Open Scope Z_scope.

(** [str::contains] of a text. *)
Fixpoint contains_str (p l : chars) : bool :=
  starts_with_str p l || match l with [] => false | _ :: l => contains_str p l end.

(** ** Reading a host route *)

Record HostRoute := { hr_output : string }.

Definition trimmed_lines (s : string) : list chars := trim_chars <$> lines s.

Definition uses_interface (r : HostRoute) (interface : string) : bool :=
  existsb (fun line => bool_decide (line = chars_of ("interface: " +:+ interface))
                       || ends_with_str (chars_of (" dev " +:+ interface)) line) (trimmed_lines (hr_output r)).

Definition summary_lines (r : HostRoute) : list chars :=
  List.filter (fun line =>
    starts_with_str (chars_of "gateway:") line || starts_with_str (chars_of "interface:") line
    || starts_with_str (chars_of "route to:") line || contains_str (chars_of " dev ") line
    || starts_with_str (chars_of "default via ") line) (trimmed_lines (hr_output r)).

Section Host.
Context {OS : Os}.

Definition command_output (o : Output) : outcome anyhow HostRoute :=
  if negb (success o) then Err [trim (stderr o)] else Ok {| hr_output := stdout o |}.

(** [host_route_to] of each platform. *)
Definition linux_host_route_to (ip : IpAddr) : M World anyhow HostRoute :=
  o ← output "failed to run ip route get" "ip" ["route"; "get"; ip_to_string ip]%string;
  mlift (command_output o).
Definition macos_host_route_to (ip : IpAddr) : M World anyhow HostRoute :=
  o ← output "failed to run route -n get" "route" ["-n"; "get"; ip_to_string ip]%string;
  mlift (command_output o).
Definition other_host_route_to (ip : IpAddr) : M World anyhow HostRoute :=
  bail "host route inspection is not implemented on this OS".

Definition linux_ipv4_forwarding : M World anyhow (option bool) :=
  value ← read_trimmed ("failed to read " +:+ IP_FORWARD) IP_FORWARD;
  mret (Some (bool_decide (value = "1"%string))).
Definition macos_ipv4_forwarding : M World anyhow (option bool) :=
  o ← output "failed to run sysctl" "sysctl" ["-n"; "net.inet.ip.forwarding"]%string;
  if negb (success o) then mret None else mret (Some (bool_decide (trim (stdout o) = "1"%string))).

(** The two platform functions. *)
Class Inspection := {
  host_route_to : IpAddr -> M World anyhow HostRoute;
  ipv4_forwarding : M World anyhow (option bool) }.
Definition linux_inspection : Inspection := {|
  host_route_to := linux_host_route_to; ipv4_forwarding := linux_ipv4_forwarding |}.
Definition macos_inspection : Inspection := {|
  host_route_to := macos_host_route_to; ipv4_forwarding := macos_ipv4_forwarding |}.
Definition other_inspection : Inspection := {|
  host_route_to := other_host_route_to; ipv4_forwarding := mret None |}.

(** ** The console *)

Record Console := { console_host : World; printed : list string }.
Definition console (A : Type) : Type := M Console anyhow A.

Definition print_lines (ls : list string) : console unit :=
  mmodify (fun c => {| console_host := console_host c; printed := printed c ++ ls |}).
Definition println (l : string) : console unit := print_lines [l].

(** A call whose error the caller handles, and one whose error it returns. *)
Definition attempt {A} (m : M World anyhow A) : console (outcome anyhow A) := fun c =>
  let '(w, r) := m (console_host c) in
  ({| console_host := w; printed := printed c |}, match r with Panic => Panic | _ => Ok r end).
Definition run_host {A} (m : M World anyhow A) : console A := fun c =>
  let '(w, r) := m (console_host c) in ({| console_host := w; printed := printed c |}, r).

Fixpoint for_each {A} (l : list A) (f : A -> console unit) : console unit :=
  match l with [] => mret tt | x :: l => _ ← f x; for_each l f end.
End Host.

(** ** Printing of values *)

Definition transport_debug (t : TransportConfig) : string := match t with Udp => "Udp" | Tcp => "Tcp" end.
Definition addr_to_string (a : SocketAddr) : string := of_chars (fmt_socket_addr a).
Definition ipv4_to_string (a : u32) : string := of_chars (fmt_ipv4 a).

(** [{error:#}]: the chain of messages on one line. *)
Definition error_chain (e : list string) : string := String.concat ": " e.

(** ** doctor.rs *)

Section Doctor.
Context {IN : IpNet} {ND : NetDisplay} {RS : Resolver} {OS : Os} {IS : Inspection} {GO : GatewayOs}.

(** The part of the loop of [check_routes] for one peer. *)
Definition check_endpoint (config : Config) (p : Peer) : console unit :=
  let name := if_name (interface config) in
  let endpoint_ip := sa_ip (endpoint p) in
  _ ← println ("  endpoint " +:+ ip_to_string endpoint_ip +:+ " for peer " +:+ Router.name p);
  r ← attempt (host_route_to endpoint_ip);
  _ ← match r with
      | Ok host_route =>
          _ ← (if uses_interface host_route name
               then println ("  FAIL current host route appears to use " +:+ name +:+ "; this can loop the tunnel")
               else println ("  OK current host route does not appear to use " +:+ name));
          for_each (summary_lines host_route) (fun line => println ("    " +:+ of_chars line))
      | Err error => println ("  WARN could not inspect host route: " +:+ error_chain error)
      | Panic => mlift Panic
      end;
  _ ← println "  suggested macOS exception:";
  println ("    sudo route add -host " +:+ ip_to_string endpoint_ip +:+ " <current_gateway>").

Definition check_routes (config : Config) (router : Router) : console unit :=
  if bool_decide (routes router = []) then println "WARN no peer allowed_ips routes are configured" else
  _ ← println "Configured HushWire routes:";
  _ ← for_each (routes router) (fun r =>
        println ("  " +:+ net_to_string (prefix r) +:+ " -> " +:+ Router.name (route_peer r) +:+ " ("
                 +:+ addr_to_string (endpoint (route_peer r)) +:+ ")"));
  _ ← (if bool_decide (excluded_routes router = []) then mret tt else
       _ ← println "Configured direct-route exclusions:";
       for_each (excluded_routes router) (fun r =>
         println ("  " +:+ net_to_string (ex_prefix r) +:+ " -> physical network (peer " +:+ Router.name (ex_peer r) +:+ ")")));
  let endpoint_exception_peers := endpoint_exception_peers router in
  if bool_decide (endpoint_exception_peers = []) then println "OK no route captures a configured peer endpoint" else
  _ ← println "WARN configured routes capture a peer endpoint";
  _ ← println ("  before routing matching traffic into " +:+ if_name (interface config) +:+ ", add endpoint exception routes:");
  for_each endpoint_exception_peers (check_endpoint config).

Definition check_forwarding : console unit :=
  _ ← println "Exit-node checks:";
  forwarding ← run_host (mcontext "failed to inspect IPv4 forwarding" ipv4_forwarding);
  match forwarding with
  | Some true => println "OK IPv4 forwarding appears enabled"
  | Some false =>
      _ ← println "FAIL IPv4 forwarding appears disabled";
      _ ← println "  macOS: sudo sysctl -w net.inet.ip.forwarding=1";
      println "  Linux: sudo sysctl -w net.ipv4.ip_forward=1"
  | None => println "WARN IPv4 forwarding status is unknown on this OS"
  end.

(** [print_status] reads the fragmentation counter itself; a failure of that
    is passed over. *)
Definition print_gateway_status (plan : GatewayPlan) (s : GatewayStatus) : console unit :=
  fails ← attempt read_ip_frag_fails;
  print_lines (print_status plan s fails).

Definition check_gateway (config : Config) : console unit :=
  _ ← println "Forwarding-gateway checks:";
  match from_config config with
  | Ok plan =>
      r ← attempt (status plan);
      match r with
      | Ok s => print_gateway_status plan s
      | Err error =>
          _ ← println ("WARN could not inspect gateway system state: " +:+ error_chain error);
          println "  gateway status requires Linux and permission to inspect iptables"
      | Panic => mlift Panic
      end
  | Err error => println ("FAIL invalid [gateway] policy: " +:+ error_chain error)
  | Panic => mlift Panic
  end.

Definition doctor_run (config : Config) (router : Router) (exit_node : bool) : console unit :=
  let i := interface config in
  _ ← print_lines
    ["HushWire doctor";
     "Interface: " +:+ if_name i;
     "Tunnel address: " +:+ net_to_string (address i);
     "Transport: " +:+ transport_debug (if_transport i) +:+ " " +:+ addr_to_string (listen i);
     ""]%string;
  _ ← check_routes config router;
  _ ← (if exit_node then
         _ ← println "";
         _ ← check_forwarding;
         _ ← println "NAT: manual check required";
         println ("  tunnel subnet " +:+ ipv4_to_string (network (address i)) +:+ " must be masqueraded/NATed to the outbound interface")
       else mret tt);
  match Config.gateway config with
  | Some _ => _ ← println ""; check_gateway config
  | None => mret tt
  end.
End Doctor.

(** ** Diagnosis only reads *)

Section ReadsOnly.
Context {OS : Os} (R : World -> World -> Prop) {RP : PreOrder R}.

Definition leaves {A} (m : console A) : Prop := forall c, R (console_host c) (console_host (m c).1).

Lemma leaves_bind {A B} (m : console A) (f : A -> console B) : leaves m -> (forall a, leaves (f a)) -> leaves (m ≫= f).
Proof.
  intros Hm Hf c. unfold mbind, M_bind. specialize (Hm c). destruct (m c) as [c1 [a| |]]; cbn [fst] in *; [|done..].
  etrans; [done|]. apply Hf.
Qed.
Lemma leaves_ret {A} (a : A) : leaves (mret a).
Proof. intros c. reflexivity. Qed.
Lemma leaves_lift {A} (o : outcome (list string) A) : leaves (mlift o).
Proof. intros c. reflexivity. Qed.
Lemma leaves_print ls : leaves (print_lines ls).
Proof. intros c. reflexivity. Qed.
Lemma leaves_attempt {A} (m : M World (list string) A) : (forall w, R w (m w).1) -> leaves (attempt m).
Proof. intros H c. unfold attempt. specialize (H (console_host c)). by destruct (m (console_host c)). Qed.
Lemma leaves_run {A} (m : M World (list string) A) : (forall w, R w (m w).1) -> leaves (run_host m).
Proof. intros H c. unfold run_host. specialize (H (console_host c)). by destruct (m (console_host c)). Qed.
Lemma leaves_for_each {A} (l : list A) f : (forall x, leaves (f x)) -> leaves (for_each l f).
Proof. intros Hf. induction l as [|x l IH]; cbn [for_each]; [apply leaves_ret|]. apply leaves_bind; [apply Hf|done]. Qed.

Ltac leaves_step :=
  lazymatch goal with
  | |- leaves (_ ≫= _) => apply leaves_bind; [|intros ?]
  | |- leaves (println _) => apply leaves_print
  | |- leaves (let _ := _ in _) => cbv zeta
  | |- leaves (for_each _ _) => apply leaves_for_each; intros ?
  | |- _ => first [ apply leaves_ret | apply leaves_lift | apply leaves_print | case_match ]
  end.

(** The checks of [doctor] move the host only as the inspections do. *)
Lemma doctor_reads {IN : IpNet} {ND : NetDisplay} {RS : Resolver} {IS : Inspection} {GO : GatewayOs} config router exit_node :
  (forall ip w, R w (host_route_to ip w).1) -> (forall w, R w (ipv4_forwarding w).1) ->
  (forall p w, R w (status p w).1) -> (forall w, R w (read_ip_frag_fails w).1) ->
  leaves (doctor_run config router exit_node).
Proof.
  intros H1 H2 H3 H4. unfold doctor_run, check_routes, check_forwarding, check_gateway, check_endpoint, print_gateway_status.
  repeat first [ leaves_step | apply leaves_attempt; auto | apply leaves_run ].
  intros w. unfold mcontext. specialize (H2 w). by destruct (ipv4_forwarding w).
Qed.
End ReadsOnly.

(** ** Examples *)

(** What [ip route get] prints for an address routed into the tunnel is not
    recognized - the device is not the last word - while the output of macOS
    is. *)
Example doctor_misses_tunnel_route :
  uses_interface {| hr_output := "192.0.2.1 dev hw0 src 10.77.0.1 uid 0 " +:+ of_chars [LF] +:+ "    cache " +:+ of_chars [LF] |} "hw0" = false /\
  Routing.Linux.route_line_uses_dev (chars_of "192.0.2.1 dev hw0 src 10.77.0.1 uid 0 ") "hw0" = true /\
  uses_interface {| hr_output := "   route to: 192.0.2.1" +:+ of_chars [LF] +:+ "  interface: utun7" +:+ of_chars [LF] |} "utun7" = true.
Proof. split_and!; vm_compute; reflexivity. Qed.

