(* ===== verification/Main.v ===== *)
(** * The command line ([src/src/main.rs], [src/src/process.rs])

    What each command prints, what it does to the host, and the errors it
    ends with, from the parsed arguments on ([main]). *)

From Stdlib Require Import Ascii.
From S2P Require Import Prelude Net Std Config Router Noise Engine Transport TcpTransport Os Iptables RefHost.
From S2P Require Import Gateway.
From S2P Require Import Routing.
From S2P Require Import Firewall.
From S2P Require Import Lifecycle.
From S2P Require Import Doctor.
Open Scope Z_scope.

(** ** The answers *)

Section Main.
Context {IN : IpNet} {ND : NetDisplay} {RS : Resolver} {OS : Os}.

Definition explain_route (config : Config) (router : Router) (destination : u32) : list string :=
  let i := interface config in
  ["Config: " +:+ if_name i;
   "Destination: " +:+ ipv4_to_string destination;
   "Local tunnel address: " +:+ ipv4_to_string (net_addr (address i));
   "Transport: " +:+ transport_debug (if_transport i) +:+ " listening on " +:+ addr_to_string (listen i)]%string ++
  match Router.lookup router destination with
  | Some r =>
      ["Decision: send";
       "Reason: " +:+ ipv4_to_string destination +:+ " matches allowed_ips entry " +:+ net_to_string (prefix r) +:+ ".";
       "Peer: " +:+ Router.name (route_peer r);
       "Peer endpoint: " +:+ addr_to_string (endpoint (route_peer r))]%string
  | None =>
      ["Decision: drop";
       "Reason: no peer allowed_ips entry matches " +:+ ipv4_to_string destination +:+ "."]%string ++
      if bool_decide (routes router = []) then ["Configured routes: none"]%string
      else "Configured routes:"%string ::
           ((fun r => ("  " +:+ net_to_string (prefix r) +:+ " -> " +:+ Router.name (route_peer r))%string) <$> routes router)
  end.

(** The commands [plan_routes] suggests for one route. *)
Definition plan_route (config : Config) (r : Route) : list string :=
  let name := if_name (interface config) in
  (if (prefix_len (prefix r) =? 0)%Z then
     [""; "Full-tunnel route detected: " +:+ net_to_string (prefix r);
      "Before replacing the default route, keep the peer endpoint reachable outside the tunnel:";
      "  sudo route add -host " +:+ ip_to_string (sa_ip (endpoint (route_peer r))) +:+ " <current_gateway>";
      "Then route default traffic into the TUN interface:";
      "  sudo route add default -interface " +:+ name;
      "If your OS already has a default route, replace/add semantics may differ."]
   else if (prefix_len (prefix r) =? 32)%Z then
     ["  sudo route add -host " +:+ ipv4_to_string (net_addr (prefix r)) +:+ " -interface " +:+ name]
   else ["  sudo route add -net " +:+ net_to_string (prefix r) +:+ " -interface " +:+ name])%string.

Definition plan_routes (config : Config) (router : Router) : list string :=
  let i := interface config in
  ["Interface: " +:+ if_name i;
   "Tunnel address: " +:+ net_to_string (address i);
   "Transport listen: " +:+ addr_to_string (listen i)]%string ++
  if bool_decide (routes router = []) then ["No allowed_ips routes are configured."]%string else
  [""; "Routes HushWire will use internally:"]%string ++
  ((fun r => ("  " +:+ net_to_string (prefix r) +:+ " -> peer " +:+ Router.name (route_peer r) +:+ " ("
              +:+ addr_to_string (endpoint (route_peer r)) +:+ ")")%string) <$> routes router) ++
  (if bool_decide (excluded_routes router = []) then [] else
   [""; "Configured routes that remain on the physical network:"]%string ++
   ((fun r => ("  " +:+ net_to_string (ex_prefix r) +:+ " (excluded from peer " +:+ Router.name (ex_peer r) +:+ ")")%string)
      <$> excluded_routes router)) ++
  [""; "Host routes you need outside HushWire:"]%string ++
  concat (plan_route config <$> routes router) ++
  [""; "Exit-node peer requirements:"; "  enable IPv4 forwarding";
   "  enable NAT/masquerade from the tunnel subnet to the outbound interface"]%string.

(** The answer of the [Check] command: both constructors passed. *)
Definition check_lines (config : Config) (router : Router) : list string :=
  ["config ok";
   "interface: " +:+ if_name (interface config);
   "listen: " +:+ addr_to_string (listen (interface config));
   "routes: " +:+ of_chars (fmt_dec (Z.of_nat (length (routes router))))]%string.

(** The answer of the [Route] command. *)
Definition route_line (router : Router) (destination : u32) : string :=
  match Router.lookup router destination with
  | Some r => ipv4_to_string destination +:+ " -> peer=" +:+ Router.name (route_peer r) +:+ " endpoint="
              +:+ addr_to_string (endpoint (route_peer r)) +:+ " via=" +:+ net_to_string (prefix r)
  | None => ipv4_to_string destination +:+ " -> no route"
  end%string.
End Main.

(** *** The gateway commands, with the console's host *)

Section GatewayCommands.
Context {IN : IpNet} {OS : Os} {GO : GatewayOs}.

Definition gateway_plan_command (config : Config) : console unit :=
  plan ← mlift (from_config config);
  print_lines (Gateway.print plan).
(** [fuel] bounds the wait for the lock; [None]: still waiting. *)
Definition gateway_apply_command (fuel : nat) (config : Config) : console (option unit) :=
  plan ← mlift (from_config config);
  run_host (fun w => let '(w, r, _) := apply fuel plan w in (w, r)).
Definition gateway_status_command (config : Config) : console unit :=
  plan ← mlift (from_config config);
  s ← run_host (status plan);
  _ ← print_gateway_status plan s;
  if negb (healthy s) then mfail ["gateway configuration is incomplete"%string] else mret tt.
Definition gateway_remove_command (fuel : nat) (config : Config) : console (option unit) :=
  plan ← mlift (from_config config);
  r ← run_host (remove fuel plan);
  mret ((fun _ => tt) <$> r).
End GatewayCommands.

(** *** Keys and the session *)

(** The key library: [StaticSecret::from(bytes).to_bytes()] and its public
    key; base64 with padding. *)
Class KeyTools := {
  secret_to_bytes : bytes -> bytes;
  public_key_of : bytes -> bytes;
  b64_encode : bytes -> string }.

(** [secret_bytes] are the 32 bytes the random generator filled in. *)
Definition genkey {KT : KeyTools} (secret_bytes : bytes) : list string :=
  ["PrivateKey = " +:+ b64_encode (secret_to_bytes secret_bytes);
   "PublicKey  = " +:+ b64_encode (public_key_of (secret_to_bytes secret_bytes));
   "";
   "# Put PrivateKey in your [interface] section.";
   "# Put the peer's PublicKey in their [[peer]] section."]%string.

(** [libc] of process.rs: [setsid] is [None] when it returns -1. *)
Class SessionCalls := {
  SessionState_ : Type;
  getpid : SessionState_ -> Z;
  getpgrp : SessionState_ -> Z;
  setsid : SessionState_ -> SessionState_ * option Z;
  setsid_error : SessionState_ -> Transport.io_error }.

Record DetachedSession := { ds_pid : Z; ds_previous_process_group : Z; ds_session_id : Z }.

Definition detach_session {SC : SessionCalls} : M SessionState_ Transport.io_error DetachedSession := fun s =>
  let pid := getpid s in
  let previous_process_group := getpgrp s in
  match setsid s with
  | (s, None) => (s, Err (setsid_error s))
  | (s, Some session_id) =>
      (s, Ok {| ds_pid := pid; ds_previous_process_group := previous_process_group; ds_session_id := session_id |})
  end.

(** ** Commands

    [main] after the arguments are parsed. *)

Inductive GatewayCommand := GwPlan (config : string) | GwApply (config : string) | GwStatus (config : string) | GwRemove (config : string).
Inductive Command :=
| CmdCheck (config : string)
| CmdRoute (config : string) (destination : u32)
| CmdExplain (config : string) (destination : u32)
| CmdPlanRoutes (config : string)
| CmdDoctor (config : string) (exit_node : bool)
| CmdUp (config : string) (exit_node : bool)
| CmdGateway (command : GatewayCommand)
| CmdGenkey.

Record Cli := { detach_session_flag : bool; command : Command }.

Section MainProgram.
Context {IN : IpNet} {B64 : Base64} {RS : Resolver} {SN : Snow} {ND : NetDisplay} {NM : NetMask}.
Context {UO : UdpOs} {TO : TcpOs} {LC : ListenerClone} {OS : Os} {TC : TunCrate} {SG : Signals}.
Context {RP : RoutePlatform} {FS : ForwardSwitch} {IS : Inspection} {GO : GatewayOs} {CS : ConfigSource}.
Context {KT : KeyTools} {SC : SessionCalls}.

Inductive MainError :=
| MainDetach (e : Transport.io_error)
| MainLoad (e : LoadError)
| MainRouter (e : RouterError)
| MainTunnel (e : StartError)
| MainFailed (e : list string).

(** The process: the machine it runs on, its session and its output. *)
Record Program := { machine : Machine; session : SessionState_; output_lines : list string }.
Definition program : Type -> Type := M Program MainError.

(** A [gateway apply] or [remove] may still wait for its lock; [up] goes on
    with the threads of the tunnel. *)
Inductive MainEnd := Done | Waiting | Tunneling (r : Running).

Definition on_console {A} (f : console A) : program A := fun s =>
  let '(c, r) := f {| console_host := Lifecycle.host (machine s); printed := output_lines s |} in
  ({| machine := Lifecycle.set_host (console_host c) (machine s); session := session s; output_lines := printed c |},
   map_err MainFailed r).
Definition on_machine {A} (f : M Machine StartError A) : program A := fun s =>
  let '(m, r) := f (machine s) in
  ({| machine := m; session := session s; output_lines := output_lines s |}, map_err MainTunnel r).
Definition on_session {A} (f : M SessionState_ Transport.io_error A) : program A := fun s =>
  let '(p, r) := f (session s) in
  ({| machine := machine s; session := p; output_lines := output_lines s |}, map_err MainDetach r).

Definition load_config (path : string) : program Config := mlift (map_err MainLoad (load path)).
Definition new_router (config : Config) : program Router := mlift (map_err MainRouter (Router_new config)).

Definition ended (r : option unit) : MainEnd := match r with Some _ => Done | None => Waiting end.

(** [fuel] bounds the wait for the gateway's lock. *)
Definition run_gateway (fuel : nat) (c : GatewayCommand) : program MainEnd :=
  match c with
  | GwPlan path => config ← load_config path; _ ← on_console (gateway_plan_command config); mret Done
  | GwApply path => config ← load_config path; r ← on_console (gateway_apply_command fuel config); mret (ended r)
  | GwStatus path => config ← load_config path; _ ← on_console (gateway_status_command config); mret Done
  | GwRemove path => config ← load_config path; r ← on_console (gateway_remove_command fuel config); mret (ended r)
  end.

(** [entropy] are the bytes the random generator hands to [genkey]. *)
Definition run_command (fuel : nat) (entropy : bytes) (c : Command) : program MainEnd :=
  match c with
  | CmdCheck path =>
      config ← load_config path;
      router ← new_router config;
      _ ← on_console (print_lines (check_lines config router)); mret Done
  | CmdRoute path destination =>
      config ← load_config path;
      router ← new_router config;
      _ ← on_console (println (route_line router destination)); mret Done
  | CmdExplain path destination =>
      config ← load_config path;
      router ← new_router config;
      _ ← on_console (print_lines (explain_route config router destination)); mret Done
  | CmdPlanRoutes path =>
      config ← load_config path;
      router ← new_router config;
      _ ← on_console (print_lines (plan_routes config router)); mret Done
  | CmdDoctor path exit_node =>
      config ← load_config path;
      router ← new_router config;
      _ ← on_console (doctor_run config router exit_node); mret Done
  | CmdUp path exit_node =>
      config ← load_config path;
      running ← on_machine (startup config exit_node); mret (Tunneling running)
  | CmdGateway c => run_gateway fuel c
  | CmdGenkey => _ ← on_console (print_lines (genkey entropy)); mret Done
  end.

Definition main (fuel : nat) (entropy : bytes) (cli : Cli) : program MainEnd :=
  _ ← (if detach_session_flag cli then (_ ← on_session detach_session; mret tt) else mret tt);
  run_command fuel entropy (command cli).

(** The file a command reads its configuration from. *)
Definition config_path (c : Command) : option string :=
  match c with
  | CmdCheck p | CmdRoute p _ | CmdExplain p _ | CmdPlanRoutes p | CmdDoctor p _ | CmdUp p _ => Some p
  | CmdGateway (GwPlan p | GwApply p | GwStatus p | GwRemove p) => Some p
  | CmdGenkey => None
  end.

(** A command that only answers: it asks nothing of the host. *)
Definition answers_only (c : Command) : bool :=
  match c with
  | CmdCheck _ | CmdRoute _ _ | CmdExplain _ _ | CmdPlanRoutes _ | CmdGateway (GwPlan _) | CmdGenkey => true
  | _ => false
  end.
End MainProgram.

(** ** Lemmas *)

(** [explain] decides as the router does. *)
Lemma explain_decision {IN : IpNet} {ND : NetDisplay} config router destination :
  explain_route config router destination !! 4%nat =
    Some (match Router.lookup router destination with Some _ => "Decision: send" | None => "Decision: drop" end)%string.
Proof. unfold explain_route. by destruct (Router.lookup router destination). Qed.

(** A generated key pair is accepted where a configuration asks for keys. *)
Lemma genkey_decodes {KT : KeyTools} {B64 : Base64} secret :
  (forall b, b64_decode (b64_encode b) = Some b) -> (forall b, length (secret_to_bytes b) = 32%nat) ->
  (forall b, length b = 32%nat -> length (public_key_of b) = 32%nat) ->
  exists private public, genkey secret !! 0%nat = Some ("PrivateKey = " +:+ private)%string /\
    genkey secret !! 1%nat = Some ("PublicKey  = " +:+ public)%string /\
    decode_key private = Some (secret_to_bytes secret) /\
    decode_key public = Some (public_key_of (secret_to_bytes secret)).
Proof.
  intros Hb Hs Hp. eexists _, _. split; [done|]. split; [done|]. unfold decode_key. rewrite !Hb. cbn.
  rewrite Hs, Hp by apply Hs. done.
Qed.

(** [gateway status] ends without an error exactly for a healthy gateway. *)
Lemma gateway_status_exit {IN : IpNet} {OS : Os} {GO : GatewayOs} config plan c w s fails :
  from_config config = Ok plan -> status plan (console_host c) = (w, Ok s) ->
  read_ip_frag_fails w = (w, fails) -> fails <> Panic ->
  gateway_status_command config c =
    ({| console_host := w; printed := printed c ++ print_status plan s fails |},
     if healthy s then Ok tt else Err ["gateway configuration is incomplete"%string]).
Proof.
  intros H1 H2 H3 H4. unfold gateway_status_command, mlift. unfold mbind at 1, M_bind at 1. rewrite H1.
  unfold run_host. unfold mbind at 1, M_bind at 1. rewrite H2. unfold print_gateway_status, attempt, print_lines, mmodify.
  unfold mbind, M_bind. cbn [console_host]. rewrite H3.
  destruct fails as [f|e|]; [| |done]; destruct (healthy s); reflexivity.
Qed.

(** *** Commands and the host *)

Section MainLemmas.
Context {IN : IpNet} {B64 : Base64} {RS : Resolver} {SN : Snow} {ND : NetDisplay} {NM : NetMask}.
Context {UO : UdpOs} {TO : TcpOs} {LC : ListenerClone} {OS : Os} {TC : TunCrate} {SG : Signals}.
Context {RP : RoutePlatform} {FS : ForwardSwitch} {IS : Inspection} {GO : GatewayOs} {CS : ConfigSource}.
Context {KT : KeyTools} {SC : SessionCalls}.

Lemma load_config_ok path c s s' : load_config path s = (s', Ok c) -> s' = s /\ load path = Ok c /\ config_ok c.
Proof.
  unfold load_config, mlift. intros [= <- H]. destruct (load path) as [c'| |] eqn:E; try done. cbn in H. simplify_eq.
  split; [done|]. split; [done|]. unfold load in E.
  destruct (read_to_string path) as [text| |]; try done. cbn in E. unfold parse in E.
  destruct (toml_from_str text) as [c'| |]; try done. cbn in E.
  destruct (validate c') as [[]| |] eqn:V; try done. cbn in E. simplify_eq. by apply validate_spec.
Qed.

Lemma load_then {A} path (f : Config -> program A) s s' r : (load_config path ≫= f) s = (s', Ok r) ->
  exists config, load path = Ok config /\ config_ok config.
Proof.
  intros H. unfold mbind, M_bind in H. destruct (load_config path s) as [s1 [c| |]] eqn:E; try done.
  apply load_config_ok in E. destruct E as (-> & E & Hc). by exists c.
Qed.

(** A command that reads a configuration and does not fail has worked on one
    that is valid. *)
Lemma command_config_valid fuel entropy c path s s' r :
  run_command fuel entropy c s = (s', Ok r) -> config_path c = Some path ->
  exists config, load path = Ok config /\ config_ok config.
Proof.
  intros H P. destruct c as [p|p d|p d|p|p x|p x|[p|p|p|p]|]; cbn in P; simplify_eq;
    cbn [run_command run_gateway] in H; by apply load_then in H.
Qed.

(** What only answers leaves machine and session as they were. *)
Definition inert {A} (f : program A) : Prop := forall s, machine (f s).1 = machine s /\ session (f s).1 = session s.

Lemma inert_bind {A B} (f : program A) (g : A -> program B) : inert f -> (forall a, inert (g a)) -> inert (f ≫= g).
Proof.
  intros Hf Hg s. unfold mbind, M_bind. specialize (Hf s). destruct (f s) as [s1 [a| |]]; cbn [fst] in *; [|done..].
  destruct (Hg a s1) as [-> ->]. done.
Qed.
Lemma inert_lift {A} (o : outcome MainError A) : inert (mlift o).
Proof. done. Qed.
Lemma inert_print ls : inert (on_console (print_lines ls)).
Proof. intros s. by destruct s as [[] ? ?]. Qed.
Lemma inert_plan config : inert (on_console (gateway_plan_command config)).
Proof.
  intros s. unfold gateway_plan_command, on_console, mlift, mbind, M_bind.
  destruct (from_config config); by destruct s as [[] ? ?].
Qed.

Lemma answers_inert fuel entropy c : answers_only c = true -> inert (run_command fuel entropy c).
Proof.
  intros H. destruct c as [p|p d|p d|p|p x|p x|[p|p|p|p]|]; try discriminate H; cbn [run_command run_gateway];
    repeat (apply inert_bind; [first [apply inert_lift | apply inert_print | apply inert_plan]|intros ?]); apply inert_lift.
Qed.
End MainLemmas.

(** ** Examples *)

#[local] Existing Instances ref_ipnet ref_net_display ref_resolver.

(** An excluded address matches an [allowed_ips] entry and is dropped; the
    explanation says that no entry matches. *)
Definition wit_split_peer : Peer := {| Router.name := "home"; endpoint := SA4 167772170 7;
  configured_endpoint := endpoint_of (SA4 167772170 7); excluded_ips := [((167772161, 32) : Ipv4Net (IpNet := ref_ipnet))]; public_key := []; psk := [];
  persistent_keepalive := 0; udp_rebind_after := 0; session_timeout := 0 |}.
Definition wit_split : Router (IN := ref_ipnet) :=
  {| routes := [{| prefix := ((167772160, 24) : Ipv4Net (IpNet := ref_ipnet)); route_peer := wit_split_peer |}];
     excluded_routes := [{| ex_prefix := ((167772161, 32) : Ipv4Net (IpNet := ref_ipnet)); ex_peer := wit_split_peer |}] |}.
Example explain_hides_exclusion :
  explain_route wit_config wit_split 167772161 !! 5%nat = Some "Reason: no peer allowed_ips entry matches 10.0.0.1."%string /\
  existsb (fun r => contains (prefix r) 167772161) (routes wit_split) = true.
Proof. split; vm_compute; reflexivity. Qed.

