(* ===== verification/EndToEnd.v ===== *)
(** * Two engines, end to end

    The composition of everything between two packet interfaces: router,
    session manager, Noise sessions, framing and endpoint learning of two
    engines that are configured for each other, and a network that carries a
    frame to the address it is sent to. *)

From S2P Require Import Prelude Net PeerState Auth Replay Noise Sessions SessionInv Std Config Router Engine.
From S2P Require Packet.
Open Scope Z_scope.

(** ** The handshake of the Noise library

    What the documentation of Noise promises for the pattern IKpsk2: a party
    that starts with the other's public key is understood by it, reveals its
    own public key to it, and with equal pre-shared keys the second message
    completes the handshake with one key for each direction.  Keys are 32
    bytes; a transport message of at most 65535 bytes is written under every
    counter below the reserved last one. *)

Definition is_key (k : bytes) : Prop := length k = 32%nat.

Class NoiseIK (S : Snow) := {
  public_of : bytes -> bytes;
  ik_starts : forall a remote psk pl r, is_key a -> is_key remote -> is_key psk ->
    exists h r' m h', build_initiator a remote psk pl = Ok h /\
      hs_write h [] MAX_NOISE_MESSAGE_SIZE r = (r', Ok (m, h')) /\ m <> [];
  ik_responds : forall b psk pl, is_key b -> is_key psk -> exists h, build_responder b psk pl = Ok h;
  ik_reveals : forall a b psk psk' pl hi r r' m hi' hr x hr', is_key a ->
    build_initiator a (public_of b) psk pl = Ok hi -> hs_write hi [] MAX_NOISE_MESSAGE_SIZE r = (r', Ok (m, hi')) ->
    build_responder b psk' pl = Ok hr -> hs_read hr m MAX_NOISE_MESSAGE_SIZE = Ok (x, hr') ->
    x = [] /\ get_remote_static hr' = Some (public_of a);
  ik_understood : forall a b psk pl hi r r' m hi' hr, is_key a -> is_key b -> is_key psk ->
    build_initiator a (public_of b) psk pl = Ok hi -> hs_write hi [] MAX_NOISE_MESSAGE_SIZE r = (r', Ok (m, hi')) ->
    build_responder b psk pl = Ok hr -> exists x hr', hs_read hr m MAX_NOISE_MESSAGE_SIZE = Ok (x, hr') /\
    forall sid r2, length sid = SESSION_ID_SIZE ->
      exists r2' m2 hr2 hi2 ti tr, hs_write hr' sid MAX_NOISE_MESSAGE_SIZE r2 = (r2', Ok (m2, hr2)) /\ m2 <> [] /\
        hs_read hi' m2 (len sid + AEAD_TAG_SIZE) = Ok (sid, hi2) /\
        into_stateless hi2 = Ok ti /\ into_stateless hr2 = Ok tr /\ paired ti tr /\ paired tr ti;
  ts_write_ok : forall t n p cap, 0 <= n < U64_MAX -> len p + AEAD_TAG_SIZE <= MAX_NOISE_MESSAGE_SIZE ->
    len p + AEAD_TAG_SIZE <= cap -> exists c, ts_write t n p cap = Ok c }.

(** ** Two sessions of one handshake *)

Section Sessions.
Context {SN : Snow} {SL : SnowLaws SN} {NK : NoiseIK SN}.

(** What [s] sends, [r] receives: one identifier, one key, and [r] has seen
    no counter that [s] has yet to use. *)
Record linked (s r : Session) : Prop := {
  lk_id : session_id r = session_id s;
  lk_key : paired (transport s) (transport r);
  lk_fresh : exists seen, window_inv seen (replay r) /\ Forall (fun n => n < send_counter s) seen }.

(** A session at work: [k] bounds its counters. *)
Record at_work (k : Z) (s : Session) : Prop := {
  aw_wf : session_wf s;
  aw_sent : send_counter s <= k;
  aw_received : received_messages s <= k }.

Lemma fresh_acceptable seen n : Forall (fun c => c < n) seen -> Spec.acceptable seen n = true.
Proof.
  intros H. rewrite Forall_forall in H. unfold Spec.acceptable. rewrite bool_decide_true.
  - apply forallb_forall. intros x Hx%list_elem_of_In%H. apply Z.ltb_lt. unfold DEFAULT_WINDOW_SIZE. lia.
  - intros Hin%H. lia.
Qed.

(** A session at work writes a frame, and reads one that its partner's key
    wrote under an acceptable counter. *)
Lemma at_work_encrypt k s m p :
  at_work k s -> k < U64_MAX -> len p + 17 <= MAX_NOISE_MESSAGE_SIZE ->
  exists ct cap, let s' := set_send_counter s (send_counter s + 1) in
    ts_write (transport s) (send_counter s) (encode_transport_plaintext m p) cap = Ok ct /\
    encrypt m p s = (s', Ok (encode_transport (session_id s) (send_counter s) ct)) /\
    packet_wf (Transport (session_id s) (send_counter s) ct) /\ at_work (k + 1) s'.
Proof.
  intros [[Hw Hs Hr Hid] Hk Hkr] Hk' Hp. unfold is_u64, U64_MAX in *. set (pt := encode_transport_plaintext m p).
  assert (Hpt : len pt = len p + 1) by (unfold pt, encode_transport_plaintext; rewrite len_cons; lia).
  destruct (ts_write_ok (transport s) (send_counter s) pt (len pt + AEAD_TAG_SIZE)) as [ct Hct];
    [unfold U64_MAX; lia|unfold AEAD_TAG_SIZE; lia|lia|].
  pose proof (ts_write_length _ _ _ _ _ Hct) as Hlen. pose proof (len_nonneg p) as Hnn.
  exists ct, (len pt + AEAD_TAG_SIZE). cbv zeta. split_and!; [done| | |].
  - rewrite encrypt_eq, (proj2 (Z.eqb_neq _ _)) by (unfold U64_MAX; lia). fold pt. by rewrite Hct.
  - cbn. split_and!; [done|lia|unfold U64_MAX; lia|unfold len in *; lia].
  - split; cbn; [split; cbn; try done; unfold is_u64, U64_MAX; lia|lia|lia].
Qed.

Lemma at_work_decrypt k r t seen n ct cap m p :
  at_work k r -> k < U64_MAX -> window_inv seen (replay r) -> is_u64 n -> paired t (transport r) ->
  ts_write t n (encode_transport_plaintext m p) cap = Ok ct -> Spec.acceptable seen n = true ->
  exists w, let r' := set_received r (Z.min (received_messages r + 1) U64_MAX) w in
    decrypt (session_id r) n ct r = (r', Ok (m, p)) /\ window_inv (n :: seen) w /\ at_work (k + 1) r'.
Proof.
  intros [[_ Hs Hr Hid] Hk Hkr] Hk' Hw Hn Hkey Hct Ha. unfold is_u64 in *.
  pose proof (ts_write_length _ _ _ _ _ Hct) as Hlen. pose proof (len_nonneg p) as Hnn.
  assert (Hpt : len (encode_transport_plaintext m p) = len p + 1) by (unfold encode_transport_plaintext; rewrite len_cons; lia).
  destruct (mark_refines seen (replay r) n Hw Hn) as (w & Em & Hwin).
  unfold Spec.mark in Em, Hwin. rewrite Ha in Em, Hwin. cbn [fst snd] in Em, Hwin.
  exists w. cbv zeta. split_and!; [|done|].
  - rewrite (decrypt_eq _ _ _ _ seen Hw Hn), bool_decide_true by done. cbn [negb]. rewrite Ha. cbn [negb].
    rewrite (proj2 (Z.ltb_ge _ _)) by (unfold AEAD_TAG_SIZE; lia).
    by rewrite (Hkey _ _ _ _ Hct), Em, plaintext_round_trip.
  - split; cbn; [split; cbn; try done; [by eexists|unfold is_u64, U64_MAX; lia]|lia|lia].
Qed.

(** One message from [s] to [r]. *)
Lemma linked_send k s r m p :
  at_work k s -> at_work k r -> linked s r -> linked r s -> k < U64_MAX ->
  len p + 17 <= MAX_NOISE_MESSAGE_SIZE ->
  exists ct r', let s' := set_send_counter s (send_counter s + 1) in
    encrypt m p s = (s', Ok (encode_transport (session_id s) (send_counter s) ct)) /\
    packet_wf (Transport (session_id s) (send_counter s) ct) /\
    decrypt (session_id s) (send_counter s) ct r = (r', Ok (m, p)) /\ created_at r' = created_at r /\
    session_id r' = session_id r /\
    at_work (k + 1) s' /\ at_work (k + 1) r' /\ linked s' r' /\ linked r' s'.
Proof.
  intros Hs Hr [Hid Hkey (seen & Hw & Hf)] [_ Hkey' (seen' & Hw' & Hf')] Hk Hp.
  destruct (at_work_encrypt k s m p Hs Hk Hp) as (ct & cap & Hct & He & Hwf & Hs').
  destruct (at_work_decrypt k r (transport s) seen (send_counter s) ct cap m p Hr Hk Hw (swf_send _ (aw_wf _ _ Hs)) Hkey Hct
    (fresh_acceptable _ _ Hf)) as (w & Hd & Hwin & Hr').
  rewrite Hid in Hd. exists ct. eexists. cbv zeta in *. split_and!; [exact He|done|exact Hd|done|done|done|exact Hr'| |].
  - split; cbn; [done|done|]. exists (send_counter s :: seen). split; [done|].
    constructor; [lia|]. eapply Forall_impl; [exact Hf|]. cbn. lia.
  - split; cbn; [by rewrite Hid|done|]. by exists seen'.
Qed.

Lemma linked_new sid ti tr wall wall' :
  paired ti tr -> linked (Session_new sid ti wall) (Session_new sid tr wall').
Proof. intros H. split; [done|done|]. exists []. split; [apply new_inv|by constructor]. Qed.
Lemma at_work_new k sid t wall : length sid = SESSION_ID_SIZE -> 0 <= k -> at_work k (Session_new sid t wall).
Proof. intros H Hk. split; [by apply Session_new_wf|done|done]. Qed.
Lemma at_work_le k k' s : at_work k s -> k <= k' -> at_work k' s.
Proof. intros [? ? ?] ?. split; [done|lia|lia]. Qed.
End Sessions.

(** ** One engine and its peer *)

Section Serving.
Context {IN : IpNet} {B64 : Base64} {RS : Resolver} {SN : Snow} {SL : SnowLaws SN} {NK : NoiseIK SN}.

(** The engine serves [peer] at [remote] with session [s], made at or after
    [t0]; nothing is pending. *)
Record serves (k : Z) (t0 : Instant) (st : EngineState) (peer : string) (remote : SocketAddr) (s : Session) : Prop := {
  sv_wf : sm_wf (manager st);
  sv_active : sessions (manager st) !! peer = Some s;
  sv_candidate : responder_candidates (manager st) !! peer = None;
  sv_pending : pending_init (manager st) !! peer = None;
  sv_endpoint : peer_stats st !! peer ≫= current_endpoint = Some remote;
  sv_work : at_work k s;
  sv_created : t0 <= created_at s }.

Lemma serves_le k k' t0 st peer remote s : serves k t0 st peer remote s -> k <= k' -> serves k' t0 st peer remote s.
Proof. intros [] ?. split; try done. by eapply at_work_le. Qed.

Lemma young_session k s t : at_work k s -> k < U64_MAX -> t < created_at s + REJECT_AFTER_TIME -> is_expired s t = false.
Proof.
  unfold REJECT_AFTER_TIME. intros [_ H1 _] Hk H. rewrite <- not_true_iff_false, is_expired_time. lia.
Qed.

(** Times before the first rekey of a session made at [t0] or later. *)
Definition young (t0 t : Instant) : Prop := t < t0 + REKEY_AFTER_TIME.

Lemma young_live k t0 s t : at_work k s -> k < REKEY_AFTER_MESSAGES -> t0 <= created_at s -> young t0 t ->
  is_expired s t = false /\ should_rekey s t = false.
Proof.
  unfold young, REKEY_AFTER_TIME, REKEY_AFTER_MESSAGES. change (Z.shiftl 1 32) with (2 ^ 32).
  intros [_ H1 H2] Hk H3 H4. rewrite <- !not_true_iff_false. rewrite is_expired_time, should_rekey_iff.
  unfold from_secs, U64_MAX in *. lia.
Qed.

Lemma rekey_bound k : k < REKEY_AFTER_MESSAGES -> k < U64_MAX.
Proof. unfold REKEY_AFTER_MESSAGES. change (Z.shiftl 1 32) with (2 ^ 32). unfold U64_MAX. lia. Qed.

Lemma not_due_live s now : session_wf s -> should_rekey s now = false -> is_expired s now = false.
Proof.
  intros Hs. rewrite <- !not_true_iff_false, is_expired_time, should_rekey_iff. unfold from_secs, U64_MAX. pose proof (swf_send _ Hs). lia.
Qed.

(** A live session receives its packets; what that does to the manager. *)
Lemma decrypt_transport_eq st k p s n ct now s' m pl :
  sm_wf st -> slot_of st k !! p = Some s -> is_expired s now = false ->
  decrypt (session_id s) n ct s = (s', Ok (m, pl)) ->
  decrypt_transport (session_id s) n ct now st =
    let st1 := set_slot k <[p := s']> (prune now st) in
    ((if decide (k = Candidate) then promote p s' st1 else st1),
     Ok (Some {| dt_peer_name := p; dt_msg_type := m; dt_payload := pl; dt_promoted := bool_decide (k = Candidate) |})).
Proof.
  intros Hwf Hs Hl Hd.
  assert (slot_of (prune now st) k !! p = Some s) as Hs1 by (by rewrite slot_prune, retain_live_Some).
  destruct (decrypt_transport_cases (session_id s) n ct now st) as [[_ H]|(k0 & q & s0 & Hq & Hid & ->)].
  - by destruct (H k p s Hs1).
  - destruct (slots_inj _ (wf_slots _ (prune_wf now st Hwf)) _ _ _ _ _ _ Hq Hs1 Hid) as [-> ->].
    rewrite Hq in Hs1. injection Hs1 as ->. cbv zeta. by rewrite Hd.
Qed.

Lemma retain_live_None now (m : gmap string Session) p : m !! p = None -> retain_live now m !! p = None.
Proof. intros H. apply eq_None_not_Some. intros [s [Hs _]%retain_live_Some]. congruence. Qed.

(** *** Sending *)

Lemma encrypt_for_peer_live p m pl now st s s' f :
  sessions st !! p = Some s -> is_expired s now = false -> encrypt m pl s = (s', Ok f) ->
  encrypt_for_peer p m pl now st = (set_sessions <[p := s']> (set_previous (retain_live now) st), Ok (Some f)).
Proof.
  intros Hs Hl He. unfold encrypt_for_peer, get_is. cbn [sessions set_previous]. rewrite Hs, Hl. cbn [sessions set_previous].
  rewrite Hs, He. done.
Qed.

(** With a session that needs no rekey nothing is initiated. *)
Lemma start_quiet p ls rs psk now st rng s :
  pending_init st !! p = None -> responder_candidates st !! p = None -> sessions st !! p = Some s ->
  is_expired s now = false -> should_rekey s now = false ->
  start_or_retry_handshake p ls rs psk now (st, rng) = ((st, rng), Ok None).
Proof.
  intros Hp Hc Hs He Hr. rewrite start_eq. cbv zeta.
  assert (start_prune p now st = st) as -> by (unfold start_prune; by rewrite get_is_None).
  assert (start_prune2 p now st = st) as -> by (unfold start_prune2; by rewrite get_is_None).
  assert (start_prune3 p now st = st) as -> by (unfold start_prune3, get_is; by rewrite Hs, He).
  rewrite Hp, Hc. unfold get_is. by rewrite Hs, Hr.
Qed.

Lemma set_entropy_same st : set_entropy (entropy st) st = st.
Proof. by destruct st. Qed.

Lemma serves_resolve k t0 st p remote s :
  serves k t0 st (name p) remote s -> usable_peer_endpoint remote = true -> resolve_endpoint p st = Some remote.
Proof.
  intros H Hu. unfold resolve_endpoint, snapshot. cbv zeta. rewrite (sv_endpoint _ _ _ _ _ _ H). cbn [filter_opt].
  by rewrite Hu; cbn [filter_opt]; rewrite Hu.
Qed.

Lemma serves_encrypt k t0 st peer remote s m pl now s' f :
  serves k t0 st peer remote s -> at_work (k + 1) s' -> created_at s' = created_at s ->
  encrypt m pl s = (s', Ok f) ->
  serves (k + 1) t0 (set_manager (set_sessions <[peer := s']> (set_previous (retain_live now) (manager st))) st) peer remote s'.
Proof.
  intros [Hwf Ha Hc Hp He Hw Ht] Hw' Hcr Henc.
  split; cbn; try done; [|by rewrite lookup_insert_eq|lia].
  assert (Hle : sess_le s s') by (pose proof (encrypt_le m pl s (aw_wf _ _ Hw)) as Hle; by rewrite Henc in Hle).
  apply (rest_eq_wf (manager st)); [done| |done].
  eapply st_ev_trans; [apply set_previous_ev, map_ev_retain|]. apply set_sessions_ev. by eapply map_ev_insert.
Qed.

(** A message to the peer leaves as one frame. *)
Lemma peer_sends e p m pl k t0 now st remote s s' f :
  serves k t0 st (name p) remote s -> usable_peer_endpoint remote = true ->
  is_expired s now = false -> should_rekey s' now = false ->
  encrypt m pl s = (s', Ok f) -> at_work (k + 1) s' -> created_at s' = created_at s ->
  exists st', send_or_initiate e p m pl now st =
      (st', Ok {| actions := [SendTransport (name p) remote f]; events := [] |}) /\
    serves (k + 1) t0 st' (name p) remote s'.
Proof.
  intros Hsv Hu Hle Hr' He Hw Hc.
  pose proof (serves_encrypt _ _ _ _ _ _ _ _ now _ _ Hsv Hw Hc He) as Hsv'.
  pose proof (not_due_live s' now (aw_wf _ _ Hw) Hr') as Hle'.
  eexists. split; [|exact Hsv'].
  unfold send_or_initiate. rewrite (encrypt_for_peer_live _ _ _ _ _ _ _ _ (sv_active _ _ _ _ _ _ Hsv) Hle He).
  unfold initiate_peer, mbind, M_bind, mget, mret, M_ret. rewrite (serves_resolve _ _ _ p _ _ Hsv' Hu).
  rewrite (start_quiet _ _ _ _ _ _ _ s');
    [|exact (sv_pending _ _ _ _ _ _ Hsv')|exact (sv_candidate _ _ _ _ _ _ Hsv')|exact (sv_active _ _ _ _ _ _ Hsv')|done|done].
  cbn [fmap outcome_fmap option_map map_err]. rewrite set_entropy_same.
  match goal with |- context [set_manager (manager ?x) ?x] => change (set_manager (manager x) x) with x end.
  by rewrite (serves_resolve _ _ _ p _ _ Hsv' Hu).
Qed.

(** A packet of the interface is a message to the peer of its route. *)
Lemma outbound_message e route packet ip d now st :
  Packet.parse packet = Ok ip -> Packet.destination ip = Ok d -> lookup (router e) d = Some route ->
  process_outbound_ip e packet now st = send_or_initiate e (route_peer route) MsgType.Data packet now st.
Proof.
  intros Hip Hd Hl. unfold process_outbound_ip, mlift. unfold mbind at 1, M_bind at 1. rewrite Hip. cbn [map_err].
  unfold mbind at 1, M_bind at 1. rewrite Hd. cbn [map_err]. by rewrite Hl.
Qed.

Lemma serving_sends e route packet ip d k t0 now st remote s s' f :
  let p := route_peer route in
  Packet.parse packet = Ok ip -> Packet.destination ip = Ok d -> lookup (router e) d = Some route ->
  serves k t0 st (name p) remote s -> usable_peer_endpoint remote = true ->
  is_expired s now = false -> should_rekey s' now = false ->
  encrypt MsgType.Data packet s = (s', Ok f) -> at_work (k + 1) s' -> created_at s' = created_at s ->
  exists st', process_outbound_ip e packet now st =
      (st', Ok {| actions := [SendTransport (name p) remote f]; events := [] |}) /\
    serves (k + 1) t0 st' (name p) remote s'.
Proof. intros p Hip Hd Hl. rewrite (outbound_message _ _ _ _ _ _ _ Hip Hd Hl). apply peer_sends. Qed.

(** *** Receiving *)

Lemma serves_decrypt k k' t0 st peer remote s sid n ct now s' m pl :
  serves k t0 st peer remote s -> session_id s = sid -> is_u64 n -> is_expired s now = false -> at_work k' s' -> created_at s' = created_at s ->
  decrypt sid n ct s = (s', Ok (m, pl)) ->
  exists sm, decrypt_transport sid n ct now (manager st) =
      (sm, Ok (Some {| dt_peer_name := peer; dt_msg_type := m; dt_payload := pl; dt_promoted := false |})) /\
    forall stats source, stats !! peer ≫= current_endpoint = Some source ->
      serves k' t0 (set_stats (fun _ => stats) (set_manager sm st)) peer source s'.
Proof.
  intros [Hwf Ha Hc Hp He Hw Ht] <- Hn Hl Hw' Hcr Hd.
  pose proof (decrypt_transport_eq (manager st) Active peer s n ct now s' m pl Hwf Ha Hl Hd) as E.
  cbv zeta in E. rewrite decide_False in E by done. eexists. split; [exact E|]. intros stats source Hs.
  pose proof (decrypt_transport_wf (session_id s) n ct now (manager st) Hwf Hn) as Hwf'. rewrite E in Hwf'.
  split; cbn; try done; [by rewrite lookup_insert_eq|by apply retain_live_None|lia].
Qed.

(** The frame of a served session arrives: data goes to the packet interface. *)
Lemma serving_receives e k t0 now clock st peer remote source s s' n ct packet ip :
  serves k t0 st peer remote s -> is_expired s now = false ->
  packet_wf (Transport (session_id s) n ct) -> at_work (k + 1) s' -> created_at s' = created_at s ->
  decrypt (session_id s) n ct s = (s', Ok (MsgType.Data, packet)) -> Packet.parse packet = Ok ip ->
  exists st', process_inbound_transport e (encode_transport (session_id s) n ct) source now clock st =
      (st', Ok {| actions := [WriteIpPacket peer source packet]; events := [] |}) /\
    serves (k + 1) t0 st' peer source s'.
Proof.
  intros Hsv Hl Hwf Hw Hc Hd Hip.
  destruct Hwf as (H1 & H2 & H3).
  destruct (serves_decrypt _ _ _ _ _ _ _ _ n ct now s' _ _ Hsv eq_refl H2 Hl Hw Hc Hd) as (sm & E & Hsv').
  eexists. split.
  - unfold process_inbound_transport. rewrite decode_encode_transport by done.
    unfold process_transport, call. unfold mbind at 1, M_bind at 1. rewrite E. cbn [map_err dt_msg_type dt_peer_name dt_payload dt_promoted].
    unfold mmodify, mlift, mbind, M_bind, mret, M_ret. by rewrite Hip.
  - apply Hsv'. apply record_rx_endpoint.
Qed.

(** The time at which the peer was last heard. *)
Definition seen (st : EngineState) (peer : string) : option Instant := peer_stats st !! peer ≫= last_seen.

Lemma record_rx_seen m peer source n wall : record_rx m peer source n wall !! peer ≫= last_seen = Some wall.
Proof. unfold record_rx. by rewrite lookup_insert_eq. Qed.
Lemma record_keepalive_seen m peer source wall : record_keepalive m peer source wall !! peer ≫= last_seen = Some wall.
Proof. unfold record_keepalive. by rewrite lookup_insert_eq. Qed.

(** A keepalive that is no probe only refreshes the endpoint. *)
Lemma serving_hears_ack e k t0 now clock st peer remote source s s' n ct pl :
  serves k t0 st peer remote s -> is_expired s now = false ->
  packet_wf (Transport (session_id s) n ct) -> at_work (k + 1) s' -> created_at s' = created_at s ->
  decrypt (session_id s) n ct s = (s', Ok (MsgType.Keepalive, pl)) -> pl <> KEEPALIVE_PROBE_PAYLOAD ->
  exists st', process_inbound_transport e (encode_transport (session_id s) n ct) source now clock st = (st', Ok no_output) /\
    serves (k + 1) t0 st' peer source s' /\ seen st' peer = Some (clock 0%nat).
Proof.
  intros Hsv Hl Hwf Hw Hc Hd Hpl.
  destruct Hwf as (H1 & H2 & H3).
  destruct (serves_decrypt _ _ _ _ _ _ _ _ n ct now s' _ _ Hsv eq_refl H2 Hl Hw Hc Hd) as (sm & E & Hsv').
  eexists. split.
  - unfold process_inbound_transport. rewrite decode_encode_transport by done.
    unfold process_transport, call. unfold mbind at 1, M_bind at 1. rewrite E. cbn [map_err dt_msg_type dt_peer_name dt_payload dt_promoted].
    unfold mmodify, mlift, mbind, M_bind, mret, M_ret. by rewrite bool_decide_false.
  - split; [apply Hsv', record_keepalive_endpoint|apply record_keepalive_seen].
Qed.
End Serving.

(** ** The handshake of two engines *)

Section Handshake.
Context {IN : IpNet} {B64 : Base64} {RS : Resolver} {SN : Snow} {SL : SnowLaws SN} {NK : NoiseIK SN}.

Lemma run_call_ok {A B} (m : SessionState -> SessionState * A) (f : A -> M EngineState EngineError B) st s a :
  m (manager st) = (s, a) -> (call_ok m ≫= f) st = f a (set_manager s st).
Proof. intros H. unfold call_ok, mbind, M_bind. by rewrite H. Qed.
Lemma run_call {A B} (m : M SessionState NoiseError A) (f : A -> M EngineState EngineError B) st s a :
  m (manager st) = (s, Ok a) -> (call m ≫= f) st = f a (set_manager s st).
Proof. intros H. unfold call, mbind, M_bind. by rewrite H. Qed.

(** No session of the manager has the identifier. *)
Definition unused (sid : bytes) (st : SessionState) : Prop :=
  forall k q s, slot_of st k !! q = Some s -> session_id s <> sid.

Lemma unused_ev sid st st' : unused sid st -> st_ev st st' -> unused sid st'.
Proof. intros H Hev k q s' (s & Hs & Hle)%Hev. rewrite (le_id _ _ Hle). eauto. Qed.

Lemma unused_find sid st k : unused sid st -> find_session (slot_of st k) sid = None.
Proof.
  intros H. destruct (find_session _ sid) as [q|] eqn:E; [|done].
  apply find_session_Some in E as (s & Hs & Hid). by apply H in Hs.
Qed.

Lemma unused_in_use sid st : unused sid st -> session_id_in_use st sid = false.
Proof.
  intros H. unfold session_id_in_use, in_use.
  pose proof (unused_find sid st Active H) as E1. pose proof (unused_find sid st Previous H) as E2.
  pose proof (unused_find sid st Candidate H) as E3. cbn in E1, E2, E3. by rewrite E1, E2, E3.
Qed.

(** *** The initiator starts *)

(** The first message was sent: its handshake is pending, alone under its
    identifier. *)
Record initiating (st : SessionState) (peer : string) (hid : bytes) (h : HandshakeState) : Prop := {
  in_wf : sm_wf st;
  in_pending : exists pi, pending_init st !! peer = Some pi /\ pi_handshake_id pi = hid /\
    pi_state pi = {| is_handshake_id := hid; is_state := h |};
  in_alone : forall q pi, pending_init st !! q = Some pi -> pi_handshake_id pi = hid -> q = peer }.

(** A peer without a pending exchange, without a candidate and without a
    session that would do gets an initiation. *)
Lemma initiation_starts peer ls rs psk now sm rng :
  let hid := (fill_bytes rng SESSION_ID_SIZE).1 in
  is_key ls -> is_key rs -> is_key psk -> sm_wf sm ->
  pending_init sm !! peer = None -> responder_candidates sm !! peer = None ->
  get_is (sessions sm) peer (fun s => is_expired s now) = false ->
  get_is (sessions sm) peer (fun s => negb (should_rekey s now)) = false ->
  (forall q pi, pending_init sm !! q = Some pi -> pi_handshake_id pi <> hid) ->
  exists hi r' m hi' pi, build_initiator ls rs psk (handshake_prologue hid) = Ok hi /\
    hs_write hi [] MAX_NOISE_MESSAGE_SIZE (fill_bytes rng SESSION_ID_SIZE).2 = (r', Ok (m, hi')) /\ m <> [] /\
    start_or_retry_handshake peer ls rs psk now (sm, rng) =
      ((set_pending <[peer := pi]> sm, r'), Ok (Some (encode_handshake PacketKind.HandshakeInit hid m))) /\
    initiating (set_pending <[peer := pi]> sm) peer hid hi'.
Proof.
  intros hid Ha Hrs Hpsk Hwf Hp Hc Hlive Hdue Hne.
  destruct (ik_starts ls rs psk (handshake_prologue hid) (fill_bytes rng SESSION_ID_SIZE).2 Ha Hrs Hpsk) as (hi & r' & m & hi' & Eb & Ew & Hm).
  assert (Ei : initiator_start ls rs psk rng =
    (r', Ok {| ih_handshake_id := hid; ih_message := m; ih_state := {| is_handshake_id := hid; is_state := hi' |} |})).
  { unfold initiator_start, initiator_start_with_id, draw, noise_write, mlift, mbind, M_bind, mret, M_ret.
    rewrite (surjective_pairing (fill_bytes _ _)). fold hid. rewrite Eb. cbn [map_err]. by rewrite Ew. }
  assert (Es : exists pi, start_or_retry_handshake peer ls rs psk now (sm, rng) =
      ((set_pending <[peer := pi]> sm, r'), Ok (Some (encode_handshake PacketKind.HandshakeInit hid m))) /\
      pi_handshake_id pi = hid /\ pi_state pi = {| is_handshake_id := hid; is_state := hi' |}).
  { rewrite start_eq. cbv zeta.
    assert (start_prune peer now sm = sm) as -> by (unfold start_prune; by rewrite get_is_None).
    assert (start_prune2 peer now sm = sm) as -> by (unfold start_prune2; by rewrite get_is_None).
    assert (start_prune3 peer now sm = sm) as -> by (unfold start_prune3; by rewrite Hlive).
    rewrite Hp, Hc, Hdue, Ei. by eexists. }
  destruct Es as (pi & Es & Hpid & Hpst). exists hi, r', m, hi', pi. split_and!; try done. split.
  - pose proof (start_or_retry_handshake_wf peer ls rs psk now sm rng Hwf) as [H _]. by rewrite Es in H.
  - exists pi. cbn. by rewrite lookup_insert_eq.
  - cbn. intros q pi' [[<- _]|[_ H]]%lookup_insert_Some; [done|]. intros E. by apply Hne in H.
Qed.

(** With no session the peer gets an initiation and the message is not kept. *)
Lemma message_initiates e p m0 pl now st remote :
  let hid := (fill_bytes (entropy st) SESSION_ID_SIZE).1 in
  resolve_endpoint p st = Some remote -> is_key (local_static e) -> is_key (public_key p) -> is_key (psk p) ->
  sm_wf (manager st) -> sessions (manager st) !! name p = None ->
  pending_init (manager st) !! name p = None -> responder_candidates (manager st) !! name p = None ->
  (forall q pi, pending_init (manager st) !! q = Some pi -> pi_handshake_id pi <> hid) ->
  exists st' hi r r' m hi', 
    build_initiator (local_static e) (public_key p) (psk p) (handshake_prologue hid) = Ok hi /\
    hs_write hi [] MAX_NOISE_MESSAGE_SIZE r = (r', Ok (m, hi')) /\ m <> [] /\
    send_or_initiate e p m0 pl now st =
      (st', Ok {| actions := [SendTransport (name p) remote (encode_handshake PacketKind.HandshakeInit hid m)]; events := [] |}) /\
    initiating (manager st') (name p) hid hi' /\ st_ev (manager st) (manager st').
Proof.
  intros hid Hres Ha Hpk Hps Hwf Hs Hp Hc Hne.
  set (sm := set_previous (retain_live now) (manager st)).
  assert (Ee : encrypt_for_peer (name p) m0 pl now (manager st) = (sm, Ok None)).
  { unfold encrypt_for_peer, get_is. cbn [sessions set_previous]. rewrite Hs. cbn [sessions set_previous]. by rewrite Hs. }
  assert (Hev : st_ev (manager st) sm) by apply set_previous_ev, map_ev_retain.
  assert (Hwf1 : sm_wf sm) by (by apply (rest_eq_wf (manager st))).
  destruct (initiation_starts (name p) (local_static e) (public_key p) (psk p) now sm (entropy st) Ha Hpk Hps Hwf1 Hp Hc)
    as (hi & r' & m & hi' & pi & Eb & Ew & Hm & Es & Hin); [by apply get_is_None|by apply get_is_None|done|].
  eexists _, hi, _, r', m, hi'. split; [done|]. split; [done|]. split; [done|]. split; [|split].
  - unfold send_or_initiate. rewrite Ee. unfold initiate_peer, mbind, M_bind, mret, M_ret.
    change (resolve_endpoint p (set_manager sm st)) with (resolve_endpoint p st). rewrite Hres.
    cbn [manager set_manager entropy]. rewrite Es. reflexivity.
  - exact Hin.
  - eapply st_ev_trans; [exact Hev|]. apply set_pending_ev.
Qed.

(** *** The responder answers *)

(** Among the routed peers the responder finds the one whose key the
    initiator revealed; trying the others leaves no trace. *)
Lemma try_respond_finds e a pl_hid hi r r' m hi' wall rng rs checked pa :
  let pl := handshake_prologue pl_hid in
  is_key a -> is_key (local_static e) -> is_key (psk pa) -> public_key pa = public_of a ->
  build_initiator a (public_of (local_static e)) (psk pa) pl = Ok hi ->
  hs_write hi [] MAX_NOISE_MESSAGE_SIZE r = (r', Ok (m, hi')) ->
  (exists rt, rt ∈ rs /\ route_peer rt = pa) -> name pa ∉ checked ->
  (forall rt, rt ∈ rs -> public_key (route_peer rt) = public_key pa \/ name (route_peer rt) = name pa -> route_peer rt = pa) ->
  exists rng' m2 sid hi2 ti tr, sid = (fill_bytes rng SESSION_ID_SIZE).1 /\ m2 <> [] /\
    try_respond e pl_hid m wall checked rs rng =
      (rng', Ok (Some (name pa, {| rh_message := m2; rh_session := Session_new sid tr wall |}))) /\
    hs_read hi' m2 (len sid + AEAD_TAG_SIZE) = Ok (sid, hi2) /\ into_stateless hi2 = Ok ti /\
    paired ti tr /\ paired tr ti.
Proof.
  intros pl Hka Hb Hpsk Hpk Ebi Ew Hin Hnc Huniq.
  revert checked Hin Hnc Huniq. induction rs as [|rt rs IH]; intros checked (rt0 & Hin & Hrt) Hnc Huniq.
  { by apply not_elem_of_nil in Hin. }
  cbn [try_respond]. destruct (decide (public_key (route_peer rt) = public_key pa)) as [Heq|Hne].
  - assert (route_peer rt = pa) as -> by (apply Huniq; [apply elem_of_cons|]; by left). rewrite bool_decide_false by done.
    destruct (ik_responds (local_static e) (psk pa) pl Hb Hpsk) as [hr Ebr].
    destruct (ik_understood _ _ _ _ _ _ _ _ _ _ Hka Hb Hpsk Ebi Ew Ebr) as (x & hr' & Er & Hrest).
    destruct (ik_reveals _ _ _ _ _ _ _ _ _ _ _ _ _ Hka Ebi Ew Ebr Er) as [-> Eg].
    destruct (Hrest (fill_bytes rng SESSION_ID_SIZE).1 (fill_bytes rng SESSION_ID_SIZE).2 (fill_bytes_length _ _))
      as (r2' & m2 & hr2 & hi2 & ti & tr & Ew2 & Hm2 & Er2 & Eti & Etr & Hp1 & Hp2).
    exists r2', m2, (fill_bytes rng SESSION_ID_SIZE).1, hi2, ti, tr. split_and!; try done.
    unfold responder_respond, mlift, mfail, draw, noise_write, mbind, M_bind, mret, M_ret. fold pl.
    rewrite Ebr. cbn [map_err]. rewrite Er. cbn [map_err length Nat.eqb negb]. rewrite Eg. cbn [ok_or].
    rewrite bool_decide_true by done. cbn [negb]. rewrite (surjective_pairing (fill_bytes rng _)).
    rewrite Ew2. cbn [map_err]. by rewrite Etr.
  - assert (Hskip : exists c, (name pa ∉ c) /\
      (try_respond e pl_hid m wall c rs rng = try_respond e pl_hid m wall checked (rt :: rs) rng)).
    { cbn [try_respond]. case_bool_decide as Hch; [by exists checked|].
      exists (name (route_peer rt) :: checked). split.
      { apply not_elem_of_cons. split; [|done]. intros E. apply Hne. f_equal. apply Huniq; [apply elem_of_cons; by left|by right]. }
      assert (exists er, responder_respond (local_static e) (public_key (route_peer rt)) (psk (route_peer rt)) pl_hid m wall rng
                = (rng, Err er)) as [er ->]; [|done].
      unfold responder_respond, mlift, mfail, draw, noise_write, mbind, M_bind, mret, M_ret. fold pl.
      pose proof (build_responder_np (local_static e) (psk (route_peer rt)) pl) as Hnp.
      destruct (build_responder _ _ _) as [hr| |] eqn:Ebr; [|by eexists|done]. cbn [map_err].
      pose proof (hs_read_np hr m MAX_NOISE_MESSAGE_SIZE) as Hnp2.
      destruct (hs_read hr m _) as [[x hr']| |] eqn:Er; [|by eexists|done].
      destruct (ik_reveals _ _ _ _ _ _ _ _ _ _ _ _ _ Hka Ebi Ew Ebr Er) as [-> Eg].
      cbn [map_err length Nat.eqb negb]. rewrite Eg. cbn [ok_or]. rewrite bool_decide_false; [by eexists|].
      intros E. apply Hne. by rewrite Hpk. }
    destruct Hskip as (c & Hc & E). cbn [try_respond] in E. rewrite <- E. apply IH; [|done|].
    + apply elem_of_cons in Hin as [->|Hin]; [by rewrite Hrt in Hne|]. by exists rt0.
    + intros rt' Hin'. apply Huniq. by right.
Qed.

(** The answer of the responder is sent; its candidate waits for the proof. *)
Lemma engine_answers e a hid hi r r' m hi' source now clock st pa :
  let sid := (fill_bytes (entropy st) SESSION_ID_SIZE).1 in
  is_key a -> is_key (local_static e) -> is_key (psk pa) -> public_key pa = public_of a ->
  build_initiator a (public_of (local_static e)) (psk pa) (handshake_prologue hid) = Ok hi ->
  hs_write hi [] MAX_NOISE_MESSAGE_SIZE r = (r', Ok (m, hi')) -> m <> [] -> length hid = SESSION_ID_SIZE ->
  (exists rt, rt ∈ routes (router e) /\ route_peer rt = pa) ->
  (forall rt, rt ∈ routes (router e) -> public_key (route_peer rt) = public_key pa \/ name (route_peer rt) = name pa -> route_peer rt = pa) ->
  sm_wf (manager st) -> pending_init (manager st) !! name pa = None -> unused sid (manager st) ->
  (forall c, responder_cache (manager st) !! name pa = Some c -> ch_handshake_id c <> hid) ->
  exists st' m2 hi2 ti tr, m2 <> [] /\
    process_inbound_transport e (encode_handshake PacketKind.HandshakeInit hid m) source now clock st =
      (st', Ok {| actions := [SendTransport (name pa) source (encode_handshake PacketKind.HandshakeResponse hid m2)]; events := [] |}) /\
    hs_read hi' m2 (len sid + AEAD_TAG_SIZE) = Ok (sid, hi2) /\ into_stateless hi2 = Ok ti /\
    paired ti tr /\ paired tr ti /\
    sm_wf (manager st') /\ responder_candidates (manager st') !! name pa = Some (Session_new sid tr (clock 0%nat)) /\
    sessions (manager st') = sessions (manager st).
Proof.
  intros sid Hka Hb Hpsk Hpk Ebi Ew Hm Hhid Hin Huniq Hwf Hp Hun Hcache.
  destruct (try_respond_finds e a hid hi r r' m hi' (clock 0%nat) (entropy st) (routes (router e)) [] pa Hka Hb Hpsk Hpk Ebi Ew Hin)
    as (rng' & m2 & sid' & hi2 & ti & tr & -> & Hm2 & Etry & Er2 & Eti & Hp1 & Hp2); [by apply not_elem_of_nil|done|].
  fold sid in Etry, Er2 |- *.
  set (s := Session_new sid tr (clock 0%nat)) in *.
  set (resp := encode_handshake PacketKind.HandshakeResponse hid m2).
  set (passive := match find_peer e (name pa) with Some p => negb (usable_peer_endpoint (endpoint p)) | None => false end).
  pose proof (accept_inbound_initiation_wf (name pa) hid passive (clock 1%nat) (manager st) Hwf) as Hwf1.
  assert (Ea : exists sm1, accept_inbound_initiation (name pa) hid passive (clock 1%nat) (manager st) = (sm1, true) /\
    (forall k, slot_of sm1 k = slot_of (manager st) k) /\ pending_init sm1 !! name pa = None /\
    responder_cache sm1 = responder_cache (manager st)).
  { unfold accept_inbound_initiation. cbv zeta. rewrite get_is_None by done. rewrite Hp.
    destruct (passive && _); eexists; (split; [done|]); (split; [by intros []|]); [|done].
    cbn. by rewrite lookup_delete_eq. }
  destruct Ea as (sm1 & Ea & Hslots1 & Hp1' & Hc1). rewrite Ea in Hwf1. cbn [fst] in Hwf1. destruct Hwf1 as [Hwf1 _].
  pose proof (cached_responder_response_wf (name pa) hid m (clock 2%nat) sm1 Hwf1) as Hwf2.
  assert (Ec : exists sm2, cached_responder_response (name pa) hid m (clock 2%nat) sm1 = (sm2, None) /\
    pending_init sm2 = pending_init sm1 /\ sessions sm2 = sessions sm1).
  { unfold cached_responder_response. rewrite Hc1. case_match; [by eexists|].
    destruct (responder_cache (manager st) !! name pa) as [c|] eqn:E; [|by eexists].
    rewrite (bool_decide_false (ch_handshake_id c = hid)) by (by apply Hcache). by eexists. }
  destruct Ec as (sm2 & Ec & Hpend2 & Hsess2). rewrite Ec in Hwf2. cbn [fst] in Hwf2. destruct Hwf2 as [Hwf2 Hev2].
  assert (Hun2 : unused sid sm2).
  { eapply unused_ev; [|exact Hev2]. intros k q s0. rewrite Hslots1. apply Hun. }
  pose proof (store_responder_candidate_wf (name pa) s hid m resp (clock 3%nat) sm2 Hwf2) as Hwf3.
  assert (Hs : session_wf s) by apply Session_new_wf, fill_bytes_length. specialize (Hwf3 Hs).
  rewrite store_responder_candidate_eq in Hwf3. change (session_id s) with sid in Hwf3. rewrite (unused_in_use _ _ Hun2) in Hwf3. cbn [fst] in Hwf3.
  eexists _, m2, hi2, ti, tr. split; [done|]. split.
  { unfold process_inbound_transport. rewrite decode_encode_handshake by (by split_and!).
    unfold process_init. unfold mbind at 1, M_bind at 1. unfold decode_handshake_init. rewrite Etry.
    fold passive. rewrite (run_call_ok _ _ (set_entropy rng' st) sm1 true Ea). cbn [negb].
    rewrite (run_call_ok _ _ (set_manager sm1 (set_entropy rng' st)) sm2 None Ec).
    cbn [rh_session rh_message]. fold resp. erewrite (run_call_ok _ _ _ _ true); [reflexivity|].
    cbn [manager set_manager]. rewrite store_responder_candidate_eq. change (session_id s) with sid.
    rewrite (unused_in_use _ _ Hun2). reflexivity. }
  split_and!; try done; cbn; [by rewrite lookup_insert_eq|]. rewrite Hsess2. exact (Hslots1 Active).
Qed.

(** *** The initiator finalizes *)

Lemma find_pending_alone m hid peer pi :
  m !! peer = Some pi -> pi_handshake_id pi = hid ->
  (forall q pi, m !! q = Some pi -> pi_handshake_id pi = hid -> q = peer) -> find_pending m hid = Some peer.
Proof.
  intros Hp Hid Hal. destruct (find_pending m hid) as [q|] eqn:E.
  - apply find_pending_Some in E as (pi' & Hq & Hid'). f_equal. by eapply Hal.
  - exfalso. unfold find_pending in E. rewrite fmap_None, list_find_None, Forall_forall in E.
    apply (E (peer, pi)); [|done]. by apply elem_of_map_to_list.
Qed.

Lemma engine_finalizes e peer hid hi' m2 sid hi2 ti source now clock t0 st :
  initiating (manager st) peer hid hi' -> length hid = SESSION_ID_SIZE -> m2 <> [] -> length sid = SESSION_ID_SIZE ->
  hs_read hi' m2 (len sid + AEAD_TAG_SIZE) = Ok (sid, hi2) -> into_stateless hi2 = Ok ti -> unused sid (manager st) ->
  t0 <= clock 0%nat -> 
  let s := Session_new sid ti (clock 0%nat) in
  forall s' f, encrypt MsgType.Keepalive KEEPALIVE_PROBE_PAYLOAD s = (s', Ok f) -> at_work 1 s' -> created_at s' = created_at s ->
  exists st', process_inbound_transport e (encode_handshake PacketKind.HandshakeResponse hid m2) source now clock st =
      (st', Ok {| actions := [SendTransport peer source f]; events := [HandshakeCompleted peer source Initiator] |}) /\
    serves 1 t0 st' peer source s' /\
    (forall old, sessions (manager st) !! peer = Some old -> previous_sessions (manager st') !! peer = Some old).
Proof.
  intros [Hwf (pi & Hp & Hid & Hst) Hal] Hhid Hm2 Hsid Er Et Hun Ht s s' f He Hw Hcr.
  assert (Ef : finalize_initiator hid m2 (clock 0%nat) (manager st) =
    (initiated peer s' (set_pending (delete peer) (manager st)), Ok (Some (peer, f)))).
  { destruct (finalize_cases hid m2 (clock 0%nat) (manager st)) as [[_ E]|(q & pi' & Hq & Hid' & ->)].
    { by rewrite (find_pending_alone _ hid peer pi) in E. }
    assert (q = peer) as -> by (by eapply Hal). rewrite Hq in Hp. injection Hp as ->. cbv zeta.
    unfold initiator_finalize. rewrite Hst. cbn [is_state].
    replace (Z.of_nat SESSION_ID_SIZE + AEAD_TAG_SIZE) with (len sid + AEAD_TAG_SIZE) by (unfold len; by rewrite Hsid).
    rewrite Er. unfold mbind, outcome_bind. cbn [map_err]. rewrite (proj2 (Nat.eqb_eq _ _) Hsid). cbn [negb].
    rewrite Et. cbn [map_err]. fold s. rewrite unused_in_use; [by rewrite He|].
    eapply unused_ev; [exact Hun|apply set_pending_ev]. }
  pose proof (finalize_initiator_wf hid m2 (clock 0%nat) (manager st) Hwf) as Hwf'. rewrite Ef in Hwf'. cbn [fst] in Hwf'.
  pose proof (initiated_slot peer s' (set_pending (delete peer) (manager st))) as Hslot.
  eexists. split; [|split].
  - unfold process_inbound_transport. rewrite decode_encode_handshake by (by split_and!).
    unfold process_response, call. unfold mbind at 1, M_bind at 1. rewrite Ef. cbn [map_err]. reflexivity.
  - split; cbn [manager set_manager set_stats peer_stats]; try done.
    + pose proof (Hslot Active) as E. rewrite slot_promote in E. cbn in E |- *. rewrite E. by rewrite lookup_insert_eq.
    + cbn. by rewrite lookup_delete_eq.
    + destruct (install_rest peer s' (set_pending (delete peer) (manager st))) as (E & _).
      cbn [initiated set_cache set_candidates pending_init]. cbn in E |- *. rewrite E. cbn. by rewrite lookup_delete_eq.
    + apply record_keepalive_endpoint.
    + rewrite Hcr. done.
  - intros old Ho. pose proof (Hslot Previous) as E. rewrite slot_promote in E. cbn in E, Ho |- *. rewrite E, Ho.
    by rewrite lookup_insert_eq.
Qed.

(** *** The responder is convinced *)

Lemma engine_promotes e peer source now clock t0 st s sid n ct s1 s2 f :
  sm_wf (manager st) -> responder_candidates (manager st) !! peer = Some s -> session_id s = sid ->
  packet_wf (Transport sid n ct) ->
  decrypt sid n ct s = (s1, Ok (MsgType.Keepalive, KEEPALIVE_PROBE_PAYLOAD)) ->
  encrypt MsgType.Keepalive KEEPALIVE_ACK_PAYLOAD s1 = (s2, Ok f) ->
  at_work 1 s1 -> at_work 2 s2 -> created_at s1 = created_at s -> created_at s2 = created_at s1 ->
  t0 <= created_at s -> is_expired s now = false -> is_expired s1 now = false ->
  exists st', process_inbound_transport e (encode_transport sid n ct) source now clock st =
      (st', Ok {| actions := [SendTransport peer source f]; events := [HandshakeCompleted peer source Responder] |}) /\
    serves 2 t0 st' peer source s2 /\ seen st' peer = Some (clock 0%nat).
Proof.
  intros Hwf Hc <- (H1 & H2 & H3) Hd He Hw1 Hw2 Hcr1 Hcr2 Ht Hl Hl1.
  pose proof (decrypt_transport_eq (manager st) Candidate peer s n ct now s1 _ _ Hwf Hc Hl Hd) as E.
  cbv zeta in E. rewrite decide_True in E by done.
  pose proof (decrypt_transport_wf (session_id s) n ct now (manager st) Hwf H2) as Hwf'. rewrite E in Hwf'. cbn [fst] in Hwf'.
  set (sm := promote peer s1 _) in *.
  assert (Hsm : sessions sm !! peer = Some s1 /\ responder_candidates sm !! peer = None /\ pending_init sm !! peer = None).
  { pose proof (slot_promote peer s1 (set_slot Candidate <[peer:=s1]> (prune now (manager st)))) as Hslot. fold sm in Hslot.
    pose proof (Hslot Active : sessions sm = _) as Ha. pose proof (Hslot Candidate : responder_candidates sm = _) as Hcd.
    rewrite Ha, Hcd. cbn [slot_of].
    destruct (promote_rest peer s1 (set_slot Candidate <[peer:=s1]> (prune now (manager st)))) as (Hpr & _). fold sm in Hpr. rewrite Hpr.
    split_and!; [by rewrite lookup_insert_eq|by rewrite lookup_delete_eq|by rewrite lookup_delete_eq]. }
  destruct Hsm as (Hsa & Hsc & Hsp).
  assert (Hsv : serves 1 t0 (set_stats (fun m => record_keepalive m peer source (clock 0%nat)) (set_manager sm st)) peer source s1).
  { split; cbn; try done; [apply record_keepalive_endpoint|lia]. }
  pose proof (serves_encrypt _ _ _ _ _ _ _ _ now _ _ Hsv Hw2 Hcr2 He) as Hsv2.
  eexists. split; [|split; [exact Hsv2|apply record_keepalive_seen]].
  unfold process_inbound_transport. rewrite decode_encode_transport by done.
  unfold process_transport. rewrite (run_call _ _ _ _ _ E).
  cbn [dt_msg_type dt_peer_name dt_payload dt_promoted]. rewrite bool_decide_true by done.
  rewrite bool_decide_true by done. unfold mmodify. unfold mbind at 1, M_bind at 1.
  by erewrite (run_call _ _ _ _ (Some f)); [|exact (encrypt_for_peer_live _ _ _ _ _ _ _ _ Hsa Hl1 He)].
Qed.
End Handshake.

(** ** What a valid configuration gives *)

Lemma NoDup_fmap_inj {A B} (f : A -> B) l x y : NoDup (f <$> l) -> x ∈ l -> y ∈ l -> f x = f y -> x = y.
Proof.
  intros Hn [i Hi]%list_elem_of_lookup [j Hj]%list_elem_of_lookup E.
  assert (i = j) as <- by (eapply NoDup_lookup; [exact Hn| |]; rewrite list_lookup_fmap; [by rewrite Hi|by rewrite Hj, E]).
  congruence.
Qed.

Section Configured.
Context {IN : IpNet} {B64 : Base64} {RS : Resolver} {SN : Snow}.

Lemma decode_key_is_key s k : decode_key s = Some k -> is_key k.
Proof.
  unfold decode_key. destruct (b64_decode s) as [b|]; [|done]. cbn [mbind option_bind].
  destruct (Nat.eqb_spec (length b) 32); [|done]. by intros [= <-].
Qed.

Lemma peer_from_config_ok c t p : peer_from_config c t = Ok p ->
  name p = pc_name c /\ decode_key (pc_public_key c) = Some (public_key p) /\ decode_psk (pc_psk c) = Some (psk p).
Proof.
  unfold peer_from_config. destruct (decode_key (pc_public_key c)) as [k|]; [|done]. cbn [expect mbind outcome_bind].
  destruct (resolve _); [|done..]. cbn [map_err mbind outcome_bind]. destruct (decode_psk (pc_psk c)); [|done].
  cbn [expect mbind outcome_bind]. by intros [= <-].
Qed.

Lemma route_source config r rt : Router_new config = Ok r -> rt ∈ routes r ->
  exists c, c ∈ peer config /\ peer_from_config c (if_transport (interface config)) = Ok (route_peer rt).
Proof.
  unfold Router_new. destruct (add_peers _ _ _ _) as [[rs ex]| |] eqn:E; [|done..].
  cbn [mbind outcome_bind]. intros [= <-]. cbn [routes]. rewrite sort_desc_perm.
  apply add_peers_ok in E as (ps & Hps & -> & _). cbn [app]. generalize dependent ps.
  induction (peer config) as [|c cs IH]; intros ps Hps Hin; inversion Hps as [|? p ? ps' Hp Hps']; subst;
    [by apply not_elem_of_nil in Hin|].
  unfold configured_routes in Hin. cbn [zip_with concat] in Hin. apply elem_of_app in Hin as [Hin|Hin].
  - apply list_elem_of_fmap in Hin as (x & -> & _). exists c. split; [left|done].
  - destruct (IH ps' Hps' Hin) as (c' & Hc' & E). exists c'. split; [by right|done].
Qed.

(** Routes to one key, or to one name, lead to one peer. *)
Lemma routed_peer_unique config r rt rt' : config_ok config -> Router_new config = Ok r ->
  rt ∈ routes r -> rt' ∈ routes r ->
  public_key (route_peer rt') = public_key (route_peer rt) \/ name (route_peer rt') = name (route_peer rt) ->
  route_peer rt' = route_peer rt.
Proof.
  intros Hok Hr H1 H2 H. destruct (route_source _ _ _ Hr H1) as (c & Hc & E). destruct (route_source _ _ _ Hr H2) as (c' & Hc' & E').
  destruct (peer_from_config_ok _ _ _ E) as (En & Ek & _). destruct (peer_from_config_ok _ _ _ E') as (En' & Ek' & _).
  assert (c' = c) as ->; [|congruence].
  destruct H as [H|H]; [eapply (NoDup_fmap_inj _ _ c' c (c_keys _ Hok) Hc' Hc)|eapply (NoDup_fmap_inj _ _ c' c (c_names _ Hok) Hc' Hc)].
  - cbn. by rewrite Ek, Ek', H.
  - congruence.
Qed.

Lemma engine_new_ok config e : Engine_new config = Ok e ->
  Router_new config = Ok (router e) /\ is_key (local_static e) /\
  forall rt, rt ∈ routes (router e) -> is_key (public_key (route_peer rt)) /\ is_key (psk (route_peer rt)).
Proof.
  unfold Engine_new. destruct (Router_new config) as [r| |] eqn:E; [|done..]. cbn [map_err mbind outcome_bind].
  unfold with_router. destruct (decode_key (private_key (interface config))) as [k|] eqn:Ek; [|done].
  cbn [ok_or mbind outcome_bind]. intros [= <-]. cbn. split; [done|]. split; [by eapply decode_key_is_key|].
  intros rt Hrt. destruct (route_source _ _ _ E Hrt) as (c & _ & Ec). destruct (peer_from_config_ok _ _ _ Ec) as (_ & H1 & H2).
  split; by eapply decode_key_is_key.
Qed.
End Configured.

(** ** Two sites and a network *)

Inductive side := SideA | SideB.
#[export] Instance side_eq_dec : EqDecision side.
Proof. solve_decision. Defined.
Definition other (x : side) : side := match x with SideA => SideB | SideB => SideA end.

Section Network.
Context {IN : IpNet} {B64 : Base64} {RS : Resolver} {SN : Snow}.
(** Each site has an engine and an address; [now] and [clock] are the times
    its calls read, by the number of the step. *)
Context (engine : side -> Engine) (addr : side -> SocketAddr).
Context (now : side -> nat -> Instant) (clock : side -> nat -> nat -> Instant).

Record Net := { net_state : side -> EngineState; net_steps : nat }.

Definition next (x : side) (st : EngineState) (w : Net) : Net :=
  {| net_state := fun y => if decide (y = x) then st else net_state w y; net_steps := S (net_steps w) |}.

(** The network delivers what is sent to the other site's address. *)
Definition frames_out (x : side) (out : EngineOutput) : list (side * bytes) :=
  flat_map (fun a => match a with
                     | SendTransport _ endpoint f => if bool_decide (endpoint = addr (other x)) then [(other x, f)] else []
                     | WriteIpPacket _ _ _ => []
                     end) (actions out).
(** The packets the site writes to its interface. *)
Definition packets_out (x : side) (out : EngineOutput) : list (side * bytes) :=
  flat_map (fun a => match a with WriteIpPacket _ _ p => [(x, p)] | SendTransport _ _ _ => [] end) (actions out).

Definition output_of (r : outcome EngineError EngineOutput) : EngineOutput := match r with Ok out => out | _ => no_output end.

(** A frame arrives at a site. *)
Definition arrive (x : side) (f : bytes) (w : Net) : Net * EngineOutput :=
  let '(st, r) := process_inbound_transport (engine x) f (addr (other x)) (now x (net_steps w)) (clock x (net_steps w)) (net_state w x) in
  (next x st w, output_of r).

(** Frames travel until none is left; [None]: [fuel] frames were not enough. *)
Fixpoint carry (fuel : nat) (queue : list (side * bytes)) (w : Net) : option (Net * list (side * bytes)) :=
  match queue with
  | [] => Some (w, [])
  | (x, f) :: queue =>
      match fuel with
      | O => None
      | S fuel =>
          let '(w, out) := arrive x f w in
          '(w, got) ← carry fuel (queue ++ frames_out x out) w;
          Some (w, packets_out x out ++ got)
      end
  end.

Lemma carry_cons fuel x f queue w :
  carry (S fuel) ((x, f) :: queue) w =
    let '(w, out) := arrive x f w in
    '(w, got) ← carry fuel (queue ++ frames_out x out) w; Some (w, packets_out x out ++ got).
Proof. done. Qed.

(** The interface of site [x] hands a packet to its engine. *)
Definition submit (x : side) (packet : bytes) (w : Net) : option (Net * list (side * bytes)) :=
  let '(st, r) := process_outbound_ip (engine x) packet (now x (net_steps w)) (net_state w x) in
  carry 6 (frames_out x (output_of r)) (next x st w).

(** A message of site [x] to its peer [p], from whatever source. *)
Definition emit (x : side) (p : Peer) (m : MsgType.t) (payload : bytes) (w : Net) : option (Net * list (side * bytes)) :=
  let '(st, r) := send_or_initiate (engine x) p m payload (now x (net_steps w)) (net_state w x) in
  carry 6 (frames_out x (output_of r)) (next x st w).

(** A sequence of packets; the result lists what was written where. *)
Fixpoint traffic (ps : list (side * bytes)) (w : Net) : option (Net * list (side * bytes)) :=
  match ps with
  | [] => Some (w, [])
  | (x, p) :: ps =>
      '(w, got) ← submit x p w;
      '(w, more) ← traffic ps w;
      Some (w, got ++ more)
  end.
End Network.

(** ** The two sites together *)

Section Together.
Context {IN : IpNet} {B64 : Base64} {RS : Resolver} {SN : Snow} {SL : SnowLaws SN} {NK : NoiseIK SN}.
Context (engine : side -> Engine) (addr : side -> SocketAddr).
Context (now : side -> nat -> Instant) (clock : side -> nat -> nat -> Instant).
Context (conf : side -> Config) (peer_at : side -> Peer) (t0 : side -> Instant).

(** The two configurations are valid and meant for each other: [peer_at x] is
    the peer by which site [x] knows the other one. *)
Record configured : Prop := {
  mt_config : forall x, config_ok (conf x) /\ Engine_new (conf x) = Ok (engine x);
  mt_peer : forall x, exists rt, rt ∈ routes (router (engine x)) /\ route_peer rt = peer_at x;
  mt_key : forall x, public_key (peer_at x) = public_of (local_static (engine (other x)));
  mt_psk : psk (peer_at SideA) = psk (peer_at SideB);
  mt_addr : forall x, usable_peer_endpoint (addr x) = true }.

(** And the run takes less than the 120 seconds of a session before its
    rekey. *)
Record matched : Prop := {
  mt_sites : configured;
  mt_time : forall x i j, t0 x <= clock x i j /\ young (t0 x) (now x i) }.

(** An IPv4 packet of a Noise message's size that site [x] routes to the
    other. *)
Definition routed (x : side) (packet : bytes) : Prop :=
  exists ip d rt, Packet.parse packet = Ok ip /\ Packet.destination ip = Ok d /\
    lookup (router (engine x)) d = Some rt /\ route_peer rt = peer_at x /\ len packet + 17 <= MAX_NOISE_MESSAGE_SIZE.

Definition hid_of (w : Net) : bytes := (fill_bytes (entropy (net_state w SideA)) SESSION_ID_SIZE).1.
Definition sid_of (w : Net) : bytes := (fill_bytes (entropy (net_state w SideB)) SESSION_ID_SIZE).1.

(** Site A has nothing with B and knows where to reach it; B may still hold
    sessions of an earlier connection.  The identifiers the two generators
    give next are new. *)
Record ready (w : Net) : Prop := {
  rd_wf : forall x, sm_wf (manager (net_state w x));
  rd_idle : let st := manager (net_state w SideA) in let p := name (peer_at SideA) in
    sessions st !! p = None /\ pending_init st !! p = None /\ responder_candidates st !! p = None;
  rd_endpoint : resolve_endpoint (peer_at SideA) (net_state w SideA) = Some (addr SideB);
  rd_passive : pending_init (manager (net_state w SideB)) !! name (peer_at SideB) = None;
  rd_hid : forall q pi, pending_init (manager (net_state w SideA)) !! q = Some pi -> pi_handshake_id pi <> hid_of w;
  rd_cache : forall c, responder_cache (manager (net_state w SideB)) !! name (peer_at SideB) = Some c -> ch_handshake_id c <> hid_of w;
  rd_sid : forall x, unused (sid_of w) (manager (net_state w x)) }.

(** Both sites serve each other with the two halves of one session. *)
Definition established (k : Z) (w : Net) (s : side -> Session) : Prop :=
  forall x, serves k (t0 x) (net_state w x) (name (peer_at x)) (addr (other x)) (s x) /\ linked (s x) (s (other x)).

Lemma other_other x : other (other x) = x.
Proof. by destruct x. Qed.
Lemma other_ne x : other x <> x.
Proof. by destruct x. Qed.

Lemma next_same x st w : net_state (next x st w) x = st.
Proof. cbn. by rewrite decide_True. Qed.
Lemma next_other x st w : net_state (next x st w) (other x) = net_state w (other x).
Proof. cbn. by rewrite decide_False by apply other_ne. Qed.
Lemma next_back x st w : net_state (next (other x) st w) x = net_state w x.
Proof. cbn. rewrite decide_False; [done|]. intros E. by apply (other_ne x). Qed.

(** Sessions by site, given those of [x] and of the other. *)
Definition pick (x : side) (s s' : Session) (y : side) : Session := if decide (y = x) then s else s'.
Lemma pick_same x s s' : pick x s s' x = s.
Proof. unfold pick. by rewrite decide_True. Qed.
Lemma pick_other x s s' : pick x s s' (other x) = s'.
Proof. unfold pick. rewrite decide_False; [done|]. apply other_ne. Qed.

(** A property of both sites. *)
Lemma both_sides (P : side -> Prop) x : P x -> P (other x) -> forall y, P y.
Proof. intros H1 H2 []; by destruct x. Qed.

Lemma established_pick k w x s s' :
  serves k (t0 x) (net_state w x) (name (peer_at x)) (addr (other x)) s ->
  serves k (t0 (other x)) (net_state w (other x)) (name (peer_at (other x))) (addr x) s' ->
  linked s s' -> linked s' s -> established k w (pick x s s').
Proof.
  intros H1 H2 L1 L2. unfold established. apply (both_sides _ x).
  - by rewrite pick_same, pick_other.
  - by rewrite other_other, pick_same, pick_other.
Qed.

(** Both sites have heard each other, at a time that their clocks read. *)
Definition heard (w : Net) : Prop :=
  forall x, exists i j, seen (net_state w x) (name (peer_at x)) = Some (clock x i j).

(** One packet over an established connection whose sessions are live; the
    sender's is not due for a rekey. *)
Lemma live_packet_crosses k w s x packet :
  configured -> established k w s -> k < U64_MAX -> routed x packet ->
  let n := net_steps w in
  is_expired (s x) (now x n) = false -> should_rekey (set_send_counter (s x) (send_counter (s x) + 1)) (now x n) = false ->
  is_expired (s (other x)) (now (other x) (S n)) = false ->
  exists w' s', submit engine addr now clock x packet w = Some (w', [(other x, packet)]) /\ established (k + 1) w' s' /\
    (forall y, created_at (s' y) = created_at (s y)).
Proof.
  intros Hm He Hk (ip & d & rt & Hip & Hd & Hl & Hrt & Hlen) n Hlx Hdue Hly.
  destruct (He x) as [Hsx Hkx]. destruct (He (other x)) as [Hsy Hky]. rewrite other_other in Hsy, Hky.
  destruct (linked_send k (s x) (s (other x)) MsgType.Data packet) as (ct & r' & Henc & Hwf & Hdec & Hcr & Hid & Hw1 & Hw2 & Hl1 & Hl2);
    [apply Hsx|apply Hsy|done|done|lia|done|].
  cbv zeta in *. set (s' := set_send_counter (s x) (send_counter (s x) + 1)) in *.
  rewrite <- Hrt in Hsx.
  destruct (serving_sends (engine x) rt packet ip d k (t0 x) (now x n) (net_state w x) (addr (other x)) (s x) s' _
    Hip Hd Hl Hsx (mt_addr Hm _) Hlx Hdue Henc Hw1 eq_refl) as (st1 & E1 & Hsx').
  rewrite Hrt in Hsx', E1. rewrite <- (lk_id _ _ Hkx) in Hwf, Hdec, E1.
  set (w1 := next x st1 w). rewrite <- (next_other x st1 w) in Hsy. fold w1 in Hsy.
  destruct (serving_receives (engine (other x)) k (t0 (other x)) (now (other x) (net_steps w1)) (clock (other x) (net_steps w1))
    (net_state w1 (other x)) _ _ (addr x) (s (other x)) r' (send_counter (s x)) ct packet ip Hsy Hly Hwf Hw2 Hcr Hdec Hip)
    as (st2 & E2 & Hsy').
  exists (next (other x) st2 w1), (pick x s' r'). split; [|split].
  - unfold submit. fold n. rewrite E1. cbn [output_of frames_out actions flat_map]. rewrite bool_decide_true by done. cbn [app].
    fold w1. cbn [carry]. unfold arrive. rewrite other_other, E2. reflexivity.
  - apply established_pick; [rewrite next_back; unfold w1; by rewrite next_same|by rewrite next_same|done..].
  - apply (both_sides _ x); [by rewrite pick_same|by rewrite pick_other].
Qed.

Lemma packet_crosses k w s x packet :
  matched -> established k w s -> k + 1 < REKEY_AFTER_MESSAGES -> routed x packet ->
  exists w' s', submit engine addr now clock x packet w = Some (w', [(other x, packet)]) /\ established (k + 1) w' s'.
Proof.
  intros Hm He Hk Hr.
  assert (Hlive : forall y i, is_expired (s y) (now y i) = false).
  { intros y i. destruct (He y) as [Hs _]. destruct (young_live k (t0 y) (s y) (now y i)) as [H _]; [apply Hs|lia|apply Hs| |done].
    apply (mt_time Hm y i 0%nat). }
  destruct (live_packet_crosses k w s x packet (mt_sites Hm) He (rekey_bound k ltac:(lia)) Hr) as (w' & s' & E & He' & _);
    [apply Hlive| |apply Hlive|by exists w', s'].
  destruct (He x) as [[_ _ _ _ _ [Hwf Hsk Hrk] Hcr] _]. pose proof (proj2 (mt_time Hm x (net_steps w) 0%nat)) as Hy.
  unfold young, REKEY_AFTER_TIME, REKEY_AFTER_MESSAGES in *. change (Z.shiftl 1 32) with (2 ^ 32) in *.
  rewrite <- not_true_iff_false, should_rekey_iff. cbn. lia.
Qed.

Lemma matched_unique x rt : configured -> rt ∈ routes (router (engine x)) ->
  public_key (route_peer rt) = public_key (peer_at x) \/ name (route_peer rt) = name (peer_at x) -> route_peer rt = peer_at x.
Proof.
  intros Hm Hrt H. destruct (mt_config Hm x) as [Hok He]. destruct (engine_new_ok _ _ He) as (Hr & _).
  destruct (mt_peer Hm x) as (rt0 & Hin & E0). rewrite <- E0 in H |- *.
  exact (routed_peer_unique _ _ rt0 rt Hok Hr Hin Hrt H).
Qed.

Lemma matched_keys x : configured -> is_key (local_static (engine x)) /\ is_key (public_key (peer_at x)) /\ is_key (psk (peer_at x)).
Proof.
  intros Hm. destruct (mt_config Hm x) as [_ He]. destruct (engine_new_ok _ _ He) as (_ & Hk & Hp).
  destruct (mt_peer Hm x) as (rt0 & Hin & <-). split; [done|]. by apply Hp.
Qed.

Lemma psk_shared x : configured -> psk (peer_at x) = psk (peer_at (other x)).
Proof. intros Hm. pose proof (mt_psk Hm). by destruct x. Qed.

(** The other site answers the initiation of site [x]. *)
Lemma site_answers x hid hi r r' m hi' st n ck :
  let y := other x in
  let sid := (fill_bytes (entropy st) SESSION_ID_SIZE).1 in
  configured -> build_initiator (local_static (engine x)) (public_key (peer_at x)) (psk (peer_at x)) (handshake_prologue hid) = Ok hi ->
  hs_write hi [] MAX_NOISE_MESSAGE_SIZE r = (r', Ok (m, hi')) -> m <> [] -> length hid = SESSION_ID_SIZE ->
  sm_wf (manager st) -> pending_init (manager st) !! name (peer_at y) = None -> unused sid (manager st) ->
  (forall c, responder_cache (manager st) !! name (peer_at y) = Some c -> ch_handshake_id c <> hid) ->
  exists st' m2 hi2 ti tr, m2 <> [] /\
    process_inbound_transport (engine y) (encode_handshake PacketKind.HandshakeInit hid m) (addr x) n ck st =
      (st', Ok {| actions := [SendTransport (name (peer_at y)) (addr x) (encode_handshake PacketKind.HandshakeResponse hid m2)]; events := [] |}) /\
    hs_read hi' m2 (len sid + AEAD_TAG_SIZE) = Ok (sid, hi2) /\ into_stateless hi2 = Ok ti /\
    paired ti tr /\ paired tr ti /\
    sm_wf (manager st') /\ responder_candidates (manager st') !! name (peer_at y) = Some (Session_new sid tr (ck 0%nat)) /\
    sessions (manager st') = sessions (manager st).
Proof.
  intros y sid Hm Hb Hw Hne Hhid Hwf Hp Hu Hc. destruct (matched_keys x Hm) as (Ka & _). destruct (matched_keys y Hm) as (Kb & _ & Ks).
  rewrite (mt_key Hm x), (psk_shared x Hm) in Hb.
  eapply (engine_answers (engine y) (local_static (engine x))); try done.
  - pose proof (mt_key Hm y) as H. unfold y in H. by rewrite other_other in H.
  - exact (mt_peer Hm y).
  - intros rt. by apply matched_unique.
Qed.

(** The first three messages, as seen from the sessions: the candidate of B
    becomes the partner of A's session. *)
Lemma probe_and_ack sid ti tr wall wall' :
  length sid = SESSION_ID_SIZE -> paired ti tr -> paired tr ti ->
  let sa := Session_new sid ti wall in let sb := Session_new sid tr wall' in
  exists sa1 ct1 sb1 sb2 ct2 sa2,
    encrypt MsgType.Keepalive KEEPALIVE_PROBE_PAYLOAD sa = (sa1, Ok (encode_transport sid 0 ct1)) /\
    packet_wf (Transport sid 0 ct1) /\ decrypt sid 0 ct1 sb = (sb1, Ok (MsgType.Keepalive, KEEPALIVE_PROBE_PAYLOAD)) /\
    encrypt MsgType.Keepalive KEEPALIVE_ACK_PAYLOAD sb1 = (sb2, Ok (encode_transport sid 0 ct2)) /\
    packet_wf (Transport sid 0 ct2) /\ session_id sa1 = sid /\
    decrypt sid 0 ct2 sa1 = (sa2, Ok (MsgType.Keepalive, KEEPALIVE_ACK_PAYLOAD)) /\
    at_work 0 sb /\ at_work 1 sa1 /\ at_work 1 sb1 /\ at_work 2 sb2 /\ at_work 2 sa2 /\
    created_at sa1 = wall /\ created_at sa2 = wall /\ created_at sb1 = wall' /\ created_at sb2 = wall' /\
    linked sa2 sb2 /\ linked sb2 sa2.
Proof.
  intros Hsid Hp1 Hp2 sa sb.
  destruct (linked_send 0 sa sb MsgType.Keepalive KEEPALIVE_PROBE_PAYLOAD)
    as (ct1 & sb1 & He1 & Hwf1 & Hd1 & Hc1 & Hi1 & Ha1 & Hb1 & Hl1 & Hl1');
    [by apply at_work_new|by apply at_work_new|exact (linked_new _ _ _ _ _ Hp1)|exact (linked_new _ _ _ _ _ Hp2)|done|done|].
  cbv zeta in *. set (sa1 := set_send_counter sa (send_counter sa + 1)) in *.
  assert (Hsb : send_counter sb1 = 0).
  { pose proof (decrypt_send_counter (session_id sa) (send_counter sa) ct1 sb) as H. rewrite Hd1 in H.
    apply H; [by apply Session_new_wf|done]. }
  assert (Hib : session_id sb1 = sid) by (by rewrite Hi1).
  destruct (linked_send 1 sb1 sa1 MsgType.Keepalive KEEPALIVE_ACK_PAYLOAD Hb1 Ha1 Hl1' Hl1)
    as (ct2 & sa2 & He2 & Hwf2 & Hd2 & Hc2 & Hi2 & Hb2 & Ha2 & Hl2 & Hl2'); [done|done|].
  cbv zeta in *. set (sb2 := set_send_counter sb1 (send_counter sb1 + 1)) in *. rewrite Hsb, Hib in He2, Hwf2, Hd2.
  exists sa1, ct1, sb1, sb2, ct2, sa2. split_and!; try done. by apply at_work_new.
Qed.

(** The last two messages of a handshake: the confirmation makes the candidate
    of the responder its session, and is acknowledged. *)
Lemma confirmation_crosses fuel w x sid ti tr wall wall' :
  let n := net_steps w in
  length sid = SESSION_ID_SIZE -> paired ti tr -> paired tr ti -> t0 x <= wall -> t0 (other x) <= wall' ->
  sm_wf (manager (net_state w (other x))) ->
  responder_candidates (manager (net_state w (other x))) !! name (peer_at (other x)) = Some (Session_new sid tr wall') ->
  now (other x) n < wall' + REJECT_AFTER_TIME -> now x (S n) < wall + REJECT_AFTER_TIME ->
  exists sa1 f, encrypt MsgType.Keepalive KEEPALIVE_PROBE_PAYLOAD (Session_new sid ti wall) = (sa1, Ok f) /\
    at_work 1 sa1 /\ created_at sa1 = wall /\
    (serves 1 (t0 x) (net_state w x) (name (peer_at x)) (addr (other x)) sa1 ->
     exists w' s, carry engine addr now clock (2 + fuel) [(other x, f)] w = Some (w', []) /\
       established 2 w' s /\ (created_at (s x) = wall /\ created_at (s (other x)) = wall') /\ heard w').
Proof.
  intros n Hsid Hpair Hpair' Ht Ht' Hwfb Hcand Hlate Hlate'.
  destruct (probe_and_ack sid ti tr wall wall' Hsid Hpair Hpair')
    as (sa1 & ct1 & sb1 & sb2 & ct2 & sa2 & Ee1 & Hwf1 & Ed1 & Ee2 & Hwf2 & Hida & Ed2 & Wb0 & Wa1 & Wb1 & Wb2 & Wa2 & Ca1 & Ca2 & Cb1 & Cb2 & L1 & L2).
  eexists sa1, _. split; [exact Ee1|]. split; [done|]. split; [done|]. intros Sa1.
  destruct (engine_promotes (engine (other x)) (name (peer_at (other x))) (addr x) (now (other x) n) (clock (other x) n)
    (t0 (other x)) (net_state w (other x)) _ sid 0 ct1 sb1 sb2 _ Hwfb Hcand eq_refl Hwf1 Ed1 Ee2 Wb1 Wb2 Cb1 (eq_trans Cb2 (eq_sym Cb1)))
    as (stb2 & E4 & Sb2 & Nb);
    [done|by eapply young_session|eapply young_session; [exact Wb1|done|by rewrite Cb1]|].
  set (w4 := next (other x) stb2 w). rewrite <- Hida in Hwf2, Ed2.
  destruct (serving_hears_ack (engine x) 1 (t0 x) (now x (S n)) (clock x (S n)) (net_state w x)
    _ _ (addr (other x)) sa1 sa2 0 ct2 _ Sa1 ltac:(eapply young_session; [exact Wa1|done|by rewrite Ca1]) Hwf2 Wa2
    (eq_trans Ca2 (eq_sym Ca1)) Ed2 ltac:(done)) as (sta3 & E5 & Sa3 & Na).
  rewrite Hida in E5. exists (next x sta3 w4), (pick x sa2 sb2). split; [|split; [|split]].
  - cbn [carry Nat.add]. unfold arrive at 1. rewrite other_other. fold n. rewrite E4. fold w4.
    cbn [output_of frames_out packets_out actions flat_map]. rewrite other_other, !bool_decide_true by done. cbn [app carry].
    unfold arrive at 1. change (net_steps w4) with (S n). unfold w4 at 1. rewrite next_back, E5. fold w4.
    cbn [output_of frames_out packets_out actions no_output flat_map app carry]. by destruct fuel.
  - apply established_pick; [by rewrite next_same|rewrite next_other; unfold w4; by rewrite next_same|done..].
  - by rewrite pick_same, pick_other, Ca2, Cb2.
  - unfold heard. apply (both_sides _ x).
    + rewrite next_same. eauto.
    + rewrite next_other. unfold w4. rewrite next_same. eauto.
Qed.

(** The second half of a handshake: the response finds the initiator, which
    confirms. *)
Lemma handshake_completes fuel w x hid hi' m2 sid hi2 ti tr wall :
  let n := net_steps w in
  initiating (manager (net_state w x)) (name (peer_at x)) hid hi' -> length hid = SESSION_ID_SIZE ->
  unused sid (manager (net_state w x)) -> length sid = SESSION_ID_SIZE -> m2 <> [] ->
  hs_read hi' m2 (len sid + AEAD_TAG_SIZE) = Ok (sid, hi2) -> into_stateless hi2 = Ok ti -> paired ti tr -> paired tr ti ->
  sm_wf (manager (net_state w (other x))) ->
  responder_candidates (manager (net_state w (other x))) !! name (peer_at (other x)) = Some (Session_new sid tr wall) ->
  t0 x <= clock x n 0%nat -> t0 (other x) <= wall ->
  now (other x) (S n) < wall + REJECT_AFTER_TIME -> now x (S (S n)) < clock x n 0%nat + REJECT_AFTER_TIME ->
  exists w' s, carry engine addr now clock (3 + fuel) [(x, encode_handshake PacketKind.HandshakeResponse hid m2)] w = Some (w', []) /\
    established 2 w' s /\ (created_at (s x) = clock x n 0%nat /\ created_at (s (other x)) = wall) /\ heard w'.
Proof.
  intros n Hin Hhid Hun Hsid Hm2 Er2 Eti Hpair Hpair' Hwfb Hcand Ht Ht' Hlate Hlate'.
  pose proof (fun st => confirmation_crosses fuel (next x st w) x sid ti tr (clock x n 0%nat) wall Hsid Hpair Hpair' Ht Ht') as Hc.
  setoid_rewrite next_other in Hc. destruct (Hc (net_state w x) Hwfb Hcand Hlate Hlate') as (sa1 & f & Ee & Wa1 & Ca1 & _).
  destruct (engine_finalizes (engine x) (name (peer_at x)) hid hi' m2 sid hi2 ti (addr (other x))
    (now x n) (clock x n) (t0 x) (net_state w x) Hin Hhid Hm2 Hsid Er2 Eti Hun Ht sa1 _ Ee Wa1 Ca1) as (sta2 & E3 & Sa1 & _).
  destruct (Hc sta2 Hwfb Hcand Hlate Hlate') as (sa1' & f' & Ee' & _ & _ & H). rewrite Ee in Ee'. injection Ee' as <- <-.
  rewrite next_same in H. destruct (H Sa1) as (w' & s & E & He). exists w', s. split; [|exact He].
  change (3 + fuel)%nat with (S (2 + fuel)). rewrite carry_cons. unfold arrive. fold n. rewrite E3.
  cbn [output_of frames_out packets_out actions flat_map]. rewrite !bool_decide_true by done. cbn [app]. by rewrite E.
Qed.

(** The frames of one handshake do not take as long as a session lives. *)
Definition brisk : Prop := forall x i j l, (i <= l <= i + 5)%nat -> now x l < clock x i j + REJECT_AFTER_TIME.

Lemma matched_brisk : matched -> brisk.
Proof.
  intros [_ Ht] x i j l _. pose proof (Ht x i j). pose proof (Ht x l j). unfold young, REKEY_AFTER_TIME, REJECT_AFTER_TIME, from_secs in *. lia.
Qed.

(** A packet of the interface is a message to the other site. *)
Lemma submit_message w x packet : routed x packet ->
  submit engine addr now clock x packet w = emit engine addr now clock x (peer_at x) MsgType.Data packet w.
Proof.
  intros (ip & d & rt & Hip & Hd & Hl & <- & _). unfold submit, emit. by rewrite (outbound_message _ _ _ _ _ _ _ Hip Hd Hl).
Qed.

(** The connection: the first message starts the handshake, three more frames
    complete it, a fifth acknowledges; the message itself is not kept. *)
Lemma message_connects w m0 pl :
  configured -> brisk -> ready w ->
  t0 SideA <= clock SideA (2 + net_steps w) 0%nat -> t0 SideB <= clock SideB (1 + net_steps w) 0%nat ->
  exists w' s, emit engine addr now clock SideA (peer_at SideA) m0 pl w = Some (w', []) /\ established 2 w' s /\
    (created_at (s SideA) = clock SideA (2 + net_steps w) 0%nat /\ created_at (s SideB) = clock SideB (1 + net_steps w) 0%nat) /\ heard w'.
Proof.
  intros Hm Hbr Hr Ht Ht'.
  destruct (matched_keys SideA Hm) as (Ka & Kpa & Ksa). destruct (rd_idle w Hr) as (Hs0 & Hp0 & Hc0).
  destruct (message_initiates (engine SideA) (peer_at SideA) m0 pl (now SideA (net_steps w)) (net_state w SideA) (addr SideB)
    (rd_endpoint w Hr) Ka Kpa Ksa (rd_wf w Hr SideA) Hs0 Hp0 Hc0 (rd_hid w Hr))
    as (sta1 & hi & r & r' & m & hi' & Ebi & Ew & Hm1 & E1 & Hin1 & Hev1).
  set (hid := hid_of w) in *. change ((fill_bytes (entropy (net_state w SideA)) SESSION_ID_SIZE).1) with hid in *.
  set (w1 := next SideA sta1 w).
  assert (Hhid : length hid = SESSION_ID_SIZE) by apply fill_bytes_length.
  set (sid := sid_of w) in *. assert (Hsid : length sid = SESSION_ID_SIZE) by apply fill_bytes_length.
  destruct (site_answers SideA hid hi r r' m hi' (net_state w SideB) (now SideB (net_steps w1)) (clock SideB (net_steps w1)) Hm Ebi Ew Hm1 Hhid
    (rd_wf w Hr SideB) (rd_passive w Hr) (rd_sid w Hr SideB) (rd_cache w Hr))
    as (stb1 & m2 & hi2 & ti & tr & Hm2 & E2 & Er2 & Eti & Hpair & Hpair' & Hwfb & Hcand & _).
  cbn [other] in *. change ((fill_bytes (entropy (net_state w SideB)) SESSION_ID_SIZE).1) with sid in *.
  set (w2 := next SideB stb1 w1).
  destruct (handshake_completes 2 w2 SideA hid hi' m2 sid hi2 ti tr _ Hin1 Hhid (unused_ev _ _ _ (rd_sid w Hr SideA) Hev1) Hsid Hm2
    Er2 Eti Hpair Hpair' Hwfb Hcand) as (w' & s & E3 & He & Hcr & Hh);
    [exact Ht|exact Ht'|apply Hbr; cbn; lia|apply Hbr; cbn; lia|].
  exists w', s. split; [|done].
  unfold emit. rewrite E1. cbn [output_of frames_out actions flat_map other]. rewrite !bool_decide_true by done. cbn [app].
  fold w1. rewrite carry_cons. unfold arrive. cbn [other]. change (net_state w1 SideB) with (net_state w SideB). rewrite E2.
  fold w2. cbn [output_of frames_out packets_out actions flat_map other]. rewrite !bool_decide_true by done. cbn [app].
  cbn [Nat.add] in E3. by rewrite E3.
Qed.

Lemma connects_at w packet :
  configured -> brisk -> ready w -> routed SideA packet ->
  t0 SideA <= clock SideA (2 + net_steps w) 0%nat -> t0 SideB <= clock SideB (1 + net_steps w) 0%nat ->
  exists w' s, submit engine addr now clock SideA packet w = Some (w', []) /\ established 2 w' s.
Proof.
  intros Hm Hbr Hr Hp Ht Ht'. rewrite (submit_message _ _ _ Hp).
  destruct (message_connects w MsgType.Data packet Hm Hbr Hr Ht Ht') as (w' & s & E & He & _). by exists w', s.
Qed.

Lemma connects w packet :
  matched -> ready w -> routed SideA packet ->
  exists w' s, submit engine addr now clock SideA packet w = Some (w', []) /\ established 2 w' s.
Proof. intros Hm Hr Hp. apply connects_at; [apply Hm|by apply matched_brisk|done|done|apply (mt_time Hm)..]; exact 0%nat. Qed.

Lemma packets_cross ps : forall k w s,
  matched -> established k w s -> k + len ps < REKEY_AFTER_MESSAGES -> Forall (fun '(x, p) => routed x p) ps ->
  exists w' s', traffic engine addr now clock ps w = Some (w', (fun '(x, p) => (other x, p)) <$> ps) /\ established (k + len ps) w' s'.
Proof.
  induction ps as [|[x p] ps IH]; intros k w s Hm He Hk Hps; cbn [traffic].
  - exists w, s. rewrite Z.add_0_r. done.
  - inversion Hps as [|? ? Hx Hps']; subst. rewrite len_cons in *. pose proof (len_nonneg ps).
    destruct (packet_crosses k w s x p Hm He ltac:(lia) Hx) as (w1 & s1 & E1 & He1). rewrite E1. cbn [mbind option_bind].
    destruct (IH (k + 1) w1 s1 Hm He1 ltac:(lia) Hps') as (w2 & s2 & E2 & He2). rewrite E2. cbn [mbind option_bind].
    exists w2, s2. split; [done|]. by replace (k + (1 + len ps)) with (k + 1 + len ps) by lia.
Qed.

(** C3: two sites whose validated configurations name each other carry IP
    traffic: from any states in which one of them has nothing with the other
    and knows its address, the first packet establishes the session (and is
    not kept), and every packet after it, in whatever order the two sites
    send, is written at the other site: unchanged, once, in order, and
    nothing else is. *)
Theorem tunnel_end_to_end w first ps :
  matched -> ready w -> routed SideA first -> Forall (fun '(x, p) => routed x p) ps ->
  2 + len ps < REKEY_AFTER_MESSAGES ->
  exists w', traffic engine addr now clock ((SideA, first) :: ps) w = Some (w', (fun '(x, p) => (other x, p)) <$> ps).
Proof.
  intros Hm Hr Hf Hps Hn. destruct (connects w first Hm Hr Hf) as (w1 & s & E1 & He).
  destruct (packets_cross ps 2 w1 s Hm He Hn Hps) as (w2 & s2 & E2 & _). exists w2.
  cbn [traffic]. rewrite E1. cbn [mbind option_bind]. by rewrite E2.
Qed.
End Together.

(** ** Witness: the reference library and two sites over UDP *)

Definition ref_noise_ik : NoiseIK ref_snow.
Proof.
  refine {| public_of := fun k : bytes => k |}.
  - intros a remote psk pl r Ha _ _. eexists _, _, _, _. split; [reflexivity|]. split; [reflexivity|].
    cbn. by destruct a.
  - intros b psk pl _ _. by eexists.
  - intros a b psk psk' pl hi r r' m hi' hr x hr' Ha [= <-] [= <- <- <-] [= <-]. cbn. unfold ref_hs_read. cbn.
    rewrite take_app_length' by done. rewrite drop_app_length' by done. rewrite take_app_length, drop_app_length.
    rewrite bool_decide_true by done. by intros [= <- <-].
  - intros a b psk pl hi r r' m hi' hr Ha _ Hp [= <-] [= <- <- <-] [= <-]. cbn. unfold ref_hs_read. cbn.
    rewrite take_app_length' by done. rewrite drop_app_length' by done. rewrite take_app_length, drop_app_length.
    rewrite bool_decide_true by done. eexists _, _. split; [reflexivity|]. intros sid r2 Hs.
    eexists _, _, _, _, _, _. split; [reflexivity|]. cbn. split; [by destruct psk|].
    rewrite take_app_length' by done. rewrite drop_app_length' by done. rewrite bool_decide_true by done.
    split; [reflexivity|]. split; [reflexivity|]. split; [reflexivity|]. cbn. split; apply ref_paired.
  - intros t n p cap _ H1 H2. cbn. unfold ref_ts_write, AEAD_TAG_SIZE in *.
    rewrite (proj2 (Z.ltb_ge _ _)) by lia. rewrite (proj2 (Z.ltb_ge _ _)) by lia. by eexists.
Defined.

Definition wit_conf (x : side) : Config (IN := ref_ipnet) :=
  match x with SideA => wit_pair "b" (SA4 0 1) 172838914 "a" "b" | SideB => wit_pair "a" (SA4 0 2) 172838914 "b" "a" end.
Definition wit_site (x : side) : Engine (IN := ref_ipnet) := match x with SideA => wit_ea | SideB => wit_eb end.
Definition wit_addr (x : side) : SocketAddr := match x with SideA => wit_a_addr | SideB => wit_b_addr end.
Definition wit_site_route (x : side) : Route (IN := ref_ipnet) :=
  default wit_route (head (routes (router (wit_site x)))).
Definition wit_net : Net (SN := ref_snow) :=
  {| net_state := fun x => wit_st0 (match x with SideA => 100 | SideB => 200 end); net_steps := 0 |}.
Definition wit_times (_ : side) (i : nat) : Instant := Z.of_nat i mod 1000.

Lemma wit_site_engine x : Engine_new (IN := ref_ipnet) (B64 := ref_base64) (RS := ref_resolver) (SN := ref_snow) (wit_conf x) = Ok (wit_site x).
Proof. by destruct x. Qed.

Lemma wit_configured : configured (B64 := ref_base64) (RS := ref_resolver) (SN := ref_snow) (NK := ref_noise_ik) wit_site wit_addr wit_conf
  (fun x => route_peer (wit_site_route x)).
Proof.
  split.
  - intros x. split; [|apply wit_site_engine]. apply (validate_spec (B64 := ref_base64)). by destruct x; vm_compute.
  - intros x. exists (wit_site_route x). split; [|done]. destruct x; left.
  - by intros [].
  - done.
  - by intros [].
Qed.

Lemma wit_matched : matched (B64 := ref_base64) (RS := ref_resolver) (SN := ref_snow) (NK := ref_noise_ik) wit_site wit_addr wit_times (fun x i _ => wit_times x i) wit_conf
  (fun x => route_peer (wit_site_route x)) (fun _ => 0).
Proof.
  split; [apply wit_configured|]. intros x i _. unfold wit_times, young, REKEY_AFTER_TIME, from_secs. pose proof (Z.mod_pos_bound (Z.of_nat i) 1000). lia.
Qed.

Lemma wit_routed x : routed (IN := ref_ipnet) wit_site (fun x => route_peer (wit_site_route x)) x wit_packet.
Proof. exists wit_ip, 172838914, (wit_site_route x). destruct x; split_and!; done || reflexivity. Qed.

Lemma wit_ready : ready (IN := ref_ipnet) (SN := ref_snow) wit_addr (fun x => route_peer (wit_site_route x)) wit_net.
Proof.
  split; try done.
  - intros x. apply default_wf.
  - intros x [] q s; done.
Qed.

(** Five packets after the first, from both sites. *)
Definition wit_ps : list (side * bytes) :=
  [(SideA, wit_packet); (SideB, wit_packet); (SideB, wit_packet); (SideA, wit_packet); (SideB, wit_packet)].

Lemma tunnel_end_to_end_witness :
  exists w', traffic (IN := ref_ipnet) (RS := ref_resolver) (SN := ref_snow) wit_site wit_addr wit_times (fun x i _ => wit_times x i)
      ((SideA, wit_packet) :: wit_ps) wit_net =
    Some (w', [(SideB, wit_packet); (SideA, wit_packet); (SideA, wit_packet); (SideB, wit_packet); (SideA, wit_packet)]).
Proof.
  apply (tunnel_end_to_end (B64 := ref_base64) (SL := ref_snow_laws) (NK := ref_noise_ik) wit_site wit_addr wit_times (fun x i _ => wit_times x i)
    wit_conf (fun x => route_peer (wit_site_route x)) (fun _ => 0) wit_net wit_packet wit_ps wit_matched wit_ready (wit_routed SideA)).
  - repeat (apply Forall_cons_2; [apply wit_routed|]). apply Forall_nil_2.
  - done.
Defined.
