(* ===== verification/Channel.v ===== *)
(** * Two engines over an unreliable network

    Like [EndToEnd], but nothing is assumed of the network: it may lose,
    repeat, delay and reorder the frames of both sites, deliver them from any
    address and inject frames of its own.  What the two sites write to their
    packet interfaces is then what a pair of datagram channels delivers, the
    specification [channel_step]. *)

From S2P Require Import Prelude Net PeerState Auth Replay Noise Sessions SessionInv Std Config Router Engine EndToEnd.
From S2P Require Packet.
Open Scope Z_scope.

(** ** Specification: a datagram channel each way *)

(** The packets site [x] has submitted, and the positions of those that the
    other site has written, latest first. *)
Record Channels := { ch_sent : side -> list bytes; ch_got : side -> list nat }.
Definition channels_new : Channels := {| ch_sent := fun _ => []; ch_got := fun _ => [] |}.

(** A site submits a packet; the [i]-th frame of the other site arrives at
    site [x], not necessarily for the first time; a frame of the network's own
    arrives. *)
Inductive event :=
| Submit (x : side) (packet : bytes)
| Deliver (x : side) (i : nat) (source : SocketAddr)
| Inject (x : side) (frame : bytes) (source : SocketAddr).

Definition set_at {A} (x : side) (a : A) (f : side -> A) : side -> A := fun y => if decide (y = x) then a else f y.

(** A packet is written unless it was before, or one sent 4096 or more
    packets later was. *)
Definition accepts (got : list nat) (i : nat) : bool :=
  bool_decide (i ∉ got) && forallb (fun j => Z.of_nat j - Z.of_nat i <? DEFAULT_WINDOW_SIZE) got.

Definition channel_step (ev : event) (c : Channels) : Channels * list (side * bytes) :=
  match ev with
  | Submit x p => ({| ch_sent := set_at x (ch_sent c x ++ [p]) (ch_sent c); ch_got := ch_got c |}, [])
  | Deliver x i _ =>
      match ch_sent c (other x) !! i with
      | Some p =>
          if accepts (ch_got c (other x)) i
          then ({| ch_sent := ch_sent c; ch_got := set_at (other x) (i :: ch_got c (other x)) (ch_got c) |}, [(x, p)])
          else (c, [])
      | None => (c, [])
      end
  | Inject _ _ _ => (c, [])
  end.

Section Run.
Context {W : Type} (step : event -> W -> W * list (side * bytes)).
Fixpoint run_events (evs : list event) (w : W) : W * list (side * bytes) :=
  match evs with
  | [] => (w, [])
  | ev :: evs => let '(w, out) := step ev w in let '(w, more) := run_events evs w in (w, out ++ more)
  end.
End Run.

(** What site [x] has written. *)
Definition written (x : side) (out : list (side * bytes)) : list bytes :=
  snd <$> filter (fun o => o.1 = x) out.

(** ** The two engines and the frames they have sent *)

Section Wire.
Context {IN : IpNet} {B64 : Base64} {RS : Resolver} {SN : Snow}.
Context (engine : side -> Engine) (now : side -> nat -> Instant) (clock : side -> nat -> nat -> Instant).

Record Wire := { wire_state : side -> EngineState; wire_frames : side -> list bytes; wire_steps : nat }.

Definition frames_of (out : EngineOutput) : list bytes :=
  flat_map (fun a => match a with SendTransport _ _ f => [f] | WriteIpPacket _ _ _ => [] end) (actions out).

(** The call of site [x]'s engine is over. *)
Definition after (x : side) (r : EngineState * outcome EngineError EngineOutput) (w : Wire) : Wire * list (side * bytes) :=
  let out := output_of r.2 in
  ({| wire_state := set_at x r.1 (wire_state w);
      wire_frames := set_at x (wire_frames w x ++ frames_of out) (wire_frames w);
      wire_steps := S (wire_steps w) |}, packets_out x out).

Definition wire_step (ev : event) (w : Wire) : Wire * list (side * bytes) :=
  let inbound x f source := process_inbound_transport (engine x) f source (now x (wire_steps w)) (clock x (wire_steps w)) (wire_state w x) in
  match ev with
  | Submit x p => after x (process_outbound_ip (engine x) p (now x (wire_steps w)) (wire_state w x)) w
  | Deliver x i source => match wire_frames w (other x) !! i with Some f => after x (inbound x f source) w | None => (w, []) end
  | Inject x f source => after x (inbound x f source) w
  end.

(** The network of [EndToEnd] with no frame in memory. *)
Definition wire_of (w : Net) : Wire :=
  {| wire_state := net_state w; wire_frames := fun _ => []; wire_steps := net_steps w |}.

(** A frame that authenticates under no key. *)
Definition forged (f : bytes) : Prop :=
  bytes_ok f /\
  match decode_packet f with
  | Some (Transport _ n ct) => forall t cap, is_ok (ts_read t n ct cap) = false
  | Some (Handshake _ _ m) => forall h cap, is_ok (hs_read h m cap) = false
  | None => True
  end.
End Wire.

(** ** Lemmas on the specification *)

Lemma set_at_same {A} x (a : A) f : set_at x a f x = a.
Proof. unfold set_at. by rewrite decide_True. Qed.
Lemma set_at_other {A} x (a : A) f : set_at x a f (other x) = f (other x).
Proof. unfold set_at. rewrite decide_False; [done|]. by destruct x. Qed.
Lemma set_at_back {A} x (a : A) f : set_at (other x) a f x = f x.
Proof. unfold set_at. rewrite decide_False; [done|]. by destruct x. Qed.

(** Counters are positions, from a base that all older counters are below. *)
Definition counters (base : Z) (got : list nat) : list Z := (fun i => base + Z.of_nat i) <$> got.

Lemma accepts_counters base got old i :
  Forall (fun n => n < base) old ->
  Spec.acceptable (counters base got ++ old) (base + Z.of_nat i) = accepts got i.
Proof.
  intros Hold. rewrite Forall_forall in Hold. unfold Spec.acceptable, accepts. f_equal.
  - apply bool_decide_ext. rewrite elem_of_app. unfold counters. rewrite list_elem_of_fmap. split.
    + intros H Hi. apply H. left. by exists i.
    + intros H [(j & E & Hj)|Ho%Hold]; [|lia]. by replace i with j in H by lia.
  - rewrite forallb_app. rewrite andb_comm. rewrite (proj2 (forallb_forall _ old)).
    + cbn [andb]. unfold counters. induction got as [|j got IH]; [done|]. rewrite fmap_cons. cbn [forallb]. f_equal; [|exact IH].
      f_equal. lia.
    + intros n Hn%list_elem_of_In%Hold. apply Z.ltb_lt. unfold DEFAULT_WINDOW_SIZE. lia.
Qed.

(** Each position is written at most once, and only submitted packets are. *)
Definition channel_ok (c : Channels) : Prop :=
  forall x, NoDup (ch_got c x) /\ Forall (fun i => (i < length (ch_sent c x))%nat) (ch_got c x).

Lemma channel_step_ok ev c : channel_ok c -> channel_ok (channel_step ev c).1.
Proof.
  intros H. destruct ev as [x p|x i src|x f src]; cbn [channel_step]; [| |done].
  - unfold channel_ok. apply (both_sides _ x); cbn.
    + rewrite set_at_same. destruct (H x) as [H1 H2]. split; [done|]. eapply Forall_impl; [exact H2|].
      cbn. intros i Hi. rewrite length_app. lia.
    + rewrite set_at_other. apply H.
  - destruct (ch_sent c (other x) !! i) as [p|] eqn:E; [|done]. destruct (accepts _ i) eqn:Ea; [|done].
    unfold channel_ok. apply (both_sides _ x); cbn.
    + rewrite set_at_back. apply H.
    + rewrite set_at_same. destruct (H (other x)) as [H1 H2]. apply andb_prop in Ea as [Ea _].
      apply bool_decide_eq_true in Ea. split; [by apply NoDup_cons|]. constructor; [|done]. by apply lookup_lt_Some in E.
Qed.

Lemma channel_run_ok evs : forall c, channel_ok c -> channel_ok (run_events channel_step evs c).1.
Proof.
  induction evs as [|ev evs IH]; intros c H; [done|]. cbn [run_events].
  pose proof (channel_step_ok ev c H) as H1. destruct (channel_step ev c) as [c1 o1]. specialize (IH c1 H1).
  by destruct (run_events channel_step evs c1).
Qed.

(** What a site writes is what its channel has let through, in that order. *)
Definition arrived (c : Channels) (x : side) : list bytes :=
  omap (fun i => ch_sent c (other x) !! i) (reverse (ch_got c (other x))).

Lemma omap_sent_app (l m : list bytes) (k : list nat) : Forall (fun i => (i < length l)%nat) k ->
  omap (fun i => (l ++ m) !! i) k = omap (fun i => l !! i) k.
Proof.
  induction 1 as [|i k Hi H IH]; [done|]. cbn. rewrite lookup_app_l by done. by rewrite IH.
Qed.

Lemma arrived_step ev c x : channel_ok c ->
  arrived (channel_step ev c).1 x = arrived c x ++ written x (channel_step ev c).2.
Proof.
  intros H. destruct ev as [y p|y i src|y f src]; cbn [channel_step]; [| |by rewrite app_nil_r].
  - unfold arrived. cbn. rewrite app_nil_r. destruct (decide (other x = y)) as [<-|Hne].
    + rewrite set_at_same. apply omap_sent_app, Forall_reverse, H.
    + unfold set_at. by rewrite decide_False.
  - destruct (ch_sent c (other y) !! i) as [p|] eqn:E; [|by rewrite app_nil_r].
    destruct (accepts _ i); [|by rewrite app_nil_r]. unfold arrived, written.
    cbn [fst snd ch_sent ch_got]. rewrite filter_cons, filter_nil. cbn [fst]. destruct (decide (x = y)) as [->|Hne].
    + rewrite set_at_same, reverse_cons, omap_app. cbn [omap list_omap]. rewrite E. by rewrite decide_True.
    + rewrite decide_False by congruence. rewrite app_nil_r. unfold set_at. rewrite decide_False; [done|]. by destruct x, y.
Qed.

Lemma written_app x a b : written x (a ++ b) = written x a ++ written x b.
Proof. unfold written. by rewrite filter_app, fmap_app. Qed.

Lemma arrived_run evs x : forall c, channel_ok c ->
  arrived (run_events channel_step evs c).1 x = arrived c x ++ written x (run_events channel_step evs c).2.
Proof.
  induction evs as [|ev evs IH]; intros c H; cbn [run_events]; [by rewrite app_nil_r|].
  pose proof (channel_step_ok ev c H) as H1. pose proof (arrived_step ev c x H) as E.
  destruct (channel_step ev c) as [c1 o1]. specialize (IH c1 H1).
  destruct (run_events channel_step evs c1) as [c2 o2]. cbn [fst snd] in *. by rewrite IH, E, written_app, app_assoc.
Qed.

Lemma channels_new_ok : channel_ok channels_new.
Proof. intros x. split; constructor. Qed.

(** ** One direction of a session *)

Section Flow.
Context {SN : Snow} {SL : SnowLaws SN} {NK : NoiseIK SN}.

(** [s] has sent the packets [ps] as the frames [fs], the first under counter
    [base]; [r] has accepted those at [got]. *)
Record flow (base : Z) (s r : Session) (ps fs : list bytes) (got : list nat) : Prop := {
  fl_id : session_id r = session_id s;
  fl_key : paired (transport s) (transport r);
  fl_next : send_counter s = base + len ps;
  fl_base : 0 <= base;
  fl_length : length fs = length ps;
  fl_frame : forall i p, ps !! i = Some p -> exists ct cap,
    fs !! i = Some (encode_transport (session_id s) (base + Z.of_nat i) ct) /\
    packet_wf (Transport (session_id s) (base + Z.of_nat i) ct) /\
    ts_write (transport s) (base + Z.of_nat i) (encode_transport_plaintext MsgType.Data p) cap = Ok ct /\
    is_ok (Packet.parse p) = true;
  fl_window : exists old, window_inv (counters base got ++ old) (replay r) /\ Forall (fun n => n < base) old }.

Lemma flow_start s r : linked s r -> session_wf s -> flow (send_counter s) s r [] [] [].
Proof.
  intros [H1 H2 (seen & H3 & H4)] Hs. pose proof (swf_send _ Hs) as [H5 _].
  split; try done; [unfold len; cbn; lia|]. by exists seen.
Qed.

(** A flow depends on its ends only through these parts of them. *)
Lemma flow_ext base s r s' r' ps fs got :
  session_id s' = session_id s -> transport s' = transport s -> send_counter s' = send_counter s ->
  session_id r' = session_id r -> transport r' = transport r -> replay r' = replay r ->
  flow base s r ps fs got -> flow base s' r' ps fs got.
Proof. intros E1 E2 E3 E4 E5 E6 [H1 H2 H3 H4 H5 H6 H7]. split; rewrite ?E1, ?E2, ?E3, ?E4, ?E5, ?E6; done. Qed.

Lemma flow_submit k base s r ps fs got p :
  flow base s r ps fs got -> at_work k s -> k < U64_MAX -> len p + 17 <= MAX_NOISE_MESSAGE_SIZE ->
  is_ok (Packet.parse p) = true ->
  exists f, let s' := set_send_counter s (send_counter s + 1) in
    encrypt MsgType.Data p s = (s', Ok f) /\ at_work (k + 1) s' /\ flow base s' r (ps ++ [p]) (fs ++ [f]) got.
Proof.
  intros [H1 H2 H3 H4 H5 H6 H7] Hw Hk Hp Hip.
  destruct (at_work_encrypt k s MsgType.Data p Hw Hk Hp) as (ct & cap & Hct & He & Hwf & Hw').
  eexists. cbv zeta in *. split; [exact He|]. split; [exact Hw'|]. rewrite H3 in *. unfold len in *.
  split; cbn; try done; [unfold len; rewrite length_app; cbn; lia|by rewrite !length_app, H5|].
  intros i q Hq. destruct (decide (i < length ps)%nat) as [Hi|Hi].
  - rewrite lookup_app_l in Hq |- * by lia. by apply H6.
  - rewrite lookup_app_r in Hq |- * by lia. rewrite H5. apply list_lookup_singleton_Some in Hq as [Hi0 <-].
    replace (base + Z.of_nat i) with (base + Z.of_nat (length ps)) by lia. rewrite Hi0.
    by exists ct, cap.
Qed.

(** The [i]-th frame arrives. *)
Lemma flow_deliver k base s r ps fs got i p :
  flow base s r ps fs got -> at_work k r -> k < U64_MAX -> ps !! i = Some p ->
  exists n ct, fs !! i = Some (encode_transport (session_id r) n ct) /\ packet_wf (Transport (session_id r) n ct) /\
    is_ok (Packet.parse p) = true /\
    if accepts got i
    then exists w, let r' := set_received r (Z.min (received_messages r + 1) U64_MAX) w in
      decrypt (session_id r) n ct r = (r', Ok (MsgType.Data, p)) /\ at_work (k + 1) r' /\ flow base s r' ps fs (i :: got)
    else decrypt (session_id r) n ct r = (r, Err Replay_).
Proof.
  intros [H1 H2 H3 H4 H5 H6 (old & H7 & H8)] Hw Hk Hi.
  destruct (H6 i p Hi) as (ct & cap & Hf & Hwf & Hct & Hip). rewrite <- H1 in *.
  exists (base + Z.of_nat i), ct. split_and!; [done..|].
  assert (Hn : is_u64 (base + Z.of_nat i)) by apply Hwf.
  pose proof (accepts_counters base got old i H8) as Ha. destruct (accepts got i).
  - destruct (at_work_decrypt k r _ _ _ ct cap MsgType.Data p Hw Hk H7 Hn H2 Hct Ha) as (w & Hd & Hwin & Hw').
    exists w. cbv zeta in *. split; [exact Hd|]. split; [exact Hw'|]. split; cbn; try done; [by rewrite <- H1|]. by exists old.
  - rewrite (decrypt_eq _ _ _ _ _ H7 Hn), bool_decide_true by done. by rewrite Ha.
Qed.
End Flow.

(** ** What an engine ignores *)

Section Ignored.
Context {IN : IpNet} {B64 : Base64} {RS : Resolver} {SN : Snow} {SL : SnowLaws SN} {NK : NoiseIK SN}.

Lemma serves_prune k t0 st peer remote s now :
  serves k t0 st peer remote s -> is_expired s now = false ->
  serves k t0 (set_manager (prune now (manager st)) st) peer remote s.
Proof.
  intros [Hwf Ha Hc Hp He Hw Ht] Hl. split; cbn; try done; [by apply prune_wf| |by apply retain_live_None].
  by apply retain_live_Some.
Qed.

Lemma set_slot_id k p s (st : SessionState) : slot_of st k !! p = Some s -> set_slot k <[p := s]> st = st.
Proof. intros H. destruct st, k; cbn in *; unfold set_sessions, set_previous, set_candidates; cbn; by rewrite insert_id. Qed.

(** No session reads the packet: nothing changes but what has expired. *)
Lemma transport_refused k t0 now clock st peer remote source s sid n ct :
  serves k t0 st peer remote s -> is_expired s now = false ->
  (forall j p s0, slot_of (manager st) j !! p = Some s0 -> session_id s0 = sid -> exists er, decrypt sid n ct s0 = (s0, Err er)) ->
  exists r, process_transport sid n ct source now clock st = (set_manager (prune now (manager st)) st, r) /\ output_of r = no_output.
Proof.
  intros Hsv Hl Hd. unfold process_transport, call. unfold mbind at 1, M_bind at 1.
  destruct (decrypt_transport_cases sid n ct now (manager st)) as [[-> _]|(j & p & s0 & Hs & Hid & ->)].
  - cbn [map_err]. by eexists.
  - pose proof Hs as Hs'. rewrite slot_prune in Hs'. apply retain_live_Some in Hs' as [Hs' _].
    destruct (Hd j p s0 Hs' Hid) as [er ->]. cbn [fst snd]. rewrite set_slot_id by done. cbn [map_err]. by eexists.
Qed.

(** A frame of the session that was accepted before, or is too old. *)
Lemma serving_refuses e k t0 now clock st peer remote source s n ct er :
  serves k t0 st peer remote s -> is_expired s now = false ->
  packet_wf (Transport (session_id s) n ct) -> decrypt (session_id s) n ct s = (s, Err er) ->
  exists st' r, process_inbound_transport e (encode_transport (session_id s) n ct) source now clock st = (st', r) /\
    output_of r = no_output /\ serves k t0 st' peer remote s.
Proof.
  intros Hsv Hl Hwf Hd.
  destruct (transport_refused k t0 now clock st peer remote source s (session_id s) n ct Hsv Hl) as (r & E & Hr).
  { intros j p s0 Hs0 Hid.
    destruct (slots_inj _ (wf_slots _ (sv_wf _ _ _ _ _ _ Hsv)) j p s0 Active peer s Hs0 (sv_active _ _ _ _ _ _ Hsv) Hid) as [-> ->].
    assert (s0 = s) as -> by (pose proof (sv_active _ _ _ _ _ _ Hsv) as Ha; cbn in Hs0; congruence). by exists er. }
  eexists _, r. unfold process_inbound_transport. rewrite decode_encode_transport by done. split; [exact E|].
  split; [done|]. by apply serves_prune.
Qed.

Lemma decrypt_unreadable sid n ct s : session_wf s -> is_u64 n -> (forall t cap, is_ok (ts_read t n ct cap) = false) ->
  exists er, decrypt sid n ct s = (s, Err er).
Proof.
  intros [[seen Hw] _ _ _] Hn Hct. rewrite (decrypt_eq _ _ _ _ seen Hw Hn).
  repeat (case_match; [by eexists|]). pose proof (ts_read_np (transport s) n ct (len ct - AEAD_TAG_SIZE)) as Hnp.
  specialize (Hct (transport s) (len ct - AEAD_TAG_SIZE)). destruct (ts_read _ _ _ _); [done|by eexists|done].
Qed.

Lemma try_respond_unreadable e hid m wall rs : (forall h cap, is_ok (hs_read h m cap) = false) ->
  forall checked r, try_respond e hid m wall checked rs r = (r, Ok None).
Proof.
  intros Hm. induction rs as [|rt rs IH]; intros checked r; [done|]. cbn [try_respond]. case_bool_decide; [done|].
  unfold responder_respond, mlift, mbind, M_bind.
  pose proof (build_responder_np (local_static e) (psk (route_peer rt)) (handshake_prologue hid)) as Hnp.
  destruct (build_responder _ _ _) as [h| |]; [|apply IH|done]. cbn [map_err].
  pose proof (hs_read_np h m MAX_NOISE_MESSAGE_SIZE) as Hnp2. specialize (Hm h MAX_NOISE_MESSAGE_SIZE).
  destruct (hs_read _ _ _); [done|apply IH|done].
Qed.

(** A response that no handshake state can read still ends the exchange whose
    identifier, sent in clear, it names: the genuine response that follows
    finds nothing. *)
Lemma forged_response_cancels hid m wall st p pi :
  pending_init st !! p = Some pi -> pi_handshake_id pi = hid ->
  (forall q pi', pending_init st !! q = Some pi' -> pi_handshake_id pi' = hid -> q = p) ->
  (forall h cap, is_ok (hs_read h m cap) = false) ->
  exists er, finalize_initiator hid m wall st = (set_pending (delete p) st, Err er) /\
    forall genuine wall', finalize_initiator hid genuine wall' (set_pending (delete p) st) = (set_pending (delete p) st, Ok None).
Proof.
  intros Hp Hid Hal Hm.
  destruct (finalize_cases hid m wall st) as [[_ E]|(q & pi' & Hq & Hid' & ->)]; [by rewrite (find_pending_alone _ hid p pi) in E|].
  assert (q = p) as -> by (by eapply Hal). cbv zeta. unfold initiator_finalize.
  pose proof (hs_read_np (is_state (pi_state pi')) m (Z.of_nat SESSION_ID_SIZE + AEAD_TAG_SIZE)) as Hnp.
  specialize (Hm (is_state (pi_state pi')) (Z.of_nat SESSION_ID_SIZE + AEAD_TAG_SIZE)).
  destruct (hs_read _ m _) as [[]|er|]; [done| |done]. eexists. split; [reflexivity|]. intros genuine wall'.
  destruct (finalize_cases hid genuine wall' (set_pending (delete p) st)) as [[-> _]|(q & pi2 & Hq2 & Hid2 & _)]; [done|].
  cbn in Hq2. apply lookup_delete_Some in Hq2 as [Hne Hq2]. by destruct Hne; rewrite (Hal q pi2).
Qed.

(** A forged frame: at most a pending handshake of another peer is lost. *)
Lemma serving_ignores e k t0 now clock st peer remote source s f :
  serves k t0 st peer remote s -> is_expired s now = false -> forged f ->
  exists st' r, process_inbound_transport e f source now clock st = (st', r) /\
    output_of r = no_output /\ serves k t0 st' peer remote s.
Proof.
  intros Hsv Hl [Hb Hf]. unfold process_inbound_transport.
  destruct (decode_packet f) as [[kd hid m|sid n ct]|] eqn:E; [| |by eexists _, _].
  - destruct kd.
    + by eexists _, _.
    + unfold process_init, decode_handshake_init. unfold mbind at 1, M_bind at 1.
      rewrite try_respond_unreadable by done. eexists _, _. split; [reflexivity|]. split; [done|].
      by destruct Hsv as [? ? ? ? ? ? ?].
    + unfold process_response, call. unfold mbind at 1, M_bind at 1.
      pose proof (finalize_initiator_wf hid m (clock 0%nat) _ (sv_wf _ _ _ _ _ _ Hsv)) as Hwf.
      destruct (finalize_cases hid m (clock 0%nat) (manager st)) as [[-> _]|(p & pi & _ & _ & Ef)].
      * cbn [map_err]. eexists _, _. split; [reflexivity|]. split; [done|]. by destruct Hsv.
      * rewrite Ef in Hwf |- *. cbv zeta in *. unfold initiator_finalize in *.
        specialize (Hf (is_state (pi_state pi)) (Z.of_nat SESSION_ID_SIZE + AEAD_TAG_SIZE)).
        destruct (hs_read _ m _); [done|..]; cbn in Hwf |- *; eexists _, _; (split; [reflexivity|]); (split; [done|]);
          destruct Hsv as [? ? ? Hp ? ? ?]; split; cbn; try done; by rewrite lookup_delete_None; right.
  - apply decode_packet_inv in E as [Hwf _]; [|done].
    destruct (transport_refused k t0 now clock st peer remote source s sid n ct Hsv Hl) as (r & Er & Hr).
    { intros j p s0 Hs0 _. apply decrypt_unreadable; [|apply Hwf|done].
      exact (slots_ok _ (wf_slots _ (sv_wf _ _ _ _ _ _ Hsv)) j p s0 Hs0). }
    eexists _, r. split; [exact Er|]. split; [done|]. by apply serves_prune.
Qed.
End Ignored.

(** ** Refinement *)

Section Refinement.
Context {IN : IpNet} {B64 : Base64} {RS : Resolver} {SN : Snow} {SL : SnowLaws SN} {NK : NoiseIK SN}.
Context (engine : side -> Engine) (addr : side -> SocketAddr).
Context (now : side -> nat -> Instant) (clock : side -> nat -> nat -> Instant).
Context (conf : side -> Config) (peer_at : side -> Peer) (t0 : side -> Instant).

(** Submitted packets are routed to the other site; a frame may arrive from
    any address a frame can be sent back to. *)
Definition event_ok (ev : event) : Prop :=
  match ev with
  | Submit x p => routed engine peer_at x p
  | Deliver _ _ source => usable_peer_endpoint source = true
  | Inject _ f _ => forged f
  end.

(** The two engines and the frames under way stand for the channels. *)
Record tracks (k : Z) (w : Wire) (c : Channels) (s : side -> Session) (base : side -> Z) : Prop := {
  tr_serves : forall x, exists remote, usable_peer_endpoint remote = true /\
    serves k (t0 x) (wire_state w x) (name (peer_at x)) remote (s x);
  tr_flow : forall x, flow (base x) (s x) (s (other x)) (ch_sent c x) (wire_frames w x) (ch_got c x) }.

(** Within the run no session is due for a rekey. *)
Lemma serves_young k x st remote s i : matched engine addr now clock conf peer_at t0 -> k < REKEY_AFTER_MESSAGES ->
  serves k (t0 x) st (name (peer_at x)) remote s ->
  is_expired s (now x i) = false /\ (k + 1 < REKEY_AFTER_MESSAGES -> should_rekey (set_send_counter s (send_counter s + 1)) (now x i) = false).
Proof.
  intros Hm Hk Hs. pose proof (proj2 (mt_time _ _ _ _ _ _ _ Hm x i 0%nat)) as Hy. split.
  - by destruct (young_live k (t0 x) s (now x i) (sv_work _ _ _ _ _ _ Hs) Hk (sv_created _ _ _ _ _ _ Hs) Hy).
  - intros Hk'. destruct Hs as [_ _ _ _ _ [_ Hsk Hrk] Hcr]. unfold young, REKEY_AFTER_TIME, REKEY_AFTER_MESSAGES in *.
    change (Z.shiftl 1 32) with (2 ^ 32) in *. rewrite <- not_true_iff_false, should_rekey_iff. cbn. lia.
Qed.

Lemma established_tracks k w s : matched engine addr now clock conf peer_at t0 -> established addr peer_at t0 k w s ->
  tracks k (wire_of w) channels_new s (fun x => send_counter (s x)).
Proof.
  intros Hm He. split.
  - intros x. exists (addr (other x)). split; [apply (mt_addr _ _ _ _ (mt_sites _ _ _ _ _ _ _ Hm))|]. apply He.
  - intros x. cbn. apply flow_start; [apply He|]. exact (aw_wf _ _ (sv_work _ _ _ _ _ _ (proj1 (He x)))).
Qed.

Lemma tracks_submit k w c s base x p :
  matched engine addr now clock conf peer_at t0 -> tracks k w c s base -> k + 1 < REKEY_AFTER_MESSAGES ->
  routed engine peer_at x p ->
  exists s', (wire_step engine now clock (Submit x p) w).2 = (channel_step (Submit x p) c).2 /\
    tracks (k + 1) (wire_step engine now clock (Submit x p) w).1 (channel_step (Submit x p) c).1 s' base.
Proof.
  intros Hm [Hs Hf] Hk (ip & d & rt & Hip & Hd & Hl & Hrt & Hlen).
  destruct (Hs x) as (remote & Hu & Hsx). pose proof (sv_work _ _ _ _ _ _ Hsx) as Hw.
  destruct (flow_submit k (base x) (s x) (s (other x)) _ _ _ p (Hf x) Hw (rekey_bound k ltac:(lia)) Hlen ltac:(by rewrite Hip)) as (f & He & Hw' & Hf').
  destruct (serves_young k x _ remote (s x) (wire_steps w) Hm ltac:(lia) Hsx) as [Hle Hdue]. specialize (Hdue Hk).
  cbv zeta in *. set (s1 := set_send_counter (s x) (send_counter (s x) + 1)) in *. rewrite <- Hrt in Hsx.
  destruct (serving_sends (engine x) rt p ip d k (t0 x) (now x (wire_steps w)) (wire_state w x) remote (s x) s1 f
    Hip Hd Hl Hsx Hu Hle Hdue He Hw' eq_refl) as (st' & E & Hsx').
  rewrite Hrt in Hsx'. exists (set_at x s1 s). cbn [wire_step channel_step]. rewrite E. unfold after. cbn [fst snd output_of].
  split; [done|]. split; cbn [wire_state wire_frames ch_sent ch_got].
  - apply (both_sides _ x); [rewrite !set_at_same; by exists remote|rewrite !set_at_other].
    destruct (Hs (other x)) as (r & Hr & Hsy). exists r. split; [done|]. eapply serves_le; [exact Hsy|lia].
  - apply (both_sides _ x); [rewrite !set_at_same, set_at_other; exact Hf'|].
    rewrite !set_at_other, other_other, set_at_same. specialize (Hf (other x)). rewrite other_other in Hf.
    by eapply flow_ext, Hf.
Qed.

Lemma tracks_deliver k w c s base x i source :
  matched engine addr now clock conf peer_at t0 -> tracks k w c s base -> k + 1 < REKEY_AFTER_MESSAGES ->
  usable_peer_endpoint source = true ->
  exists s', (wire_step engine now clock (Deliver x i source) w).2 = (channel_step (Deliver x i source) c).2 /\
    tracks (k + 1) (wire_step engine now clock (Deliver x i source) w).1 (channel_step (Deliver x i source) c).1 s' base.
Proof.
  intros Hm [Hs Hf] Hk Hu. set (y := other x). pose proof (Hf y) as Hfy. unfold y in Hfy. rewrite other_other in Hfy. fold y in Hfy.
  assert (Hlater : forall z, exists remote, usable_peer_endpoint remote = true /\
    serves (k + 1) (t0 z) (wire_state w z) (name (peer_at z)) remote (s z)).
  { intros z. destruct (Hs z) as (r & Hr & H). exists r. split; [done|]. eapply serves_le; [exact H|lia]. }
  cbn [wire_step channel_step]. fold y. destruct (ch_sent c y !! i) as [p|] eqn:Ei.
  2: { assert (wire_frames w y !! i = None) as ->.
       { apply lookup_ge_None in Ei. apply lookup_ge_None. by rewrite (fl_length _ _ _ _ _ _ Hfy). }
       exists s. split; [done|]. by split. }
  destruct (Hs x) as (remote & Hur & Hsx). pose proof (sv_work _ _ _ _ _ _ Hsx) as Hw.
  destruct (flow_deliver k (base y) (s y) (s x) _ _ _ i p Hfy Hw (rekey_bound k ltac:(lia)) Ei) as (n & ct & Ef & Hwf & Hip & Hrest).
  destruct (serves_young k x _ remote (s x) (wire_steps w) Hm ltac:(lia) Hsx) as [Hle _].
  rewrite Ef. unfold after. cbn [fst snd]. destruct (accepts (ch_got c y) i).
  - destruct Hrest as (win & Hd & Hw' & Hf'). cbv zeta in *.
    destruct (Packet.parse p) as [ip| |] eqn:Ep; [|done..].
    destruct (serving_receives (engine x) k (t0 x) (now x (wire_steps w)) (clock x (wire_steps w)) (wire_state w x) _ _ source (s x) _
      n ct p ip Hsx Hle Hwf Hw' eq_refl Hd Ep) as (st' & E & Hsx').
    rewrite E. cbn [fst snd output_of]. eexists (set_at x _ s). split; [done|]. split; cbn [wire_state wire_frames ch_sent ch_got].
    + apply (both_sides _ x); [rewrite !set_at_same; by exists source|rewrite !set_at_other; apply Hlater].
    + apply (both_sides _ x); fold y.
      * rewrite !set_at_same. unfold y. rewrite set_at_other, set_at_back. cbn [frames_of actions flat_map]. rewrite app_nil_r.
        by eapply flow_ext, Hf.
      * rewrite set_at_same. unfold y. rewrite !set_at_other, other_other, set_at_same. exact Hf'.
  - destruct (serving_refuses (engine x) k (t0 x) (now x (wire_steps w)) (clock x (wire_steps w)) (wire_state w x) _ _ source (s x)
      n ct _ Hsx Hle Hwf Hrest) as (st' & r & E & Hr & Hsx').
    rewrite E. cbn [fst snd]. rewrite Hr. exists s. split; [done|]. split; cbn [wire_state wire_frames].
    + apply (both_sides _ x); [rewrite set_at_same; exists remote; split; [done|]; eapply serves_le; [exact Hsx'|lia]|].
      rewrite set_at_other. apply Hlater.
    + cbn [frames_of actions flat_map]. apply (both_sides _ x); [rewrite set_at_same, app_nil_r|rewrite set_at_other]; apply Hf.
Qed.

Lemma tracks_inject k w c s base x f source :
  matched engine addr now clock conf peer_at t0 -> tracks k w c s base -> k + 1 < REKEY_AFTER_MESSAGES -> forged f ->
  (wire_step engine now clock (Inject x f source) w).2 = [] /\
    tracks (k + 1) (wire_step engine now clock (Inject x f source) w).1 c s base.
Proof.
  intros Hm [Hs Hf] Hk Hforged. destruct (Hs x) as (remote & Hur & Hsx).
  destruct (serving_ignores (engine x) k (t0 x) (now x (wire_steps w)) (clock x (wire_steps w)) (wire_state w x) _ _ source (s x)
    f Hsx (proj1 (serves_young k x _ remote (s x) (wire_steps w) Hm ltac:(lia) Hsx)) Hforged) as (st' & r & E & Hr & Hsx').
  cbn [wire_step]. rewrite E. unfold after. cbn [fst snd]. rewrite Hr. split; [done|]. split; cbn [wire_state wire_frames].
  - apply (both_sides _ x); [rewrite set_at_same; exists remote; split; [done|]; eapply serves_le; [exact Hsx'|lia]|].
    rewrite set_at_other. destruct (Hs (other x)) as (r0 & H0 & H). exists r0. split; [done|]. eapply serves_le; [exact H|lia].
  - cbn [frames_of actions flat_map]. apply (both_sides _ x); [rewrite set_at_same, app_nil_r|rewrite set_at_other]; apply Hf.
Qed.

Lemma tracks_run evs : forall k w c s base,
  matched engine addr now clock conf peer_at t0 -> tracks k w c s base -> k + len evs < REKEY_AFTER_MESSAGES -> Forall event_ok evs ->
  (run_events (wire_step engine now clock) evs w).2 = (run_events channel_step evs c).2.
Proof.
  induction evs as [|ev evs IH]; intros k w c s base Hm Ht Hk Hevs; [done|].
  inversion Hevs as [|? ? Hev Hevs']; subst. rewrite len_cons in Hk. pose proof (len_nonneg evs) as Hn. cbn [run_events].
  assert (exists s', (wire_step engine now clock ev w).2 = (channel_step ev c).2 /\
    tracks (k + 1) (wire_step engine now clock ev w).1 (channel_step ev c).1 s' base) as (s' & E & Ht').
  { destruct ev as [x p|x i src|x f src].
    - apply (tracks_submit k w c s base x p Hm Ht); [lia|done].
    - apply (tracks_deliver k w c s base x i src Hm Ht); [lia|done].
    - destruct (tracks_inject k w c s base x f src Hm Ht ltac:(lia) Hev) as [E Ht']. by exists s. }
  destruct (wire_step engine now clock ev w) as [w1 o1], (channel_step ev c) as [c1 o2]. cbn [fst snd] in *. subst o1.
  specialize (IH (k + 1) w1 c1 s' base Hm Ht' ltac:(lia) Hevs').
  destruct (run_events _ evs w1), (run_events _ evs c1). cbn [snd] in *. by rewrite IH.
Qed.

(** C1: whatever the network does, two sites whose validated configurations
    name each other are a pair of datagram channels.  Once the first packet
    has made the session, the frames of both sites may be lost, repeated,
    delayed, reordered, delivered from any address and mixed with forged
    ones: what the sites write is exactly what the channels let through, so
    each site writes only packets the other has submitted, each at most once
    and unchanged, and it writes every one whose frame arrives less than 4096
    packets behind the newest it has written. *)
Theorem unreliable_network w first evs :
  matched engine addr now clock conf peer_at t0 -> ready addr peer_at w -> routed engine peer_at SideA first ->
  Forall event_ok evs -> 2 + len evs < REKEY_AFTER_MESSAGES ->
  exists w1, submit engine addr now clock SideA first w = Some (w1, []) /\
    let out := (run_events (wire_step engine now clock) evs (wire_of w1)).2 in
    let '(c, delivered) := run_events channel_step evs channels_new in
    out = delivered /\
    forall x, written x out = omap (fun i => ch_sent c (other x) !! i) (reverse (ch_got c (other x))) /\
              NoDup (ch_got c (other x)).
Proof.
  intros Hm Hr Hf Hevs Hk. destruct (connects engine addr now clock conf peer_at t0 w first Hm Hr Hf) as (w1 & s & E1 & He).
  exists w1. split; [done|].
  pose proof (tracks_run evs 2 _ _ s _ Hm (established_tracks 2 w1 s Hm He) Hk Hevs) as E.
  pose proof (fun x => arrived_run evs x channels_new channels_new_ok) as Ha. pose proof (channel_run_ok evs channels_new channels_new_ok) as Hok.
  cbv zeta. rewrite E.
  destruct (run_events channel_step evs channels_new) as [c out]. cbn [fst snd] in *. split; [done|].
  intros x. split; [|apply Hok]. symmetry. exact (Ha x).
Qed.
End Refinement.

(** ** Witness *)

(** Packets that can be told apart, and a frame whose tag fits no key. *)
Definition wit_data (i : Z) : bytes := wit_packet ++ [i].
Definition wit_forged : bytes := encode_transport (replicate 8 3) 7 [1; 2; 3; 4; 5; 6; 7; 8; 9; 10; 11; 12; 13; 14; 15; 16; 17].

(** Repeated, reordered, lost and forged frames, and a changed address. *)
Definition wit_events : list event :=
  [Submit SideA (wit_data 1); Submit SideA (wit_data 2); Submit SideB (wit_data 3); Submit SideA (wit_data 4);
   Deliver SideB 2 (SA4 9 9); Deliver SideB 0 (wit_addr SideA); Inject SideB wit_forged (SA4 6 6); Deliver SideB 2 (SA4 9 9);
   Deliver SideA 0 (wit_addr SideB); Deliver SideA 7 (wit_addr SideB); Submit SideB (wit_data 5); Inject SideA [1; 2] (SA4 6 6);
   Deliver SideA 1 (wit_addr SideB); Deliver SideB 0 (SA4 9 9)].

Lemma wit_data_routed x i : routed (IN := ref_ipnet) wit_site (fun x => route_peer (wit_site_route x)) x (wit_data i).
Proof.
  exists {| Packet.pkt_bytes := wit_data i |}, 172838914, (wit_site_route x). destruct x; split_and!; done || reflexivity.
Qed.

Lemma wit_event_ok : Forall (event_ok (IN := ref_ipnet) (SN := ref_snow) wit_site (fun x => route_peer (wit_site_route x))) wit_events.
Proof.
  assert (Hf : forged (SN := ref_snow) wit_forged).
  { split; [vm_compute; repeat constructor; discriminate|]. intros t cap. cbn -[ref_tag].
    rewrite bool_decide_false; [done|]. intros E.
    unfold ref_tag in E. set (a := fold_left _ _ _) in E. cbn [replicate] in E. congruence. }
  assert (Hf2 : forged (SN := ref_snow) [1; 2]) by (split; [vm_compute; repeat constructor; discriminate|done]).
  repeat (apply Forall_cons_2; [first [apply wit_data_routed|exact Hf|exact Hf2|reflexivity]|]). apply Forall_nil_2.
Qed.

Lemma unreliable_network_witness :
  exists w1, (run_events (wire_step (IN := ref_ipnet) (RS := ref_resolver) (SN := ref_snow) wit_site wit_times (fun x i _ => wit_times x i))
      wit_events (wire_of w1)).2 =
    [(SideB, wit_data 4); (SideB, wit_data 1); (SideA, wit_data 3); (SideA, wit_data 5)].
Proof.
  destruct (unreliable_network (B64 := ref_base64) (SL := ref_snow_laws) (NK := ref_noise_ik) wit_site wit_addr wit_times (fun x i _ => wit_times x i)
    wit_conf (fun x => route_peer (wit_site_route x)) (fun _ => 0) wit_net wit_packet wit_events wit_matched wit_ready (wit_routed SideA)
    wit_event_ok ltac:(done)) as (w1 & _ & H).
  exists w1. exact (proj1 H).
Defined.
