(* ===== verification/Rekey.v ===== *)
(** * Two engines across rekeys

    [EndToEnd] follows two sites through one session.  Here the sessions grow
    old: the packet that finds its session due is still sent under it, next to
    the initiation of the session that replaces it, so that the tunnel lasts
    for as long as it is used. *)

From S2P Require Import Prelude Net PeerState Auth Replay Noise Sessions SessionInv Std Config Router Engine EndToEnd.
From S2P Require Packet.
Open Scope Z_scope.

(** ** One engine *)

Section OneEngine.
Context {IN : IpNet} {B64 : Base64} {RS : Resolver} {SN : Snow} {SL : SnowLaws SN} {NK : NoiseIK SN}.

(** A session that is used once more does not expire by it. *)
Lemma sent_live k s now : at_work (k + 1) (set_send_counter s (send_counter s + 1)) -> k + 1 < U64_MAX ->
  is_expired s now = false -> is_expired (set_send_counter s (send_counter s + 1)) now = false.
Proof.
  intros [_ H _] Hk. rewrite <- !not_true_iff_false, !is_expired_time. cbn in *. lia.
Qed.

(** The session is due: the message leaves under it, after an initiation. *)
Lemma message_renews e p mt pl k t0 now st remote s f :
  let s' := set_send_counter s (send_counter s + 1) in
  let hid := (fill_bytes (entropy st) SESSION_ID_SIZE).1 in
  serves k t0 st (name p) remote s -> usable_peer_endpoint remote = true ->
  is_expired s now = false -> is_expired s' now = false -> should_rekey s' now = true ->
  encrypt mt pl s = (s', Ok f) -> at_work (k + 1) s' ->
  is_key (local_static e) -> is_key (public_key p) -> is_key (psk p) ->
  (forall q pi, pending_init (manager st) !! q = Some pi -> pi_handshake_id pi <> hid) ->
  exists st' hi r r' m hi',
    build_initiator (local_static e) (public_key p) (psk p) (handshake_prologue hid) = Ok hi /\
    hs_write hi [] MAX_NOISE_MESSAGE_SIZE r = (r', Ok (m, hi')) /\ m <> [] /\
    send_or_initiate e p mt pl now st =
      (st', Ok {| actions := [SendTransport (name p) remote (encode_handshake PacketKind.HandshakeInit hid m);
                              SendTransport (name p) remote f]; events := [] |}) /\
    initiating (manager st') (name p) hid hi' /\ st_ev (manager st) (manager st') /\
    sessions (manager st') !! name p = Some s'.
Proof.
  intros s' hid Hsv Hu Hle Hle' Hdue He Hw Ha Hpk Hps Hne.
  pose proof (serves_encrypt _ _ _ _ _ _ _ _ now _ _ Hsv Hw eq_refl He) as Hsv'.
  set (sm := set_sessions <[name p := s']> (set_previous (retain_live now) (manager st))) in *.
  assert (Hev : st_ev (manager st) sm).
  { eapply st_ev_trans; [apply set_previous_ev, map_ev_retain|]. apply set_sessions_ev.
    eapply map_ev_insert; [exact (sv_active _ _ _ _ _ _ Hsv)|].
    pose proof (encrypt_le mt pl s (aw_wf _ _ (sv_work _ _ _ _ _ _ Hsv))) as H. by rewrite He in H. }
  assert (Hact : sessions sm !! name p = Some s') by exact (sv_active _ _ _ _ _ _ Hsv').
  destruct (initiation_starts (name p) (local_static e) (public_key p) (psk p) now sm (entropy st) Ha Hpk Hps
    (sv_wf _ _ _ _ _ _ Hsv') (sv_pending _ _ _ _ _ _ Hsv') (sv_candidate _ _ _ _ _ _ Hsv')) as (hi & r' & m & hi' & pi & Eb & Ew & Hm & Es & Hin);
    [by unfold get_is; rewrite Hact|by unfold get_is; rewrite Hact, Hdue|done|].
  eexists _, hi, _, r', m, hi'. split; [done|]. split; [done|]. split; [done|]. split; [|split; [|split]].
  - unfold send_or_initiate. rewrite (encrypt_for_peer_live _ _ _ _ _ _ _ _ (sv_active _ _ _ _ _ _ Hsv) Hle He).
    fold sm. unfold initiate_peer, mbind, M_bind, mget, mret, M_ret. rewrite (serves_resolve _ _ _ p _ _ Hsv' Hu).
    cbn [manager set_manager entropy]. rewrite Es. cbn [fmap outcome_fmap option_map map_err option_to_list].
    match goal with |- context [resolve_endpoint p ?x] => change (resolve_endpoint p x) with (resolve_endpoint p (set_manager sm st)) end.
    rewrite (serves_resolve _ _ _ p _ _ Hsv' Hu). reflexivity.
  - exact Hin.
  - eapply st_ev_trans; [exact Hev|]. apply set_pending_ev.
  - exact Hact.
Qed.

(** Sending changes no statistics. *)
Lemma send_or_initiate_stats e p m pl now st : peer_stats (send_or_initiate e p m pl now st).1 = peer_stats st.
Proof.
  unfold send_or_initiate, initiate_peer, call_ok, mbind, M_bind, mget, mret, M_ret.
  repeat (case_match; simplify_eq/=; try done).
Qed.

(** A keepalive that asks for an answer. *)
Definition probing (m : MsgType.t) (payload : bytes) : bool :=
  match m with MsgType.Keepalive => bool_decide (payload = KEEPALIVE_PROBE_PAYLOAD) | MsgType.Data => false end.

(** A message under the active session: data is written, a probe answered
    (with [f]). *)
Definition reaction (peer : string) (source : SocketAddr) (m : MsgType.t) (payload f : bytes) : list EngineAction :=
  match m with
  | MsgType.Data => [WriteIpPacket peer source payload]
  | MsgType.Keepalive => if probing m payload then [SendTransport peer source f] else []
  end.

Lemma active_hears e now clock st peer s n ct s1 m pl s2 f source :
  sm_wf (manager st) -> sessions (manager st) !! peer = Some s -> is_expired s now = false ->
  packet_wf (Transport (session_id s) n ct) -> decrypt (session_id s) n ct s = (s1, Ok (m, pl)) ->
  (m = MsgType.Data -> exists ip, Packet.parse pl = Ok ip) ->
  is_expired s1 now = false -> encrypt MsgType.Keepalive KEEPALIVE_ACK_PAYLOAD s1 = (s2, Ok f) ->
  exists st', process_inbound_transport e (encode_transport (session_id s) n ct) source now clock st =
      (st', Ok {| actions := reaction peer source m pl f; events := [] |}) /\
    sm_wf (manager st') /\ sessions (manager st') !! peer = Some (if probing m pl then s2 else s1) /\
    pending_init (manager st') = pending_init (manager st) /\
    responder_candidates (manager st') = retain_live now (responder_candidates (manager st)) /\
    peer_stats st' !! peer ≫= current_endpoint = Some source /\ seen st' peer = Some (clock 0%nat).
Proof.
  intros Hwf Hs Hl Hp Hd Hip Hl1 He. pose proof Hp as (H1 & H2 & H3).
  pose proof (decrypt_transport_eq (manager st) Active peer s n ct now s1 _ _ Hwf Hs Hl Hd) as E.
  cbv zeta in E. rewrite decide_False in E by done.
  pose proof (decrypt_transport_wf (session_id s) n ct now (manager st) Hwf H2) as Hwf'. rewrite E in Hwf'. cbn [fst] in Hwf'.
  unfold process_inbound_transport. rewrite decode_encode_transport by done.
  unfold process_transport. rewrite (run_call _ _ _ _ _ E). cbn [dt_msg_type dt_peer_name dt_payload dt_promoted].
  rewrite bool_decide_false by done.
  unfold seen. destruct m; cbn [probing reaction].
  - destruct (Hip eq_refl) as [ip Eip]. unfold mmodify, mlift, mbind, M_bind, mret, M_ret. rewrite Eip. cbn [map_err].
    eexists. split; [reflexivity|]. cbn. rewrite !lookup_insert_eq.
    split_and!; [done..|apply record_rx_endpoint|apply record_rx_seen].
  - unfold mmodify. unfold mbind at 1, M_bind at 1. destruct (bool_decide_reflect (pl = KEEPALIVE_PROBE_PAYLOAD)).
    + set (sm := set_slot Active <[peer:=s1]> (prune now (manager st))) in *.
      pose proof (encrypt_for_peer_live peer MsgType.Keepalive KEEPALIVE_ACK_PAYLOAD now sm s1 s2 f
        ltac:(cbn; by rewrite lookup_insert_eq) Hl1 He) as Ef.
      erewrite (run_call _ _ _ _ (Some f)); [|exact Ef].
      pose proof (rest_eq_wf sm (encrypt_for_peer peer MsgType.Keepalive KEEPALIVE_ACK_PAYLOAD now sm).1 Hwf') as H.
      destruct (encrypt_for_peer_ev peer MsgType.Keepalive KEEPALIVE_ACK_PAYLOAD now sm Hwf') as [Hv Hr]. specialize (H Hv Hr). rewrite Ef in H.
      eexists. split; [reflexivity|]. cbn. rewrite !lookup_insert_eq.
      split_and!; [done..|apply record_keepalive_endpoint|apply record_keepalive_seen].
    + eexists. split; [reflexivity|]. cbn. rewrite !lookup_insert_eq.
      split_and!; [done..|apply record_keepalive_endpoint|apply record_keepalive_seen].
Qed.

(** The message reaches an engine that serves its peer. *)
Lemma serving_hears e k t0 now clock st peer remote s n ct s1 m pl s2 f source :
  serves k t0 st peer remote s -> is_expired s now = false ->
  packet_wf (Transport (session_id s) n ct) -> decrypt (session_id s) n ct s = (s1, Ok (m, pl)) ->
  (m = MsgType.Data -> exists ip, Packet.parse pl = Ok ip) ->
  is_expired s1 now = false -> encrypt MsgType.Keepalive KEEPALIVE_ACK_PAYLOAD s1 = (s2, Ok f) ->
  at_work (k + 1) s1 -> at_work (k + 2) s2 -> created_at s1 = created_at s -> created_at s2 = created_at s ->
  exists st', process_inbound_transport e (encode_transport (session_id s) n ct) source now clock st =
      (st', Ok {| actions := reaction peer source m pl f; events := [] |}) /\
    serves (k + 2) t0 st' peer source (if probing m pl then s2 else s1) /\ seen st' peer = Some (clock 0%nat).
Proof.
  intros [Hwf Ha Hcd Hpd _ _ Ht] Hl Hp Hd Hip Hl1 He W1 W2 C1 C2.
  destruct (active_hears e now clock st peer s n ct s1 m pl s2 f source Hwf Ha Hl Hp Hd Hip Hl1 He)
    as (st' & E & Y1 & Y2 & Y3 & Y4 & Y5 & Y6).
  exists st'. split; [done|]. split; [|done].
  split; try done; [by rewrite Y4, retain_live_None|by rewrite Y3|..]; destruct (probing m pl); try done; try lia.
  eapply at_work_le; [exact W1|lia].
Qed.

(** An acknowledgement under the session that was replaced meanwhile. *)
Lemma previous_hears_ack e k t0 now clock st peer remote s o n ct o' source :
  serves k t0 st peer remote s -> is_expired s now = false -> previous_sessions (manager st) !! peer = Some o ->
  is_expired o now = false -> packet_wf (Transport (session_id o) n ct) ->
  decrypt (session_id o) n ct o = (o', Ok (MsgType.Keepalive, KEEPALIVE_ACK_PAYLOAD)) ->
  exists st', process_inbound_transport e (encode_transport (session_id o) n ct) source now clock st = (st', Ok no_output) /\
    serves k t0 st' peer source s /\ seen st' peer = Some (clock 0%nat).
Proof.
  intros [Hwf Ha Hc Hpe Hen Hw Ht] Hl Ho Hlo Hp Hd. pose proof Hp as (H1 & H2 & H3).
  pose proof (decrypt_transport_eq (manager st) Previous peer o n ct now o' _ _ Hwf Ho Hlo Hd) as E.
  cbv zeta in E. rewrite decide_False in E by done.
  pose proof (decrypt_transport_wf (session_id o) n ct now (manager st) Hwf H2) as Hwf'. rewrite E in Hwf'. cbn [fst] in Hwf'.
  unfold process_inbound_transport. rewrite decode_encode_transport by done.
  unfold process_transport. rewrite (run_call _ _ _ _ _ E). cbn [dt_msg_type dt_peer_name dt_payload dt_promoted].
  rewrite bool_decide_false by done. unfold mmodify, mbind, M_bind. rewrite bool_decide_false by done.
  eexists. split; [reflexivity|]. split.
  - split; cbn; try done; [by apply retain_live_Some|by apply retain_live_None|apply record_keepalive_endpoint].
  - apply record_keepalive_seen.
Qed.

(** [session_id_in_use] decides whether an identifier is free. *)
Lemma in_use_unused sid st : session_id_in_use st sid = false -> unused sid st.
Proof.
  unfold session_id_in_use, in_use. intros H k q s Hs Hid.
  assert (Hf : forall m : gmap string Session, m !! q = Some s -> find_session m sid <> None).
  { intros m Hm. unfold find_session. rewrite fmap_None, list_find_None, Forall_forall. intros Hn.
    apply (Hn (q, s)); [|done]. by apply elem_of_map_to_list. }
  apply orb_false_iff in H as [[H1 H2]%orb_false_iff H3].
  destruct k; cbn in Hs; apply Hf in Hs; repeat (case_match; try done).
Qed.
Lemma not_pending hid m : find_pending m hid = None -> forall q pi, m !! q = Some pi -> pi_handshake_id pi <> hid.
Proof.
  unfold find_pending. rewrite fmap_None, list_find_None, Forall_forall. intros H q pi Hq Hid.
  apply (H (q, pi)); [|done]. by apply elem_of_map_to_list.
Qed.
End OneEngine.

(** ** The two sites *)

Section TwoSites.
Context {IN : IpNet} {B64 : Base64} {RS : Resolver} {SN : Snow} {SL : SnowLaws SN} {NK : NoiseIK SN}.
Context (engine : side -> Engine) (addr : side -> SocketAddr).
Context (now : side -> nat -> Instant) (clock : side -> nat -> nat -> Instant).
Context (conf : side -> Config) (peer_at : side -> Peer).

Definition session_is (x : side) (w : Net) (f : Session -> bool) : bool :=
  get_is (sessions (manager (net_state w x))) (name (peer_at x)) f.

(** No session has expired when the packet and its frames are handled. *)
Definition alive (w : Net) : bool :=
  forallb (fun x => forallb (fun i => negb (session_is x w (fun s => is_expired s (now x (i + net_steps w)%nat)))) [0; 1; 2; 3; 4]%nat)
    [SideA; SideB].

(** The packet makes the session of site [x] due for a rekey. *)
Definition due (x : side) (w : Net) : bool :=
  session_is x w (fun s => should_rekey (set_send_counter s (send_counter s + 1)) (now x (net_steps w))).

(** The identifiers that the generators give next, for a handshake that [x]
    starts, are not in use. *)
Definition fresh (x : side) (w : Net) : bool :=
  let mx := manager (net_state w x) in
  let my := manager (net_state w (other x)) in
  let hid := (fill_bytes (entropy (net_state w x)) SESSION_ID_SIZE).1 in
  let sid := (fill_bytes (entropy (net_state w (other x))) SESSION_ID_SIZE).1 in
  match find_pending (pending_init mx) hid with None => true | Some _ => false end
  && negb (get_is (responder_cache my) (name (peer_at (other x))) (fun c => bool_decide (ch_handshake_id c = hid)))
  && negb (session_id_in_use mx sid) && negb (session_id_in_use my sid).

(** The tunnel is used often enough along a run, and the generators do not
    repeat themselves. *)
Fixpoint sustained (ps : list (side * bytes)) (w : Net) : bool :=
  match ps with
  | [] => true
  | (x, p) :: ps =>
      alive w && (negb (due x w) || fresh x w) &&
      match submit engine addr now clock x p w with Some (w, _) => sustained ps w | None => true end
  end.

Lemma alive_live w x s i : alive w = true -> sessions (manager (net_state w x)) !! name (peer_at x) = Some s ->
  (i <= 4)%nat -> is_expired s (now x (i + net_steps w)%nat) = false.
Proof.
  unfold alive. intros H Hs Hi. rewrite forallb_forall in H. specialize (H x ltac:(destruct x; cbn; tauto)).
  rewrite forallb_forall in H. specialize (H i). unfold session_is, get_is in H. rewrite Hs in H.
  apply negb_true_iff, H. cbn. lia.
Qed.

(** A message that fits; data must be a packet. *)
Definition fits (m : MsgType.t) (payload : bytes) : Prop :=
  len payload + 17 <= MAX_NOISE_MESSAGE_SIZE /\ (m = MsgType.Data -> exists ip, Packet.parse payload = Ok ip).

Lemma routed_fits x packet : routed engine peer_at x packet -> fits MsgType.Data packet.
Proof. intros (ip & d & rt & Hip & _ & _ & _ & Hlen). split; [done|]. by exists ip. Qed.

(** What arrives at the interface of site [x]. *)
Definition written (x : side) (m : MsgType.t) (payload : bytes) : list (side * bytes) :=
  match m with MsgType.Data => [(x, payload)] | MsgType.Keepalive => [] end.

(** The acknowledgement [f], when the message asks for it. *)
Definition answer (x : side) (m : MsgType.t) (payload f : bytes) : list (side * bytes) :=
  if probing m payload then [(x, f)] else [].

Lemma reaction_out x peer m pl f :
  packets_out x {| actions := reaction peer (addr (other x)) m pl f; events := [] |} = written x m pl /\
  frames_out addr x {| actions := reaction peer (addr (other x)) m pl f; events := [] |} = answer (other x) m pl f.
Proof.
  unfold packets_out, frames_out, reaction, answer. cbn [actions].
  destruct m; cbn [probing]; [done|]. case_bool_decide; [|done]. cbn. by rewrite bool_decide_true.
Qed.

(** A message and its acknowledgement, as seen from the sessions. *)
Lemma message_and_ack k s r m pl :
  at_work k s -> at_work k r -> linked s r -> linked r s -> k + 1 < U64_MAX -> fits m pl ->
  let s' := set_send_counter s (send_counter s + 1) in
  exists ct r' r2 n ct' s2,
    encrypt m pl s = (s', Ok (encode_transport (session_id s) (send_counter s) ct)) /\
    packet_wf (Transport (session_id r) (send_counter s) ct) /\
    decrypt (session_id r) (send_counter s) ct r = (r', Ok (m, pl)) /\
    encrypt MsgType.Keepalive KEEPALIVE_ACK_PAYLOAD r' = (r2, Ok (encode_transport (session_id s') n ct')) /\
    packet_wf (Transport (session_id s') n ct') /\
    decrypt (session_id s') n ct' s' = (s2, Ok (MsgType.Keepalive, KEEPALIVE_ACK_PAYLOAD)) /\
    (at_work (k + 1) s' /\ at_work (k + 1) r' /\ at_work (k + 2) r2 /\ at_work (k + 2) s2) /\
    (created_at r' = created_at r /\ created_at r2 = created_at r /\ created_at s2 = created_at s) /\
    (linked s' r' /\ linked r' s' /\ linked s2 r2 /\ linked r2 s2).
Proof.
  intros Hs Hr L1 L2 Hk [Hlen _] s'.
  destruct (linked_send k s r m pl Hs Hr L1 L2 ltac:(lia) Hlen) as (ct & r' & He & Hwf & Hd & Hc & Hid & Hs' & Hr' & L1' & L2').
  cbv zeta in *. fold s' in He, Hs', L1', L2'. rewrite <- (lk_id _ _ L1) in Hwf, Hd.
  destruct (linked_send (k + 1) r' s' MsgType.Keepalive KEEPALIVE_ACK_PAYLOAD Hr' Hs' L2' L1' ltac:(lia) ltac:(done))
    as (ct' & s2 & He2 & Hwf2 & Hd2 & Hc2 & Hid2 & Hr2 & Hs2 & L3 & L4).
  cbv zeta in *. rewrite <- (lk_id _ _ L2') in He2, Hwf2, Hd2. rewrite <- Z.add_assoc in Hr2, Hs2.
  eexists ct, r', _, _, ct', s2. by split_and!.
Qed.

(** Sessions that have not expired do not by the messages of one exchange. *)
Lemma live_expired t0 k w s : alive w = true -> established addr peer_at t0 k w s -> k + 2 < U64_MAX ->
  forall z i s' k', (i <= 4)%nat -> created_at s' = created_at (s z) -> k' <= k + 2 -> at_work k' s' ->
  is_expired s' (now z (i + net_steps w)%nat) = false.
Proof.
  intros Ha He Hk z i s' k' Hi Hc Hk' Hw. pose proof (alive_live w z (s z) i Ha (sv_active _ _ _ _ _ _ (proj1 (He z))) Hi) as H.
  revert H. rewrite <- !not_true_iff_false, !is_expired_time, Hc. pose proof (aw_sent _ _ Hw). lia.
Qed.

Lemma established_le t0 k k' w s : established addr peer_at t0 k w s -> k <= k' -> established addr peer_at t0 k' w s.
Proof. intros He Hk z. destruct (He z) as [H ?]. split; [|done]. by eapply serves_le. Qed.

Lemma fresh_gives x w : fresh x w = true ->
  let hid := (fill_bytes (entropy (net_state w x)) SESSION_ID_SIZE).1 in
  let sid := (fill_bytes (entropy (net_state w (other x))) SESSION_ID_SIZE).1 in
  (forall q pi, pending_init (manager (net_state w x)) !! q = Some pi -> pi_handshake_id pi <> hid) /\
  (forall c, responder_cache (manager (net_state w (other x))) !! name (peer_at (other x)) = Some c -> ch_handshake_id c <> hid) /\
  unused sid (manager (net_state w x)) /\ unused sid (manager (net_state w (other x))).
Proof.
  unfold fresh. cbv zeta. rewrite !andb_true_iff, !negb_true_iff. intros [[[H1 H2] H3] H4].
  destruct (find_pending _ _) eqn:Hfp; [done|]. split_and!; [exact (not_pending _ _ Hfp)| |by apply in_use_unused..].
  intros c Hc E. unfold get_is in H2. rewrite Hc in H2. by rewrite bool_decide_true in H2.
Qed.

(** A message whose session needs no rekey. *)
Lemma live_message_crosses t0 k w s x m pl :
  configured engine addr conf peer_at -> established addr peer_at t0 k w s -> k + 2 < U64_MAX -> fits m pl ->
  alive w = true -> due x w = false ->
  exists w' s', emit engine addr now clock x (peer_at x) m pl w = Some (w', written (other x) m pl) /\
    established addr peer_at t0 (k + 2) w' s' /\ (forall z, created_at (s' z) = created_at (s z)) /\
    seen (net_state w' (other x)) (name (peer_at (other x))) = Some (clock (other x) (S (net_steps w)) 0%nat) /\
    seen (net_state w' x) (name (peer_at x)) =
      if probing m pl then Some (clock x (S (S (net_steps w))) 0%nat) else seen (net_state w x) (name (peer_at x)).
Proof.
  intros Hm He Hk Hfit Hal Hdue.
  destruct (He x) as [Hsx Hkx]. destruct (He (other x)) as [Hsy Hky]. rewrite other_other in Hsy, Hky.
  pose proof (sv_active _ _ _ _ _ _ Hsx) as Hax. pose proof (sv_active _ _ _ _ _ _ Hsy) as Hay.
  unfold due, session_is, get_is in Hdue. rewrite Hax in Hdue.
  destruct (message_and_ack k (s x) (s (other x)) m pl (sv_work _ _ _ _ _ _ Hsx) (sv_work _ _ _ _ _ _ Hsy) Hkx Hky ltac:(lia) Hfit)
    as (ct & r' & r2 & n' & ct' & s2 & E1 & Hwf & Hd & E2 & Hwf2 & Hd2 & (W1 & W2 & W3 & W4) & (C1 & C2 & C3) & (L1 & L2 & L3 & L4)).
  set (s1 := set_send_counter (s x) (send_counter (s x) + 1)) in *. set (n := net_steps w) in *.
  destruct (peer_sends (engine x) (peer_at x) m pl k (t0 x) (now x n) (net_state w x) (addr (other x)) (s x) s1 _
    Hsx (mt_addr _ _ _ _ Hm _) (alive_live w x (s x) 0 Hal Hax ltac:(lia)) Hdue E1 W1 eq_refl) as (st1 & A1 & Sx).
  pose proof (send_or_initiate_stats (engine x) (peer_at x) m pl (now x n) (net_state w x)) as Hst. rewrite A1 in Hst. cbn [fst] in Hst.
  pose proof (live_expired t0 k w s Hal He Hk) as Hexp. fold n in Hexp.
  destruct (serving_hears (engine (other x)) k (t0 (other x)) (now (other x) (S n)) (clock (other x) (S n)) (net_state w (other x)) _ _
    (s (other x)) (send_counter (s x)) ct r' m pl r2 _ (addr x) Hsy (alive_live w (other x) _ 1 Hal Hay ltac:(lia)) Hwf Hd (proj2 Hfit)
    (Hexp (other x) 1%nat r' (k + 1) ltac:(lia) C1 ltac:(lia) W2) E2 W2 W3 C1 C2) as (st2 & A2 & Sy & Y6).
  rewrite <- (lk_id _ _ Hkx) in A1.
  set (w1 := next x st1 w). set (w2 := next (other x) st2 w1).
  destruct (reaction_out (other x) (name (peer_at (other x))) m pl (encode_transport (session_id s1) n' ct')) as [O1 O2]. rewrite other_other in O1, O2.
  assert (Hrun : emit engine addr now clock x (peer_at x) m pl w =
    ('(w', got) ← carry engine addr now clock 5 (answer x m pl (encode_transport (session_id s1) n' ct')) w2; Some (w', written (other x) m pl ++ got))).
  { unfold emit. fold n. rewrite A1. cbn [output_of frames_out actions flat_map]. rewrite bool_decide_true by done. cbn [app].
    fold w1. rewrite carry_cons. unfold arrive at 1. change (net_steps w1) with (S n). unfold w1 at 1. rewrite next_other, other_other, A2.
    fold w2. cbn [output_of]. by rewrite O1, O2. }
  rewrite Hrun. unfold answer in *. destruct (probing m pl) eqn:Hprobe.
  - destruct (serving_hears_ack (engine x) (k + 1) (t0 x) (now x (S (S n))) (clock x (S (S n))) st1 _ _ (addr (other x)) s1 s2 n' ct' _ Sx
      (Hexp x 2%nat s1 (k + 1) ltac:(lia) eq_refl ltac:(lia) W1) Hwf2
      ltac:(rewrite <- Z.add_assoc; exact W4) C3 Hd2 ltac:(done)) as (st3 & A3 & Sx3 & N3).
    rewrite <- Z.add_assoc in Sx3. exists (next x st3 w2), (pick x s2 r2). split; [|split; [|split; [|split]]].
    + rewrite carry_cons. unfold arrive. change (net_steps w2) with (S (S n)). unfold w2 at 1. rewrite next_back. unfold w1 at 1. rewrite next_same, A3.
      cbn. by rewrite app_nil_r.
    + apply established_pick; [by rewrite next_same|rewrite next_other; unfold w2; by rewrite next_same|done..].
    + apply (both_sides _ x); [by rewrite pick_same|by rewrite pick_other].
    + rewrite next_other. unfold w2. by rewrite next_same.
    + by rewrite next_same.
  - exists w2, (pick x s1 r'). split; [|split; [|split; [|split]]].
    + cbn. by rewrite app_nil_r.
    + apply established_pick; [|unfold w2; by rewrite next_same|done..]. unfold w2, w1. rewrite next_back, next_same.
      by apply (serves_le (k + 1)); [|lia].
    + apply (both_sides _ x); [by rewrite pick_same|by rewrite pick_other].
    + unfold w2. by rewrite next_same.
    + unfold w2. rewrite next_back. unfold w1. rewrite next_same. unfold seen. by rewrite Hst.
Qed.

(** The answer [m2] to the initiation [hid] of site [x] is on its way: the
    other site holds the session it announces as a candidate since [wall]. *)
Definition answered (x : side) (hid m2 : bytes) (wall : Instant) (w : Net) : Prop :=
  exists hi' sid hi2 ti tr,
    (initiating (manager (net_state w x)) (name (peer_at x)) hid hi' /\ length hid = SESSION_ID_SIZE) /\
    (unused sid (manager (net_state w x)) /\ length sid = SESSION_ID_SIZE) /\
    (m2 <> [] /\ hs_read hi' m2 (len sid + AEAD_TAG_SIZE) = Ok (sid, hi2) /\ into_stateless hi2 = Ok ti) /\
    (paired ti tr /\ paired tr ti) /\
    sm_wf (manager (net_state w (other x))) /\
    responder_candidates (manager (net_state w (other x))) !! name (peer_at (other x)) = Some (Session_new sid tr wall).

(** Behind it, maybe, the acknowledgement of a message under the session that
    is about to be replaced. *)
Definition overheard (x : side) (late : list (side * bytes)) (w : Net) : Prop :=
  late = [] \/ exists o n ct o', late = [(x, encode_transport (session_id o) n ct)] /\
    sessions (manager (net_state w x)) !! name (peer_at x) = Some o /\ packet_wf (Transport (session_id o) n ct) /\
    decrypt (session_id o) n ct o = (o', Ok (MsgType.Keepalive, KEEPALIVE_ACK_PAYLOAD)) /\
    is_expired o (now x (S (net_steps w))) = false.

Lemma exchange_completes t0 x hid m2 wall late w :
  let n := net_steps w in
  answered x hid m2 wall w -> overheard x late w -> brisk now clock -> t0 x <= clock x n 0%nat -> t0 (other x) <= wall ->
  now (other x) (S n) < wall + REJECT_AFTER_TIME -> now (other x) (S (S n)) < wall + REJECT_AFTER_TIME ->
  exists w' s, carry engine addr now clock 4 ((x, encode_handshake PacketKind.HandshakeResponse hid m2) :: late) w = Some (w', []) /\
    established addr peer_at t0 2 w' s /\ (created_at (s x) = clock x n 0%nat /\ created_at (s (other x)) = wall) /\
    heard clock peer_at w'.
Proof.
  intros n (hi' & sid & hi2 & ti & tr & [Hin Hhid] & [Hun Hsid] & (Hm2 & Er2 & Eti) & [Hpair Hpair'] & Hwf & Hcand) Hlate Hbr Ht Ht' Hy1 Hy2.
  assert (Hx : forall i, (i <= 5)%nat -> now x (i + n)%nat < clock x n 0%nat + REJECT_AFTER_TIME) by (intros; apply Hbr; lia).
  destruct Hlate as [->|(o & n' & ct & o' & -> & Ho & Hpo & Hdo & Hlo)].
  { by eapply (handshake_completes engine addr now clock peer_at t0 1); try done; apply (Hx 2%nat); lia. }
  pose proof (fun st st' => confirmation_crosses engine addr now clock peer_at t0 0 (next x st' (next x st w)) x sid ti tr (clock x n 0%nat) wall
    Hsid Hpair Hpair' Ht Ht') as Hc.
  setoid_rewrite next_other in Hc. setoid_rewrite next_other in Hc.
  specialize (fun st st' => Hc st st' Hwf Hcand Hy2 (Hx 3%nat ltac:(lia))).
  destruct (Hc (net_state w x) (net_state w x)) as (sa1 & f & Ee & Wa1 & Ca1 & _).
  destruct (engine_finalizes (engine x) (name (peer_at x)) hid hi' m2 sid hi2 ti (addr (other x))
    (now x n) (clock x n) (t0 x) (net_state w x) Hin Hhid Hm2 Hsid Er2 Eti Hun Ht sa1 _ Ee Wa1 Ca1) as (st3 & E3 & S3 & Hprev).
  destruct (previous_hears_ack (engine x) 1 (t0 x) (now x (S n)) (clock x (S n)) st3 _ _ sa1 o n' ct o' (addr (other x)) S3) as (st4 & E4 & S4 & _);
    [eapply young_session; [exact Wa1|done|rewrite Ca1; apply (Hx 1%nat); lia]|by apply Hprev|done|done|done|].
  destruct (Hc st3 st4) as (sa1' & f' & Ee' & _ & _ & H). rewrite Ee in Ee'. injection Ee' as <- <-.
  rewrite next_same in H. destruct (H S4) as (w' & s & E & He). exists w', s. split; [|exact He].
  rewrite carry_cons. unfold arrive at 1. fold n. rewrite E3.
  cbn [output_of frames_out packets_out actions flat_map]. rewrite !bool_decide_true by done. cbn [app].
  rewrite carry_cons. unfold arrive at 1. change (net_steps (next x st3 w)) with (S n). rewrite next_same, E4.
  cbn [output_of frames_out packets_out actions no_output flat_map app]. cbn [Nat.add] in E. by rewrite E.
Qed.

(** A message that finds its session due arrives, and so does the initiation
    that leaves with it. *)
Lemma due_message_answered t0 k w s x m pl :
  configured engine addr conf peer_at -> brisk now clock -> established addr peer_at t0 k w s -> k + 2 < U64_MAX ->
  fits m pl -> alive w = true -> due x w = true -> fresh x w = true ->
  exists w3 hid m2 late, net_steps w3 = (3 + net_steps w)%nat /\
    answered x hid m2 (clock (other x) (S (net_steps w)) 0%nat) w3 /\ overheard x late w3 /\
    emit engine addr now clock x (peer_at x) m pl w =
      ('(w', out) ← carry engine addr now clock 4 ((x, encode_handshake PacketKind.HandshakeResponse hid m2) :: late) w3;
       Some (w', written (other x) m pl ++ out)).
Proof.
  intros Hm Hbr He Hk Hfit Hal Hdue Hfr.
  destruct (He x) as [Hsx Hkx]. destruct (He (other x)) as [Hsy Hky]. rewrite other_other in Hsy, Hky.
  pose proof (sv_active _ _ _ _ _ _ Hsx) as Hax. pose proof (sv_active _ _ _ _ _ _ Hsy) as Hay.
  unfold due, session_is, get_is in Hdue. rewrite Hax in Hdue.
  destruct (fresh_gives x w Hfr) as (Hpend & Hcache & Hux & Huy).
  destruct (message_and_ack k (s x) (s (other x)) m pl (sv_work _ _ _ _ _ _ Hsx) (sv_work _ _ _ _ _ _ Hsy) Hkx Hky ltac:(lia) Hfit)
    as (ct & r' & r2 & n' & ct' & s2 & E1 & Hwf & Hd & E2 & Hwf2 & Hd2 & (W1 & W2 & W3 & W4) & (C1 & C2 & C3) & _).
  set (s1 := set_send_counter (s x) (send_counter (s x) + 1)) in *. set (n := net_steps w) in *.
  pose proof (live_expired t0 k w s Hal He ltac:(lia)) as Hexp. fold n in Hexp.
  destruct (matched_keys engine addr conf peer_at x Hm) as (Ka & Kpa & Ksa).
  destruct (message_renews (engine x) (peer_at x) m pl k (t0 x) (now x n) (net_state w x) (addr (other x)) (s x) _
    Hsx (mt_addr _ _ _ _ Hm _) (alive_live w x _ 0 Hal Hax ltac:(lia)) (Hexp x 0%nat s1 (k + 1) ltac:(lia) eq_refl ltac:(lia) W1)
    Hdue E1 W1 Ka Kpa Ksa Hpend)
    as (st1 & hi & r0 & r0' & hm & hi' & Ebi & Ew & Hm1 & A1 & Hin1 & Hev1 & Hact1).
  set (hid := (fill_bytes (entropy (net_state w x)) SESSION_ID_SIZE).1) in *.
  set (sid := (fill_bytes (entropy (net_state w (other x))) SESSION_ID_SIZE).1) in *.
  assert (Hhid : length hid = SESSION_ID_SIZE) by apply fill_bytes_length.
  assert (Hsid : length sid = SESSION_ID_SIZE) by apply fill_bytes_length.
  destruct (site_answers engine addr conf peer_at x hid hi r0 r0' hm hi' (net_state w (other x)) (now (other x) (S n)) (clock (other x) (S n))
    Hm Ebi Ew Hm1 Hhid (sv_wf _ _ _ _ _ _ Hsy) (sv_pending _ _ _ _ _ _ Hsy) Huy Hcache)
    as (sty & m2 & hi2 & ti & tr & Hm2 & A2 & Er2 & Eti & Hpair & Hpair' & Hwfy & Hcand & Hsess).
  fold sid in Er2. change ((fill_bytes (entropy (net_state w (other x))) SESSION_ID_SIZE).1) with sid in Hcand.
  destruct (active_hears (engine (other x)) (now (other x) (S (S n))) (clock (other x) (S (S n))) sty (name (peer_at (other x)))
    (s (other x)) (send_counter (s x)) ct r' m pl r2 _ (addr x) Hwfy ltac:(by rewrite Hsess)
    (alive_live w (other x) _ 2 Hal Hay ltac:(lia)) Hwf Hd (proj2 Hfit)
    (Hexp (other x) 2%nat r' (k + 1) ltac:(lia) C1 ltac:(lia) W2) E2) as (sty' & A3 & Hwfy' & _ & _ & Hcand' & _).
  rewrite <- (lk_id _ _ Hkx) in A1.
  set (w1 := next x st1 w). set (w2 := next (other x) sty w1). set (w3 := next (other x) sty' w2).
  exists w3, hid, m2, (answer x m pl (encode_transport (session_id s1) n' ct')). split_and!; [done| | |].
  - exists hi', sid, hi2, ti, tr. unfold w3, w2, w1. rewrite !next_same, !next_back, next_same.
    split_and!; try done; [exact (unused_ev _ _ _ Hux Hev1)|]. rewrite Hcand'. apply retain_live_Some. split; [done|].
    eapply (young_session 0); [by apply at_work_new|done|]. apply Hbr. lia.
  - unfold overheard, answer. destruct (probing m pl); [right|by left]. exists s1, n', ct', s2.
    change (net_steps w3) with (S (S (S n))). unfold w3, w2, w1. rewrite !next_back, next_same.
    split_and!; try done. exact (Hexp x 4%nat s1 (k + 1) ltac:(lia) eq_refl ltac:(lia) W1).
  - destruct (reaction_out (other x) (name (peer_at (other x))) m pl (encode_transport (session_id s1) n' ct')) as [O1 O2]. rewrite other_other in O1, O2.
    unfold emit. fold n. rewrite A1. cbn [output_of frames_out actions flat_map]. rewrite !bool_decide_true by done. cbn [app].
    fold w1. rewrite carry_cons. unfold arrive at 1. change (net_steps w1) with (S n). unfold w1 at 1. rewrite next_other, other_other, A2.
    fold w2. cbn [output_of frames_out packets_out actions flat_map]. rewrite other_other, bool_decide_true by done. cbn [app].
    rewrite carry_cons. unfold arrive at 1. change (net_steps w2) with (S (S n)). unfold w2 at 1. rewrite next_same, other_other, A3.
    fold w3. cbn [output_of app]. rewrite O1, O2. by destruct (carry _ _ _ _ _ _ _) as [[]|].
Qed.

(** The two sites go on with a new session. *)
Lemma due_message_crosses t0 k w s x m pl :
  configured engine addr conf peer_at -> brisk now clock -> established addr peer_at t0 k w s -> k + 2 < U64_MAX ->
  fits m pl -> alive w = true -> due x w = true -> fresh x w = true ->
  exists w' s', emit engine addr now clock x (peer_at x) m pl w = Some (w', written (other x) m pl) /\
    established addr peer_at (fun z => created_at (s' z)) 2 w' s' /\
    (forall z, exists i j, created_at (s' z) = clock z i j) /\ heard clock peer_at w'.
Proof.
  intros Hm Hbr He Hk Hfit Hal Hdue Hfr.
  destruct (due_message_answered t0 k w s x m pl Hm Hbr He Hk Hfit Hal Hdue Hfr) as (w3 & hid & m2 & late & Hn & Ha & Hl & E).
  set (wall := clock (other x) (S (net_steps w)) 0%nat) in *.
  set (t1 := fun z => if decide (z = x) then clock x (net_steps w3) 0%nat else wall).
  assert (Ht1 : t1 x = clock x (net_steps w3) 0%nat) by (unfold t1; by rewrite decide_True).
  assert (Ht1' : t1 (other x) = wall) by (unfold t1; rewrite decide_False; [done|apply other_ne]).
  destruct (exchange_completes t1 x hid m2 wall late w3 Ha Hl Hbr) as (w' & s' & E' & He' & [Cx Cy] & Hh);
    [by rewrite Ht1|by rewrite Ht1'|apply Hbr; lia|apply Hbr; lia|].
  exists w', s'. split; [|split; [|split]].
  - rewrite E, E'. cbn. by rewrite app_nil_r.
  - intros z. destruct (He' z) as [[? ? ? ? ? ? _] ?]. by split.
  - apply (both_sides _ x); eauto.
  - exact Hh.
Qed.

(** A message, whether its session is due or not. *)
Lemma message_crosses t0 k w s x m pl :
  configured engine addr conf peer_at -> brisk now clock -> established addr peer_at t0 k w s -> 0 <= k -> k + 2 < U64_MAX ->
  fits m pl -> alive w = true -> negb (due x w) || fresh x w = true ->
  exists w' s' t1, emit engine addr now clock x (peer_at x) m pl w = Some (w', written (other x) m pl) /\
    established addr peer_at t1 (k + 2) w' s'.
Proof.
  intros Hm Hbr He Hk0 Hk Hfit Hal Hfr. destruct (due x w) eqn:Hdue.
  - destruct (due_message_crosses t0 k w s x m pl Hm Hbr He Hk Hfit Hal Hdue Hfr) as (w' & s' & E & He' & _).
    eexists w', s', _. split; [done|]. apply (established_le _ 2); [exact He'|lia].
  - destruct (live_message_crosses t0 k w s x m pl Hm He Hk Hfit Hal Hdue) as (w' & s' & E & He' & _). by exists w', s', t0.
Qed.

(** Every packet arrives; some of them renew the session. *)
Lemma sustained_crosses ps : forall t0 k w s,
  configured engine addr conf peer_at -> brisk now clock -> established addr peer_at t0 k w s -> 0 <= k -> k + 2 * len ps < U64_MAX ->
  Forall (fun '(x, p) => routed engine peer_at x p) ps -> sustained ps w = true ->
  exists w', traffic engine addr now clock ps w = Some (w', (fun '(x, p) => (other x, p)) <$> ps).
Proof.
  induction ps as [|[x p] ps IH]; intros t0 k w s Hm Hbr He Hk0 Hk Hps Hsus; [by exists w|].
  inversion Hps as [|? ? Hx Hps']; subst. rewrite len_cons in *. pose proof (len_nonneg ps) as Hn.
  cbn [sustained traffic] in *. apply andb_prop in Hsus as [[Hal Hfr]%andb_prop Hsus].
  destruct (message_crosses t0 k w s x MsgType.Data p Hm Hbr He Hk0 ltac:(lia) (routed_fits x p Hx) Hal Hfr) as (w1 & s1 & t1 & E & He1).
  rewrite (submit_message engine addr now clock peer_at w x p Hx) in Hsus |- *. rewrite E in Hsus |- *. cbn [mbind option_bind].
  destruct (IH t1 (k + 2) w1 s1 Hm Hbr He1 ltac:(lia) ltac:(lia) Hps' Hsus) as (w' & ->). cbn [mbind option_bind]. by exists w'.
Qed.

(** The tunnel outlives its sessions.  Two sites whose validated
    configurations name each other stay connected for as long as they are
    used before a session expires: of all the packets after the first, from
    either site and across any number of rekeys, each is written at the other
    site, unchanged, once and in order; the packet that finds its session due
    is sent under it and is not lost to the handshake it starts. *)
Theorem tunnel_outlives_sessions w first ps :
  configured engine addr conf peer_at -> brisk now clock -> ready addr peer_at w -> routed engine peer_at SideA first ->
  Forall (fun '(x, p) => routed engine peer_at x p) ps -> 2 + 2 * len ps < U64_MAX ->
  exists w1, submit engine addr now clock SideA first w = Some (w1, []) /\
    (sustained ps w1 = true -> exists w', traffic engine addr now clock ps w1 = Some (w', (fun '(x, p) => (other x, p)) <$> ps)).
Proof.
  intros Hm Hbr Hr Hf Hps Hk.
  destruct (connects_at engine addr now clock conf peer_at
    (fun x => match x with SideA => clock SideA (2 + net_steps w)%nat 0%nat | SideB => clock SideB (1 + net_steps w)%nat 0%nat end)
    w first Hm Hbr Hr Hf ltac:(done) ltac:(done)) as (w1 & s & E & He).
  exists w1. split; [done|]. intros Hsus. by eapply sustained_crosses.
Qed.
End TwoSites.

(** ** Witness: two rekeys, one by each site *)

Definition wit_late (_ : side) (i : nat) : Instant := from_secs (if (i <? 7)%nat then 0 else if (i <? 15)%nat then 130 else 260).
Definition wit_rekeys : list (side * bytes) :=
  [(SideA, wit_packet); (SideA, wit_packet); (SideB, wit_packet); (SideB, wit_packet); (SideA, wit_packet)].

Lemma wit_brisk : brisk wit_late (fun x i _ => wit_late x i).
Proof.
  intros x i j l H. unfold wit_late, REJECT_AFTER_TIME, from_secs.
  destruct (Nat.ltb_spec i 7), (Nat.ltb_spec l 7), (Nat.ltb_spec i 15), (Nat.ltb_spec l 15); lia.
Qed.

(** The network after the first packet. *)
Definition wit_connected : Net (SN := ref_snow) :=
  match submit (IN := ref_ipnet) (RS := ref_resolver) (SN := ref_snow) wit_site wit_addr wit_late (fun x i _ => wit_late x i) SideA wit_packet wit_net with
  | Some (w, _) => w | None => wit_net end.

Lemma wit_sustained : sustained (IN := ref_ipnet) (RS := ref_resolver) (SN := ref_snow) wit_site wit_addr wit_late (fun x i _ => wit_late x i)
  (fun x => route_peer (wit_site_route x)) wit_rekeys wit_connected = true.
Proof. vm_compute. reflexivity. Qed.

(** Both rekeys happen: the sessions that are left are the third ones. *)
Example wit_third_session :
  match traffic (IN := ref_ipnet) (RS := ref_resolver) (SN := ref_snow) wit_site wit_addr wit_late (fun x i _ => wit_late x i) wit_rekeys wit_connected with
  | Some (w, _) => forallb (fun x => session_is (IN := ref_ipnet) (fun x => route_peer (wit_site_route x)) x w
                                      (fun s => created_at s =? from_secs 260)) [SideA; SideB]
  | None => false
  end = true.
Proof. vm_compute. reflexivity. Qed.

Lemma tunnel_outlives_sessions_witness :
  exists w', traffic (IN := ref_ipnet) (RS := ref_resolver) (SN := ref_snow) wit_site wit_addr wit_late (fun x i _ => wit_late x i) wit_rekeys wit_connected =
    Some (w', [(SideB, wit_packet); (SideB, wit_packet); (SideA, wit_packet); (SideA, wit_packet); (SideB, wit_packet)]).
Proof.
  destruct (tunnel_outlives_sessions (B64 := ref_base64) (SL := ref_snow_laws) (NK := ref_noise_ik) wit_site wit_addr wit_late (fun x i _ => wit_late x i)
    wit_conf (fun x => route_peer (wit_site_route x)) wit_net wit_packet wit_rekeys wit_configured wit_brisk wit_ready (wit_routed SideA)
    ltac:(repeat (apply Forall_cons_2; [apply wit_routed|]); apply Forall_nil_2) ltac:(done)) as (w1 & E & H).
  assert (wit_connected = w1) as E1 by (unfold wit_connected; by rewrite E).
  rewrite E1. apply H. rewrite <- E1. exact wit_sustained.
Defined.
