(* ===== verification/Upkeep.v ===== *)
(** * A maintained tunnel stays up

    [Rekey] carries a tunnel across its rekeys as long as it is used in time.
    Here it is the maintenance of one site that uses it: with keepalives
    configured and a tick run regularly, no session expires and no recovery
    is started, whatever the two sites send. *)

From S2P Require Import Prelude Net PeerState Auth Replay Noise Sessions SessionInv Std Config Router Engine Scheduler EndToEnd Rekey.
From S2P Require Packet.
Open Scope Z_scope.

(** ** One tick *)

Section OneTick.
Context {IN : IpNet} {B64 : Base64} {RS : Resolver} {SN : Snow} {SL : SnowLaws SN}.

(** A keepalive is a message to the peer of that name. *)
Lemma keepalive_message e p payload now st : find_peer e (name p) = Some p ->
  create_keepalive e (name p) payload now st = send_or_initiate e p MsgType.Keepalive payload now st.
Proof. intros H. unfold create_keepalive, mlift. unfold mbind, M_bind. by rewrite H. Qed.

(** No recovery is due: the peer was heard within the timeout. *)
Definition recently (now : Instant) (p : ScheduledPeer) (st : EngineState) : Prop :=
  forall policy, sp_recovery p = Some policy -> 0 < timeout policy /\ exists v, seen st (sp_name p) = Some v /\ now - v < timeout policy.

Lemma recovery_quiet e now rebind clock i p t s st : last_sent s !! sp_name p = None \/ recently now p st ->
  recovery_loop e now rebind clock (peer_stats_of st) i [p] t s st = (st, Ok (s, t, false)).
Proof.
  intros H. cbn [recovery_loop]. destruct (sp_recovery p) as [policy|] eqn:Ep; [|done].
  destruct H as [H|H]; [by rewrite bool_decide_true|].
  destruct (_ || _); [done|]. destruct (H policy Ep) as (Hpos & v & Hv & Hlt).
  unfold seen in Hv. unfold peer_stats_of, snapshot. rewrite Hv.
  replace (recovery_due now v _ (timeout policy)) with false; [done|]. symmetry.
  unfold recovery_due, saturating_duration_since. rewrite Z.geb_leb, Z.leb_gt.
  destruct (if rebind_udp policy then _ else _) as [a|]; cbn; lia.
Qed.

(** What the tick of a scheduler with one peer does when nothing is pending
    and no recovery is due: a keepalive, if it is time for one. *)
Lemma tick_one e now rebind clock2 clock3 p s st :
  sched_peers s = [p] -> has_pending_handshake (sp_name p) st = false ->
  last_sent s !! sp_name p = None \/ recently now p st ->
  tick e now rebind clock2 clock3 s st =
    let last := last_sent s !! sp_name p in
    if keepalive_should_send now last (sp_persistent_keepalive p) (probes p) false then
      let '(st', r) := create_keepalive e (sp_name p) (keepalive_payload p) now st in
      match push_engine_output tick_default (sp_name p) KeepaliveOp r with
      | Ok t => (st', Ok (if engine_has_active_session (sp_name p) (clock3 0%nat) st || negb (probes p)
                          then set_last_sent <[sp_name p := now]> s else s, t))
      | Err x => (st', Err x)
      | Panic => (st', Panic)
      end
    else (st, Ok (if negb (sp_persistent_keepalive p =? 0)
                  then set_last_sent (fun m => match m !! sp_name p with Some _ => m | None => <[sp_name p := now]> m end) s
                  else s, tick_default)).
Proof.
  intros Hp Hpend Hrec. unfold tick. rewrite Hp. cbn [retry_loop]. unfold mget. unfold mbind, M_bind. rewrite Hpend. cbn [negb].
  unfold mret, M_ret. rewrite (recovery_quiet _ _ _ _ _ _ _ _ _ Hrec). rewrite Hp. cbn [keepalive_loop].
  fold (probes p). fold (keepalive_payload p). cbv zeta.
  destruct (keepalive_should_send _ _ _ _ _); cbn [negb]; [|done].
  unfold mbind, M_bind, engine_push. destruct (create_keepalive e (sp_name p) (keepalive_payload p) now st) as [st' r].
  by destruct (push_engine_output _ _ _ _).
Qed.
End OneTick.

(** ** Two sites, their schedulers and a schedule *)

Section Sites.
Context {IN : IpNet} {B64 : Base64} {RS : Resolver} {SN : Snow} {SL : SnowLaws SN} {NK : NoiseIK SN}.
Context (engine : side -> Engine) (addr : side -> SocketAddr) (conf : side -> Config) (peer_at : side -> Peer).
(** The one peer that the configuration of a site lists. *)
Context (entry_of : side -> PeerConfig).
(** What a socket that is rebound would answer: it is never asked. *)
Context (rebind : side -> string -> Duration -> bool).

Definition sp (x : side) : ScheduledPeer := scheduled_peer (if_transport (interface (conf x))) (entry_of x).

(** [recoveries] are the events the ticks have reported. *)
Record World := { net : Net; sched : side -> EngineScheduler; recoveries : list SchedulerEvent }.

(** What a site does: its interface hands over a packet, or its maintenance
    thread runs. *)
Inductive use := Send (packet : bytes) | Tick.

(** An entry of the schedule, with the readings of the clocks while it and
    the frames it causes are handled. *)
Record item := {
  it_site : side;
  it_use : use;
  it_at : Instant;
  it_now : side -> nat -> Instant;
  it_clock : side -> nat -> nat -> Instant;
  it_recovery_clock : nat -> Instant;
  it_keepalive_clock : nat -> Instant }.

Definition set_sched (x : side) (s : EngineScheduler) (w : World) : World :=
  {| net := net w; sched := fun y => if decide (y = x) then s else sched w y; recoveries := recoveries w |}.
Definition set_net (n : Net) (w : World) : World := {| net := n; sched := sched w; recoveries := recoveries w |}.
Definition report (es : list SchedulerEvent) (w : World) : World :=
  {| net := net w; sched := sched w; recoveries := es ++ recoveries w |}.

(** A tick of site [x]: what it hands to the transport travels. *)
Definition tick_site (i : item) (w : World) : option (World * list (side * bytes)) :=
  let x := it_site i in
  let '(st, r) := tick (engine x) (it_now i x (net_steps (net w))) (rebind x) (it_recovery_clock i) (it_keepalive_clock i)
                    (sched w x) (net_state (net w) x) in
  match r with
  | Ok (s, t) =>
      '(n, got) ← carry engine addr (it_now i) (it_clock i) 6
                    (flat_map (fun o => frames_out addr x (so_output o)) (t_outputs t)) (next x st (net w));
      Some (set_sched x s (report (t_events t) (set_net n w)), got)
  | _ => None
  end.

Definition run_item (i : item) (w : World) : option (World * list (side * bytes)) :=
  match it_use i with
  | Send packet =>
      '(n, got) ← submit engine addr (it_now i) (it_clock i) (it_site i) packet (net w); Some (set_net n w, got)
  | Tick => tick_site i w
  end.

Fixpoint run (l : list item) (w : World) : option (World * list (side * bytes)) :=
  match l with
  | [] => Some (w, [])
  | i :: l => '(w, got) ← run_item i w; '(w, more) ← run l w; Some (w, got ++ more)
  end.

(** What should be written, and where. *)
Definition arrivals (l : list item) : list (side * bytes) :=
  flat_map (fun i => match it_use i with Send packet => [(other (it_site i), packet)] | Tick => [] end) l.

(** *** Time

    [off x] is the origin of the clock of site [x]; the frames of an entry at
    [a] are handled until [a + L]; site A runs its maintenance at least every
    [D]. *)
Context (off : side -> Instant) (L D : Duration).

Definition reading (x : side) (a t : Instant) : Prop := off x + a <= t <= off x + a + L.

Record on_time (i : item) : Prop := {
  ot_now : forall x n, reading x (it_at i) (it_now i x n);
  ot_clock : forall x n j, reading x (it_at i) (it_clock i x n j);
  ot_check : forall j, reading (it_site i) (it_at i) (it_keepalive_clock i j) }.

(** Site A ticks at this entry. *)
Definition upkeep (i : item) : bool := bool_decide (it_site i = SideA) && match it_use i with Tick => true | Send _ => false end.

(** Entries in order, after [a]; [u] is when site A last ran its maintenance. *)
Fixpoint scheduled (u a : Instant) (l : list item) : Prop :=
  match l with
  | [] => True
  | i :: l =>
      on_time i /\ a <= it_at i <= u + D /\
      match it_use i with Send packet => routed engine peer_at (it_site i) packet | Tick => True end /\
      scheduled (if upkeep i then it_at i else u) (it_at i) l
  end.

Fixpoint last_upkeep (u : Instant) (l : list item) : Instant :=
  match l with [] => u | i :: l => last_upkeep (if upkeep i then it_at i else u) l end.

(** The generators do not repeat themselves along the run. *)
Fixpoint unrepeated (l : list item) (w : World) : bool :=
  match l with
  | [] => true
  | i :: l => fresh peer_at (it_site i) (net w) && match run_item i w with Some (w, _) => unrepeated l w | None => true end
  end.

(** The keepalives of site A leave room before a session is 180 seconds old,
    and no site gives its peer up before it must have heard a keepalive. *)
Record maintained : Prop := {
  mn_sites : configured engine addr conf peer_at;
  mn_peer : forall x, peer (conf x) = [entry_of x];
  mn_room : 0 <= L /\ 0 <= D /\ 0 < sp_persistent_keepalive (sp SideA) /\
    sp_persistent_keepalive (sp SideA) + D + 3 * L <= from_secs 60;
  mn_timeout : forall x policy, sp_recovery (sp x) = Some policy ->
    sp_persistent_keepalive (sp SideA) + 2 * D + 2 * L <= timeout policy }.

(** *** What a maintained tunnel keeps

    At [a] the last entry was handled; site A ticked last at [u] and sent
    its last keepalive, if any, at about [b]; the session was made at about
    [c], and the other site was last sure to be heard at about [h]. *)
Record kept_at (u a b c h : Instant) (k : Z) (w : World) (s : side -> Session) : Prop := {
  kp_past : u <= a /\ c <= a /\ h <= a;
  kp_est : established addr peer_at (fun x => off x + c) k (net w) s;
  kp_new : forall x, created_at (s x) <= off x + c + L;
  kp_seen : forall x, x = SideB \/ probes (sp SideA) = true ->
    exists v, seen (net_state (net w) x) (name (peer_at x)) = Some v /\ off x + h <= v;
  kp_sched : forall x, sched_peers (sched w x) = [sp x];
  kp_sent : match last_sent (sched w SideA) !! name (peer_at SideA) with
            | Some v => reading SideA b v
            | None => u = b /\ b <= c /\ b <= h
            end;
  kp_tick : u < b + sp_persistent_keepalive (sp SideA) + L;
  kp_due : b < c + REKEY_AFTER_TIME + L;
  kp_base : b <= h + D;
  kp_quiet : recoveries w = [] }.

Lemma sp_name_peer x : maintained -> sp_name (sp x) = name (peer_at x).
Proof.
  intros [Hs Hp _ _]. destruct (mt_config _ _ _ _ Hs x) as [_ He]. destruct (engine_new_ok _ _ He) as (Hr & _).
  destruct (mt_peer _ _ _ _ Hs x) as (rt & Hrt & <-). destruct (route_source _ _ _ Hr Hrt) as (c & Hc & Ec).
  rewrite (Hp x) in Hc. apply list_elem_of_singleton in Hc as ->. by destruct (peer_from_config_ok _ _ _ Ec) as (-> & _).
Qed.

(** Until the next tick is late no session has expired. *)
Lemma kept_live u a b c h k w s x t : maintained -> kept_at u a b c h k w s -> k < U64_MAX ->
  t <= off x + u + D + L -> is_expired (s x) t = false.
Proof.
  intros Hm H Hk Ht. destruct (kp_est _ _ _ _ _ _ _ _ H x) as [[_ _ _ _ _ Hw Hc] _].
  destruct (mn_room Hm). pose proof (kp_tick _ _ _ _ _ _ _ _ H). pose proof (kp_due _ _ _ _ _ _ _ _ H).
  eapply young_session; [exact Hw|done|]. unfold REKEY_AFTER_TIME, REJECT_AFTER_TIME, from_secs in *. lia.
Qed.

Lemma item_brisk i : maintained -> on_time i -> brisk (it_now i) (it_clock i).
Proof.
  intros Hm [Hn Hc _] x j j' l _. destruct (mn_room Hm). pose proof (Hn x l). pose proof (Hc x j j').
  unfold reading, REJECT_AFTER_TIME, from_secs in *. lia.
Qed.

Lemma item_alive u a b c h k w s i : maintained -> kept_at u a b c h k w s -> k < U64_MAX -> on_time i ->
  it_at i <= u + D -> alive (it_now i) peer_at (net w) = true.
Proof.
  intros Hm H Hk Hi Ha. unfold alive. apply forallb_forall. intros x _. apply forallb_forall. intros j _.
  unfold session_is, get_is. rewrite (sv_active _ _ _ _ _ _ (proj1 (kp_est _ _ _ _ _ _ _ _ H x))).
  apply negb_true_iff. eapply kept_live; [done|exact H|done|]. pose proof (ot_now _ Hi x (j + net_steps (net w))%nat).
  unfold reading in *. lia.
Qed.

(** A message at an entry: the session lives on or is renewed. *)
Lemma kept_message u a b c h k w s i x m pl :
  maintained -> kept_at u a b c h k w s -> 0 <= k -> k + 2 < U64_MAX -> on_time i -> a <= it_at i <= u + D ->
  fits m pl -> fresh peer_at x (net w) = true ->
  exists n c' s', emit engine addr (it_now i) (it_clock i) x (peer_at x) m pl (net w) = Some (n, written (other x) m pl) /\
    kept_at u (it_at i) b c' h (k + 2) (set_net n w) s' /\ it_at i < c' + REKEY_AFTER_TIME + L /\
    (forall y, y = other x \/ probing m pl = true -> exists v, seen (net_state n y) (name (peer_at y)) = Some v /\ off y + it_at i <= v).
Proof.
  intros Hm H Hk0 Hk Hi Ha Hfit Hfr. pose proof (item_brisk i Hm Hi) as Hbr.
  pose proof (item_alive u a b c h k w s i Hm H ltac:(lia) Hi ltac:(lia)) as Hal. pose proof Hi as [Hn Hc _].
  destruct H as [Hpast He Hnew Hseen Hsc Hsent Htick Hdue0 Hbase Hq0]. destruct (due (it_now i) peer_at x (net w)) eqn:Hdue.
  - destruct (due_message_crosses engine addr (it_now i) (it_clock i) conf peer_at _ k (net w) s x m pl (mn_sites Hm) Hbr He ltac:(lia) Hfit Hal Hdue Hfr)
      as (n & s' & E & He' & Hcr & Hh).
    assert (Hs : forall y, exists v, seen (net_state n y) (name (peer_at y)) = Some v /\ off y + it_at i <= v).
    { intros y. destruct (Hh y) as (j & l & E'). eexists. split; [exact E'|]. apply Hc. }
    exists n, (it_at i), s'. split; [done|]. split; [|split; [unfold REKEY_AFTER_TIME, from_secs; destruct (mn_room Hm); lia|intros y _; apply Hs]].
    split; try done.
    + lia.
    + intros y. destruct (He' y) as [[? ? ? ? ? Hw _] ?]. split; [|done]. split; try done; [eapply at_work_le; [exact Hw|lia]|].
      destruct (Hcr y) as (j & l & ->). apply Hc.
    + intros y. destruct (Hcr y) as (j & l & ->). apply Hc.
    + intros y _. destruct (Hs y) as (v & ? & ?). exists v. split; [done|lia].
    + cbn. destruct (_ !! _); [done|]. lia.
    + lia.
  - pose proof (live_message_crosses engine addr (it_now i) (it_clock i) conf peer_at _ k (net w) s x m pl (mn_sites Hm) He ltac:(lia) Hfit Hal Hdue)
      as (n & s' & E & He' & Hcr & Hy & Hx).
    exists n, c, s'. split; [done|].
    assert (Hs : forall y, y = other x \/ probing m pl = true -> exists v, seen (net_state n y) (name (peer_at y)) = Some v /\ off y + it_at i <= v).
    { intros y [->|Hp]; [eexists; split; [exact Hy|apply Hc]|]. rewrite Hp in Hx. revert y. apply (both_sides _ x); eexists; (split; [done|apply Hc]). }
    split; [|split; [|exact Hs]].
    + split; try done; [lia|by intros y; rewrite Hcr|].
      intros y Hyp. destruct (decide (y = other x)) as [->|Hne]; [destruct (Hs (other x)) as (v & ? & ?); [by left|]; exists v; split; [done|lia]|].
      assert (y = x) as -> by (destruct x, y; done). destruct (probing m pl); [|cbn [net set_net]; rewrite Hx; by apply Hseen].
      destruct (Hs x) as (v & ? & ?); [by right|]. exists v. split; [done|lia].
    + revert Hdue. unfold due, session_is, get_is. rewrite (sv_active _ _ _ _ _ _ (proj1 (He x))).
      rewrite <- not_true_iff_false, should_rekey_iff. cbn. pose proof (Hnew x). pose proof (Hn x (net_steps (net w))).
      unfold reading, REKEY_AFTER_TIME, from_secs in *. lia.
Qed.

(** *** A tick *)

Lemma named_peer x : maintained -> find_peer (engine x) (name (peer_at x)) = Some (peer_at x).
Proof.
  intros Hm. pose proof (mn_sites Hm) as Hs. unfold find_peer. destruct (mt_peer _ _ _ _ Hs x) as (rt & Hrt & Ert).
  destruct (find _ _) as [rt'|] eqn:E.
  - apply find_some in E as [Hin E]. apply bool_decide_eq_true in E. cbn. f_equal.
    apply (matched_unique engine addr conf peer_at x rt' Hs); [by apply list_elem_of_In|by right].
  - pose proof (find_none _ _ E rt ltac:(by apply list_elem_of_In)) as H. cbn in H. by rewrite Ert, bool_decide_true in H.
Qed.

Lemma payload_probing x : probing MsgType.Keepalive (keepalive_payload (sp x)) = probes (sp x).
Proof. unfold probing, keepalive_payload. by destruct (probes (sp x)). Qed.
Lemma payload_fits p : fits MsgType.Keepalive (keepalive_payload p).
Proof. split; [unfold keepalive_payload; by destruct (probes p)|done]. Qed.

(** The other site was heard within the timeout. *)
Lemma kept_recently u a b c h k w s i : maintained -> kept_at u a b c h k w s -> on_time i -> it_at i <= u + D ->
  let x := it_site i in recently (it_now i x (net_steps (net w))) (sp x) (net_state (net w) x).
Proof.
  intros Hm H Hi Ha x policy Hp. pose proof (mn_timeout Hm _ _ Hp) as Ht. destruct (mn_room Hm) as (? & ? & ? & _).
  split; [lia|]. rewrite sp_name_peer by done.
  destruct (kp_seen _ _ _ _ _ _ _ _ H x) as (v & Hv & Hle); [|exists v; split; [done|]].
  - unfold probes. destruct x; [right; by rewrite Hp|by left].
  - pose proof (ot_now _ Hi x (net_steps (net w))). pose proof (kp_tick _ _ _ _ _ _ _ _ H). pose proof (kp_base _ _ _ _ _ _ _ _ H).
    unfold reading in *. lia.
Qed.

(** A tick is a keepalive message, or nothing happens. *)
Lemma tick_message u a b c h k w s i :
  maintained -> kept_at u a b c h k w s -> k < U64_MAX -> on_time i -> it_at i <= u + D ->
  let x := it_site i in
  let now := it_now i x (net_steps (net w)) in
  let last := last_sent (sched w x) !! name (peer_at x) in
  tick_site i w =
    if keepalive_should_send now last (sp_persistent_keepalive (sp x)) (probes (sp x)) false then
      '(n, got) ← emit engine addr (it_now i) (it_clock i) x (peer_at x) MsgType.Keepalive (keepalive_payload (sp x)) (net w);
      Some (set_sched x (set_last_sent <[name (peer_at x) := now]> (sched w x)) (set_net n w), got)
    else Some (set_sched x (if negb (sp_persistent_keepalive (sp x) =? 0)
                            then set_last_sent (fun m => match m !! name (peer_at x) with Some _ => m | None => <[name (peer_at x) := now]> m end) (sched w x)
                            else sched w x) (set_net (next x (net_state (net w) x) (net w)) w), []).
Proof.
  intros Hm H Hk Hi Ha x now last. destruct (kp_est _ _ _ _ _ _ _ _ H x) as [Hsv _].
  unfold tick_site. fold x now. rewrite (tick_one _ _ _ _ _ (sp x)); [|apply (kp_sched _ _ _ _ _ _ _ _ H)| |].
  - cbv zeta. rewrite (sp_name_peer x Hm). fold last. destruct (keepalive_should_send _ _ _ _ _); [|done].
    rewrite (keepalive_message _ _ _ _ _ (named_peer x Hm)). unfold emit. fold now.
    pose proof (send_or_initiate_safe (engine x) (peer_at x) MsgType.Keepalive (keepalive_payload (sp x)) now (net_state (net w) x) (sv_wf _ _ _ _ _ _ Hsv)) as (_ & Hnp & _).
    assert (engine_has_active_session (name (peer_at x)) (it_keepalive_clock i 0%nat) (net_state (net w) x) = true) as ->.
    { unfold engine_has_active_session, has_active_session, get_is. rewrite (sv_active _ _ _ _ _ _ Hsv).
      apply negb_true_iff. eapply kept_live; [done|exact H|done|]. pose proof (ot_check _ Hi 0%nat) as Hr. change (it_site i) with x in Hr. unfold reading in Hr. lia. }
    destruct (send_or_initiate _ _ _ _ _ _) as [st' [out|err|]]; cbn [push_engine_output tick_default t_outputs app flat_map output_of so_output orb];
      [by rewrite app_nil_r|done|done].
  - rewrite (sp_name_peer x Hm). unfold has_pending_handshake, has_pending_init. apply get_is_None. apply Hsv.
  - right. by eapply kept_recently.
Qed.

Lemma sched_same x q w : sched (set_sched x q w) x = q.
Proof. cbn. by rewrite decide_True. Qed.

(** Handling nothing, or touching the scheduler of site B, keeps the rest. *)
Lemma kept_idle u a a' b c h k w s x : a <= a' -> kept_at u a b c h k w s ->
  kept_at u a' b c h (k + 2) (set_net (next x (net_state (net w) x) (net w)) w) s.
Proof.
  intros Ha [Hpast He Hnew Hseen Hsc Hsent Htick Hdue Hbase Hq0].
  assert (Hst : forall y, net_state (next x (net_state (net w) x) (net w)) y = net_state (net w) y).
  { intros y. cbn. by destruct (decide (y = x)) as [->|]. }
  split; try done; cbn [net set_net]; [lia| |intros y; rewrite Hst; apply Hseen].
  intros y. rewrite Hst. exact (established_le addr peer_at _ k (k + 2) (net w) s He ltac:(lia) y).
Qed.

Lemma kept_sched_other u a b c h k w s x q : (x = SideA -> last_sent q = last_sent (sched w SideA)) -> sched_peers q = [sp x] ->
  kept_at u a b c h k w s -> kept_at u a b c h k (set_sched x q w) s.
Proof.
  intros Hx Hq [Hpast He Hnew Hseen Hsc Hsent Htick Hdue Hbase Hq0]. split; try done.
  - intros y. cbn. destruct (decide (y = x)) as [->|]; [done|apply Hsc].
  - cbn. destruct (decide (SideA = x)) as [E|]; [by rewrite Hx|exact Hsent].
Qed.

(** A tick of site A: when it sends, the keepalive is what is counted from. *)
Lemma kept_sent u a b c h k w s v : maintained -> kept_at u a b c h k w s -> reading SideA a v -> a < c + REKEY_AFTER_TIME + L ->
  (forall y, y = SideB \/ probes (sp SideA) = true -> exists v, seen (net_state (net w) y) (name (peer_at y)) = Some v /\ off y + a <= v) ->
  kept_at a a a c a k (set_sched SideA (set_last_sent <[name (peer_at SideA) := v]> (sched w SideA)) w) s.
Proof.
  intros Hm [Hpast He Hnew Hseen Hsc Hsent Htick Hdue Hbase Hq0] Hv Hac Hs. destruct (mn_room Hm) as (? & ? & ? & _).
  split; try done; try lia.
  - intros y. cbn. destruct (decide (y = SideA)) as [->|]; [apply (Hsc SideA)|apply Hsc].
  - rewrite sched_same. cbn. by rewrite lookup_insert_eq.
Qed.

(** When it does not, the last one is recent enough. *)
Lemma kept_unsent u a b c h k w s v : maintained -> kept_at u a b c h k w s -> a <= u + D -> reading SideA a v ->
  keepalive_should_send v (last_sent (sched w SideA) !! name (peer_at SideA)) (sp_persistent_keepalive (sp SideA)) (probes (sp SideA)) false = false ->
  exists b', kept_at a a b' c h k (set_sched SideA (set_last_sent (fun m =>
    match m !! name (peer_at SideA) with Some _ => m | None => <[name (peer_at SideA) := v]> m end) (sched w SideA)) w) s.
Proof.
  intros Hm [Hpast He Hnew Hseen Hsc Hsent Htick Hdue Hbase Hq0] Ha Hv Hno. destruct (mn_room Hm) as (? & ? & ? & Hr).
  unfold keepalive_should_send in Hno. rewrite (proj2 (Z.eqb_neq _ 0)) in Hno by lia.
  assert (Hsc' : forall q y, sched_peers q = [sp SideA] -> sched_peers (sched (set_sched SideA q w) y) = [sp y]).
  { intros q y Hq. cbn. destruct (decide (y = SideA)) as [->|]; [done|apply Hsc]. }
  destruct (last_sent (sched w SideA) !! name (peer_at SideA)) as [v0|] eqn:Elast; try rewrite Elast in Hsent.
  - cbn [default from_option fmap option_fmap option_map id] in Hno. unfold saturating_duration_since in Hno. rewrite Z.geb_leb, Z.leb_gt in Hno.
    exists b. split; try done; unfold reading in *.
    + lia.
    + intros y. apply Hsc', (Hsc SideA).
    + rewrite sched_same. cbn. rewrite Elast, Elast. exact Hsent.
    + lia.
  - exists a. split; try done; unfold reading, REKEY_AFTER_TIME, from_secs in *.
    + lia.
    + intros y. apply Hsc', (Hsc SideA).
    + rewrite sched_same. cbn. rewrite Elast, lookup_insert_eq. exact Hv.
    + lia.
    + lia.
    + lia.
Qed.

Lemma kept_tick u a b c h k w s i :
  maintained -> kept_at u a b c h k w s -> 0 <= k -> k + 2 < U64_MAX -> on_time i -> a <= it_at i <= u + D ->
  fresh peer_at (it_site i) (net w) = true ->
  exists w' b' c' h' s', tick_site i w = Some (w', []) /\
    kept_at (if bool_decide (it_site i = SideA) then it_at i else u) (it_at i) b' c' h' (k + 2) w' s'.
Proof.
  intros Hm H Hk0 Hk Hi Ha Hfr. rewrite (tick_message u a b c h k w s i Hm H ltac:(lia) Hi ltac:(lia)).
  set (x := it_site i) in *. set (v := it_now i x (net_steps (net w))). assert (Hv : reading x (it_at i) v) by apply Hi.
  destruct (keepalive_should_send v _ _ _ _) eqn:Hsend.
  - destruct (kept_message u a b c h k w s i x MsgType.Keepalive (keepalive_payload (sp x)) Hm H Hk0 Hk Hi Ha (payload_fits _) Hfr)
      as (n & c' & s' & E & H' & Hc' & Hs). rewrite E. cbn [mbind option_bind written]. rewrite payload_probing in Hs.
    destruct x eqn:Ex; cbn [bool_decide]; [rewrite bool_decide_true by done|rewrite bool_decide_false by done].
    + eexists _, (it_at i), c', (it_at i), s'. split; [done|].
      exact (kept_sent u (it_at i) b c' h (k + 2) (set_net n w) s' v Hm H' Hv Hc' Hs).
    + eexists _, b, c', h, s'. split; [done|]. apply kept_sched_other; [done| |done]. apply (kp_sched _ _ _ _ _ _ _ _ H SideB).
  - pose proof (kept_idle u a (it_at i) b c h k w s x ltac:(lia) H) as H'.
    destruct x eqn:Ex; [rewrite bool_decide_true by done|rewrite bool_decide_false by done].
    + destruct (mn_room Hm) as (_ & _ & Hpos & _). rewrite (proj2 (Z.eqb_neq _ 0)) by lia. cbn [negb].
      destruct (kept_unsent _ _ _ _ _ _ _ _ v Hm H' ltac:(lia) Hv Hsend) as (b' & H2). eexists _, b', c, h, s. split; [done|exact H2].
    + eexists _, b, c, h, s. split; [done|]. apply kept_sched_other; [done| |done].
      case_match; apply (kp_sched _ _ _ _ _ _ _ _ H SideB).
Qed.

(** *** A run *)

Lemma kept_item u a b c h k w s i :
  maintained -> kept_at u a b c h k w s -> 0 <= k -> k + 2 < U64_MAX -> on_time i -> a <= it_at i <= u + D ->
  match it_use i with Send packet => routed engine peer_at (it_site i) packet | Tick => True end ->
  fresh peer_at (it_site i) (net w) = true ->
  exists w' b' c' h' s', run_item i w = Some (w', arrivals [i]) /\
    kept_at (if upkeep i then it_at i else u) (it_at i) b' c' h' (k + 2) w' s'.
Proof.
  intros Hm H Hk0 Hk Hi Ha Hu Hfr. unfold run_item, upkeep, arrivals. cbn [flat_map]. destruct (it_use i) as [packet|].
  - destruct (kept_message u a b c h k w s i (it_site i) MsgType.Data packet Hm H Hk0 Hk Hi Ha (routed_fits _ _ _ _ Hu) Hfr)
      as (n & c' & s' & E & H' & _). rewrite (submit_message _ _ _ _ peer_at _ _ _ Hu), E. rewrite andb_false_r.
    by eexists _, b, c', h, s'.
  - rewrite andb_true_r. by apply (kept_tick u a b c h k w s).
Qed.

Lemma kept_run l : forall u a b c h k w s,
  maintained -> kept_at u a b c h k w s -> 0 <= k -> k + 2 * len l < U64_MAX -> scheduled u a l -> unrepeated l w = true ->
  exists w' a' b' c' h' k' s', run l w = Some (w', arrivals l) /\ k' < U64_MAX /\ kept_at (last_upkeep u l) a' b' c' h' k' w' s'.
Proof.
  induction l as [|i l IH]; intros u a b c h k w s Hm H Hk0 Hk Hsc Hun.
  - rewrite Z.mul_0_r in Hk. exists w, a, b, c, h, k, s. split_and!; [done|lia|done].
  - rewrite len_cons in Hk. pose proof (len_nonneg l). cbn [scheduled unrepeated run last_upkeep] in *.
    destruct Hsc as (Hi & Ha & Hu & Hsc). apply andb_prop in Hun as [Hfr Hun].
    destruct (kept_item u a b c h k w s i Hm H Hk0 ltac:(lia) Hi Ha Hu Hfr) as (w1 & b1 & c1 & h1 & s1 & E & H1). rewrite E in Hun |- *.
    destruct (IH _ _ _ _ _ _ _ _ Hm H1 ltac:(lia) ltac:(lia) Hsc Hun) as (w' & a' & b' & c' & h' & k' & s' & E' & Hk' & H').
    cbn [mbind option_bind]. rewrite E'. cbn [mbind option_bind]. exists w', a', b', c', h', k', s'. split_and!; try done.
    unfold arrivals. cbn [flat_map]. by rewrite app_nil_r.
Qed.

(** *** The first entry *)

(** A packet of site A, or a tick of it when it probes its peer, makes the
    connection. *)
Definition opens (i : item) : Prop :=
  it_site i = SideA /\
  match it_use i with Send packet => routed engine peer_at SideA packet | Tick => probes (sp SideA) = true end.

Lemma item_connects w i m pl :
  maintained -> ready addr peer_at (net w) -> (forall x, sched w x = EngineScheduler_new (conf x)) -> recoveries w = [] -> on_time i ->
  exists n s, emit engine addr (it_now i) (it_clock i) SideA (peer_at SideA) m pl (net w) = Some (n, []) /\
    kept_at (it_at i) (it_at i) (it_at i) (it_at i) (it_at i) 2 (set_net n w) s.
Proof.
  intros Hm Hr Hsc Hq Hi. pose proof Hi as [Hn Hc _].
  destruct (message_connects engine addr (it_now i) (it_clock i) conf peer_at (fun x => off x + it_at i) (net w) m pl
    (mn_sites Hm) (item_brisk i Hm Hi) Hr) as (n & s & E & He & [Ca Cb] & Hh); [apply Hc..|].
  exists n, s. split; [done|]. destruct (mn_room Hm) as (? & ? & ? & _). split; try done; try (unfold REKEY_AFTER_TIME, from_secs; lia).
  - intros []; [rewrite Ca|rewrite Cb]; apply Hc.
  - intros x _. destruct (Hh x) as (j & l & E'). eexists. split; [exact E'|]. apply Hc.
  - intros x. cbn. rewrite Hsc. cbn. by rewrite (mn_peer Hm).
  - cbn. by rewrite Hsc.
Qed.

Lemma opening w i :
  maintained -> ready addr peer_at (net w) -> (forall x, sched w x = EngineScheduler_new (conf x)) -> recoveries w = [] -> on_time i -> opens i ->
  exists w1 s, run_item i w = Some (w1, []) /\ kept_at (it_at i) (it_at i) (it_at i) (it_at i) (it_at i) 2 w1 s.
Proof.
  intros Hm Hr Hsc Hq Hi [Hx Hu]. unfold run_item. destruct (it_use i) as [packet|].
  - destruct (item_connects w i MsgType.Data packet Hm Hr Hsc Hq Hi) as (n & s & E & H).
    rewrite Hx, (submit_message _ _ _ _ peer_at _ _ _ Hu), E. by eexists _, s.
  - destruct (item_connects w i MsgType.Keepalive (keepalive_payload (sp SideA)) Hm Hr Hsc Hq Hi) as (n & s & E & H).
    destruct (rd_idle _ _ _ Hr) as (Hs0 & Hp0 & _). destruct (mn_room Hm) as (_ & _ & Hpos & _).
    unfold tick_site. rewrite Hx. rewrite (tick_one _ _ _ _ _ (sp SideA)).
    + rewrite Hsc, (sp_name_peer SideA Hm), Hu. cbv zeta. unfold keepalive_should_send. rewrite (proj2 (Z.eqb_neq _ 0)) by lia. cbn [last_sent EngineScheduler_new lookup].
      rewrite lookup_empty. cbn [default from_option fmap option_fmap option_map id].
      rewrite (keepalive_message _ _ _ _ _ (named_peer SideA Hm)). revert E. unfold emit.
      pose proof (send_or_initiate_safe (engine SideA) (peer_at SideA) MsgType.Keepalive (keepalive_payload (sp SideA)) (it_now i SideA (net_steps (net w)))
        (net_state (net w) SideA) (rd_wf _ _ _ Hr SideA)) as (_ & Hnp & _).
      assert (engine_has_active_session (name (peer_at SideA)) (it_keepalive_clock i 0%nat) (net_state (net w) SideA) = false) as ->.
      { unfold engine_has_active_session, has_active_session. by apply get_is_None. }
      destruct (send_or_initiate _ _ _ _ _ _) as [st' [out|err|]]; cbn [push_engine_output tick_default t_outputs app flat_map output_of so_output orb negb];
        [rewrite app_nil_r|change (frames_out addr SideA no_output) with (@nil (side * bytes))|done];
        intros ->; eexists _, s; (split; [done|]); (apply kept_sched_other; [cbn; by rewrite Hsc|cbn; by rewrite (mn_peer Hm)|exact H]).
    + rewrite Hsc. cbn. by rewrite (mn_peer Hm).
    + rewrite (sp_name_peer SideA Hm). unfold has_pending_handshake, has_pending_init. by apply get_is_None.
    + left. by rewrite Hsc.
Qed.

(** C2: a maintained tunnel stays up.  Two sites whose validated
    configurations name each other, and of which site A has keepalives
    configured and runs its maintenance every [D], are connected by the first
    entry of site A, a packet or a tick.  If the keepalive interval leaves
    room in the last minute of a session's life, then whatever else the two
    sites do, packets or ticks in any order, for any time: every packet
    arrives at the other site, unchanged, once and in order, no tick reports a
    recovery, and both sites have a live session at the end and until the next tick
    of site A is late. *)
Theorem maintained_tunnel_stays_up w first items :
  maintained -> ready addr peer_at (net w) -> (forall x, sched w x = EngineScheduler_new (conf x)) ->
  recoveries w = [] -> on_time first -> opens first -> scheduled (it_at first) (it_at first) items -> 2 + 2 * len items < U64_MAX ->
  exists w1, run_item first w = Some (w1, []) /\
    (unrepeated items w1 = true ->
     exists w', run items w1 = Some (w', arrivals items) /\ recoveries w' = [] /\
       forall x t, t <= off x + last_upkeep (it_at first) items + D + L ->
         engine_has_active_session (name (peer_at x)) t (net_state (net w') x) = true).
Proof.
  intros Hm Hr Hsc Hq Hi Ho Hits Hk. destruct (opening w first Hm Hr Hsc Hq Hi Ho) as (w1 & s & E & H). exists w1. split; [done|].
  intros Hun. destruct (kept_run items _ _ _ _ _ _ _ _ Hm H ltac:(lia) Hk Hits Hun) as (w' & a' & b' & c' & h' & k' & s' & E' & Hk' & H').
  exists w'. split; [done|]. split; [apply (kp_quiet _ _ _ _ _ _ _ _ H')|]. intros x t Ht. unfold engine_has_active_session, has_active_session, get_is.
  rewrite (sv_active _ _ _ _ _ _ (proj1 (kp_est _ _ _ _ _ _ _ _ H' x))). apply negb_true_iff. by eapply kept_live.
Qed.
End Sites.

(** ** Witness: more than three minutes, kept up by ticks every six seconds *)

Definition wit_entry (x : side) : PeerConfig (IN := ref_ipnet) :=
  default (@Build_PeerConfig ref_ipnet "" (endpoint_of (SA4 0 0)) [] [] "" "" 0 0 None) (head (peer (wit_conf x))).

(** The clock of site B started earlier. *)
Definition wit_off (x : side) : Instant := match x with SideA => 0 | SideB => from_secs 1000 end.
Definition wit_item (x : side) (u : use) (t : Z) : item :=
  {| it_site := x; it_use := u; it_at := from_secs t;
     it_now := fun y _ => wit_off y + from_secs t; it_clock := fun y _ _ => wit_off y + from_secs t;
     it_recovery_clock := fun _ => wit_off x + from_secs t; it_keepalive_clock := fun _ => wit_off x + from_secs t |}.
Definition wit_ticks (from n : nat) : list item := (fun j => wit_item SideA Tick (6 * Z.of_nat j)) <$> seq from n.
Definition wit_schedule : list item :=
  wit_ticks 1 3 ++ [wit_item SideB (Send wit_packet) 20; wit_item SideA (Send wit_packet) 21] ++ wit_ticks 4 4 ++
  [wit_item SideB Tick 45] ++ wit_ticks 8 13 ++ [wit_item SideB (Send wit_packet) 125; wit_item SideB Tick 125] ++
  wit_ticks 21 11 ++ [wit_item SideA (Send wit_packet) 190].

Lemma wit_on_time x u t : on_time wit_off (from_secs 1) (wit_item x u t).
Proof. split; intros; unfold reading, from_secs; cbn; lia. Qed.

Lemma wit_maintained : maintained (B64 := ref_base64) (RS := ref_resolver) (SN := ref_snow) (NK := ref_noise_ik) wit_site wit_addr wit_conf
  (fun x => route_peer (wit_site_route x)) wit_entry (from_secs 1) (from_secs 6).
Proof.
  split.
  - exact wit_configured.
  - by intros [].
  - unfold from_secs. cbn. unfold from_secs. lia.
  - intros x policy. destruct x; cbn; intros [= <-]; cbn; unfold from_secs; lia.
Qed.

Lemma wit_scheduled : scheduled (IN := ref_ipnet) wit_site (fun x => route_peer (wit_site_route x)) wit_off (from_secs 1) (from_secs 6) 0 0 wit_schedule.
Proof.
  unfold wit_schedule, wit_ticks. cbn [fmap list_fmap seq app].
  repeat (cbn [scheduled]; split; [apply wit_on_time|split; [|split; [first [exact I|exact (wit_routed _)]|]]]).
  all: unfold from_secs; cbn; unfold from_secs; try lia; done.
Qed.

Definition wit_world : World (SN := ref_snow) := {| net := wit_net; sched := fun x => EngineScheduler_new (wit_conf x); recoveries := [] |}.
Definition wit_opened : World (SN := ref_snow) :=
  match run_item (IN := ref_ipnet) (RS := ref_resolver) (SN := ref_snow) wit_site wit_addr (fun _ _ _ => true) (wit_item SideA Tick 0) wit_world with
  | Some (w, _) => w | None => wit_world end.

Lemma wit_unrepeated : unrepeated (IN := ref_ipnet) (RS := ref_resolver) (SN := ref_snow) wit_site wit_addr (fun x => route_peer (wit_site_route x))
  (fun _ _ _ => true) wit_schedule wit_opened = true.
Proof. vm_compute. reflexivity. Qed.

Lemma maintained_tunnel_stays_up_witness : exists w',
  run (IN := ref_ipnet) (RS := ref_resolver) (SN := ref_snow) wit_site wit_addr (fun _ _ _ => true) wit_schedule wit_opened =
    Some (w', [(SideA, wit_packet); (SideB, wit_packet); (SideA, wit_packet); (SideB, wit_packet)]) /\
  engine_has_active_session "a" (from_secs 1190) (net_state (net w') SideB) = true.
Proof.
  destruct (maintained_tunnel_stays_up (B64 := ref_base64) (RS := ref_resolver) (SL := ref_snow_laws) (NK := ref_noise_ik) wit_site wit_addr wit_conf
    (fun x => route_peer (wit_site_route x)) wit_entry (fun _ _ _ => true) wit_off (from_secs 1) (from_secs 6) wit_world (wit_item SideA Tick 0) wit_schedule
    wit_maintained wit_ready ltac:(done) eq_refl (wit_on_time _ _ _) ltac:(done) wit_scheduled ltac:(done)) as (w1 & E & H).
  assert (wit_opened = w1) as E1 by (unfold wit_opened; by rewrite E).
  rewrite E1. destruct H as (w' & Hrun & _ & Hlive); [rewrite <- E1; exact wit_unrepeated|].
  exists w'. split; [exact Hrun|]. apply (Hlive SideB). vm_compute. discriminate.
Defined.
