(* ===== verification/Conformance.v ===== *)
(** * The repository's tests on the model: wire formats

    The unit tests of auth.rs, packet.rs, replay.rs and noise.rs and the
    cryptographic part of tests/integration.rs, run on the definitions.  A
    test is a computation that ends in [Some tt] when every assertion of it
    holds; the lemma of a module evaluates its tests.  This checks the
    definitions against the expectations of the code's authors, and is
    evidence beside the theorems, not a part of them.  Keys that a test draws
    at random are drawn from the counting generator of [ref_snow]. *)

From Stdlib Require Import Ascii.
From S2P Require Import Prelude Net Std Auth Replay Noise Sessions SessionInv.
From S2P Require Packet.
Open Scope Z_scope.

(** ** Assertions *)

Definition test : Type := option unit.
Definition assert (b : bool) : test := if b then Some tt else None.
Abbreviation assert_eq a b := (assert (bool_decide (a = b))).
Abbreviation assert_ne a b := (assert (negb (bool_decide (a = b)))).

(** [unwrap] and its counterparts of a call that changes a state. *)
Definition unwrap {S E A} (r : S * outcome E A) : option (S * A) := match r with (s, Ok a) => Some (s, a) | _ => None end.
Definition unwrap_err {S E A} (r : S * outcome E A) : option (S * E) := match r with (s, Err e) => Some (s, e) | _ => None end.
Definition value_of {E A} (r : outcome E A) : option A := match r with Ok a => Some a | _ => None end.
Definition is_err {E A} (r : outcome E A) : bool := match r with Err _ => true | _ => false end.

Fixpoint all_of {A} (f : A -> test) (l : list A) : test := match l with [] => Some tt | x :: l => _ ← f x; all_of f l end.

(** [b"..."]. *)
Definition b (s : string) : bytes := code <$> chars_of s.

(** A test that passes. *)
Definition passed (t : test) : bool := match t with Some _ => true | None => false end.

(** ** auth.rs *)

Module AuthTests.

Definition handshake_packet_round_trips : test :=
  let id := replicate SESSION_ID_SIZE 17 in
  let packet := encode_handshake PacketKind.HandshakeInit id (b "noise-message") in
  assert_eq (decode_packet packet) (Some (Handshake PacketKind.HandshakeInit id (b "noise-message"))).

Definition transport_packet_round_trips : test :=
  let id := replicate SESSION_ID_SIZE 34 in
  let ciphertext := replicate 17 170 in
  let packet := encode_transport id 42 ciphertext in
  assert_eq (decode_packet packet) (Some (Transport id 42 ciphertext)).

Definition transport_semantic_type_is_inside_plaintext : test :=
  let plaintext := encode_transport_plaintext MsgType.Keepalive KEEPALIVE_PROBE_PAYLOAD in
  '(kind, payload) ← decode_transport_plaintext plaintext;
  _ ← assert_eq kind MsgType.Keepalive;
  assert_eq payload KEEPALIVE_PROBE_PAYLOAD.

Definition rejects_old_unknown_and_truncated_packets : test :=
  _ ← assert_eq (decode_packet []) None;
  _ ← assert_eq (decode_packet (replicate HANDSHAKE_HEADER_SIZE 2)) None;
  let unknown := <[1%nat := 255]> (<[0%nat := WIRE_VERSION]> (replicate HANDSHAKE_HEADER_SIZE 0)) in
  _ ← assert_eq (decode_packet unknown) None;
  let id := replicate SESSION_ID_SIZE 51 in
  let short := encode_transport id 0 (replicate 16 0) in
  assert_eq (decode_packet short) None.

Definition handshake_id_is_bound_into_the_prologue : test :=
  let first := handshake_prologue (replicate SESSION_ID_SIZE 1) in
  let second := handshake_prologue (replicate SESSION_ID_SIZE 2) in
  _ ← assert_ne first second;
  assert_eq (take (length HANDSHAKE_PROLOGUE_PREFIX) first) HANDSHAKE_PROLOGUE_PREFIX.

Lemma auth_tests_pass : forallb passed
  [handshake_packet_round_trips; transport_packet_round_trips; transport_semantic_type_is_inside_plaintext;
   rejects_old_unknown_and_truncated_packets; handshake_id_is_bound_into_the_prologue] = true.
Proof. vm_compute. reflexivity. Qed.
End AuthTests.

(** ** packet.rs *)

Module PacketTests.

Definition parses_ipv4_addresses_and_protocol : test :=
  let packet := [69; 0; 0; 20; 0; 0; 64; 0; 64; 6; 0; 0; 10; 77; 0; 1; 10; 77; 0; 2] in
  parsed ← value_of (Packet.parse packet);
  source ← value_of (Packet.source parsed);
  _ ← assert_eq source (Packet.Ipv4Addr_new 10 77 0 1);
  destination ← value_of (Packet.destination parsed);
  _ ← assert_eq destination (Packet.Ipv4Addr_new 10 77 0 2);
  protocol ← value_of (Packet.protocol parsed);
  assert_eq protocol 6.

Definition rejects_non_ipv4_packets : test :=
  let packet := [96; 0; 0; 0; 0; 20; 17; 64; 0; 0; 0; 0; 0; 0; 0; 0; 0; 0; 0; 0] in
  match Packet.parse packet with Err (Packet.NotIpv4 version) => assert_eq version 6 | _ => None end.

Lemma packet_tests_pass : forallb passed [parses_ipv4_addresses_and_protocol; rejects_non_ipv4_packets] = true.
Proof. vm_compute. reflexivity. Qed.
End PacketTests.

(** ** replay.rs *)

Module ReplayTests.

(** [assert!(window.mark_authenticated(c))] or its negation. *)
Definition mark (expected : bool) (c : u64) (w : ReplayWindow) : option ReplayWindow :=
  '(ok, w) ← mark_authenticated w c; _ ← assert_eq ok expected; Some w.
Definition precheck (expected : bool) (w : ReplayWindow) (c : u64) : test :=
  ok ← would_accept w c; assert_eq ok expected.

Definition accepts_first_new_and_out_of_order_counters_once : test :=
  window ← mark true 10 ReplayWindow_new;
  window ← mark true 12 window;
  window ← mark true 11 window;
  window ← mark false 10 window;
  window ← mark false 11 window;
  _ ← mark false 12 window; Some tt.

Definition rejects_counters_older_than_the_window : test :=
  window ← mark true 0 ReplayWindow_new;
  window ← mark true DEFAULT_WINDOW_SIZE window;
  _ ← precheck false window 0;
  window ← mark false 0 window;
  _ ← mark true 1 window; Some tt.

Definition large_jump_clears_old_history : test :=
  window ← mark true 20 ReplayWindow_new;
  window ← mark true 10000 window;
  _ ← assert_eq (highest window) (Some 10000);
  _ ← precheck false window 20;
  _ ← mark true 9999 window; Some tt.

Definition unauthenticated_precheck_does_not_advance_window : test :=
  window ← mark true 50 ReplayWindow_new;
  _ ← precheck true window U64_MAX;
  _ ← assert_eq (highest window) (Some 50);
  _ ← mark true 49 window; Some tt.

Fixpoint mark_all (cs : list u64) (w : ReplayWindow) : option ReplayWindow :=
  match cs with [] => Some w | c :: cs => w ← mark true c w; mark_all cs w end.

Definition shifts_across_word_and_window_boundaries : test :=
  window ← mark_all [0; 1; 63; 64; 65; 4094; 4095] ReplayWindow_new;
  window ← mark true 4096 window;
  _ ← precheck false window 0;
  all_of (precheck false window) [1; 63; 64; 65; 4094; 4095; 4096].

Lemma replay_tests_pass : forallb passed
  [accepts_first_new_and_out_of_order_counters_once; rejects_counters_older_than_the_window;
   large_jump_clears_old_history; unauthenticated_precheck_does_not_advance_window;
   shifts_across_word_and_window_boundaries] = true.
Proof. vm_compute. reflexivity. Qed.
End ReplayTests.

(** ** noise.rs *)

#[local] Existing Instance ref_snow.

(** [PublicKey::from(&secret)] in the reference library. *)
Definition public_key_of (secret : bytes) : bytes := secret.
Definition key32 (byte : u8) : bytes := replicate 32 byte.

Module NoiseTests.

(** [wall] is the time the sessions are made. *)
Definition wall : Instant := from_secs 1000.

Definition session_pair : option (Session * Session) :=
  let initiator_static := key32 17 in
  let responder_static := key32 34 in
  let psk := key32 51 in
  '(rng, handshake) ← unwrap (initiator_start initiator_static (public_key_of responder_static) psk 1);
  '(rng, response) ← unwrap (responder_respond responder_static (public_key_of initiator_static) psk
                       (ih_handshake_id handshake) (ih_message handshake) wall rng);
  initiator_session ← value_of (initiator_finalize (ih_state handshake) (rh_message response) wall);
  Some (initiator_session, rh_session response).

Definition standard_noise_handshake_and_transport_are_bidirectional : test :=
  '(initiator, responder) ← session_pair;
  '(initiator, first) ← unwrap (encrypt MsgType.Data (b "hello") initiator);
  '(responder, received) ← unwrap (decrypt_packet first responder);
  _ ← assert_eq received (MsgType.Data, b "hello");
  '(responder, second) ← unwrap (encrypt MsgType.Keepalive KEEPALIVE_ACK_PAYLOAD responder);
  '(initiator, received) ← unwrap (decrypt_packet second initiator);
  assert_eq received (MsgType.Keepalive, KEEPALIVE_ACK_PAYLOAD).

Definition transport_counter (packet : bytes) : option u64 :=
  match decode_packet packet with Some (Transport _ counter _) => Some counter | _ => None end.

Definition consecutive_packets_use_consecutive_unique_counters : test :=
  '(initiator, _) ← session_pair;
  '(initiator, first) ← unwrap (encrypt MsgType.Data (b "one") initiator);
  '(initiator, second) ← unwrap (encrypt MsgType.Data (b "two") initiator);
  a ← transport_counter first;
  c ← transport_counter second;
  _ ← assert_eq (a, c) (0, 1);
  assert_eq (send_counter initiator) 2.

Definition is_replay (e : NoiseError) : bool := match e with Replay_ => true | _ => false end.

Definition replay_is_rejected_but_out_of_order_packets_are_accepted : test :=
  '(initiator, responder) ← session_pair;
  '(initiator, zero) ← unwrap (encrypt MsgType.Data (b "zero") initiator);
  '(initiator, one) ← unwrap (encrypt MsgType.Data (b "one") initiator);
  '(responder, _) ← unwrap (decrypt_packet one responder);
  '(responder, _) ← unwrap (decrypt_packet zero responder);
  '(responder, e) ← unwrap_err (decrypt_packet zero responder);
  assert (is_replay e).

(** [packet[from..to].copy_from_slice(bytes)]. *)
Definition patch (from : nat) (l packet : bytes) : bytes := take from packet ++ l ++ drop (from + length l) packet.

Definition forged_high_counter_does_not_poison_replay_window : test :=
  '(initiator, responder) ← session_pair;
  '(initiator, legitimate) ← unwrap (encrypt MsgType.Data (b "valid") initiator);
  let forged := patch HANDSHAKE_HEADER_SIZE (to_be_bytes 8 U64_MAX) legitimate in
  '(responder, _) ← unwrap_err (decrypt_packet forged responder);
  '(responder, received) ← unwrap (decrypt_packet legitimate responder);
  assert_eq received.2 (b "valid").

Definition wrong_psk_and_wrong_configured_static_are_rejected : test :=
  let initiator_static := key32 65 in
  let responder_static := key32 66 in
  let psk := key32 67 in
  '(rng, handshake) ← unwrap (initiator_start initiator_static (public_key_of responder_static) psk 1);
  '(rng, wrong_psk_response) ← unwrap (responder_respond responder_static (public_key_of initiator_static) (key32 153)
      (ih_handshake_id handshake) (ih_message handshake) wall rng);
  _ ← assert (is_err (initiator_finalize (ih_state handshake) (rh_message wrong_psk_response) wall));
  '(rng, handshake) ← unwrap (initiator_start initiator_static (public_key_of responder_static) psk rng);
  '(rng, e) ← unwrap_err (responder_respond responder_static (key32 68) psk
      (ih_handshake_id handshake) (ih_message handshake) wall rng);
  assert (match e with RemoteStaticMismatch => true | _ => false end).

Definition handshake_identifier_is_authenticated_by_the_transcript : test :=
  let initiator_static := key32 81 in
  let responder_static := key32 82 in
  let psk := key32 83 in
  '(rng, handshake) ← unwrap (initiator_start initiator_static (public_key_of responder_static) psk 1);
  first ← ih_handshake_id handshake !! 0%nat;
  let changed_id := <[0%nat := Z.lxor first 1]> (ih_handshake_id handshake) in
  assert (is_err (responder_respond responder_static (public_key_of initiator_static) psk changed_id (ih_message handshake) wall rng).2).

Definition set_created_at (t : Instant) (s : Session) : Session :=
  {| session_id := session_id s; transport := transport s; created_at := t; send_counter := send_counter s;
     received_messages := received_messages s; replay := replay s |}.

Definition sessions_request_rekey_and_eventually_expire : test :=
  '(session, _) ← session_pair;
  let now := wall in
  let session := set_created_at (now - REKEY_AFTER_TIME) session in
  _ ← assert (should_rekey session now);
  _ ← assert (negb (is_expired session now));
  let session := set_created_at (now - REJECT_AFTER_TIME) session in
  _ ← assert (is_expired session now);
  let session := set_created_at now session in
  let session := set_send_counter session REKEY_AFTER_MESSAGES in
  assert (should_rekey session now).

Lemma noise_tests_pass : forallb passed
  [standard_noise_handshake_and_transport_are_bidirectional; consecutive_packets_use_consecutive_unique_counters;
   replay_is_rejected_but_out_of_order_packets_are_accepted; forged_high_counter_does_not_poison_replay_window;
   wrong_psk_and_wrong_configured_static_are_rejected; handshake_identifier_is_authenticated_by_the_transcript;
   sessions_request_rekey_and_eventually_expire] = true.
Proof. vm_compute. reflexivity. Qed.
End NoiseTests.

(** ** tests/integration.rs *)

Module IntegrationTests.
Import NoiseTests.

(** The secret key and its public key. *)
Definition gen_keypair (rng : Rng) : (bytes * bytes) * Rng :=
  let '(secret, rng) := fill_bytes rng 32 in ((secret, public_key_of secret), rng).

Definition do_handshake (initiator_static initiator_public responder_static responder_public psk : bytes) (rng : Rng)
    : option ((Session * Session) * Rng) :=
  '(rng, initiator) ← unwrap (initiator_start initiator_static responder_public psk rng);
  '(rng, responder) ← unwrap (responder_respond responder_static initiator_public psk
                        (ih_handshake_id initiator) (ih_message initiator) wall rng);
  initiator_session ← value_of (initiator_finalize (ih_state initiator) (rh_message responder) wall);
  _ ← assert_eq (session_id initiator_session) (session_id (rh_session responder));
  Some ((initiator_session, rh_session responder), rng).

Definition random_session_pair (psk : bytes) (rng : Rng) : option ((Session * Session) * Rng) :=
  let '((initiator_static, initiator_public), rng) := gen_keypair rng in
  let '((responder_static, responder_public), rng) := gen_keypair rng in
  do_handshake initiator_static initiator_public responder_static responder_public psk rng.

Definition full_handshake_then_bidirectional_data_round_trip : test :=
  '((initiator, responder), _) ← random_session_pair (key32 66) 1;
  '(initiator, packet) ← unwrap (encrypt MsgType.Data (b "hello from initiator") initiator);
  '(responder, received) ← unwrap (decrypt_packet packet responder);
  _ ← assert_eq received (MsgType.Data, b "hello from initiator");
  '(responder, reply) ← unwrap (encrypt MsgType.Data (b "hello from responder") responder);
  '(initiator, received) ← unwrap (decrypt_packet reply initiator);
  assert_eq received (MsgType.Data, b "hello from responder").

Definition keepalive_probe_and_ack_are_authenticated : test :=
  '((initiator, responder), _) ← random_session_pair (key32 67) 1;
  '(initiator, empty) ← unwrap (encrypt MsgType.Keepalive [] initiator);
  '(responder, received) ← unwrap (decrypt_packet empty responder);
  _ ← assert_eq received (MsgType.Keepalive, []);
  '(initiator, probe) ← unwrap (encrypt MsgType.Keepalive KEEPALIVE_PROBE_PAYLOAD initiator);
  '(responder, received) ← unwrap (decrypt_packet probe responder);
  _ ← assert_eq received (MsgType.Keepalive, KEEPALIVE_PROBE_PAYLOAD);
  '(responder, acknowledgement) ← unwrap (encrypt MsgType.Keepalive KEEPALIVE_ACK_PAYLOAD responder);
  '(initiator, received) ← unwrap (decrypt_packet acknowledgement initiator);
  assert_eq received (MsgType.Keepalive, KEEPALIVE_ACK_PAYLOAD).

Definition wrong_session_and_ciphertext_tampering_are_rejected : test :=
  '((sender, _), rng) ← random_session_pair (key32 68) 1;
  '((_, unrelated_receiver), rng) ← random_session_pair (key32 69) rng;
  '(sender, packet) ← unwrap (encrypt MsgType.Data (b "secret") sender);
  '(unrelated_receiver, e) ← unwrap_err (decrypt_packet packet unrelated_receiver);
  _ ← assert (match e with WrongSession => true | _ => false end);
  let wrong_key_packet := patch 2 (session_id unrelated_receiver) packet in
  '(unrelated_receiver, _) ← unwrap_err (decrypt_packet wrong_key_packet unrelated_receiver);
  '((real_sender, real_receiver), _) ← random_session_pair (key32 71) rng;
  '(real_sender, tampered) ← unwrap (encrypt MsgType.Data (b "authenticated") real_sender);
  last_byte ← last tampered;
  let tampered := <[(length tampered - 1)%nat := Z.lxor last_byte 1]> tampered in
  '(real_receiver, _) ← unwrap_err (decrypt_packet tampered real_receiver);
  assert_ne (session_id real_receiver) (session_id unrelated_receiver).

Definition replayed_packet_is_rejected_by_the_session : test :=
  '((initiator, responder), _) ← random_session_pair (key32 72) 1;
  '(initiator, packet) ← unwrap (encrypt MsgType.Data (b "once") initiator);
  '(responder, _) ← unwrap (decrypt_packet packet responder);
  '(responder, e) ← unwrap_err (decrypt_packet packet responder);
  assert (is_replay e).

Definition wrong_psk_fails_when_initiator_processes_the_response : test :=
  let '((initiator_static, initiator_public), rng) := gen_keypair 1 in
  let '((responder_static, responder_public), rng) := gen_keypair rng in
  '(rng, initiator) ← unwrap (initiator_start initiator_static responder_public (key32 80) rng);
  '(rng, response) ← unwrap (responder_respond responder_static initiator_public (key32 81)
                       (ih_handshake_id initiator) (ih_message initiator) wall rng);
  assert (is_err (initiator_finalize (ih_state initiator) (rh_message response) wall)).

Definition handshake_packets_are_v3_framed_and_bound_to_their_identifier : test :=
  let '((initiator_static, _), rng) := gen_keypair 1 in
  let '((_, responder_public), rng) := gen_keypair rng in
  '(rng, handshake) ← unwrap (initiator_start initiator_static responder_public (key32 82) rng);
  let packet := encode_handshake PacketKind.HandshakeInit (ih_handshake_id handshake) (ih_message handshake) in
  _ ← match decode_packet packet with
      | Some (Handshake PacketKind.HandshakeInit handshake_id _) => assert_eq handshake_id (ih_handshake_id handshake)
      | _ => None
      end;
  let old_version := <[0%nat := 2]> packet in
  assert_eq (decode_packet old_version) None.

Definition repeated_handshakes_produce_fresh_sessions : test :=
  let '((initiator_static, initiator_public), rng) := gen_keypair 1 in
  let '((responder_static, responder_public), rng) := gen_keypair rng in
  '((first, _), rng) ← do_handshake initiator_static initiator_public responder_static responder_public (key32 83) rng;
  '((second, _), rng) ← do_handshake initiator_static initiator_public responder_static responder_public (key32 83) rng;
  assert_ne (session_id first) (session_id second).

(** The loop over [expected]; [n] packets are left. *)
Fixpoint expect_counters (n : nat) (expected : u64) (initiator : Session) : option Session :=
  match n with
  | O => Some initiator
  | S n =>
      '(initiator, packet) ← unwrap (encrypt MsgType.Data (b "x") initiator);
      counter ← transport_counter packet;
      _ ← assert (counter =? expected);
      expect_counters n (expected + 1) initiator
  end.
Definition eighty_thousand_packets_have_unique_monotonic_nonces : test :=
  '((initiator, _), _) ← random_session_pair (key32 84) 1;
  initiator ← expect_counters (Z.to_nat 80000) 0 initiator;
  assert (send_counter initiator =? 80000).

Definition one_server_static_key_supports_multiple_isolated_clients : test :=
  let '((server_static, server_public), rng) := gen_keypair 1 in
  let '((client_a_static, client_a_public), rng) := gen_keypair rng in
  let '((client_b_static, client_b_public), rng) := gen_keypair rng in
  '((client_a, server_for_a), rng) ← do_handshake client_a_static client_a_public server_static server_public (key32 97) rng;
  '((client_b, server_for_b), rng) ← do_handshake client_b_static client_b_public server_static server_public (key32 98) rng;
  '(client_a, from_a) ← unwrap (encrypt MsgType.Data (b "client-a") client_a);
  '(server_for_a, received) ← unwrap (decrypt_packet from_a server_for_a);
  _ ← assert_eq received.2 (b "client-a");
  '(server_for_b, _) ← unwrap_err (decrypt_packet from_a server_for_b);
  '(server_for_b, from_b) ← unwrap (encrypt MsgType.Data (b "to-client-b") server_for_b);
  '(client_b, received) ← unwrap (decrypt_packet from_b client_b);
  _ ← assert_eq received.2 (b "to-client-b");
  '(client_a, _) ← unwrap_err (decrypt_packet from_b client_a);
  '(rng, init) ← unwrap (initiator_start client_a_static server_public (key32 97) rng);
  '(rng, e) ← unwrap_err (responder_respond server_static client_b_public (key32 98)
                (ih_handshake_id init) (ih_message init) wall rng);
  assert (match e with RemoteStaticMismatch | Snow_ _ => true | _ => false end).

Lemma integration_tests_pass : forallb passed
  [full_handshake_then_bidirectional_data_round_trip; keepalive_probe_and_ack_are_authenticated;
   wrong_session_and_ciphertext_tampering_are_rejected; replayed_packet_is_rejected_by_the_session;
   wrong_psk_fails_when_initiator_processes_the_response;
   handshake_packets_are_v3_framed_and_bound_to_their_identifier; repeated_handshakes_produce_fresh_sessions;
   one_server_static_key_supports_multiple_isolated_clients] = true.
Proof. vm_compute. reflexivity. Qed.

(** The long run needs no evaluation. *)
Lemma expect_counters_ok n : forall c s, session_wf s -> send_counter s = c -> c + Z.of_nat n <= U64_MAX ->
  exists s', expect_counters n c s = Some s' /\ send_counter s' = c + Z.of_nat n.
Proof.
  induction n as [|n IH]; intros c s Hs Hc Hn; cbn [expect_counters]; [exists s; split; [done|lia]|].
  destruct Hs as [Hw Hsend Hrecv Hsid]. unfold is_u64 in *.
  assert (He : exists ct, encrypt MsgType.Data (b "x") s =
      (set_send_counter s (c + 1), Ok (encode_transport (session_id s) c ct)) /\ (17 <= length ct)%nat).
  { rewrite encrypt_eq, Hc, (proj2 (Z.eqb_neq _ _)) by lia. cbn [ts_write ref_snow]. unfold ref_ts_write.
    eexists. split; [reflexivity|]. rewrite length_app. unfold ref_tag. rewrite length_replicate. cbn. lia. }
  destruct He as (ct & -> & Hct). cbn [unwrap mbind option_bind]. unfold transport_counter.
  rewrite decode_encode_transport by (split_and!; [done|lia|lia|done]). cbn [mbind option_bind]. rewrite Z.eqb_refl. cbn [assert mbind option_bind].
  destruct (IH (c + 1) (set_send_counter s (c + 1))) as (s' & E & Hs'); [|done|lia|exists s'; split; [done|lia]].
  split; cbn; [done|unfold is_u64; lia|done|done].
Qed.

Lemma do_handshake_new a pa r pr psk rng s1 s2 rng' :
  do_handshake a pa r pr psk rng = Some ((s1, s2), rng') -> session_wf s1 /\ send_counter s1 = 0.
Proof.
  unfold do_handshake. destruct (unwrap _) as [[rng1 ih]|]; [|done]. cbn [mbind option_bind].
  destruct (unwrap _) as [[rng2 rh]|]; [|done]. cbn [mbind option_bind].
  destruct (initiator_finalize _ _ _) as [s| |] eqn:E; [|done..]. cbn [value_of mbind option_bind].
  unfold assert. case_bool_decide; [|done]. cbn. intros [= <- _ _].
  destruct (initiator_finalize_new _ _ _ _ E) as (? & ? & _). done.
Qed.

Lemma eighty_thousand_packets_pass : eighty_thousand_packets_have_unique_monotonic_nonces = Some tt.
Proof.
  unfold eighty_thousand_packets_have_unique_monotonic_nonces.
  assert (Hsome : match random_session_pair (key32 84) 1 with Some _ => true | None => false end = true) by (vm_compute; reflexivity).
  destruct (random_session_pair (key32 84) 1) as [[[initiator s2] rng]|] eqn:E; [|done]. clear Hsome.
  unfold random_session_pair in E. destruct (gen_keypair 1) as [[k1 k2] r1]. destruct (gen_keypair r1) as [[k3 k4] r2].
  destruct (do_handshake_new _ _ _ _ _ _ _ _ _ E) as [Hs Hc]. clear E. cbn [mbind option_bind].
  pose proof (Z2Nat.id 80000 ltac:(lia)) as Hn. revert Hn. generalize (Z.to_nat 80000). intros n Hn.
  destruct (expect_counters_ok n 0 initiator Hs Hc) as (s' & E & Hs'); [unfold U64_MAX; lia|].
  rewrite E. cbn [mbind option_bind]. by rewrite Hs', Hn.
Qed.
End IntegrationTests.
