(* ===== verification/ConformanceConfig.v ===== *)
(** * The repository's tests on the model: configuration and router

    The unit tests of config.rs and router.rs, run on the definitions with
    [ref_ipnet] as the prefix library.  The base64 library is [std_base64],
    the standard alphabet with padding.  [localhost] resolves as on a host
    with IPv6, to ::1 and 127.0.0.1.  The decoder of TOML text is a
    parameter: the one test that parses a text is run with the
    decoder's answer for it. *)

From Stdlib Require Import Ascii.
From S2P Require Import Prelude Net Std Config Router.
From S2P Require Import Conformance.
From S2P Require Packet.
Open Scope Z_scope.

(** ** base64 with the standard alphabet (RFC 4648) *)

Definition b64_alphabet : chars := chars_of "ABCDEFGHIJKLMNOPQRSTUVWXYZabcdefghijklmnopqrstuvwxyz0123456789+/".
Definition b64_digit (v : Z) : ascii := default "A"%char (b64_alphabet !! Z.to_nat v).
Definition b64_value (c : ascii) : option Z := (fun p => Z.of_nat p.1) <$> list_find (eq c) b64_alphabet.

Fixpoint b64_encode_chars (l : bytes) : chars :=
  match l with
  | [] => []
  | [x] => [b64_digit (x / 4); b64_digit (x mod 4 * 16); "="%char; "="%char]
  | [x; y] => [b64_digit (x / 4); b64_digit (x mod 4 * 16 + y / 16); b64_digit (y mod 16 * 4); "="%char]
  | x :: y :: z :: l =>
      b64_digit (x / 4) :: b64_digit (x mod 4 * 16 + y / 16) :: b64_digit (y mod 16 * 4 + z / 64) :: b64_digit (z mod 64)
        :: b64_encode_chars l
  end.
(** Padding is required and the bits it leaves must be zero. *)
Fixpoint b64_decode_chars (l : chars) : option bytes :=
  match l with
  | [] => Some []
  | c1 :: c2 :: c3 :: c4 :: l =>
      v1 ← b64_value c1; v2 ← b64_value c2;
      if bool_decide (c4 = "="%char) then
        if negb (length l =? 0)%nat then None else
        if bool_decide (c3 = "="%char) then
          if negb (v2 mod 16 =? 0) then None else Some [v1 * 4 + v2 / 16]
        else
          v3 ← b64_value c3;
          if negb (v3 mod 4 =? 0) then None else Some [v1 * 4 + v2 / 16; v2 mod 16 * 16 + v3 / 4]
      else
        v3 ← b64_value c3; v4 ← b64_value c4; rest ← b64_decode_chars l;
        Some (v1 * 4 + v2 / 16 :: v2 mod 16 * 16 + v3 / 4 :: v3 mod 4 * 64 + v4 :: rest)
  | _ => None
  end.
Definition b64_encode (l : bytes) : string := of_chars (b64_encode_chars l).
Definition std_base64 : Base64 := {| b64_decode s := b64_decode_chars (chars_of s) |}.

Definition localhost_resolver : Resolver :=
  {| io_error := unit; io_not_found _ := tt;
     to_socket_addrs h p := if bool_decide (h = "localhost"%string) then Ok [SA6 1 p 0 0; SA4 2130706433 p] else Err tt |}.

#[local] Existing Instances ref_ipnet std_base64 localhost_resolver.

(** A prefix, an address and an endpoint, as the tests write them. *)
Definition net (a b c d len : Z) : Ipv4Net := (Packet.Ipv4Addr_new a b c d, len).
Definition ip (a b c d : Z) : u32 := Packet.Ipv4Addr_new a b c d.
Definition endpoint_text (s : string) : PeerEndpoint :=
  match from_str s with Ok e => e | _ => endpoint_of (SA4 0 0) end.
Definition socket_text (s : string) : SocketAddr := default (SA4 0 0) (parse_socket_addr (chars_of s)).
Definition is_loopback (a : SocketAddr) : bool :=
  match sa_ip a with V4 x => (2130706432 <=? x) && (x <? 2147483648) | V6 x => x =? 1 end.

(** ** config.rs *)

Module ConfigTests.

Definition VALID_PSK : string := "QkJCQkJCQkJCQkJCQkJCQkJCQkJCQkJCQkJCQkJCQkI=".
Definition VALID_KEY : string := "QkJCQkJCQkJCQkJCQkJCQkJCQkJCQkJCQkJCQkJCQkI=".

Definition interface : InterfaceConfig := {|
  if_name := "utun10"; address := net 10 77 0 1 24; listen := socket_text "127.0.0.1:27777"; if_transport := Udp;
  mtu := 1280; private_key := VALID_KEY |}.

Definition peer (name : string) : PeerConfig := {|
  pc_name := name; pc_endpoint := endpoint_text "127.0.0.1:27778"; allowed_ips := [net 10 77 0 2 32]; pc_excluded_ips := [];
  pc_psk := VALID_PSK; pc_public_key := VALID_KEY; pc_persistent_keepalive := 0; pc_udp_rebind_after := 0;
  pc_session_timeout := None |}.

(** Fields a test assigns. *)
Definition with_allowed (l : list Ipv4Net) (p : PeerConfig) : PeerConfig := {|
  pc_name := pc_name p; pc_endpoint := pc_endpoint p; allowed_ips := l; pc_excluded_ips := pc_excluded_ips p;
  pc_psk := pc_psk p; pc_public_key := pc_public_key p; pc_persistent_keepalive := pc_persistent_keepalive p;
  pc_udp_rebind_after := pc_udp_rebind_after p; pc_session_timeout := pc_session_timeout p |}.
Definition with_excluded (l : list Ipv4Net) (p : PeerConfig) : PeerConfig := {|
  pc_name := pc_name p; pc_endpoint := pc_endpoint p; allowed_ips := allowed_ips p; pc_excluded_ips := l;
  pc_psk := pc_psk p; pc_public_key := pc_public_key p; pc_persistent_keepalive := pc_persistent_keepalive p;
  pc_udp_rebind_after := pc_udp_rebind_after p; pc_session_timeout := pc_session_timeout p |}.
Definition with_keys (psk public_key : string) (p : PeerConfig) : PeerConfig := {|
  pc_name := pc_name p; pc_endpoint := pc_endpoint p; allowed_ips := allowed_ips p; pc_excluded_ips := pc_excluded_ips p;
  pc_psk := psk; pc_public_key := public_key; pc_persistent_keepalive := pc_persistent_keepalive p;
  pc_udp_rebind_after := pc_udp_rebind_after p; pc_session_timeout := pc_session_timeout p |}.
Definition with_timers (keepalive rebind : Z) (timeout : option Z) (p : PeerConfig) : PeerConfig := {|
  pc_name := pc_name p; pc_endpoint := pc_endpoint p; allowed_ips := allowed_ips p; pc_excluded_ips := pc_excluded_ips p;
  pc_psk := pc_psk p; pc_public_key := pc_public_key p; pc_persistent_keepalive := keepalive;
  pc_udp_rebind_after := rebind; pc_session_timeout := timeout |}.
Definition with_name_mtu (name : string) (m : Z) (i : InterfaceConfig) : InterfaceConfig := {|
  if_name := name; address := address i; listen := listen i; if_transport := if_transport i; mtu := m; private_key := private_key i |}.
Definition with_transport (t : TransportConfig) (i : InterfaceConfig) : InterfaceConfig := {|
  if_name := if_name i; address := address i; listen := listen i; if_transport := t; mtu := mtu i; private_key := private_key i |}.

Definition config (i : InterfaceConfig) (g : option GatewayConfig) (ps : list PeerConfig) : Config :=
  {| Config.interface := i; gateway := g; Config.peer := ps |}.
Definition accepted (c : Config) : test := match validate c with Ok tt => Some tt | _ => None end.
Definition rejected (c : Config) (matches : ConfigError -> bool) : test :=
  match validate c with Err e => assert (matches e) | _ => None end.

Definition parses_ip_and_dns_peer_endpoints_without_resolving : test :=
  literal ← value_of (from_str "192.0.2.10:27777");
  _ ← assert_eq (display literal) "192.0.2.10:27777"%string;
  _ ← assert (negb (is_dns_name literal));
  resolved ← value_of (resolve literal);
  _ ← assert_eq resolved (socket_text "192.0.2.10:27777");
  hostname ← value_of (from_str "home.minjie.wang:11063");
  _ ← assert_eq (display hostname) "home.minjie.wang:11063"%string;
  assert (is_dns_name hostname).

Definition resolves_hostname_endpoints_with_ipv4_preference : test :=
  endpoint ← value_of (from_str "localhost:27777");
  resolved ← value_of (resolve endpoint);
  _ ← assert_eq (sa_port resolved) 27777;
  _ ← assert (is_loopback resolved);
  assert (is_ipv4 resolved).

(** The decoder is a parameter: this is what it makes of the test's text,
    with serde's defaults for the missing fields. *)
Definition dns_config : Config :=
  config (Build_InterfaceConfig "utun10" (net 10 77 0 2 30) (socket_text "0.0.0.0:0") Udp default_mtu VALID_KEY) None
    [{| pc_name := "home"; pc_endpoint := endpoint_text "home.minjie.wang:11063"; allowed_ips := [net 10 77 0 1 32];
        pc_excluded_ips := []; pc_psk := VALID_PSK; pc_public_key := VALID_KEY; pc_persistent_keepalive := 0;
        pc_udp_rebind_after := 0; pc_session_timeout := None |}].
Definition dns_source : ConfigSource :=
  {| toml_error := unit; read_error := unit; read_to_string _ := Err tt; toml_from_str _ := Ok dns_config |}.
Definition config_parse_accepts_a_dns_peer_endpoint : test :=
  config ← value_of (parse (H := dns_source) "text of the test");
  p ← head (Config.peer config);
  assert_eq (display (pc_endpoint p)) "home.minjie.wang:11063"%string.

Definition rejects_malformed_peer_endpoints : test :=
  all_of (fun value => assert (is_err (from_str value)))
    ["home.minjie.wang"; "home.minjie.wang:not-a-port"; "-home.example:11063"; "home..example:11063";
     "unbracketed::1:11063"]%string.

Definition accepts_covered_excluded_ips : test :=
  let p := with_excluded [net 10 0 0 0 8; net 192 168 0 0 16] (with_allowed [net 0 0 0 0 0] (peer "home")) in
  accepted (config interface None [p]).

Definition rejects_uncovered_duplicate_and_default_exclusions : test :=
  let uncovered := with_excluded [net 192 168 0 0 16] (peer "home") in
  _ ← rejected (config interface None [uncovered]) (fun e => match e with ExcludedIpNotCovered _ _ => true | _ => false end);
  let duplicate := with_excluded [net 10 0 0 0 8; net 10 0 0 0 8] (with_allowed [net 0 0 0 0 0] (peer "home")) in
  _ ← rejected (config interface None [duplicate]) (fun e => match e with DuplicateExcludedIp _ _ => true | _ => false end);
  let default := with_excluded [net 0 0 0 0 0] (with_allowed [net 0 0 0 0 0] (peer "home")) in
  rejected (config interface None [default]) (fun e => match e with ExcludedDefaultRoute _ => true | _ => false end).

Definition encoded_key (byte : u8) : string := b64_encode (replicate 32 byte).

Definition accepts_minimal_valid_config : test := accepted (config interface None [peer "node-b"]).
Definition accepts_config_with_no_peers : test := accepted (config interface None []).

Definition rejects_empty_interface_name : test :=
  rejected (config (with_name_mtu "   " 1280 interface) None []) (fun e => match e with EmptyInterfaceName => true | _ => false end).
Definition rejects_mtu_below_minimum : test :=
  rejected (config (with_name_mtu "utun10" 575 interface) None []) (fun e => match e with MtuTooSmall m => m =? 575 | _ => false end).
Definition accepts_mtu_at_boundary : test := accepted (config (with_name_mtu "utun10" 576 interface) None []).

Definition accepts_explicit_gateway_policy : test :=
  accepted (config interface (Some {| lan_interface := "en0"; tcp_mss := Some 1160 |}) []).
Definition rejects_gateway_using_the_tunnel_as_its_lan_interface : test :=
  rejected (config interface (Some {| lan_interface := "utun10"; tcp_mss := None |}) [])
    (fun e => match e with IdenticalGatewayInterfaces name => bool_decide (name = "utun10"%string) | _ => false end).
Definition rejects_gateway_mss_larger_than_tunnel_payload : test :=
  rejected (config interface (Some {| lan_interface := "en0"; tcp_mss := Some 1241 |}) [])
    (fun e => match e with GatewayMssOutOfRange mss _ maximum m => (mss =? 1241) && (maximum =? 1240) && (m =? 1280) | _ => false end).

Definition rejects_empty_peer_name : test :=
  rejected (config interface None [peer ""]) (fun e => match e with EmptyPeerName => true | _ => false end).
Definition rejects_duplicate_peer_names : test :=
  rejected (config interface None [peer "dup"; peer "dup"])
    (fun e => match e with DuplicatePeerName n => bool_decide (n = "dup"%string) | _ => false end).
Definition rejects_duplicate_peer_psks : test :=
  let second := with_keys VALID_PSK (encoded_key 67) (peer "second") in
  rejected (config interface None [peer "first"; second])
    (fun e => match e with DuplicatePeerPsk a b => bool_decide (a = "first"%string /\ b = "second"%string) | _ => false end).
Definition rejects_duplicate_peer_public_keys : test :=
  let second := with_keys (encoded_key 67) VALID_KEY (peer "second") in
  rejected (config interface None [peer "first"; second])
    (fun e => match e with DuplicatePeerPublicKey a b => bool_decide (a = "first"%string /\ b = "second"%string) | _ => false end).
Definition rejects_peer_without_allowed_ips : test :=
  rejected (config interface None [with_allowed [] (peer "node-b")]) (fun e => match e with PeerWithoutAllowedIps _ => true | _ => false end).
Definition rejects_invalid_psk_wrong_length : test :=
  rejected (config interface None [with_keys "AAAAAAAAAAAAAAAAAAAAAA==" VALID_KEY (peer "node-b")])
    (fun e => match e with InvalidPsk _ => true | _ => false end).
Definition rejects_invalid_psk_not_base64 : test :=
  rejected (config interface None [with_keys "not base64 !!!" VALID_KEY (peer "node-b")])
    (fun e => match e with InvalidPsk _ => true | _ => false end).

Definition accepts_udp_rebind_with_keepalive : test := accepted (config interface None [with_timers 25 90 None (peer "node-b")]).
Definition rejects_udp_rebind_without_keepalive : test :=
  rejected (config interface None [with_timers 0 90 None (peer "node-b")])
    (fun e => match e with UdpRebindRequiresKeepalive name => bool_decide (name = "node-b"%string) | _ => false end).
Definition rejects_udp_rebind_for_tcp : test :=
  rejected (config (with_transport Tcp interface) None [with_timers 25 90 None (peer "node-b")])
    (fun e => match e with UdpRebindRequiresUdp name => bool_decide (name = "node-b"%string) | _ => false end).
Definition rejects_udp_rebind_before_a_probe_can_run : test :=
  rejected (config interface None [with_timers 25 25 None (peer "node-b")])
    (fun e => match e with UdpRebindTooSoon _ rebind keepalive => (rebind =? 25) && (keepalive =? 25) | _ => false end).

Definition tcp_keepalive_gets_an_automatic_session_timeout : test :=
  let p := with_timers 5 0 None (peer "node-b") in
  _ ← assert_eq (effective_session_timeout p Tcp) 15;
  assert_eq (effective_session_timeout p Udp) 0.
Definition explicit_session_timeout_overrides_tcp_default : test :=
  let p := with_timers 5 0 (Some 30) (peer "node-b") in
  _ ← assert_eq (effective_session_timeout p Tcp) 30;
  let p := with_timers 5 0 (Some 0) p in
  assert_eq (effective_session_timeout p Tcp) 0.
Definition rejects_session_timeout_without_keepalive : test :=
  rejected (config interface None [with_timers 0 0 (Some 30) (peer "node-b")])
    (fun e => match e with SessionTimeoutRequiresKeepalive name => bool_decide (name = "node-b"%string) | _ => false end).
Definition rejects_session_timeout_before_a_probe_can_run : test :=
  rejected (config interface None [with_timers 10 0 (Some 10) (peer "node-b")])
    (fun e => match e with SessionTimeoutTooSoon _ timeout keepalive => (timeout =? 10) && (keepalive =? 10) | _ => false end).

Definition decode_psk_round_trip : test :=
  let raw := replicate 32 66 in
  decoded ← decode_psk (b64_encode raw);
  assert_eq decoded raw.
Definition decode_psk_rejects_short : test := assert_eq (decode_psk "AAAA") None.
Definition decode_psk_rejects_garbage : test := assert_eq (decode_psk "@@@@") None.

Lemma config_tests_pass : forallb passed
  [parses_ip_and_dns_peer_endpoints_without_resolving; resolves_hostname_endpoints_with_ipv4_preference;
   config_parse_accepts_a_dns_peer_endpoint; rejects_malformed_peer_endpoints; accepts_covered_excluded_ips; rejects_uncovered_duplicate_and_default_exclusions;
   accepts_minimal_valid_config; accepts_config_with_no_peers; rejects_empty_interface_name; rejects_mtu_below_minimum;
   accepts_mtu_at_boundary; accepts_explicit_gateway_policy; rejects_gateway_using_the_tunnel_as_its_lan_interface;
   rejects_gateway_mss_larger_than_tunnel_payload; rejects_empty_peer_name; rejects_duplicate_peer_names;
   rejects_duplicate_peer_psks; rejects_duplicate_peer_public_keys; rejects_peer_without_allowed_ips;
   rejects_invalid_psk_wrong_length; rejects_invalid_psk_not_base64; accepts_udp_rebind_with_keepalive;
   rejects_udp_rebind_without_keepalive; rejects_udp_rebind_for_tcp; rejects_udp_rebind_before_a_probe_can_run;
   tcp_keepalive_gets_an_automatic_session_timeout; explicit_session_timeout_overrides_tcp_default;
   rejects_session_timeout_without_keepalive; rejects_session_timeout_before_a_probe_can_run;
   decode_psk_round_trip; decode_psk_rejects_short; decode_psk_rejects_garbage] = true.
Proof. vm_compute. reflexivity. Qed.
End ConfigTests.

(** ** router.rs *)

Module RouterTests.

Definition KEY : string := "QkJCQkJCQkJCQkJCQkJCQkJCQkJCQkJCQkJCQkJCQkI=".
Definition config (ps : list PeerConfig) : Config := {|
  interface := {| if_name := "utun10"; address := net 10 77 0 1 24; listen := socket_text "127.0.0.1:27777";
                  if_transport := Udp; mtu := 1280; private_key := KEY |};
  gateway := None; Config.peer := ps |}.

Definition peer_multi (name : string) (prefixes : list Ipv4Net) (endpoint : string) : PeerConfig := {|
  pc_name := name; pc_endpoint := endpoint_text endpoint; allowed_ips := prefixes; pc_excluded_ips := [];
  pc_psk := KEY; pc_public_key := KEY; pc_persistent_keepalive := 0; pc_udp_rebind_after := 0; pc_session_timeout := None |}.
Definition peer (name : string) (prefix : Ipv4Net) (endpoint : string) : PeerConfig := peer_multi name [prefix] endpoint.

Definition new (c : Config) : option Router := value_of (Router_new c).
Definition routed_to (r : Router) (d : u32) (peer_name : string) (p : Ipv4Net) : test :=
  route ← lookup r d;
  _ ← assert_eq (name (route_peer route)) peer_name;
  assert_eq (prefix route) p.
Definition unrouted (r : Router) (d : u32) : test := match lookup r d with None => Some tt | Some _ => None end.
Definition some_route (r : Router) (d : u32) : test := _ ← lookup r d; Some tt.

Definition picks_the_longest_matching_prefix : test :=
  router ← new (config [peer "broad" (net 10 77 0 0 24) "127.0.0.1:27778"; peer "specific" (net 10 77 0 2 32) "127.0.0.1:27779"]);
  routed_to router (ip 10 77 0 2) "specific" (net 10 77 0 2 32).

Definition returns_none_when_no_route_matches : test :=
  router ← new (config [peer "node-b" (net 10 77 0 2 32) "127.0.0.1:27778"]);
  unrouted router (ip 8 8 8 8).

Definition handles_peer_with_multiple_allowed_ips : test :=
  router ← new (config [peer_multi "hub" [net 10 77 0 0 24; net 192 168 50 0 24] "127.0.0.1:27778"]);
  _ ← assert_eq (length (routes router)) 2%nat;
  _ ← routed_to router (ip 10 77 0 5) "hub" (net 10 77 0 0 24);
  routed_to router (ip 192 168 50 99) "hub" (net 192 168 50 0 24).

Definition router_with_no_peers_has_no_routes : test :=
  router ← new (config []);
  _ ← assert_eq (length (routes router)) 0%nat;
  unrouted router (ip 10 77 0 2).

Definition rejects_duplicate_prefixes : test :=
  match Router_new (config [peer "first" (net 10 77 0 2 32) "127.0.0.1:27778"; peer "second" (net 10 77 0 2 32) "127.0.0.1:27779"]) with
  | Err (DuplicatePrefix _ _ _) => Some tt
  | _ => None
  end.

Definition resolves_dns_endpoint_once_when_building_router : test :=
  router ← new (config [peer "node-b" (net 10 77 0 2 32) "localhost:27778"]);
  route ← head (routes router);
  let p := route_peer route in
  _ ← assert_eq (display (configured_endpoint p)) "localhost:27778"%string;
  _ ← assert_eq (sa_port (endpoint p)) 27778;
  _ ← assert (is_loopback (endpoint p));
  assert (is_ipv4 (endpoint p)).

Definition identifies_only_endpoints_captured_by_tunnel_routes : test :=
  router ← new (config [peer_multi "home" [net 10 0 0 1 32; net 192 0 0 0 4] "192.0.2.10:11063"]);
  let exceptions := endpoint_exception_peers router in
  _ ← assert_eq (name <$> exceptions) ["home"%string];
  uncaptured ← new (config [peer "home" (net 10 0 0 1 32) "192.0.2.10:11063"]);
  assert_eq (length (endpoint_exception_peers uncaptured)) 0%nat.

Definition excluded_ips_override_allowed_routes_without_hiding_other_destinations : test :=
  let home := ConfigTests.with_excluded [net 10 0 0 0 8; net 192 168 0 0 16] (peer "home" (net 0 0 0 0 0) "192.0.2.10:11063") in
  router ← new (config [home]);
  _ ← some_route router (ip 8 8 8 8);
  _ ← unrouted router (ip 10 1 2 3);
  _ ← unrouted router (ip 192 168 100 1);
  assert_eq (length (excluded_routes router)) 2%nat.

Definition more_specific_allowed_ip_overrides_a_broad_exclusion : test :=
  let home := ConfigTests.with_excluded [net 10 0 0 0 8; net 172 16 0 0 12]
    (peer_multi "home" [net 10 0 0 1 32; net 172 16 1 8 32; net 0 0 0 0 0] "192.0.2.10:11063") in
  router ← new (config [home]);
  _ ← routed_to router (ip 10 0 0 1) "home" (net 10 0 0 1 32);
  _ ← routed_to router (ip 172 16 1 8) "home" (net 172 16 1 8 32);
  _ ← unrouted router (ip 10 0 0 2);
  unrouted router (ip 172 16 1 9).

Definition wireguard_complement_policy_can_be_expressed_as_six_exclusions : test :=
  let home := ConfigTests.with_excluded
    [net 10 0 0 0 8; net 42 187 128 0 17; net 58 32 0 0 16; net 58 41 0 0 16; net 109 244 0 0 19; net 218 80 0 0 16]
    (peer_multi "home" [net 10 0 0 1 32; net 172 16 1 8 32; net 0 0 0 0 0] "192.0.2.10:11063") in
  router ← new (config [home]);
  _ ← some_route router (ip 10 0 0 1);
  _ ← some_route router (ip 172 16 1 8);
  _ ← all_of (unrouted router)
    [ip 10 0 0 2; ip 42 187 128 1; ip 58 32 1 1; ip 58 41 1 1; ip 109 244 0 1; ip 218 80 1 1];
  all_of (some_route router)
    [ip 1 1 1 1; ip 42 187 127 255; ip 58 33 0 1; ip 58 42 0 1; ip 109 244 32 1; ip 218 81 0 1].

Definition explicit_exclusion_also_prevents_redundant_endpoint_exception : test :=
  let home := ConfigTests.with_excluded [net 192 0 2 0 24] (peer "home" (net 0 0 0 0 0) "192.0.2.10:11063") in
  router ← new (config [home]);
  assert_eq (length (endpoint_exception_peers router)) 0%nat.

Lemma router_tests_pass : forallb passed
  [picks_the_longest_matching_prefix; returns_none_when_no_route_matches; handles_peer_with_multiple_allowed_ips;
   router_with_no_peers_has_no_routes; rejects_duplicate_prefixes; resolves_dns_endpoint_once_when_building_router;
   identifies_only_endpoints_captured_by_tunnel_routes;
   excluded_ips_override_allowed_routes_without_hiding_other_destinations;
   more_specific_allowed_ip_overrides_a_broad_exclusion; wireguard_complement_policy_can_be_expressed_as_six_exclusions;
   explicit_exclusion_also_prevents_redundant_endpoint_exception] = true.
Proof. vm_compute. reflexivity. Qed.
End RouterTests.
