(* ===== verification/ConformanceEngine.v ===== *)
(** * The repository's tests on the model: engine, scheduler and sessions

    The unit tests of engine.rs and scheduler.rs, and those of tunnel.rs,
    which exercise the session manager, run on the definitions with
    [ref_snow].  The times a manager reads itself ([Instant::now()]) are
    [WALL], the time the test took before. *)

From Stdlib Require Import Ascii.
From S2P Require Import Prelude Net Std PeerState Auth Noise Sessions Config Router Engine Scheduler.
From S2P Require Import Conformance ConformanceConfig.
From S2P Require Packet.
Open Scope Z_scope.

#[local] Existing Instances ref_ipnet std_base64 localhost_resolver ref_snow.

Definition WALL : Instant := from_secs 10000.

#[local] Instance RecoveryPolicy_eq_dec : EqDecision RecoveryPolicy.
Proof. solve_decision. Defined.

(** ** scheduler.rs *)

Module SchedulerTests.

Definition udp_rebind_policy_takes_precedence_over_session_timeout : test :=
  assert_eq (recovery_policy Udp 90 30) (Some {| timeout := from_secs 90; rebind_udp := true |}).

Definition tcp_uses_session_only_recovery : test :=
  assert_eq (recovery_policy Tcp 0 15) (Some {| timeout := from_secs 15; rebind_udp := false |}).

Definition recovery_attempts_are_rate_limited_against_latest_health_signal : test :=
  let now := WALL in
  let stale := now - from_secs 180 in
  _ ← assert (recovery_due now stale None (from_secs 90));
  let recent_attempt := Some (now - from_secs 5) in
  _ ← assert (negb (recovery_due now stale recent_attempt (from_secs 90)));
  let recent_packet := now - from_secs 5 in
  let old_attempt := Some (now - from_secs 120) in
  assert (negb (recovery_due now recent_packet old_attempt (from_secs 90))).

Definition rebind_forces_one_shot_keepalive_even_when_periodic_interval_is_zero : test :=
  assert (keepalive_should_send WALL None 0 false true).

Definition peer_without_keepalive_stays_silent_without_rebind : test :=
  assert (negb (keepalive_should_send WALL None 0 false false)).

Lemma scheduler_tests_pass : forallb passed
  [udp_rebind_policy_takes_precedence_over_session_timeout; tcp_uses_session_only_recovery;
   recovery_attempts_are_rate_limited_against_latest_health_signal;
   rebind_forces_one_shot_keepalive_even_when_periodic_interval_is_zero;
   peer_without_keepalive_stays_silent_without_rebind] = true.
Proof. vm_compute. reflexivity. Qed.
End SchedulerTests.

(** ** engine.rs *)

Module EngineTests.

Record TestConfig := {
  tc_name : string; tc_address : Ipv4Net; tc_listen : SocketAddr; tc_private_key : bytes; tc_peer_name : string;
  tc_peer_address : Ipv4Net; tc_peer_endpoint : SocketAddr; tc_peer_public_key : bytes; tc_psk : bytes }.

Definition config (t : TestConfig) : Config := {|
  interface := {| if_name := tc_name t; address := tc_address t; listen := tc_listen t; if_transport := Udp;
                  mtu := 1280; private_key := b64_encode (tc_private_key t) |};
  gateway := None;
  peer := [{| pc_name := tc_peer_name t; pc_endpoint := endpoint_of (tc_peer_endpoint t); allowed_ips := [tc_peer_address t];
              pc_excluded_ips := []; pc_psk := b64_encode (tc_psk t); pc_public_key := b64_encode (tc_peer_public_key t);
              pc_persistent_keepalive := 5; pc_udp_rebind_after := 20; pc_session_timeout := None |}] |}.

(** [copy_from_slice] into the zeroed packet. *)
Definition ipv4_packet (source destination : u32) : bytes :=
  let packet := replicate 20 0 in
  let packet_length := len packet in
  let packet := <[0%nat := 69]> packet in
  let packet := NoiseTests.patch 2 (to_be_bytes 2 packet_length) packet in
  let packet := <[8%nat := 64]> packet in
  let packet := <[9%nat := 17]> packet in
  let packet := NoiseTests.patch 12 (to_be_bytes 4 source) packet in
  NoiseTests.patch 16 (to_be_bytes 4 destination) packet.

Definition take_send (output : EngineOutput) : option (string * SocketAddr * bytes * list EngineEvent) :=
  match actions output with [SendTransport peer_name endpoint frame] => Some (peer_name, endpoint, frame, events output) | _ => None end.
Definition take_ip (output : EngineOutput) : option (string * SocketAddr * bytes) :=
  match actions output, events output with [WriteIpPacket peer_name source packet], [] => Some (peer_name, source, packet) | _, _ => None end.

(** The call of an engine in state [st]; every [Instant::now()] is [WALL]. *)
Definition outbound (e : Engine) (packet : bytes) (now : Instant) (st : EngineState) : option (EngineState * EngineOutput) :=
  unwrap (process_outbound_ip e packet now st).
Definition inbound (e : Engine) (frame : bytes) (source : SocketAddr) (now : Instant) (st : EngineState) : option (EngineState * EngineOutput) :=
  unwrap (process_inbound_transport e frame source now (fun _ => WALL) st).

Definition no_events (l : list EngineEvent) : test := assert (length l =? 0)%nat.
Definition completed (l : list EngineEvent) (peer_name : string) (endpoint : SocketAddr) (initiator : bool) : test :=
  match l with
  | [HandshakeCompleted p e Initiator] => assert (bool_decide (p = peer_name /\ e = endpoint) && initiator)
  | [HandshakeCompleted p e Responder] => assert (bool_decide (p = peer_name /\ e = endpoint) && negb initiator)
  | _ => None
  end.

Definition two_engines_handshake_and_exchange_ip_packets_in_memory : test :=
  let private_a := key32 17 in let private_b := key32 34 in
  let public_a := public_key_of private_a in let public_b := public_key_of private_b in
  let psk := key32 51 in
  let endpoint_a := socket_text "127.0.0.1:31001" in let endpoint_b := socket_text "127.0.0.1:31002" in
  engine_a ← value_of (Engine_new (config {| tc_name := "memory-a"; tc_address := net 10 77 80 1 30; tc_listen := endpoint_a;
    tc_private_key := private_a; tc_peer_name := "b"; tc_peer_address := net 10 77 80 2 32; tc_peer_endpoint := endpoint_b;
    tc_peer_public_key := public_b; tc_psk := psk |}));
  engine_b ← value_of (Engine_new (config {| tc_name := "memory-b"; tc_address := net 10 77 80 2 30; tc_listen := endpoint_b;
    tc_private_key := private_b; tc_peer_name := "a"; tc_peer_address := net 10 77 80 1 32; tc_peer_endpoint := endpoint_a;
    tc_peer_public_key := public_a; tc_psk := psk |}));
  let a := EngineState_new 100 in let c := EngineState_new 200 in
  let now := WALL in
  let packet_a_to_b := ipv4_packet (ip 10 77 80 1) (ip 10 77 80 2) in
  '(a, output) ← outbound engine_a packet_a_to_b now a;
  '(_, destination, init, evs) ← take_send output;
  _ ← assert_eq destination endpoint_b; _ ← no_events evs;
  '(c, output) ← inbound engine_b init endpoint_a now c;
  '(_, destination, response, evs) ← take_send output;
  _ ← assert_eq destination endpoint_a; _ ← no_events evs;
  '(a, output) ← inbound engine_a response endpoint_b now a;
  '(_, destination, confirmation, evs) ← take_send output;
  _ ← assert_eq destination endpoint_b; _ ← completed evs "b" endpoint_b true;
  '(c, output) ← inbound engine_b confirmation endpoint_a now c;
  '(_, destination, acknowledgement, evs) ← take_send output;
  _ ← assert_eq destination endpoint_a; _ ← completed evs "a" endpoint_a false;
  '(a, output) ← inbound engine_a acknowledgement endpoint_b now a;
  _ ← assert (length (actions output) =? 0)%nat; _ ← no_events (events output);
  _ ← assert_eq (engine_active_session_id "b" a) (engine_active_session_id "a" c);
  '(a, output) ← outbound engine_a packet_a_to_b now a;
  '(peer, destination, encrypted, evs) ← take_send output;
  _ ← assert_eq peer "b"%string; _ ← assert_eq destination endpoint_b; _ ← no_events evs;
  let a := record_transport_sent peer (len encrypted) a in
  '(c, output) ← inbound engine_b encrypted endpoint_a now c;
  '(peer, source, received) ← take_ip output;
  _ ← assert_eq peer "a"%string; _ ← assert_eq source endpoint_a; _ ← assert_eq received packet_a_to_b;
  let packet_b_to_a := ipv4_packet (ip 10 77 80 2) (ip 10 77 80 1) in
  '(c, output) ← outbound engine_b packet_b_to_a now c;
  '(_, destination, encrypted, _) ← take_send output;
  _ ← assert_eq destination endpoint_a;
  '(a, output) ← inbound engine_a encrypted endpoint_b now a;
  '(_, source, received) ← take_ip output;
  _ ← assert_eq source endpoint_b; _ ← assert_eq received packet_b_to_a;
  stats ← peer_stats_of a !! "b"%string;
  _ ← assert (0 <? tx_bytes stats);
  assert_eq (current_endpoint stats) (Some endpoint_b).

Definition engine_rejects_non_ipv4_platform_packets_without_side_effects : test :=
  engine ← value_of (Engine_new (config {| tc_name := "memory-a"; tc_address := net 10 77 81 1 30;
    tc_listen := socket_text "127.0.0.1:31101"; tc_private_key := key32 65; tc_peer_name := "b";
    tc_peer_address := net 10 77 81 2 32; tc_peer_endpoint := socket_text "127.0.0.1:31102";
    tc_peer_public_key := public_key_of (key32 66); tc_psk := key32 67 |}));
  let ipv6_header := replicate 40 96 in
  '(st, e) ← unwrap_err (process_outbound_ip engine ipv6_header WALL (EngineState_new 100));
  _ ← assert (match e with PacketE (Packet.NotIpv4 v) => v =? 6 | _ => false end);
  assert (length (map_to_list (peer_stats_of st)) =? 0)%nat.

Definition endpoint_update_replaces_pending_handshake_destination : test :=
  let old_endpoint := socket_text "127.0.0.1:31202" in let new_endpoint := socket_text "127.0.0.2:31202" in
  engine ← value_of (Engine_new (config {| tc_name := "memory-a"; tc_address := net 10 77 82 1 30;
    tc_listen := socket_text "127.0.0.1:31201"; tc_private_key := key32 81; tc_peer_name := "b";
    tc_peer_address := net 10 77 82 2 32; tc_peer_endpoint := old_endpoint;
    tc_peer_public_key := public_key_of (key32 82); tc_psk := key32 83 |}));
  let now := WALL in
  '(st, output) ← unwrap (initiate_handshake engine "b" now (EngineState_new 100));
  '(_, destination, _, _) ← take_send output;
  _ ← assert_eq destination old_endpoint;
  _ ← assert (has_pending_handshake "b" st);
  '(st, updated) ← unwrap (update_resolved_endpoint engine "b" new_endpoint st);
  _ ← assert updated;
  _ ← assert (negb (has_pending_handshake "b" st));
  '(st, updated) ← unwrap (update_resolved_endpoint engine "b" new_endpoint st);
  _ ← assert (negb updated);
  '(st, output) ← unwrap (initiate_handshake engine "b" (now + from_secs 1) st);
  '(_, destination, _, _) ← take_send output;
  assert_eq destination new_endpoint.

Lemma engine_tests_pass : forallb passed
  [two_engines_handshake_and_exchange_ip_packets_in_memory;
   engine_rejects_non_ipv4_platform_packets_without_side_effects;
   endpoint_update_replaces_pending_handshake_destination] = true.
Proof. vm_compute. reflexivity. Qed.
End EngineTests.

(** ** tunnel.rs: sessions across rekeys, restarts, losses and collisions *)

Module TunnelTests.

(** A manager and its generator. *)
Definition Manager : Type := SessionState * Rng.
Definition manager_new (rng : Rng) : Manager := (SessionState_default, rng).

Definition start (local remote_pub psk : bytes) (now : Instant) (m : Manager) : option (Manager * option bytes) :=
  unwrap (start_or_retry_handshake "peer" local remote_pub psk now m).
Definition store (s : Session) (hid request response : bytes) (m : Manager) : Manager * bool :=
  let '(st, stored) := store_responder_candidate "peer" s hid request response WALL m.1 in ((st, m.2), stored).
Definition finalize (hid response : bytes) (m : Manager) : option (Manager * option (string * bytes)) :=
  '(st, r) ← unwrap (finalize_initiator hid response WALL m.1); Some ((st, m.2), r).
Definition decrypt_with (sid : bytes) (counter : u64) (ct : bytes) (now : Instant) (m : Manager)
    : option (Manager * option DecryptedTransport) :=
  '(st, r) ← unwrap (decrypt_transport sid counter ct now m.1); Some ((st, m.2), r).
Definition encrypt_with (k : MsgType.t) (payload : bytes) (now : Instant) (m : Manager) : option (Manager * option bytes) :=
  '(st, r) ← unwrap (encrypt_for_peer "peer" k payload now m.1); Some ((st, m.2), r).
Definition accept (remote_id : bytes) (passive : bool) (m : Manager) : Manager * bool :=
  let '(st, r) := accept_inbound_initiation "peer" remote_id passive WALL m.1 in ((st, m.2), r).
Definition invalidate (m : Manager) : Manager * bool := let '(st, r) := invalidate_peer "peer" m.1 in ((st, m.2), r).
Definition active (m : Manager) : bool := has_active_session "peer" WALL m.1.
Definition pending (m : Manager) : bool := has_pending_init "peer" m.1.
Definition active_id (m : Manager) : option bytes := active_session_id "peer" m.1.

(** [decode_packet] with the [else] branch that panics. *)
Definition as_init (packet : bytes) : option (bytes * bytes) :=
  match decode_packet packet with Some (Handshake PacketKind.HandshakeInit id m) => Some (id, m) | _ => None end.
Definition as_transport (packet : bytes) : option (bytes * u64 * bytes) :=
  match decode_packet packet with Some (Transport sid n ct) => Some (sid, n, ct) | _ => None end.

(** [responder_respond] draws from the responder's generator. *)
Definition respond (local remote_pub psk hid request : bytes) (m : Manager) : option (Manager * ResponderHandshake) :=
  '(rng, h) ← unwrap (responder_respond local remote_pub psk hid request WALL m.2); Some ((m.1, rng), h).

Definition complete_managed_handshake (initiator responder : Manager) (initiator_static responder_static responder_public psk : bytes)
    (now : Instant) : option (Manager * Manager * bytes) :=
  '(initiator, request_packet) ← start initiator_static responder_public psk now initiator;
  request_packet ← request_packet;
  '(handshake_id, request) ← as_init request_packet;
  let initiator_public := public_key_of initiator_static in
  '(responder, response) ← respond responder_static initiator_public psk handshake_id request responder;
  let sid := session_id (rh_session response) in
  let response_message := rh_message response in
  let response_packet := encode_handshake PacketKind.HandshakeResponse handshake_id response_message in
  let '(responder, stored) := store (rh_session response) handshake_id request response_packet responder in
  _ ← assert stored;
  '(initiator, finalized) ← finalize handshake_id response_message initiator;
  '(peer, confirmation) ← finalized;
  _ ← assert_eq peer "peer"%string;
  '(confirmation_id, counter, ciphertext) ← as_transport confirmation;
  '(responder, confirmation) ← decrypt_with confirmation_id counter ciphertext now responder;
  confirmation ← confirmation;
  _ ← assert (dt_promoted confirmation);
  _ ← assert_eq (dt_msg_type confirmation) MsgType.Keepalive;
  _ ← assert_eq (dt_payload confirmation) KEEPALIVE_PROBE_PAYLOAD;
  _ ← assert (active initiator);
  _ ← assert (active responder);
  Some (initiator, responder, sid).

Definition decrypt_managed_transport (m : Manager) (packet : bytes) (now : Instant)
    : option (Manager * option (MsgType.t * bytes * bool)) :=
  '(sid, counter, ciphertext) ← as_transport packet;
  '(m, r) ← decrypt_with sid counter ciphertext now m;
  Some (m, option_map (fun d => (dt_msg_type d, dt_payload d, dt_promoted d)) r).

Definition rekey_keeps_previous_session_for_in_flight_packets : test :=
  let initiator_static := key32 49 in let responder_static := key32 50 in
  let responder_public := public_key_of responder_static in let psk := key32 51 in
  let now := WALL in
  '(initiator, responder, old_session_id) ← complete_managed_handshake (manager_new 100) (manager_new 200)
      initiator_static responder_static responder_public psk now;
  '(initiator, f) ← encrypt_with MsgType.Data (b "old initiator packet") (now + from_secs 1) initiator;
  delayed_to_responder ← f;
  '(initiator, f) ← encrypt_with MsgType.Data (b "expired old packet") (now + from_secs 1) initiator;
  expired_to_responder ← f;
  '(responder, f) ← encrypt_with MsgType.Data (b "old responder packet") (now + from_secs 1) responder;
  delayed_to_initiator ← f;
  let rekey_at := now + REKEY_AFTER_TIME + from_secs 1 in
  '(initiator, responder, new_session_id) ← complete_managed_handshake initiator responder
      initiator_static responder_static responder_public psk rekey_at;
  _ ← assert_ne old_session_id new_session_id;
  '(responder, received) ← decrypt_managed_transport responder delayed_to_responder (rekey_at + from_secs 1);
  _ ← assert_eq received (Some (MsgType.Data, b "old initiator packet", false));
  '(initiator, received) ← decrypt_managed_transport initiator delayed_to_initiator (rekey_at + from_secs 1);
  _ ← assert_eq received (Some (MsgType.Data, b "old responder packet", false));
  '(responder, received) ← decrypt_managed_transport responder expired_to_responder (now + REJECT_AFTER_TIME + from_secs 1);
  assert_eq received None.

Definition responder_candidate_suppresses_competing_local_rekey : test :=
  let initiator_static := key32 52 in let responder_static := key32 53 in
  let initiator_public := public_key_of initiator_static in let responder_public := public_key_of responder_static in
  let psk := key32 54 in let now := WALL in
  '(initiator, responder, _) ← complete_managed_handshake (manager_new 100) (manager_new 200)
      initiator_static responder_static responder_public psk now;
  let rekey_at := now + REKEY_AFTER_TIME + from_secs 1 in
  '(responder, started) ← start responder_static initiator_public psk rekey_at responder;
  _ ← started;
  _ ← assert (pending responder);
  '(_, remote) ← unwrap (initiator_start initiator_static responder_public psk initiator.2);
  '(responder, candidate) ← respond responder_static initiator_public psk (ih_handshake_id remote) (ih_message remote) responder;
  let response := encode_handshake PacketKind.HandshakeResponse (ih_handshake_id remote) (rh_message candidate) in
  let '(responder, stored) := store (rh_session candidate) (ih_handshake_id remote) (ih_message remote) response responder in
  _ ← assert stored;
  _ ← assert (negb (pending responder));
  '(responder, started) ← start responder_static initiator_public psk (rekey_at + HANDSHAKE_RETRY_INTERVAL) responder;
  assert_eq started None.

Definition one_sided_restart_can_replace_the_surviving_old_session : test :=
  let initiator_static := key32 17 in let responder_static := key32 34 in
  let responder_public := public_key_of responder_static in let psk := key32 51 in let now := WALL in
  '(initiator, _, old_session_id) ← complete_managed_handshake (manager_new 100) (manager_new 200)
      initiator_static responder_static responder_public psk now;
  let responder_after_restart := manager_new 300 in
  _ ← assert_eq (active_id initiator) (Some old_session_id);
  let '(initiator, invalidated) := invalidate initiator in
  _ ← assert invalidated;
  _ ← assert (negb (active initiator));
  _ ← assert_eq (active_id initiator) None;
  _ ← complete_managed_handshake initiator responder_after_restart initiator_static responder_static responder_public psk (now + from_secs 1);
  Some tt.

Definition lost_handshake_response_retries_the_same_exchange : test :=
  let initiator_static := key32 68 in let responder_static := key32 85 in
  let responder_public := public_key_of responder_static in let psk := key32 102 in let now := WALL in
  '(initiator, packet) ← start initiator_static responder_public psk now (manager_new 100);
  first_request_packet ← packet;
  '(handshake_id, first_request) ← as_init first_request_packet;
  let initiator_public := public_key_of initiator_static in
  '(responder, response) ← respond responder_static initiator_public psk handshake_id first_request (manager_new 200);
  let response_message := rh_message response in
  let response_packet := encode_handshake PacketKind.HandshakeResponse handshake_id response_message in
  let '(responder, stored) := store (rh_session response) handshake_id first_request response_packet responder in
  _ ← assert stored;
  '(initiator, early) ← start initiator_static responder_public psk (now + (HANDSHAKE_RETRY_INTERVAL - 1000000)) initiator;
  _ ← assert_eq early None;
  '(initiator, retry) ← start initiator_static responder_public psk (now + HANDSHAKE_RETRY_INTERVAL) initiator;
  _ ← assert_eq retry (Some first_request_packet);
  let '(st, cached_response) := cached_responder_response "peer" handshake_id first_request WALL responder.1 in
  let responder := (st, responder.2) in
  _ ← assert_eq cached_response (Some response_packet);
  '(initiator, finalized) ← finalize handshake_id response_message initiator;
  '(_, confirmation) ← finalized;
  '(sid, counter, ciphertext) ← as_transport confirmation;
  '(responder, promoted) ← decrypt_with sid counter ciphertext now responder;
  promoted ← promoted;
  _ ← assert (dt_promoted promoted);
  _ ← assert (negb (pending initiator));
  _ ← assert (active initiator);
  assert (active responder).

Definition unanswered_handshake_is_replaced_after_attempt_lifetime : test :=
  let initiator_static := key32 103 in let responder_public := public_key_of (key32 104) in
  let psk := key32 105 in let now := WALL in
  '(sessions, first) ← start initiator_static responder_public psk now (manager_new 100);
  first ← first;
  '(sessions, replacement) ← start initiator_static responder_public psk (now + HANDSHAKE_ATTEMPT_LIFETIME) sessions;
  replacement ← replacement;
  _ ← assert_ne first replacement;
  '(first_id, _) ← as_init first;
  '(replacement_id, _) ← as_init replacement;
  assert_ne first_id replacement_id.

(** [id_a < id_b] of byte arrays. *)
Definition bytes_lt (x y : bytes) : bool := negb (bytes_le y x).

Definition simultaneous_initiation_converges_on_the_smaller_identifier (seed_a seed_b : Z) : test :=
  let static_a := key32 106 in let static_b := key32 107 in
  let public_a := public_key_of static_a in let public_b := public_key_of static_b in
  let psk := key32 108 in let now := WALL in
  '(manager_a, packet_a) ← start static_a public_b psk now (manager_new seed_a);
  packet_a ← packet_a;
  '(manager_b, packet_b) ← start static_b public_a psk now (manager_new seed_b);
  packet_b ← packet_b;
  '(id_a, message_a) ← as_init packet_a;
  '(id_b, message_b) ← as_init packet_b;
  _ ← assert_ne id_a id_b;
  let '(manager_a, a_accepts_b) := accept id_b false manager_a in
  let '(manager_b, b_accepts_a) := accept id_a false manager_b in
  _ ← assert_ne a_accepts_b b_accepts_a;
  let a_wins := bytes_lt id_a id_b in
  _ ← assert (if a_wins then negb a_accepts_b && b_accepts_a else a_accepts_b && negb b_accepts_a);
  let '(winner_manager, responder_manager) := if a_wins then (manager_a, manager_b) else (manager_b, manager_a) in
  let '(winner_id, winner_message) := if a_wins then (id_a, message_a) else (id_b, message_b) in
  let winner_public := if a_wins then public_a else public_b in
  let responder_static := if a_wins then static_b else static_a in
  '(responder_manager, response) ← respond responder_static winner_public psk winner_id winner_message responder_manager;
  let response_message := rh_message response in
  let response_packet := encode_handshake PacketKind.HandshakeResponse winner_id response_message in
  let '(responder_manager, stored) := store (rh_session response) winner_id winner_message response_packet responder_manager in
  _ ← assert stored;
  '(winner_manager, finalized) ← finalize winner_id response_message winner_manager;
  '(_, confirmation) ← finalized;
  '(sid, counter, ciphertext) ← as_transport confirmation;
  '(responder_manager, promoted) ← decrypt_with sid counter ciphertext now responder_manager;
  promoted ← promoted;
  _ ← assert (dt_promoted promoted);
  _ ← assert (active winner_manager);
  assert (active responder_manager).

Definition passive_peer_normal_rekey_keeps_symmetric_identifier_tiebreak (seed_a seed_b : Z) : test :=
  let static_a := key32 109 in let static_b := key32 110 in
  let public_a := public_key_of static_a in let public_b := public_key_of static_b in
  let psk := key32 111 in let now := WALL in
  '(manager_a, manager_b, _) ← complete_managed_handshake (manager_new seed_a) (manager_new seed_b) static_a static_b public_b psk now;
  let rekey_at := now + REKEY_AFTER_TIME + from_secs 1 in
  '(manager_a, packet_a) ← start static_a public_b psk rekey_at manager_a;
  packet_a ← packet_a;
  '(manager_b, packet_b) ← start static_b public_a psk rekey_at manager_b;
  packet_b ← packet_b;
  '(id_a, _) ← as_init packet_a;
  '(id_b, _) ← as_init packet_b;
  _ ← assert_ne id_a id_b;
  let '(passive, passive_id, active_, active_id_) :=
    if bytes_lt id_a id_b then (manager_a, id_a, manager_b, id_b) else (manager_b, id_b, manager_a, id_a) in
  let '(active_, accepted) := accept passive_id false active_ in
  _ ← assert accepted;
  let '(passive, accepted) := accept active_id_ true passive in
  _ ← assert (negb accepted);
  _ ← assert (negb (pending active_));
  assert (pending passive).

(** The identifier just above [id]: its first byte below 255 is raised and
    the bytes after it are zero. *)
Definition next_id (id : bytes) : option bytes :=
  '(position, byte) ← list_find (fun byte => byte <> 255) id;
  Some (take position id ++ [byte + 1] ++ replicate (length id - position - 1) 0).

Definition passive_peer_prefers_authenticated_inbound_restart_handshake : test :=
  let local_static := key32 113 in let remote_public := public_key_of (key32 114) in let now := WALL in
  '(manager, local_packet) ← start local_static remote_public (key32 115) now (manager_new 100);
  local_packet ← local_packet;
  '(local_id, _) ← as_init local_packet;
  remote_id ← next_id local_id;
  let '(manager, accepted) := accept remote_id false manager in
  _ ← assert (negb accepted);
  _ ← assert (pending manager);
  let '(manager, invalidated) := invalidate manager in
  _ ← assert invalidated;
  '(manager, local_packet) ← start local_static remote_public (key32 115) now manager;
  local_packet ← local_packet;
  '(local_id, _) ← as_init local_packet;
  remote_id ← next_id local_id;
  let '(manager, accepted) := accept remote_id true manager in
  _ ← assert accepted;
  assert (negb (pending manager)).

Definition replayed_handshake_cannot_replace_an_active_responder_session : test :=
  let initiator_static := key32 113 in let responder_static := key32 114 in
  let initiator_public := public_key_of initiator_static in let responder_public := public_key_of responder_static in
  let psk := key32 115 in let now := WALL in
  '(initiator, responder, active_id_) ← complete_managed_handshake (manager_new 100) (manager_new 200)
      initiator_static responder_static responder_public psk now;
  '(_, replay) ← unwrap (initiator_start initiator_static responder_public psk initiator.2);
  '(responder, candidate) ← respond responder_static initiator_public psk (ih_handshake_id replay) (ih_message replay) responder;
  let response := encode_handshake PacketKind.HandshakeResponse (ih_handshake_id replay) (rh_message candidate) in
  let '(responder, stored) := store (rh_session candidate) (ih_handshake_id replay) (ih_message replay) response responder in
  _ ← assert stored;
  assert_eq (active_id responder) (Some active_id_).

(** [resolve_endpoint] and [usable_peer_endpoint] of the tests. *)
Definition usable (endpoint : SocketAddr) : bool := negb (is_unspecified (sa_ip endpoint)) && negb (sa_port endpoint =? 0).
Definition resolve_endpoint (state : gmap string PeerStats) (peer_name : string) (configured : SocketAddr) : option SocketAddr :=
  match filter_opt usable (snapshot state !! peer_name ≫= current_endpoint) with
  | Some endpoint => Some endpoint
  | None => if usable configured then Some configured else None
  end.

Definition unspecified_configured_endpoint_requires_a_learned_peer_address : test :=
  let state := ∅ in
  let configured := socket_text "0.0.0.0:27777" in
  _ ← assert_eq (resolve_endpoint state "peer" configured) None;
  _ ← assert_eq (resolve_endpoint state "peer" (socket_text "[::]:27777")) None;
  _ ← assert_eq (resolve_endpoint state "peer" (socket_text "203.0.113.10:0")) None;
  let learned := socket_text "198.51.100.24:45123" in
  let state := record_keepalive state "peer" learned WALL in
  assert_eq (resolve_endpoint state "peer" configured) (Some learned).

Definition routable_configured_endpoint_is_used_before_roaming_is_learned : test :=
  let configured := socket_text "203.0.113.10:27777" in
  assert_eq (resolve_endpoint ∅ "peer" configured) (Some configured).

(** The two tests that branch on which identifier is smaller run both ways. *)
Lemma tunnel_tests_pass : forallb passed
  [rekey_keeps_previous_session_for_in_flight_packets; responder_candidate_suppresses_competing_local_rekey;
   one_sided_restart_can_replace_the_surviving_old_session; lost_handshake_response_retries_the_same_exchange;
   unanswered_handshake_is_replaced_after_attempt_lifetime;
   simultaneous_initiation_converges_on_the_smaller_identifier 100 200;
   simultaneous_initiation_converges_on_the_smaller_identifier 200 100;
   passive_peer_normal_rekey_keeps_symmetric_identifier_tiebreak 100 200;
   passive_peer_normal_rekey_keeps_symmetric_identifier_tiebreak 200 100;
   passive_peer_prefers_authenticated_inbound_restart_handshake;
   replayed_handshake_cannot_replace_an_active_responder_session;
   unspecified_configured_endpoint_requires_a_learned_peer_address;
   routable_configured_endpoint_is_used_before_roaming_is_learned] = true.
Proof. vm_compute. reflexivity. Qed.
End TunnelTests.
