(* ===== verification/ConformanceHost.v ===== *)
(** * The repository's tests on the model: C ABI, transports and gateway

    The unit tests of ffi.rs, transport.rs, tcp_transport.rs, gateway.rs and
    routing.rs, run on the definitions.  The TOML decoder knows the texts of
    the FFI tests; the loopback interface of the transport tests carries what
    one end has sent to the other. *)

From Stdlib Require Import Ascii.
From S2P Require Import Prelude Net Std PeerState Auth Noise Sessions Config Router Engine Scheduler.
From S2P Require Import Os Transport Ffi TcpTransport.
From S2P Require Import Conformance ConformanceConfig ConformanceEngine.
From S2P Require Routing Gateway.
Open Scope Z_scope.

#[local] Existing Instances ref_ipnet std_base64 localhost_resolver ref_snow.

(** ** ffi.rs *)

Module FfiTests.

Record TestConfig := {
  tc_name : string; tc_address : Ipv4Net; tc_address_text : string; tc_listen : string; tc_private_key : bytes;
  tc_peer_name : string; tc_peer_address : Ipv4Net; tc_peer_address_text : string; tc_peer_endpoint : string;
  tc_peer_public_key : bytes; tc_psk : bytes }.

Definition LF : string := String (ascii_of_nat 10) "".
Definition quote (s : string) : string := String (ascii_of_nat 34) s +:+ String (ascii_of_nat 34) "".
Definition unlines (l : list string) : string := String.concat "" ((fun s => s +:+ LF) <$> l).

(** The text of a test's configuration, and what the decoder makes of it. *)
Definition config (t : TestConfig) : string := unlines [
  "[interface]"; "name = " +:+ quote (tc_name t); "address = " +:+ quote (tc_address_text t);
  "listen = " +:+ quote (tc_listen t); "transport = " +:+ quote "udp"; "mtu = 1280";
  "private_key = " +:+ quote (b64_encode (tc_private_key t)); "";
  "[[peer]]"; "name = " +:+ quote (tc_peer_name t); "endpoint = " +:+ quote (tc_peer_endpoint t);
  "allowed_ips = [" +:+ quote (tc_peer_address_text t) +:+ "]"; "psk = " +:+ quote (b64_encode (tc_psk t));
  "public_key = " +:+ quote (b64_encode (tc_peer_public_key t)); "persistent_keepalive = 5"; "udp_rebind_after = 20"]%string.

Definition decoded (t : TestConfig) : Config := {|
  interface := {| if_name := tc_name t; address := tc_address t; listen := socket_text (tc_listen t); if_transport := Udp;
                  mtu := 1280; private_key := b64_encode (tc_private_key t) |};
  gateway := None;
  peer := [{| pc_name := tc_peer_name t; pc_endpoint := endpoint_text (tc_peer_endpoint t);
              allowed_ips := [tc_peer_address t]; pc_excluded_ips := []; pc_psk := b64_encode (tc_psk t);
              pc_public_key := b64_encode (tc_peer_public_key t); pc_persistent_keepalive := 5;
              pc_udp_rebind_after := 20; pc_session_timeout := None |}] |}.

Definition config_a : TestConfig := {|
  tc_name := "ffi-a"; tc_address := net 10 77 90 1 30; tc_address_text := "10.77.90.1/30"; tc_listen := "127.0.0.1:41001";
  tc_private_key := key32 17; tc_peer_name := "b"; tc_peer_address := net 10 77 90 2 32;
  tc_peer_address_text := "10.77.90.2/32"; tc_peer_endpoint := "127.0.0.1:41002";
  tc_peer_public_key := public_key_of (key32 34); tc_psk := key32 51 |}.
Definition config_b : TestConfig := {|
  tc_name := "ffi-b"; tc_address := net 10 77 90 2 30; tc_address_text := "10.77.90.2/30"; tc_listen := "127.0.0.1:41002";
  tc_private_key := key32 34; tc_peer_name := "a"; tc_peer_address := net 10 77 90 1 32;
  tc_peer_address_text := "10.77.90.1/32"; tc_peer_endpoint := "127.0.0.1:41001";
  tc_peer_public_key := public_key_of (key32 17); tc_psk := key32 51 |}.
Definition config_named : TestConfig := {|
  tc_name := "ffi-a"; tc_address := net 10 77 91 1 30; tc_address_text := "10.77.91.1/30"; tc_listen := "127.0.0.1:41101";
  tc_private_key := key32 97; tc_peer_name := "b"; tc_peer_address := net 10 77 91 2 32;
  tc_peer_address_text := "10.77.91.2/32"; tc_peer_endpoint := "localhost:41102";
  tc_peer_public_key := public_key_of (key32 98); tc_psk := key32 99 |}.

#[local] Instance test_source : ConfigSource := {|
  toml_error := unit; read_error := unit; read_to_string _ := Err tt;
  toml_from_str text := ok_or tt (decoded <$> List.find (fun t => bool_decide (config t = text)) [config_a; config_b; config_named]) |}.
#[local] Instance test_display : Display := {|
  show_load_error _ := "load"; show_router_error _ := "router"; show_engine_error _ := "engine"; show_io_error _ := "io" |}.

(** A runtime with its [Capture]: the calls of the host are in the runtime;
    [taken] of the captured frames have been popped. *)
Record Host := { rt : option HwRuntime; taken : nat }.
Definition calls (h : Host) : list HostCall := match rt h with Some r => host_calls r | None => [] end.

Definition capture_transport : HostCall -> list HostCall -> u8 := fun _ _ => 1.
Definition captured (c : HostCall) : option (string * HwEndpoint * bytes) :=
  match c with CallSend p e f => Some (p, e, f) | _ => None end.
Definition transport (h : Host) : list (string * HwEndpoint * bytes) := drop (taken h) (omap captured (calls h)).
Definition pop_front (h : Host) : option (Host * (string * HwEndpoint * bytes)) :=
  match transport h with c :: _ => Some ({| rt := rt h; taken := S (taken h) |}, c) | [] => None end.
Definition capture_packet (c : HostCall) : option bytes := match c with CallWrite _ _ p => Some p | _ => None end.
Definition packets (h : Host) : list bytes := omap capture_packet (calls h).
Definition capture_handshake (c : HostCall) : option (string * u8) :=
  match c with CallHandshake p _ role => Some (p, role) | _ => None end.
Definition handshakes (h : Host) : list (string * u8) := omap capture_handshake (calls h).

Definition text (s : string) : BorrowedSlice := let data := b s in {| bs_pointer := Some data; bs_length := len data |}.
Definition slice (data : bytes) : BorrowedSlice := {| bs_pointer := Some data; bs_length := len data |}.
Definition null (length : usize) : BorrowedSlice := {| bs_pointer := None; bs_length := length |}.

(** A call's status must be this one; its runtime goes on. *)
Definition expect (s : HwStatus.t) (h : Host) (r : option HwRuntime * HwStatus.t * option HwError) : option Host :=
  _ ← assert (HwStatus.code r.1.2 =? HwStatus.code s);
  Some {| rt := r.1.1; taken := taken h |}.

Definition create_runtime (config : string) (seed : Z) : option Host :=
  let callbacks := {| cb_send_transport := Some capture_transport; cb_write_ip_packet := Some tt;
                      cb_handshake_completed := Some tt |} in
  let '(runtime, error) := hw_runtime_create (text config) (Some callbacks) seed (Some HwError_default) in
  _ ← runtime;
  expect HwStatus.Ok {| rt := runtime; taken := 0 |} (hw_runtime_start runtime error).

Definition error_text (error : option HwError) : chars :=
  match error with
  | Some e => let fix until_nul l := match l with [] => [] | c :: l => if c =? 0 then [] else c :: until_nul l end in
              (fun c => ascii_of_nat (Z.to_nat c)) <$> until_nul (he_message e)
  | None => []
  end.
(** [str::contains]. *)
Fixpoint contains (needle text : chars) : bool :=
  starts_with_str needle text || match text with [] => false | _ :: text => contains needle text end.

Definition deliver (destination : Host) (captured : string * HwEndpoint * bytes) (source : SocketAddr) : option Host :=
  expect HwStatus.Ok destination
    (hw_runtime_submit_inbound_transport WALL (fun _ => WALL) (rt destination) (slice captured.2)
       (Some (endpoint_to_ffi source)) (Some HwError_default)).

#[local] Instance HwEndpoint_eq_dec : EqDecision HwEndpoint.
Proof. solve_decision. Defined.

Definition submit (h : Host) (packet : bytes) := hw_runtime_submit_outbound_ip WALL (rt h) (slice packet) (Some HwError_default).

(** [stop] with no other thread in a call. *)
Definition stop (h : Host) : option Host :=
  r ← hw_runtime_stop [] (rt h) (Some HwError_default); expect HwStatus.Ok h r.

Definition ffi_engines_handshake_exchange_packets_and_reset_on_stop : test :=
  let endpoint_a := socket_text "127.0.0.1:41001" in let endpoint_b := socket_text "127.0.0.1:41002" in
  a ← create_runtime (config config_a) 100;
  c ← create_runtime (config config_b) 200;
  let packet := EngineTests.ipv4_packet (ip 10 77 90 1) (ip 10 77 90 2) in
  a ← expect HwStatus.Ok a (submit a packet);
  '(a, request) ← pop_front a;
  _ ← assert_eq request.1.1 "b"%string;
  _ ← assert_eq request.1.2 (endpoint_to_ffi endpoint_b);
  c ← deliver c request endpoint_a;
  '(c, response) ← pop_front c;
  a ← deliver a response endpoint_b;
  _ ← assert_eq (handshakes a) [("b"%string, 1)];
  '(a, confirmation) ← pop_front a;
  c ← deliver c confirmation endpoint_a;
  _ ← assert_eq (handshakes c) [("a"%string, 2)];
  '(c, acknowledgement) ← pop_front c;
  a ← deliver a acknowledgement endpoint_b;
  _ ← assert (length (transport a) =? 0)%nat;
  a ← expect HwStatus.Ok a (submit a packet);
  '(a, encrypted) ← pop_front a;
  c ← deliver c encrypted endpoint_a;
  _ ← assert_eq (packets c) [packet];
  a ← stop a;
  a ← stop a;
  _ ← assert (hw_runtime_is_running (rt a) =? 0);
  a ← expect HwStatus.InvalidState a (submit a packet);
  a ← expect HwStatus.Ok a (hw_runtime_start (rt a) (Some HwError_default));
  a ← expect HwStatus.Ok a (hw_runtime_start (rt a) (Some HwError_default));
  _ ← assert (hw_runtime_is_running (rt a) =? 1);
  let _ := hw_runtime_destroy (rt a) in let _ := hw_runtime_destroy (rt c) in
  Some tt.

Definition ffi_resolves_and_updates_peer_endpoint_before_recovery_handshake : test :=
  a ← create_runtime (config config_named) 100;
  let '(r, resolved) := hw_runtime_resolve_peer_endpoint (rt a) (text "b") (Some HwEndpoint_default) (Some HwError_default) in
  a ← expect HwStatus.Ok a r;
  resolved ← resolved;
  _ ← assert (he_port resolved =? 41102);
  _ ← assert (family resolved =? 4);
  let replacement := endpoint_to_ffi (socket_text "127.0.0.2:41102") in
  let '(r, changed) := hw_runtime_update_peer_endpoint (rt a) (text "b") (Some replacement) (Some 0) (Some HwError_default) in
  a ← expect HwStatus.Ok a r;
  _ ← assert_eq changed (Some 1);
  a ← expect HwStatus.Ok a (hw_runtime_initiate_handshake WALL (rt a) (text "b") (Some HwError_default));
  '(a, sent) ← pop_front a;
  _ ← assert_eq sent.1.2 replacement;
  a ← stop a;
  Some tt.

Definition ffi_rejects_invalid_inputs_without_unwinding : test :=
  let '(runtime, error) := hw_runtime_create (null 1) None 100 (Some HwError_default) in
  _ ← match runtime with None => Some tt | Some _ => None end;
  _ ← assert_eq (he_code <$> error) (Some (HwStatus.code HwStatus.InvalidArgument));
  _ ← assert (contains (chars_of "config_toml") (error_text error));
  let '(_, status, error) := hw_runtime_start None error in
  _ ← assert (HwStatus.code status =? HwStatus.code HwStatus.InvalidArgument);
  assert (contains (chars_of "runtime") (error_text error)).

Definition endpoint_round_trip_preserves_ipv4_and_ipv6 : test :=
  all_of (fun endpoint => decoded ← value_of (endpoint_from_ffi (endpoint_to_ffi endpoint)); assert_eq decoded endpoint)
    [socket_text "192.0.2.10:27777"; socket_text "[2001:db8::5]:27778"].

Lemma ffi_tests_pass : forallb passed
  [ffi_engines_handshake_exchange_packets_and_reset_on_stop;
   ffi_resolves_and_updates_peer_endpoint_before_recovery_handshake;
   ffi_rejects_invalid_inputs_without_unwinding; endpoint_round_trip_preserves_ipv4_and_ipv6] = true.
Proof. vm_compute. reflexivity. Qed.
End FfiTests.

(** ** transport.rs *)

Module UdpTests.

(** The loopback interface: a socket is its address, port 0 becomes the next
    free port, and a socket's receive calls answer with its mail. *)
Definition loopback (free_port : u16) (mail : SocketAddr -> list (outcome Transport.io_error (bytes * SocketAddr))) : UdpOs := {|
  UdpSocket := SocketAddr;
  udp_bind a := Ok (if sa_port a =? 0 then set_port a free_port else a);
  set_read_timeout _ _ := Ok tt;
  udp_local_addr s := Ok s;
  udp_send _ f _ := Ok (len f);
  udp_recv s i _ := default (Err (IoError WouldBlock "timed out")) (mail s !! i) |}.
Definition no_mail : SocketAddr -> list (outcome Transport.io_error (bytes * SocketAddr)) := fun _ => [].

(** A transport, and the same transport when the interface holds that mail. *)
Definition Udp := @UdpTransport (loopback 0 no_mail).
Definition under port mail (t : Udp) : @UdpTransport (loopback port mail) :=
  @Build_UdpTransport (loopback port mail) (socket t) (poisoned t).
Definition back {port mail} (t : @UdpTransport (loopback port mail)) : Udp :=
  @Build_UdpTransport (loopback 0 no_mail) (socket t) (poisoned t).

Definition bind_at (port : u16) : option Udp :=
  t ← value_of (UdpTransport_bind (OS := loopback port no_mail) (socket_text "127.0.0.1:0")); Some (back t).
Definition local (t : Udp) : option SocketAddr := '(_, a) ← unwrap (udp_local t); Some a.
Definition rebind (port : u16) (t : Udp) : option (Udp * RebindResult) :=
  '(t, r) ← unwrap (udp_rebind_to_ephemeral (under port no_mail t)); r ← r; Some (back t, r).

(** A datagram as [endpoint] gets it: sent from the active socket. *)
Definition send (t : Udp) (frame : bytes) (endpoint : SocketAddr) : option (SocketAddr * (bytes * SocketAddr)) :=
  '(_, n) ← unwrap (udp_send_to frame endpoint t);
  _ ← assert (n =? len frame);
  source ← local t;
  Some (endpoint, (frame, source)).
(** Receive when [datagram] waits at its destination. *)
Definition receive (t : Udp) (datagram : SocketAddr * (bytes * SocketAddr)) : option (bytes * SocketAddr) :=
  let mail s := if bool_decide (s = datagram.1) then [Ok datagram.2] else [] in
  '(_, packet) ← unwrap (udp_recv_from 1 64 (under 0 mail t));
  '(packet, data) ← packet;
  Some (take (Z.to_nat (rp_bytes packet)) data, rp_source packet).

(** Clones share the cell: after a rebind every one of them reads what it holds. *)
Definition udp_rebind_switches_all_clones_to_new_port : test :=
  transport ← bind_at 50001;
  previous_ ← local transport;
  '(transport, rebound) ← rebind 50002 transport;
  _ ← assert_eq (previous rebound) previous_;
  _ ← assert_ne (sa_port (current rebound)) (sa_port previous_);
  address ← local transport;
  _ ← assert_eq address (current rebound);
  peer ← bind_at 50003;
  peer_address ← local peer;
  datagram ← send transport (b "after-rebind") peer_address;
  '(data, source) ← receive peer datagram;
  _ ← assert_eq data (b "after-rebind");
  assert_eq source (current rebound).

(** The receiver reads the old socket until another thread has rebound. *)
Definition blocked_udp_receiver_moves_to_rebound_socket : test :=
  transport ← bind_at 50001;
  '(rebound_transport, rebound) ← rebind 50002 transport;
  peer ← bind_at 50003;
  '(to, datagram) ← send peer (b "new-socket") (current rebound);
  let mail s := if bool_decide (s = to) then replicate 3 (Ok datagram) else [] in
  let cell i := under 0 mail (if (i <? 2)%nat then transport else rebound_transport) in
  r ← value_of (udp_recv_loop cell 64 3 0);
  '(packet, data) ← r;
  _ ← assert_eq (take (Z.to_nat (rp_bytes packet)) data) (b "new-socket");
  peer_address ← local peer;
  assert_eq (rp_source packet) peer_address.

Definition udp_peer_can_roam_and_reply_to_rebound_source : test :=
  client ← bind_at 50001;
  server ← bind_at 50002;
  server_addr ← local server;
  previous_client_addr ← local client;
  datagram ← send client (b "before") server_addr;
  '(_, source) ← receive server datagram;
  _ ← assert_eq source previous_client_addr;
  '(client, rebound) ← rebind 50003 client;
  datagram ← send client (b "probe") server_addr;
  '(probe, source) ← receive server datagram;
  _ ← assert_eq probe (b "probe");
  _ ← assert_eq source (current rebound);
  datagram ← send server (b "ack") source;
  '(acknowledgement, source) ← receive client datagram;
  _ ← assert_eq acknowledgement (b "ack");
  assert_eq source server_addr.

Lemma udp_tests_pass : forallb passed
  [udp_rebind_switches_all_clones_to_new_port; blocked_udp_receiver_moves_to_rebound_socket;
   udp_peer_can_roam_and_reply_to_rebound_source] = true.
Proof. vm_compute. reflexivity. Qed.
End UdpTests.

(** ** tcp_transport.rs *)

Module TcpTests.

(** A stream whose peer has sent [data] and whose socket buffer has room for
    everything written; the kernel hands out what has arrived in one read. *)
Definition connected (data : list bytes) : TcpStream := {| reads := Ok <$> data; writes := replicate 8 (Ok 65535); accepted := [] |}.
(** The bytes of [c]'s stream arrive at the other end. *)
Definition other_end (c : ConnState) : TcpStream := connected [accepted (stream c)].

Definition tcp_frame_round_trip : test :=
  let payload := b "hello tcp" in
  '(state, _) ← unwrap (queue_frame payload (ConnState_new (connected [])));
  '(_, frame) ← unwrap (try_read_frame (ConnState_new (other_end state)));
  assert_eq frame (Some payload).

Definition tcp_frame_partial_read_assembles : test :=
  '(state, _) ← unwrap (queue_frame (b "first") (ConnState_new (connected [])));
  '(state, _) ← unwrap (queue_frame (b "second") state);
  '(state2, f1) ← unwrap (try_read_frame (ConnState_new (other_end state)));
  '(state2, f2) ← unwrap (try_read_frame state2);
  _ ← assert_eq f1 (Some (b "first"));
  assert_eq f2 (Some (b "second")).

(** [PartialNonblockingWriter]: three bytes a call, every other call blocks. *)
Definition PartialNonblockingWriter (calls : nat) : TcpStream := {|
  reads := []; writes := mjoin (replicate calls [Ok 3; Err would_block]); accepted := [] |}.

Fixpoint flush_all (fuel : nat) (pending : PendingWrites) (writer : TcpStream) : option (PendingWrites * TcpStream) :=
  if pending_len pending =? 0 then Some (pending, writer) else
  match fuel with
  | O => None
  | S fuel => match flush_to pending writer with (pending, writer, Ok _) => flush_all fuel pending writer | _ => None end
  end.

Definition partial_nonblocking_writes_preserve_frame_boundaries : test :=
  '(pending, _) ← unwrap (enqueue_frame (b "first") (PendingWrites_new 1024));
  '(pending, _) ← unwrap (enqueue_frame (b "second") pending);
  '(_, writer) ← flush_all 20 pending (PartialNonblockingWriter 20);
  assert_eq (accepted writer) ([0; 5] ++ b "first" ++ [0; 6] ++ b "second").

Definition full_pending_queue_rejects_whole_frame_without_mutation : test :=
  '(pending, _) ← unwrap (enqueue_frame (b "abc") (PendingWrites_new 8));
  let before := pw_bytes pending in
  '(pending, error) ← unwrap_err (enqueue_frame (b "defg") pending);
  _ ← assert_eq (kind error) WouldBlock;
  _ ← assert_eq (pw_bytes pending) before;
  assert (pending_len pending =? 5).

(** The loopback interface of two transports: a connection attempt succeeds. *)
Definition tcp_loopback (port : u16) : TcpOs := {|
  tcp_bind a := Ok (if sa_port a =? 0 then set_port a port else a);
  connect_timeout _ _ := Ok (connected []) |}.

(** What a transport has sent on its [i]-th connection so far. *)
Definition sent (t : TcpTransport) (i : nat) : bytes :=
  match conns t !! i with Some m => accepted (stream (data m)) | None => [] end.
(** [bytes] arrive on a connection that is open. *)
Definition arrive (i : nat) (bytes : bytes) (t : TcpTransport) : TcpTransport :=
  match conns t !! i with
  | Some m => let s := stream (data m) in
              set_conn i {| stream := {| reads := reads s ++ [Ok bytes]; writes := writes s; accepted := accepted s |};
                            read_buf := read_buf (data m); pending_writes := pending_writes (data m) |} t
  | None => t
  end.
Definition receive (t : TcpTransport) : option (TcpTransport * (bytes * SocketAddr)) :=
  '(t, packet) ← unwrap (tcp_recv_loop map_to_list 1 1024 t);
  '(packet, data) ← packet;
  Some (t, (take (Z.to_nat (rp_bytes packet)) data, rp_source packet)).

(** The client's own end of the connection has an ephemeral port. *)
Definition ephemeral : SocketAddr := socket_text "127.0.0.1:50100".

Definition tcp_transport_e2e_send_recv : test :=
  server ← value_of (TcpTransport_bind (OS := tcp_loopback 50001) (socket_text "127.0.0.1:0"));
  client ← value_of (TcpTransport_bind (OS := tcp_loopback 50002) (socket_text "127.0.0.1:0"));
  let payload := b "hello over tcp transport" in
  '(client, _) ← unwrap (tcp_send_to (OS := tcp_loopback 0) payload (listener server) client);
  let server := accept_round (Ok (connected [sent client 0], ephemeral)) server in
  '(_, (data, _)) ← receive server;
  assert_eq data payload.

Definition tcp_transport_e2e_bidirectional : test :=
  server ← value_of (TcpTransport_bind (OS := tcp_loopback 50001) (socket_text "127.0.0.1:0"));
  client ← value_of (TcpTransport_bind (OS := tcp_loopback 50002) (socket_text "127.0.0.1:0"));
  '(client, _) ← unwrap (tcp_send_to (OS := tcp_loopback 0) (b "c2s") (listener server) client);
  let server := accept_round (Ok (connected [sent client 0], ephemeral)) server in
  '(server, (data, source)) ← receive server;
  _ ← assert_eq data (b "c2s");
  '(server, _) ← unwrap (tcp_send_to (OS := tcp_loopback 0) (b "s2c") source server);
  '(_, (data, _)) ← receive (arrive 0 (sent server 0) client);
  assert_eq data (b "s2c").

Lemma tcp_tests_pass : forallb passed
  [tcp_frame_round_trip; tcp_frame_partial_read_assembles; partial_nonblocking_writes_preserve_frame_boundaries;
   full_pending_queue_rejects_whole_frame_without_mutation; tcp_transport_e2e_send_recv;
   tcp_transport_e2e_bidirectional] = true.
Proof. vm_compute. reflexivity. Qed.
End TcpTests.

(** ** gateway.rs and routing.rs *)

Module GatewayTests.
Import Gateway.

Definition config (mtu : u16) (tcp_mss : option u16) : Config := {|
  interface := {| if_name := "stb0"; address := net 10 77 4 2 30; listen := socket_text "0.0.0.0:27779"; if_transport := Udp;
                  Config.mtu := mtu; private_key := "QkJCQkJCQkJCQkJCQkJCQkJCQkJCQkJCQkJCQkJCQkI=" |};
  gateway := Some {| lan_interface := "eth0"; Config.tcp_mss := tcp_mss |};
  peer := [] |}.

Definition derives_ipv4_mss_from_tunnel_mtu : test :=
  plan ← value_of (from_config (config 1280 None));
  _ ← assert (mss plan =? 1240);
  assert (negb (mss_is_explicit plan)).

Definition accepts_conservative_explicit_mss : test :=
  plan ← value_of (from_config (config 1280 (Some 1160)));
  _ ← assert (mss plan =? 1160);
  assert (mss_is_explicit plan).

Definition contains (needle text : string) : bool := FfiTests.contains (chars_of needle) (chars_of text).

Definition creates_bidirectional_owned_mss_rules : test :=
  plan ← value_of (from_config (config 1280 (Some 1160)));
  let rendered := (fun rule => render rule "-A") <$> rules plan in
  _ ← assert (existsb (fun rule => contains "-t mangle -A FORWARD -i eth0 -o stb0" rule && contains "--set-mss 1160" rule) rendered);
  _ ← assert (existsb (fun rule => contains "-t mangle -A FORWARD -i stb0 -o eth0" rule && contains "--set-mss 1160" rule) rendered);
  assert (forallb (contains "hushwire-gateway:stb0") rendered).

Definition matches_only_the_exact_owned_comment : test :=
  let tag := "hushwire-gateway:stb0"%string in
  _ ← assert (iptables_line_has_owner
        (chars_of ("-A FORWARD -m comment --comment " +:+ FfiTests.quote tag +:+ " -j ACCEPT")%string) tag);
  assert (negb (iptables_line_has_owner
        (chars_of "-A FORWARD -m comment --comment hushwire-gateway:stb01 -j ACCEPT") tag)).

Definition parses_linux_fragment_failure_counter : test :=
  let sample := FfiTests.unlines ["Ip: Forwarding DefaultTTL InReceives FragOKs FragFails FragCreates"; "Ip: 1 64 10 2 4275 4"]%string in
  n ← value_of (parse_ip_frag_fails sample);
  assert_eq n (Some 4275).

Definition route_listing_distinguishes_target_device : test :=
  let listing := FfiTests.unlines ["10.77.60.2 dev hwmactw0 scope link"]%string in
  _ ← assert (Routing.Linux.route_listing_contains listing (Some "hwmactw0"%string));
  _ ← assert (negb (Routing.Linux.route_listing_contains listing (Some "stb0"%string)));
  _ ← assert (Routing.Linux.route_listing_contains listing None);
  assert (negb (Routing.Linux.route_listing_contains ""%string None)).

(** The plan that the command prints for tests/fixtures/gateway.toml. *)
Definition fixture : Config := {|
  interface := {| if_name := "stb0"; address := net 10 77 99 2 30; listen := socket_text "0.0.0.0:27779"; if_transport := Udp;
                  Config.mtu := 1280; private_key := "QkJCQkJCQkJCQkJCQkJCQkJCQkJCQkJCQkJCQkJCQkI=" |};
  gateway := Some {| lan_interface := "lan0"; Config.tcp_mss := Some 1160 |};
  peer := [] |}.
Definition gateway_plan_is_available_without_root_and_describes_symmetric_mss : test :=
  plan ← value_of (from_config fixture);
  let stdout := FfiTests.unlines (Gateway.print plan) in
  _ ← assert (contains "TCP MSS: 1160 (explicit)" stdout);
  _ ← assert (contains "-i lan0 -o stb0" stdout);
  _ ← assert (contains "-i stb0 -o lan0" stdout);
  assert (contains "No changes made by plan." stdout).

Lemma gateway_tests_pass : forallb passed
  [derives_ipv4_mss_from_tunnel_mtu; accepts_conservative_explicit_mss; creates_bidirectional_owned_mss_rules;
   matches_only_the_exact_owned_comment; parses_linux_fragment_failure_counter;
   route_listing_distinguishes_target_device;
   gateway_plan_is_available_without_root_and_describes_symmetric_mss] = true.
Proof. vm_compute. reflexivity. Qed.
End GatewayTests.
